(* ===== verification/_CoqProject ===== *)
-Q . S2P
Prelude.v
GoStrings.v
Model.v
Database.v
AgentStore.v
RunStore.v
StepStore.v
MemoryStore.v
CronSchedule.v
Materializer.v
WorkerPool.v
Coordinator.v
RunLifecycle.v
Json.v
Secretbox.v
Accounts.v
Telegram.v
Net.v
Llm.v
Tools.v
WebTools.v
Executor.v
Worker.v
RunExecution.v
Notifier.v
Overview.v
Migrate.v
Timestamps.v
Api.v
ApiServer.v
ApiChanges.v
Leases.v
Tick.v
Startup.v
JsonFuel.v
PoolInterleaving.v
ApiErrors.v
Shutdown.v
DispatchInterleaving.v
EndToEnd.v
Renewals.v
Clock.v
Processes.v
