(* ===== verification/Prelude.v ===== *)
(** * Taskd: a verification library

    Taskd runs AI agents on schedules.  The program is a set of Go services over one
    Postgres database: the scheduler ([src/pkg/scheduler/]) serves the REST API and
    the dashboard, the coordinator ([src/pkg/coordinator/]) turns schedules into runs
    and hands runs to workers over gRPC, and the workers ([src/pkg/worker/],
    [src/pkg/executor/]) execute them: a loop of model calls and tool calls that
    ends in an output, an error or an exceeded budget.  This library models the
    services' logic and proves what they promise.

    ** How the model is built

    A Go function that talks to the database is a function [Db A := World → result A
    * World] (Database.v).  A [World] is the database, a record of tables, and the
    server's replies to the statements still to come: the clock of the server, the
    identifier it generates and, possibly, a fault.  A statement either succeeds
    with its effect or changes nothing; [in_transaction] undoes a body that fails.
    Every theorem about such a function is about every sequence of replies, unless it
    says [calm]: enough replies, none of them a fault.  A function that talks HTTP is
    a function over an [Outside] (name look-ups and round trips) that logs what it
    sent (Net.v).  Goroutines and processes that interleave are step relations:
    RunLifecycle.v, DispatchInterleaving.v, PoolInterleaving.v, Worker.v and Leases.v;
    that a step of one process may come between any two statements of another without
    a difference is a commutation theorem (Renewals.v).  Integers are [Z], with the
    int4 and int32 ranges, the wrap of the round-robin index and saturating durations
    written out; a [Time] is a number of nanoseconds, and [timestamptz] cuts it to the
    server's microseconds.  Go strings are byte strings.

    ** The files

    - Prelude.v: errors and results, record update, instants and durations, updating
      rows of a table, sorting, arithmetic tactics.
    - GoStrings.v: [strings], [strconv] and [fmt] as far as they are used.
    - Json.v, JsonFuel.v: [encoding/json], the syntax, decoding into fields,
      printing; the reader's fuel is enough.
    - Timestamps.v: RFC 3339 timestamps in requests.
    - Model.v: [src/pkg/model/].
    - Database.v: the schema of [src/pkg/db/migrations], its constraints
      ([wf_database]) and the monad of statements.  Migrate.v: [src/pkg/db/migrate.go].
    - AgentStore.v, RunStore.v (runs and schedules), StepStore.v, MemoryStore.v,
      Overview.v, Accounts.v (secrets, settings, password, sessions):
      [src/pkg/store/].  Secretbox.v: [src/pkg/secretbox/].
    - CronSchedule.v: [src/pkg/schedule/].  Materializer.v: [src/pkg/materializer/].
    - WorkerPool.v, PoolInterleaving.v (the pool's lock taken by its handlers in any
      order), Coordinator.v (with [src/pkg/reaper/]), Tick.v, DispatchInterleaving.v
      (scans of several coordinators, statement by statement):
      [src/pkg/coordinator/].  Notifier.v: [src/pkg/notifier/].
    - Net.v (the address policy and the HTTP client), Telegram.v, Tools.v, WebTools.v:
      [src/pkg/tools/].  Llm.v: [src/pkg/llm/].  Executor.v: [src/pkg/executor/].
    - Worker.v, RunExecution.v, Leases.v: [src/pkg/worker/].  Renewals.v: the goroutine
      that renews a lease beside the executor.
    - RunLifecycle.v: the services and the owner as the steps of one system.
      EndToEnd.v: a run from the worker it was handed to, through the executor that
      [src/cmd/worker] builds and the coordinator's UpdateRunStatus, to the inbox.
    - Api.v, ApiServer.v, ApiChanges.v, ApiErrors.v (refused requests):
      [src/pkg/scheduler/] and [src/pkg/dashboard/].
    - Startup.v: [src/pkg/common/], [src/pkg/health/] and the [Start] methods.
      Shutdown.v: what coordinator, worker and scheduler open, the loops they start,
      and what their [Stop] methods close.  Processes.v: [src/cmd/], each [main] from
      its flags to its exit status.  Clock.v: [src/pkg/clock/].

    Definitions have the source's names; a method [Store.Method] is [Store_Method],
    and a definition in lower case with underscores is a statement or a part of the
    function named at its side in the manifest.

    ** What is shown

    - A run's life: every run of every reachable state is in order, moves only along
      its state machine, keeps its verdict and has the columns its status says
      (RunLifecycle.v); what dispatch, the
      reaper and reports write (Coordinator.v); however many scans overlap, no two hold
      a row, a run is handed out at most once more than a hand-over of it was lost, and
      the function that scans is one of these executions (DispatchInterleaving.v); a
      turn of the coordinator leaves nothing due waiting (Tick.v); leases outlive three
      lost renewals and no more (Leases.v), and a renewal changes nothing the executor
      answers or stores (Renewals.v); the verdict of an executed run is the executor's
      (RunExecution.v), and its owner finds it in the inbox (EndToEnd.v).
    - Time: which occurrence of a schedule a scan records, that a scan is atomic and
      idempotent, that a repeated wall clock does not fire twice.
    - Execution: the trace, tokens and budgets of the agent loop, that every tool call
      is answered, that the provider's key reaches no stored value, that tools stay on
      permitted addresses across redirects.
    - Workers: the pool and its round robin, that a dispatcher among concurrent
      heartbeats and sweeps offers runs to known workers only (PoolInterleaving.v),
      silent workers, the bounded queue, the
      conservation of runs and shutting down, in every interleaving.
    - The API: closed without a session, valid agents whatever is requested, patches,
      schedules saved as previewed, and a refused request changes nothing
      (ApiErrors.v).  Stores: bounds, round trips, deletion.  Start-up:
      migrations apply once, a scheduler that serves has a password (Startup.v);
      opening and closing, with the errors each passes on (Shutdown.v); how the three
      programs end (Processes.v).

    Several theorems have a companion that shows where the code stops short of what
    its comments say; the manifest's findings list them.

    ** Bounds and fuel

    The catch-up loop stops at [maxCatchUpIterations], as the code does.  The
    redirect loop gets one step more than the policies allow ([client_Do_terminates]
    of Net.v), the JSON reader twice the text's length (JsonFuel.v), [trim_runes] the
    length of its string.  The agent loop recurs on the turns the agent's [MaxSteps]
    leaves, which is the source's own loop condition.

    ** What is outside

    Code that is not in the repository is an interface, with its documented behaviour
    as laws where a proof needs it: [Cron] with [CronLaws] (robfig/cron), [Gcm] with
    [GcmLaws] (crypto/aes and cipher), [Bcrypt] with [BcryptLaws], [NetUrl] with
    [NetUrlLaws] (net/url), [PgUuid], [PgJsonb], [PgCollation] and [PgMessages]
    (Postgres: its input functions, order of text, error texts).  The order in which Go
    ranges over a map is an argument.  Each is instantiated in the closed examples.

    ** Not modelled

    - Postgres' check that stored text is valid UTF-8 without zero bytes, and
      serialization failures; a fault of a reply stands for them.
    - Timeouts and cancelled contexts, which are faults of the call they end; panics.
    - The wording of errors that the program only logs or passes on, where it comes
      from a library.
    - The input and output of ports, the command line and signals, and logging: whether
      a port opens or a connection closes and what a flag was set to are arguments
      (Shutdown.v, Processes.v).
    - The generated gRPC code and the transport: a call is a function of its request.
    - The JSON text of the API's responses (their values are modelled), the static
      file server, percent-encoded dots in paths.
    - Writes between the three queries of the home screen.
    - The browser code under [src/pkg/dashboard/web]. *)
From stdpp Require Export base tactics option list strings gmap sorting pretty relations.
From Stdlib Require Export ZArith Lia.

(** ** Errors

    Go's [error] values as the program uses them.  [ErrNoRows] is pgx's
    sentinel, [ErrNotFound] the store's, [PgError code] what the server
    answers with its SQLSTATE, [Errorf] an opaque message and [Wrapf] an error
    built with [%w], through which [errors.Is] looks. *)
Inductive error :=
| ErrNoRows
| ErrNotFound
| ErrNoMasterKey
| PgError (code : string)
| Errorf (msg : string)
| Wrapf (msg : string) (inner : error).

#[export] Instance error_eq_dec : EqDecision error.
Proof. solve_decision. Defined.

(** The innermost error of a [%w] chain: what [errors.Is] and [errors.As] end
    up comparing against, since none of the program's leaves implement [Is]. *)
Fixpoint unwrapped (e : error) : error :=
  match e with
  | Wrapf _ inner => unwrapped inner
  | _ => e
  end.

(** [errors.Is(err, target)] for the program's sentinel targets. *)
Definition errors_Is (e target : error) : bool :=
  bool_decide (unwrapped e = target).

(** ** Results: a Go function returning [(T, error)] *)
Inductive result (A : Type) :=
| Ok (a : A)
| Err (e : error).
Arguments Ok {A} _.
Arguments Err {A} _.

Definition rbind {A B} (m : result A) (k : A → result B) : result B :=
  match m with Ok a => k a | Err e => Err e end.

Definition is_ok {A} (m : result A) : bool :=
  match m with Ok _ => true | Err _ => false end.

Definition of_option {A} (e : error) (o : option A) : result A :=
  match o with Some a => Ok a | None => Err e end.

Declare Scope go_scope.
Delimit Scope go_scope with go.
Notation "x ←? m ; k" := (rbind m (λ x, k))
  (at level 20, m at level 100, k at level 200, right associativity) : go_scope.

(** ** Record update

    [r <| f := v |>] is the Go assignment [r.f = v] on a value: the record [r]
    with field [f] replaced.  A record type gives its eta expansion once, and
    the setter of a field is found from it by abstracting the projection. *)
Class Eta (R : Type) := eta : R → R.
Class Setter {R T : Type} (proj : R → T) := set_field : (T → T) → R → R.

Ltac solve_setter :=
  match goal with
  | |- @Setter ?R ?T ?proj =>
      let e := eval cbv beta delta [eta] in (@eta R _) in
      let body := eval unfold e in e in
      let body := eval pattern proj in body in
      lazymatch body with
      | ?g _ => let s := eval cbv beta in (λ (f : T → T) (r : R), g (λ y, f (proj y)) r) in
                exact s
      end
  end.

#[export] Hint Extern 1 (Setter _) => solve_setter : typeclass_instances.

Notation "r <| proj := v |>" := (set_field (proj := proj) (λ _, v) r)
  (at level 1, left associativity, proj at level 1, v at level 99) : go_scope.
Notation "r <| proj ::= f |>" := (set_field (proj := proj) f r)
  (at level 1, left associativity, proj at level 1, f at level 99) : go_scope.
Arguments set_field {R T} proj {_} f r / : assert.

(** ** Machine integers and time

    Unsigned fields of the program keep their width: [u8] and [u32] are the
    wrap-around conversions, [int32] the signed conversion Go writes
    [int32(x)], and [int64] the wrap-around of [int] arithmetic. *)
Local Open Scope Z_scope.

Definition u8 (z : Z) : Z := z mod 2 ^ 8.
Definition u32 (z : Z) : Z := z mod 2 ^ 32.
Definition int32 (z : Z) : Z := (z + 2 ^ 31) mod 2 ^ 32 - 2 ^ 31.
Definition int64 (z : Z) : Z := (z + 2 ^ 63) mod 2 ^ 64 - 2 ^ 63.

(** An instant is the number of nanoseconds since the Unix epoch, a
    [time.Duration] a 64-bit number of nanoseconds. *)
Abbreviation Time := Z.
Abbreviation Duration := Z.

Definition Nanosecond : Duration := 1.
Definition Microsecond : Duration := 1000.
Definition Second : Duration := 1000 * 1000 * Microsecond.
Definition Minute : Duration := 60 * Second.
Definition Hour : Duration := 60 * Minute.

Definition minDuration : Duration := - 2 ^ 63.
Definition maxDuration : Duration := 2 ^ 63 - 1.

(** [t.Add(d)], [t.After(u)], [t.Sub(u)] (which saturates), and [time.Time]'s
    zero value, midnight of January 1st of year 1, with its [IsZero]. *)
Definition time_Add (t : Time) (d : Duration) : Time := t + d.
Definition time_After (t u : Time) : bool := bool_decide (u < t).
Definition time_Sub (t u : Time) : Duration :=
  Z.max minDuration (Z.min maxDuration (t - u)).
Definition zero_time : Time := -62135596800 * Second.
Definition time_IsZero (t : Time) : bool := bool_decide (t = zero_time).

(** A [timestamptz] holds whole microseconds: the value a [time.Time] argument
    of a query has by the time the server compares or stores it. *)
Definition timestamptz (t : Time) : Time := t / Microsecond * Microsecond.

(** ** Tables

    A table is the list of its rows.  The relational operators the store's SQL
    uses, with [WHERE] conditions as decidable propositions; [ORDER BY] is a
    stable sort (the order of rows with equal keys is the table's own). *)
Definition update_where {R} (P : R → Prop) `{∀ r, Decision (P r)} (f : R → R)
  (t : list R) : list R := (λ r, if decide (P r) then f r else r) <$> t.

Definition delete_where {R} (P : R → Prop) `{∀ r, Decision (P r)}
  (t : list R) : list R := filter (λ r, ¬ P r) t.

Definition count_where {R} (P : R → Prop) `{∀ r, Decision (P r)}
  (t : list R) : nat := length (filter P t).

Definition first_where {R} (P : R → Prop) `{∀ r, Decision (P r)}
  (t : list R) : option R := head (filter P t).

Definition exists_where {R} (P : R → Prop) `{∀ r, Decision (P r)}
  (t : list R) : bool := bool_decide (Exists P t).

(** A nullable foreign key that points into a set of keys. *)
Definition points_into {K} (o : option K) (keys : list K) : Prop :=
  match o with Some k => k ∈ keys | None => False end.
#[export] Instance points_into_dec {K} `{EqDecision K} (o : option K) keys :
  Decision (points_into o keys).
Proof. destruct o; simpl; apply _. Defined.

(** Sort orders: [asc k] is [ORDER BY k], [desc k] is [ORDER BY k DESC] on an
    integer key, [desc_nulls_last] the same on a nullable one, [desc_str] on a
    string (or on the text of a [uuid]) by its bytes, [asc_str] the order of Go's
    [sort.Strings], and [then_by] breaks the ties of a first order by a second. *)
Definition asc {R} (k : R → Z) : relation R := λ a b, k a ≤ k b.
Definition desc {R} (k : R → Z) : relation R := λ a b, k b ≤ k a.
Definition desc_nulls_last {R} (k : R → option Z) : relation R := λ a b,
  match k a, k b with
  | _, None => True
  | None, Some _ => False
  | Some x, Some y => y ≤ x
  end.
Fixpoint str_le (s t : string) : Prop :=
  match s, t with
  | EmptyString, _ => True
  | String _ _, EmptyString => False
  | String a s', String b t' =>
      let m := Ascii.N_of_ascii a in
      let n := Ascii.N_of_ascii b in
      (m < n)%N ∨ (m = n ∧ str_le s' t')
  end.
Definition desc_str {R} (k : R → string) : relation R := λ a b, str_le (k b) (k a).
Definition asc_str : relation string := str_le.
Definition then_by {R} (O1 O2 : relation R) : relation R := λ a b,
  O1 a b ∧ (O1 b a → O2 a b).

#[export] Instance asc_dec {R} (k : R → Z) : RelDecision (asc k).
Proof. intros ??. unfold asc. apply _. Defined.
#[export] Instance desc_dec {R} (k : R → Z) : RelDecision (desc k).
Proof. intros ??. unfold desc. apply _. Defined.
#[export] Instance desc_nulls_last_dec {R} (k : R → option Z) :
  RelDecision (desc_nulls_last k).
Proof. intros a b. unfold desc_nulls_last. destruct (k a), (k b); apply _. Defined.
#[export] Instance str_le_dec s t : Decision (str_le s t).
Proof.
  revert t. induction s as [|a s IH]; intros [|b t]; simpl; apply _.
Defined.
#[export] Instance desc_str_dec {R} (k : R → string) : RelDecision (desc_str k).
Proof. intros ??. unfold desc_str. apply _. Defined.
#[export] Instance asc_str_dec : RelDecision asc_str := str_le_dec.
#[export] Instance then_by_dec {R} (O1 O2 : relation R)
  `{!RelDecision O1, !RelDecision O2} : RelDecision (then_by O1 O2).
Proof. intros ??. unfold then_by. apply _. Defined.

Definition order_by {R} (O : relation R) `{!RelDecision O} (t : list R) : list R :=
  merge_sort O t.

(** ** Automation

    [zlia] is [lia] with division and remainder, [tlia] the same after the time
    constants are unfolded.  [taskd] is the development's hint database. *)
Ltac zlia := Z.to_euclidean_division_equations; lia.
Ltac tlia :=
  unfold timestamptz, time_Sub, time_Add, zero_time, minDuration, maxDuration,
    Hour, Minute, Second, Microsecond, Nanosecond in *; zlia.

Create HintDb taskd.
Create Rewrite HintDb taskd.

(** ** Lemmas on results and errors *)
Lemma rbind_Ok {A B} (m : result A) (k : A → result B) b :
  rbind m k = Ok b ↔ ∃ a, m = Ok a ∧ k a = Ok b.
Proof.
  destruct m as [a|e]; simpl; split.
  - eauto.
  - by intros (? & [= ->] & ?).
  - done.
  - by intros (? & ? & ?).
Qed.

Lemma of_option_Ok {A} e (o : option A) a : of_option e o = Ok a ↔ o = Some a.
Proof. destruct o; simpl; split; congruence. Qed.

Lemma of_option_Err {A} e e' (o : option A) :
  of_option e o = Err e' ↔ o = None ∧ e' = e.
Proof.
  destruct o; simpl; split.
  - done.
  - by intros [[=] _].
  - by intros [= ->].
  - by intros [_ ->].
Qed.

(** ** Lemmas on time *)
Lemma timestamptz_le t : timestamptz t ≤ t.
Proof. tlia. Qed.

Lemma timestamptz_gt t : t - Microsecond < timestamptz t.
Proof. tlia. Qed.

Lemma timestamptz_mono t u : t ≤ u → timestamptz t ≤ timestamptz u.
Proof. tlia. Qed.

Lemma timestamptz_idemp t : timestamptz (timestamptz t) = timestamptz t.
Proof. tlia. Qed.

Lemma timestamptz_add t k :
  timestamptz (t + k * Microsecond) = timestamptz t + k * Microsecond.
Proof. tlia. Qed.

Lemma time_Sub_gt t u d :
  minDuration ≤ d < maxDuration → d < time_Sub t u ↔ u + d < t.
Proof. tlia. Qed.

(** ** Lemmas on tables *)
Section tables.
Context {R : Type} (P : R → Prop) `{∀ r, Decision (P r)}.

Lemma Forall_Exists_neg t : Forall (λ r, ¬ P r) t ↔ ¬ Exists P t.
Proof.
  rewrite Forall_forall, Exists_exists. split; [|by eauto].
  by intros Hall (r & Hr & HP); apply (Hall r Hr).
Qed.

Lemma filter_nil_iff t : filter P t = [] ↔ Forall (λ r, ¬ P r) t.
Proof.
  rewrite Forall_forall. split.
  - intros Hnil r Hr HP. by apply (filter_nil_not_elem_of P t r).
  - intros Hall. destruct (filter P t) as [|r t'] eqn:E; [done|].
    assert (r ∈ filter P t) as [HP Hr]%list_elem_of_filter by (rewrite E; left).
    by destruct (Hall r Hr).
Qed.

Lemma update_where_cons f r t :
  update_where P f (r :: t) = (if decide (P r) then f r else r) :: update_where P f t.
Proof. done. Qed.

Lemma length_update_where f t : length (update_where P f t) = length t.
Proof. apply length_fmap. Qed.

Lemma elem_of_update_where f t r' :
  r' ∈ update_where P f t ↔
  ∃ r, r ∈ t ∧ ((P r ∧ r' = f r) ∨ (¬ P r ∧ r' = r)).
Proof.
  unfold update_where. rewrite list_elem_of_fmap. split.
  - intros (r & -> & Hr). exists r. case_decide; eauto.
  - intros (r & Hr & [[HP ->]|[HP ->]]); exists r; by case_decide.
Qed.

Lemma update_where_none f t : Forall (λ r, ¬ P r) t → update_where P f t = t.
Proof.
  induction 1 as [|r t HP _ IH]; [done|].
  rewrite update_where_cons, IH. by case_decide.
Qed.

(** An update that keeps a column keeps the table's projection on it. *)
Lemma update_where_key {K} (k : R → K) f t :
  (∀ r, P r → k (f r) = k r) → k <$> update_where P f t = k <$> t.
Proof.
  intros Hk. unfold update_where. rewrite <- list_fmap_compose.
  apply list_fmap_ext. intros _ r _. simpl. case_decide; auto.
Qed.

Lemma Forall_update_where (Q : R → Prop) f t :
  Forall Q t → (∀ r, P r → Q r → Q (f r)) → Forall Q (update_where P f t).
Proof.
  intros HQ Hf. apply Forall_fmap. eapply Forall_impl; [exact HQ|].
  intros r Hr. simpl. case_decide; auto.
Qed.

Lemma elem_of_delete_where t r : r ∈ delete_where P t ↔ r ∈ t ∧ ¬ P r.
Proof. unfold delete_where. rewrite list_elem_of_filter. tauto. Qed.

Lemma delete_where_none t : Forall (λ r, ¬ P r) t → delete_where P t = t.
Proof.
  unfold delete_where. induction 1 as [|r t HP _ IH]; [done|].
  by rewrite filter_cons_True, IH.
Qed.

Lemma delete_where_sublist t : delete_where P t `sublist_of` t.
Proof. apply sublist_filter. Qed.

Lemma first_where_Some t r : first_where P t = Some r → r ∈ t ∧ P r.
Proof.
  unfold first_where. intros Hh.
  apply head_Some_elem_of in Hh. by apply list_elem_of_filter in Hh as [? ?].
Qed.

Lemma first_where_None t : first_where P t = None ↔ Forall (λ r, ¬ P r) t.
Proof.
  unfold first_where. rewrite head_None. apply filter_nil_iff.
Qed.

Lemma first_where_is_Some t : is_Some (first_where P t) ↔ Exists P t.
Proof.
  split.
  - intros [r [Hr HP]%first_where_Some]. apply Exists_exists. eauto.
  - intros Hex. apply not_eq_None_Some. rewrite first_where_None.
    by intros Hall%Forall_Exists_neg.
Qed.

Lemma exists_where_true t : exists_where P t = true ↔ Exists P t.
Proof. apply bool_decide_eq_true. Qed.

Lemma count_where_0 t : count_where P t = 0%nat ↔ Forall (λ r, ¬ P r) t.
Proof. unfold count_where. by rewrite length_zero_iff_nil, filter_nil_iff. Qed.
End tables.

Lemma exists_where_false {R} (P : R → Prop) `{∀ r, Decision (P r)} t :
  exists_where P t = false ↔ Forall (λ r, ¬ P r) t.
Proof.
  unfold exists_where. rewrite bool_decide_eq_false. symmetry.
  apply Forall_Exists_neg.
Qed.

Lemma filter_ext_in {R} (P Q : R → Prop) `{∀ r, Decision (P r), ∀ r, Decision (Q r)}
    (t : list R) :
  (∀ r, r ∈ t → P r ↔ Q r) → filter P t = filter Q t.
Proof.
  induction t as [|r t IH]; intros HPQ; [done|]. rewrite !filter_cons.
  rewrite IH by (intros; apply HPQ; by right).
  assert (P r ↔ Q r) by (apply HPQ; left).
  repeat case_decide; tauto || done.
Qed.

Lemma filter_fmap {R S} (f : R → S) (P : S → Prop) `{∀ y, Decision (P y)} (t : list R) :
  filter P (f <$> t) = f <$> filter (λ r, P (f r)) t.
Proof.
  induction t as [|r t IH]; [done|]. rewrite fmap_cons, !filter_cons, IH.
  by destruct (decide (P (f r))).
Qed.

(** Rows are appended by an insert and a unique column stays unique. *)
Lemma NoDup_key_snoc {R K} (k : R → K) t r :
  NoDup (k <$> t) → Forall (λ r', k r' ≠ k r) t → NoDup (k <$> t ++ [r]).
Proof.
  intros Hnd Hne. rewrite fmap_app. apply NoDup_app. split_and!; [done| |].
  - intros x (r' & -> & Hr')%list_elem_of_fmap. simpl.
    rewrite list_elem_of_singleton. rewrite Forall_forall in Hne. by apply Hne.
  - apply NoDup_singleton.
Qed.

Lemma NoDup_key_delete {R K} (k : R → K) (P : R → Prop) `{∀ r, Decision (P r)} t :
  NoDup (k <$> t) → NoDup (k <$> delete_where P t).
Proof.
  intros Hnd. eapply sublist_NoDup; [exact Hnd|].
  apply fmap_sublist, delete_where_sublist.
Qed.

(** With a unique key, a row is determined by its key. *)
Lemma NoDup_key_inj {R K} (k : R → K) t r1 r2 :
  NoDup (k <$> t) → r1 ∈ t → r2 ∈ t → k r1 = k r2 → r1 = r2.
Proof.
  intros Hnd [i Hi]%list_elem_of_lookup [j Hj]%list_elem_of_lookup Hk.
  assert (i = j) as ->; [|by simplify_eq].
  eapply NoDup_lookup; [exact Hnd|by rewrite list_lookup_fmap, Hi|].
  by rewrite list_lookup_fmap, Hj; simpl; rewrite Hk.
Qed.

Lemma first_where_key {R K} `{EqDecision K} (k : R → K) t r :
  NoDup (k <$> t) → r ∈ t → first_where (λ r', k r' = k r) t = Some r.
Proof.
  intros Hnd Hr. destruct (first_where _ t) as [r'|] eqn:E.
  - apply first_where_Some in E as [Hr' Hk].
    f_equal. by eapply NoDup_key_inj.
  - rewrite first_where_None, Forall_forall in E. by destruct (E r Hr).
Qed.

(** ** Lemmas on sort orders *)
#[export] Instance asc_total {R} (k : R → Z) : Total (asc k).
Proof. intros a b. unfold asc. lia. Qed.
#[export] Instance asc_trans {R} (k : R → Z) : Transitive (asc k).
Proof. intros a b c. unfold asc. lia. Qed.
#[export] Instance desc_total {R} (k : R → Z) : Total (desc k).
Proof. intros a b. unfold desc. lia. Qed.
#[export] Instance desc_trans {R} (k : R → Z) : Transitive (desc k).
Proof. intros a b c. unfold desc. lia. Qed.
#[export] Instance desc_nulls_last_total {R} (k : R → option Z) :
  Total (desc_nulls_last k).
Proof.
  intros a b. unfold desc_nulls_last. destruct (k a), (k b); auto. lia.
Qed.
#[export] Instance desc_nulls_last_trans {R} (k : R → option Z) :
  Transitive (desc_nulls_last k).
Proof.
  intros a b c. unfold desc_nulls_last. destruct (k a), (k b), (k c); auto; try done. lia.
Qed.
Lemma str_le_total s t : str_le s t ∨ str_le t s.
Proof.
  revert t. induction s as [|a s IH]; intros [|b t]; simpl; auto.
  destruct (N.lt_trichotomy (Ascii.N_of_ascii a) (Ascii.N_of_ascii b)) as [?|[?|?]]; auto.
  destruct (IH t); auto.
Qed.
Lemma str_le_trans s t u : str_le s t → str_le t u → str_le s u.
Proof.
  revert t u. induction s as [|a s IH]; intros [|b t] [|c u]; simpl; try done.
  intros [?|[? ?]] [?|[? ?]]; [left; lia|left; lia|left; lia|right].
  split; [lia|by eapply IH].
Qed.
#[export] Instance desc_str_total {R} (k : R → string) : Total (desc_str k).
Proof. intros a b. apply str_le_total. Qed.
#[export] Instance desc_str_trans {R} (k : R → string) : Transitive (desc_str k).
Proof. intros a b c Hab Hbc. by eapply str_le_trans. Qed.
#[export] Instance then_by_total {R} (O1 O2 : relation R)
  `{!RelDecision O1, !Total O1, !Total O2} : Total (then_by O1 O2).
Proof.
  intros a b. unfold then_by.
  destruct (decide (O1 a b)), (decide (O1 b a)); [|by left|by right|].
  - destruct (total O2 a b); [left|right]; auto.
  - destruct (total O1 a b); contradiction.
Qed.
#[export] Instance then_by_trans {R} (O1 O2 : relation R)
  `{!Transitive O1, !Transitive O2} : Transitive (then_by O1 O2).
Proof.
  intros a b c [Hab Hab2] [Hbc Hbc2]. split; [by trans b|].
  intros Hca. trans b; [apply Hab2; by trans c|apply Hbc2; by trans a].
Qed.

Section order_by.
Context {R : Type} (O : relation R) `{!RelDecision O}.

Lemma order_by_Permutation t : order_by O t ≡ₚ t.
Proof. apply merge_sort_Permutation. Qed.

Lemma elem_of_order_by t r : r ∈ order_by O t ↔ r ∈ t.
Proof. by rewrite order_by_Permutation. Qed.

Lemma length_order_by t : length (order_by O t) = length t.
Proof. by rewrite order_by_Permutation. Qed.

Lemma order_by_sorted `{!Total O, !Transitive O} t : StronglySorted O (order_by O t).
Proof. apply (StronglySorted_merge_sort O). Qed.

(** The first [n] rows of a sorted result come before the others. *)
Lemma order_by_take_drop `{!Total O, !Transitive O} n t a b :
  a ∈ take n (order_by O t) → b ∈ drop n (order_by O t) → O a b.
Proof.
  intros Ha Hb. pose proof (order_by_sorted t) as Hs.
  rewrite <- (take_drop n (order_by O t)) in Hs.
  by eapply StronglySorted_app_1_elem_of.
Qed.
End order_by.

(** Sorting by a key that survives a map commutes with the map. *)
Section order_by_fmap.
Context {R S : Type} (O : relation R) `{!RelDecision O} (O' : relation S) `{!RelDecision O'}.
Context (f : R → S) (Hf : ∀ x y, O x y ↔ O' (f x) (f y)).

Lemma list_merge_fmap l1 l2 :
  f <$> list_merge O l1 l2 = list_merge O' (f <$> l1) (f <$> l2).
Proof.
  revert l2. induction l1 as [|x l1 IH1]; intros l2; [by destruct l2|].
  induction l2 as [|y l2 IH2]; [done|]. rewrite !fmap_cons, !list_merge_cons.
  rewrite (decide_ext _ (O' (f x) (f y)) _ _ (Hf x y)).
  case_decide; rewrite fmap_cons; f_equal; [apply IH1|apply IH2].
Qed.

Abbreviation map_stack st := (fmap (M := option) (fmap (M := list) f) <$> st).

Lemma merge_list_to_stack_fmap st l :
  map_stack (merge_list_to_stack O st l) = merge_list_to_stack O' (map_stack st) (f <$> l).
Proof.
  revert l. induction st as [|[l'|] st IH]; intros l; simpl; [done| |done].
  f_equal. by rewrite IH, list_merge_fmap.
Qed.

Lemma merge_stack_fmap st : f <$> merge_stack O st = merge_stack O' (map_stack st).
Proof.
  induction st as [|[l|] st IH]; simpl; [done| |done]. by rewrite list_merge_fmap, IH.
Qed.

Lemma order_by_fmap t : f <$> order_by O t = order_by O' (f <$> t).
Proof.
  unfold order_by, merge_sort.
  assert (H : ∀ st, f <$> merge_sort_aux O st t = merge_sort_aux O' (map_stack st) (f <$> t));
    [|apply (H [])].
  induction t as [|x t IH]; intros st; simpl; [apply merge_stack_fmap|].
  by rewrite IH, merge_list_to_stack_fmap.
Qed.
End order_by_fmap.

(** A relation between two lists, weakened where it is used. *)
Lemma Forall2_impl_in {A B} (P Q : A → B → Prop) l l' :
  Forall2 P l l' → (∀ x y, x ∈ l → P x y → Q x y) → Forall2 Q l l'.
Proof.
  induction 1 as [|x y l l' Hxy _ IH]; intros Himp; constructor.
  - apply Himp; [left|done].
  - apply IH. intros. apply Himp; [by right|done].
Qed.

#[export] Hint Rewrite @length_update_where @length_order_by : taskd.
#[export] Hint Resolve NoDup_key_snoc NoDup_key_delete timestamptz_le : taskd.

