(* ===== verification/GoStrings.v ===== *)
(** * Go strings

    The functions of Go's [strings], [strconv] and [fmt] packages that the
    program uses, on byte strings.  A Go string is a sequence of bytes, [len]
    counts bytes and a slice expression cuts between bytes. *)
From S2P Require Import Prelude.
From Stdlib Require Import Ascii.
Local Open Scope nat_scope.

(** Byte constants. *)
Definition byte_of (n : nat) : ascii := ascii_of_nat n.
Definition newline : ascii := byte_of 10.
Definition quote_byte : ascii := byte_of 34.
Definition backslash : ascii := byte_of 92.
Definition str1 (c : ascii) : string := String c EmptyString.
Definition nl : string := str1 newline.

(** [len(s)], [s\[:n\]] and [s\[n:\]] for [n] at most [len(s)]. *)
Definition len (s : string) : nat := String.length s.

Fixpoint str_take (n : nat) (s : string) : string :=
  match n, s with
  | S n', String c s' => String c (str_take n' s')
  | _, _ => EmptyString
  end.

Fixpoint str_drop (n : nat) (s : string) : string :=
  match n, s with
  | S n', String _ s' => str_drop n' s'
  | _, _ => s
  end.

(** [strings.HasPrefix], [strings.HasSuffix], [strings.TrimPrefix] and
    [strings.TrimSuffix]. *)
Fixpoint HasPrefix (s prefix : string) {struct prefix} : bool :=
  match prefix, s with
  | EmptyString, _ => true
  | String p ps, String c cs => bool_decide (p = c) && HasPrefix cs ps
  | String _ _, EmptyString => false
  end.

Definition HasSuffix (s suffix : string) : bool :=
  bool_decide (len suffix ≤ len s) &&
  bool_decide (str_drop (len s - len suffix) s = suffix).

Definition TrimPrefix (s prefix : string) : string :=
  if HasPrefix s prefix then str_drop (len prefix) s else s.

Definition TrimSuffix (s suffix : string) : string :=
  if HasSuffix s suffix then str_take (len s - len suffix) s else s.

(** [strings.Split(s, sep)] for a one-byte separator, and [strings.Join]. *)
Fixpoint Split (s : string) (sep : ascii) : list string :=
  match s with
  | EmptyString => [EmptyString]
  | String c s' =>
      if decide (c = sep) then EmptyString :: Split s' sep
      else match Split s' sep with
           | x :: xs => String c x :: xs
           | [] => [str1 c]
           end
  end.

Fixpoint Join (elems : list string) (sep : string) : string :=
  match elems with
  | [] => EmptyString
  | [x] => x
  | x :: xs => x +:+ sep +:+ Join xs sep
  end.

(** [strings.ToUpper] and [strings.ToLower] on ASCII letters; the program
    applies them to role names and URL schemes. *)
Definition upper_byte (c : ascii) : ascii :=
  let n := nat_of_ascii c in
  if bool_decide (97 ≤ n ∧ n ≤ 122) then byte_of (n - 32) else c.
Definition lower_byte (c : ascii) : ascii :=
  let n := nat_of_ascii c in
  if bool_decide (65 ≤ n ∧ n ≤ 90) then byte_of (n + 32) else c.

Fixpoint map_bytes (f : ascii → ascii) (s : string) : string :=
  match s with
  | EmptyString => EmptyString
  | String c s' => String (f c) (map_bytes f s')
  end.
Definition ToUpper : string → string := map_bytes upper_byte.
Definition ToLower : string → string := map_bytes lower_byte.

(** Reversal, for the functions that work from the end of a string. *)
Fixpoint rev_append (s acc : string) : string :=
  match s with
  | EmptyString => acc
  | String c s' => rev_append s' (String c acc)
  end.
Definition str_rev (s : string) : string := rev_append s EmptyString.

(** The UTF-8 encodings of the code points [unicode.IsSpace] accepts: the six
    ASCII ones, U+0085 and U+00A0, and the separators of category Z. *)
Definition space_runes : list (list nat) :=
  [[9]; [10]; [11]; [12]; [13]; [32]; [194; 133]; [194; 160];
   [225; 154; 128]; [226; 128; 128]; [226; 128; 129]; [226; 128; 130];
   [226; 128; 131]; [226; 128; 132]; [226; 128; 133]; [226; 128; 134];
   [226; 128; 135]; [226; 128; 136]; [226; 128; 137]; [226; 128; 138];
   [226; 128; 168]; [226; 128; 169]; [226; 128; 175]; [226; 129; 159];
   [227; 128; 128]].

Definition bytes_string (l : list nat) : string :=
  foldr (λ n s, String (byte_of n) s) EmptyString l.

(** The rune of [runes] that [s] starts with, if there is one. *)
Fixpoint leading_rune (runes : list string) (s : string) : option string :=
  match runes with
  | [] => None
  | r :: rs => if HasPrefix s r then Some r else leading_rune rs s
  end.

(** Dropping leading runes of a set; each turn drops a byte at least, so the
    length of the string is enough fuel. *)
Fixpoint trim_runes (fuel : nat) (runes : list string) (s : string) : string :=
  match fuel with
  | 0 => s
  | S fuel' =>
      match leading_rune runes s with
      | Some r => trim_runes fuel' runes (str_drop (len r) s)
      | None => s
      end
  end.

Definition spaces : list string := bytes_string <$> space_runes.

Definition TrimLeftSpace (s : string) : string := trim_runes (len s) spaces s.
Definition TrimRightSpace (s : string) : string :=
  str_rev (trim_runes (len s) (str_rev <$> spaces) (str_rev s)).
Definition TrimSpace (s : string) : string := TrimRightSpace (TrimLeftSpace s).

(** [strings.TrimRight(s, cutset)] for a one-byte cutset. *)
Definition TrimRight (s : string) (c : ascii) : string :=
  str_rev (trim_runes (len s) [str1 c] (str_rev s)).

(** [strconv.Itoa]/[%d], and [%q] on strings of printable ASCII characters
    (the agent, tool and key names it is applied to are otherwise escaped by
    [strconv.Quote]'s Unicode tables, which are not modelled). *)
Definition itoa (z : Z) : string := pretty z.

Fixpoint escape (s : string) : string :=
  match s with
  | EmptyString => EmptyString
  | String c s' =>
      if decide (c = quote_byte ∨ c = backslash)
      then String backslash (String c (escape s'))
      else String c (escape s')
  end.
Definition quoted (s : string) : string :=
  str1 quote_byte +:+ escape s +:+ str1 quote_byte.

(** ** Lemmas *)
Lemma append_cons c (s t : string) : String c s +:+ t = String c (s +:+ t).
Proof. done. Qed.

Lemma len_app s t : len (s +:+ t) = len s + len t.
Proof. induction s as [|c s IH]; [done|]. rewrite append_cons. simpl. by rewrite IH. Qed.

Lemma str_app_assoc (s t u : string) : (s +:+ t) +:+ u = s +:+ t +:+ u.
Proof. induction s as [|c s IH]; [done|]. by rewrite !append_cons, IH. Qed.

Lemma str_app_nil_r (s : string) : s +:+ EmptyString = s.
Proof. induction s as [|c s IH]; [done|]. by rewrite !append_cons, IH. Qed.

Lemma str_take_drop n s : str_take n s +:+ str_drop n s = s.
Proof.
  revert s. induction n as [|n IH]; intros [|c s]; [done..|].
  simpl. by rewrite append_cons, IH.
Qed.

Lemma len_str_take n s : len (str_take n s) = n `min` len s.
Proof. revert s. induction n; intros [|c s]; simpl; auto. Qed.

Lemma len_str_drop n s : len (str_drop n s) = len s - n.
Proof. revert s. induction n; intros [|c s]; simpl; auto. Qed.

Lemma str_take_app s t : str_take (len s) (s +:+ t) = s.
Proof. induction s as [|c s IH]; [by destruct t|]. rewrite append_cons. simpl. by rewrite IH. Qed.

Lemma str_drop_app s t : str_drop (len s) (s +:+ t) = t.
Proof. induction s as [|c s IH]; [by destruct t|done]. Qed.

Lemma len_0 s : len s = 0 ↔ s = EmptyString.
Proof. destruct s; simpl; split; congruence. Qed.

Lemma HasPrefix_spec s p : HasPrefix s p = true ↔ ∃ t, s = p +:+ t.
Proof.
  revert s. induction p as [|a p IH]; intros s; simpl.
  - split; [|done]. intros _. by exists s.
  - destruct s as [|c s].
    + split; [done|]. intros [t Ht]. by rewrite append_cons in Ht.
    + rewrite andb_true_iff, bool_decide_eq_true, IH. split.
      * intros [-> [t ->]]. exists t. by rewrite append_cons.
      * intros [t Ht]. rewrite append_cons in Ht. injection Ht as -> ->. eauto.
Qed.

Lemma Split_not_nil s sep : Split s sep ≠ [].
Proof.
  destruct s as [|c s]; simpl; [done|]. case_decide; [done|].
  by destruct (Split s sep).
Qed.

Lemma Join_cons x xs sep : xs ≠ [] → Join (x :: xs) sep = x +:+ sep +:+ Join xs sep.
Proof. by destruct xs. Qed.

(** Joining the parts of a split string gives the string back. *)
Lemma Join_Split s sep : Join (Split s sep) (str1 sep) = s.
Proof.
  induction s as [|c s IH]; [done|]. simpl. case_decide as Hc.
  - rewrite Join_cons by apply Split_not_nil. simpl. by rewrite IH, Hc.
  - destruct (Split s sep) as [|x xs] eqn:E; [by apply Split_not_nil in E|].
    transitivity (String c (Join (x :: xs) (str1 sep))); [by destruct xs|].
    by rewrite IH.
Qed.

#[export] Hint Rewrite len_app len_str_take len_str_drop : taskd.
