(* ===== verification/Model.v ===== *)
(** * Domain types ([src/pkg/model])

    The structs the services share, [ApplyDefaults] and [Validate], and what a
    stored agent is guaranteed to satisfy. *)
From S2P Require Import Prelude GoStrings.
Local Open Scope go_scope.
Local Open Scope Z_scope.

(** ** Tools, context modes, budgets *)
Definition ToolWebSearch : string := "web_search".
Definition ToolHTTPFetch : string := "http_fetch".
Definition ToolMemoryRead : string := "memory_read".
Definition ToolMemoryWrite : string := "memory_write".
Definition ToolSendTelegram : string := "send_telegram".
Definition ToolSendWebhook : string := "send_webhook".

Definition ToolCatalog : list string :=
  [ToolWebSearch; ToolHTTPFetch; ToolMemoryRead; ToolMemoryWrite;
   ToolSendTelegram; ToolSendWebhook].

Definition ContextFresh : string := "fresh".
Definition ContextLastN : string := "last_n".

Definition DefaultMaxSteps : Z := 20.
Definition DefaultMaxTokens : Z := 100000.
Definition DefaultMaxDurationSeconds : Z := 600.

Definition CeilingMaxSteps : Z := 100.
Definition CeilingMaxTokens : Z := 2000000.
Definition CeilingMaxDurationSeconds : Z := 3600.

Definition DefaultSecretName : string := "default".
Definition OwnerUserID : string := "00000000-0000-0000-0000-000000000001".

(** A nil slice of tools is [None]: [ApplyDefaults] and JSON tell it from an
    empty one. *)
Module Agent.
Record t := mk {
  ID : string;
  Name : string;
  Description : string;
  Model : string;
  BaseURL : string;
  SystemPrompt : string;
  UserPrompt : string;
  Tools : option (list string);
  MaxSteps : Z;
  MaxTokens : Z;
  MaxDurationSeconds : Z;
  SecretName : string;
  ContextMode : string;
  ContextRuns : Z;
  Enabled : bool;
  CreatedAt : Time;
  UpdatedAt : Time
}.

#[global] Instance eta_t : Eta t := λ a,
  mk (ID a) (Name a) (Description a) (Model a) (BaseURL a) (SystemPrompt a)
     (UserPrompt a) (Tools a) (MaxSteps a) (MaxTokens a) (MaxDurationSeconds a)
     (SecretName a) (ContextMode a) (ContextRuns a) (Enabled a) (CreatedAt a)
     (UpdatedAt a).

#[global] Instance eq_dec : EqDecision t.
Proof. solve_decision. Defined.

(** Ranging over a nil slice visits nothing. *)
Definition granted (a : t) : list string := default [] (Tools a).

Fixpoint HasTool_loop (tools : list string) (name : string) : bool :=
  match tools with
  | [] => false
  | tool :: rest => if decide (tool = name) then true else HasTool_loop rest name
  end.
Definition HasTool (a : t) (name : string) : bool := HasTool_loop (granted a) name.

(** [if v == zero { v = d }] *)
Definition or_default {T} `{EqDecision T} (zero d v : T) : T :=
  if decide (v = zero) then d else v.

Definition ApplyDefaults (a : t) : t :=
  a <| Tools ::= or_default None (Some []) |>
    <| MaxSteps ::= or_default 0 DefaultMaxSteps |>
    <| MaxTokens ::= or_default 0 DefaultMaxTokens |>
    <| MaxDurationSeconds ::= or_default 0 DefaultMaxDurationSeconds |>
    <| ContextMode ::= or_default EmptyString ContextFresh |>
    <| SecretName ::= or_default EmptyString DefaultSecretName |>.

Fixpoint knownTool_loop (catalog : list string) (name : string) : bool :=
  match catalog with
  | [] => false
  | tool :: rest => if decide (tool = name) then true else knownTool_loop rest name
  end.
Definition knownTool (name : string) : bool := knownTool_loop ToolCatalog name.

Fixpoint check_tools (tools : list string) : option error :=
  match tools with
  | [] => None
  | tool :: rest =>
      if knownTool tool then check_tools rest
      else Some (Errorf ("unknown tool: " +:+ tool))
  end.

Definition check_context (a : t) : option error :=
  if decide (ContextMode a = ContextFresh) then None
  else if decide (ContextMode a = ContextLastN) then
    if decide (ContextRuns a < 1)
    then Some (Errorf ("context_runs must be at least 1 when context_mode is "
                       +:+ ContextLastN))
    else None
  else Some (Errorf ("context_mode must be " +:+ quoted ContextFresh +:+ " or "
                     +:+ quoted ContextLastN)).

Definition check_range (field : string) (v ceiling : Z) : option error :=
  if decide (v < 1 ∨ v > ceiling)
  then Some (Errorf (field +:+ " must be between 1 and " +:+ itoa ceiling))
  else None.

(** The first check that fails is the error returned. *)
Fixpoint first_error (checks : list (option error)) : option error :=
  match checks with
  | [] => None
  | Some e :: _ => Some e
  | None :: rest => first_error rest
  end.

Definition Validate (a : t) : option error :=
  first_error
    [ (if decide (Name a = EmptyString) then Some (Errorf "name is required") else None);
      (if decide (Model a = EmptyString) then Some (Errorf "model is required") else None);
      check_tools (granted a);
      check_context a;
      check_range "max_steps" (MaxSteps a) CeilingMaxSteps;
      check_range "max_tokens" (MaxTokens a) CeilingMaxTokens;
      check_range "max_duration_seconds" (MaxDurationSeconds a) CeilingMaxDurationSeconds ].
End Agent.

(** ** Model endpoints *)
Module ModelEndpoint.
Record t := mk { Name : string; Model : string; BaseURL : string; SecretName : string }.
End ModelEndpoint.

Module CustomProvider.
Record t := mk {
  Name : string;
  BaseURL : string;
  SecretName : string;
  Models : list string
}.
End CustomProvider.

(** ** Schedules and runs ([run.go]) *)
Definition RunPending : string := "pending".
Definition RunRunning : string := "running".
Definition RunSucceeded : string := "succeeded".
Definition RunFailed : string := "failed".
Definition RunMissed : string := "missed".
Definition RunCancelled : string := "cancelled".
Definition RunBudgetExceeded : string := "budget_exceeded".

Definition TriggerSchedule : string := "schedule".
Definition TriggerManual : string := "manual".

Module Schedule.
Record t := mk {
  ID : string;
  AgentID : string;
  CronExpression : string;
  Timezone : string;
  Enabled : bool;
  NextFireAt : option Time;
  LastFiredAt : option Time;
  CreatedAt : Time;
  UpdatedAt : Time
}.
#[global] Instance eta_t : Eta t := λ s,
  mk (ID s) (AgentID s) (CronExpression s) (Timezone s) (Enabled s) (NextFireAt s)
     (LastFiredAt s) (CreatedAt s) (UpdatedAt s).
End Schedule.

Module Run.
Record t := mk {
  ID : string;
  AgentID : string;
  ScheduleID : option string;
  Trigger : string;
  Status : string;
  ScheduledFor : Time;
  PickedAt : option Time;
  StartedAt : option Time;
  FinishedAt : option Time;
  Output : string;
  Error : string;
  PromptTokens : Z;
  CompletionTokens : Z;
  RenderedPrompt : string;
  CreatedAt : Time
}.
#[global] Instance eta_t : Eta t := λ r,
  mk (ID r) (AgentID r) (ScheduleID r) (Trigger r) (Status r) (ScheduledFor r)
     (PickedAt r) (StartedAt r) (FinishedAt r) (Output r) (Error r) (PromptTokens r)
     (CompletionTokens r) (RenderedPrompt r) (CreatedAt r).
End Run.

(** ** Agents that may be stored

    The specification [Validate] decides: what the API promises about every
    agent row. *)
Record valid_agent (a : Agent.t) : Prop := {
  va_name : Agent.Name a ≠ EmptyString;
  va_model : Agent.Model a ≠ EmptyString;
  va_tools : Forall (λ t, t ∈ ToolCatalog) (Agent.granted a);
  va_context : Agent.ContextMode a = ContextFresh ∨
               Agent.ContextMode a = ContextLastN ∧ 1 ≤ Agent.ContextRuns a;
  va_steps : 1 ≤ Agent.MaxSteps a ≤ CeilingMaxSteps;
  va_tokens : 1 ≤ Agent.MaxTokens a ≤ CeilingMaxTokens;
  va_duration : 1 ≤ Agent.MaxDurationSeconds a ≤ CeilingMaxDurationSeconds
}.

(** ** Lemmas *)
Lemma knownTool_loop_spec catalog name :
  Agent.knownTool_loop catalog name = true ↔ name ∈ catalog.
Proof.
  induction catalog as [|tool rest IH]; simpl.
  - by rewrite elem_of_nil.
  - rewrite elem_of_cons. case_decide; [by intuition|]. rewrite IH. intuition congruence.
Qed.

Lemma HasTool_loop_spec tools name :
  Agent.HasTool_loop tools name = true ↔ name ∈ tools.
Proof.
  induction tools as [|tool rest IH]; simpl.
  - by rewrite elem_of_nil.
  - rewrite elem_of_cons. case_decide; [by intuition|]. rewrite IH. intuition congruence.
Qed.

Lemma HasTool_spec a name : Agent.HasTool a name = true ↔ name ∈ Agent.granted a.
Proof. apply HasTool_loop_spec. Qed.

Lemma check_tools_None tools :
  Agent.check_tools tools = None ↔ Forall (λ t, t ∈ ToolCatalog) tools.
Proof.
  induction tools as [|tool rest IH]; simpl.
  - split; [constructor|done].
  - rewrite Forall_cons. destruct (Agent.knownTool tool) eqn:E.
    + apply knownTool_loop_spec in E. rewrite IH. tauto.
    + split; [done|]. intros [Hin _].
      apply knownTool_loop_spec in Hin. unfold Agent.knownTool in E. congruence.
Qed.

Lemma check_range_None field v ceiling :
  Agent.check_range field v ceiling = None ↔ 1 ≤ v ≤ ceiling.
Proof. unfold Agent.check_range. case_decide; split; try done; lia. Qed.

Lemma check_context_None a :
  Agent.check_context a = None ↔
  Agent.ContextMode a = ContextFresh ∨
  Agent.ContextMode a = ContextLastN ∧ 1 ≤ Agent.ContextRuns a.
Proof.
  unfold Agent.check_context. repeat case_decide; split; try tauto; try done.
  - intros [?|[_ ?]]; [congruence|lia].
  - intros _. right. split; [done|lia].
Qed.

Lemma first_error_None checks :
  Agent.first_error checks = None ↔ Forall (λ c, c = None) checks.
Proof.
  induction checks as [|[e|] rest IH]; simpl.
  - split; [constructor|done].
  - split; [done|]. by intros [? _]%Forall_cons.
  - rewrite Forall_cons, IH. tauto.
Qed.

Lemma or_default_idemp {T} `{EqDecision T} (zero d v : T) :
  Agent.or_default zero d (Agent.or_default zero d v) = Agent.or_default zero d v.
Proof. unfold Agent.or_default. repeat case_decide; congruence. Qed.

Lemma or_default_ne {T} `{EqDecision T} (zero d v : T) :
  v ≠ zero → Agent.or_default zero d v = v.
Proof. intros Hv. unfold Agent.or_default. by rewrite decide_False. Qed.

Lemma or_default_not_zero {T} `{EqDecision T} (zero d v : T) :
  d ≠ zero → Agent.or_default zero d v ≠ zero.
Proof. intros Hd. unfold Agent.or_default. case_decide; assumption. Qed.

#[export] Hint Rewrite @or_default_idemp : taskd.

(** ** Theorems *)

Lemma Validate_accepts a : valid_agent a ↔ Agent.Validate a = None.
Proof.
  unfold Agent.Validate. rewrite first_error_None, !Forall_cons.
  rewrite check_tools_None, check_context_None, !check_range_None.
  split.
  - intros [Hn Hm ? ? ? ? ?]. rewrite !decide_False by done.
    split_and!; try done; lia.
  - intros (Hn & Hm & ? & ? & ? & ? & ? & _).
    case_decide; [done|]. case_decide; [done|]. by split.
Qed.

(** [Validate] accepts exactly the agents within the ceilings, with tools
    of the catalogue and a usable context mode. *)
Lemma Validate_spec a : Agent.Validate a = None ↔ valid_agent a.
Proof. symmetry. apply Validate_accepts. Qed.

(** Defaults are applied once and for all: a second [ApplyDefaults] changes
    nothing, fields the caller set are kept, and no field is left unset. *)
Lemma ApplyDefaults_fills a :
  let a' := Agent.ApplyDefaults a in
  Agent.ApplyDefaults a' = a' ∧
  Agent.Tools a' = Some (Agent.granted a) ∧
  Agent.MaxSteps a' = (if decide (Agent.MaxSteps a = 0) then 20 else Agent.MaxSteps a) ∧
  Agent.MaxTokens a' =
    (if decide (Agent.MaxTokens a = 0) then 100000 else Agent.MaxTokens a) ∧
  Agent.MaxDurationSeconds a' =
    (if decide (Agent.MaxDurationSeconds a = 0) then 600
     else Agent.MaxDurationSeconds a) ∧
  Agent.ContextMode a' ≠ EmptyString ∧ Agent.SecretName a' ≠ EmptyString.
Proof.
  destruct a as [? ? ? ? ? ? ? tools ? ? ? ? ? ? ? ? ?].
  unfold Agent.ApplyDefaults, Agent.granted; simpl. autorewrite with taskd.
  split_and!; try done.
  - by destruct tools.
  - by apply or_default_not_zero.
  - by apply or_default_not_zero.
Qed.

(** An agent given only a name, a model and tools of the catalogue is
    accepted: it starts within every limit before its owner has set any. *)
Lemma ApplyDefaults_protects a :
  Agent.Name a ≠ EmptyString → Agent.Model a ≠ EmptyString →
  Forall (λ t, t ∈ ToolCatalog) (Agent.granted a) →
  Agent.MaxSteps a = 0 → Agent.MaxTokens a = 0 → Agent.MaxDurationSeconds a = 0 →
  Agent.ContextMode a = EmptyString →
  Agent.Validate (Agent.ApplyDefaults a) = None.
Proof.
  intros. apply Validate_accepts. destruct a; simpl in *; subst.
  split; simpl; try done; unfold Agent.granted in *; simpl in *.
  - by destruct Tools.
  - by left.
Qed.

Lemma ApplyDefaults_protects_witness :
  let a := Agent.mk "" "digest" "" "gpt" "" "" "" (Some [ToolMemoryRead]) 0 0 0 "" "" 0 true 0 0 in
  Agent.Validate (Agent.ApplyDefaults a) = None.
Proof.
  intros a. apply (ApplyDefaults_protects a); try reflexivity; try discriminate.
  apply (bool_decide_unpack _). vm_compute. exact I.
Defined.
