(* ===== verification/Database.v ===== *)
(** * The Postgres schema and the statements' monad ([src/pkg/db/migrations])

    One record per table with the columns the migrations create, the database
    as the record of its tables, the integrity constraints, and the monad in
    which a Go function that talks to the pool runs. *)
From S2P Require Import Prelude GoStrings Model.
Local Open Scope go_scope.
Local Open Scope Z_scope.

(** ** Rows *)
Module UserRow.
Record t := mk {
  id : string;
  password_hash : string;
  telegram_chat_id : string;
  failure_alerts_enabled : bool;
  custom_providers : list CustomProvider.t
}.
#[global] Instance eta_t : Eta t := λ r,
  mk (id r) (password_hash r) (telegram_chat_id r) (failure_alerts_enabled r)
     (custom_providers r).
End UserRow.

Module AgentRow.
Record t := mk {
  id : string;
  user_id : string;
  name : string;
  description : string;
  model : string;
  base_url : string;
  system_prompt : string;
  user_prompt : string;
  tools : option (list string);
  max_steps : Z;
  max_tokens : Z;
  max_duration_seconds : Z;
  context_mode : string;
  context_runs : Z;
  enabled : bool;
  created_at : Time;
  updated_at : Time;
  secret_name : string;
  consecutive_failures : Z;
  failure_notified_at : option Time
}.
#[global] Instance eta_t : Eta t := λ r,
  mk (id r) (user_id r) (name r) (description r) (model r) (base_url r)
     (system_prompt r) (user_prompt r) (tools r) (max_steps r) (max_tokens r)
     (max_duration_seconds r) (context_mode r) (context_runs r) (enabled r)
     (created_at r) (updated_at r) (secret_name r) (consecutive_failures r)
     (failure_notified_at r).
End AgentRow.

Module ScheduleRow.
Record t := mk {
  id : string;
  user_id : string;
  agent_id : string;
  cron_expression : string;
  timezone : string;
  enabled : bool;
  next_fire_at : option Time;
  last_fired_at : option Time;
  last_fired_wall : string;
  created_at : Time;
  updated_at : Time
}.
#[global] Instance eta_t : Eta t := λ r,
  mk (id r) (user_id r) (agent_id r) (cron_expression r) (timezone r) (enabled r)
     (next_fire_at r) (last_fired_at r) (last_fired_wall r) (created_at r)
     (updated_at r).
End ScheduleRow.

Module RunRow.
Record t := mk {
  id : string;
  user_id : string;
  agent_id : string;
  schedule_id : option string;
  trigger : string;
  status : string;
  scheduled_for : Time;
  picked_at : option Time;
  started_at : option Time;
  finished_at : option Time;
  lease_expires_at : option Time;
  output : string;
  error : string;
  prompt_tokens : Z;
  completion_tokens : Z;
  created_at : Time;
  rendered_prompt : string;
  read_at : option Time
}.
#[global] Instance eta_t : Eta t := λ r,
  mk (id r) (user_id r) (agent_id r) (schedule_id r) (trigger r) (status r)
     (scheduled_for r) (picked_at r) (started_at r) (finished_at r)
     (lease_expires_at r) (output r) (error r) (prompt_tokens r)
     (completion_tokens r) (created_at r) (rendered_prompt r) (read_at r).
End RunRow.

Module StepRow.
Record t := mk {
  id : string;
  run_id : string;
  step_index : Z;
  kind : string;
  content : string;
  tool_name : string;
  arguments : string;
  result : string;
  error : string;
  prompt_tokens : Z;
  completion_tokens : Z;
  created_at : Time
}.
End StepRow.

Module MemoryRow.
Record t := mk {
  id : string;
  user_id : string;
  agent_id : string;
  namespace : string;
  key : string;
  content : string;
  created_at : Time
}.
#[global] Instance eq_dec : EqDecision t.
Proof. solve_decision. Defined.
End MemoryRow.

(** Sealed values are byte strings. *)
Module SecretRow.
Record t := mk {
  id : string;
  user_id : string;
  name : string;
  encrypted_value : string;
  encrypted_data_key : string;
  masked_suffix : string;
  created_at : Time;
  updated_at : Time
}.
#[global] Instance eta_t : Eta t := λ r,
  mk (id r) (user_id r) (name r) (encrypted_value r) (encrypted_data_key r)
     (masked_suffix r) (created_at r) (updated_at r).
End SecretRow.

Module SessionRow.
Record t := mk { id : string; user_id : string; expires_at : Time }.
End SessionRow.

Record Database := mkDatabase {
  users : list UserRow.t;
  agents : list AgentRow.t;
  schedules : list ScheduleRow.t;
  runs : list RunRow.t;
  run_steps : list StepRow.t;
  memory_records : list MemoryRow.t;
  secrets : list SecretRow.t;
  sessions : list SessionRow.t
}.
#[export] Instance eta_Database : Eta Database := λ d,
  mkDatabase (users d) (agents d) (schedules d) (runs d) (run_steps d)
    (memory_records d) (secrets d) (sessions d).

(** The row the first migration inserts: a fresh installation. *)
Definition owner_row : UserRow.t := UserRow.mk OwnerUserID EmptyString EmptyString true [].
Definition empty_database : Database := mkDatabase [owner_row] [] [] [] [] [] [] [].

(** ** Integrity constraints

    Primary keys and UNIQUE constraints, and the foreign keys. *)
Definition user_exists (d : Database) (u : string) : Prop := u ∈ UserRow.id <$> users d.
Definition agent_exists (d : Database) (a : string) : Prop := a ∈ AgentRow.id <$> agents d.
Definition run_exists (d : Database) (r : string) : Prop := r ∈ RunRow.id <$> runs d.
Definition schedule_exists (d : Database) (s : string) : Prop :=
  s ∈ ScheduleRow.id <$> schedules d.

#[export] Instance user_exists_dec d u : Decision (user_exists d u).
Proof. unfold user_exists. apply _. Defined.
#[export] Instance agent_exists_dec d a : Decision (agent_exists d a).
Proof. unfold agent_exists. apply _. Defined.
#[export] Instance run_exists_dec d r : Decision (run_exists d r).
Proof. unfold run_exists. apply _. Defined.
#[export] Instance schedule_exists_dec d s : Decision (schedule_exists d s).
Proof. unfold schedule_exists. apply _. Defined.

Record wf_database (d : Database) : Prop := {
  wf_users_pk : NoDup (UserRow.id <$> users d);
  wf_agents_pk : NoDup (AgentRow.id <$> agents d);
  wf_schedules_pk : NoDup (ScheduleRow.id <$> schedules d);
  wf_schedules_agent : NoDup (ScheduleRow.agent_id <$> schedules d);
  wf_runs_pk : NoDup (RunRow.id <$> runs d);
  wf_steps_order :
    NoDup ((λ s, (StepRow.run_id s, StepRow.step_index s)) <$> run_steps d);
  wf_memory_pk : NoDup (MemoryRow.id <$> memory_records d);
  wf_secrets_name :
    NoDup ((λ s, (SecretRow.user_id s, SecretRow.name s)) <$> secrets d);
  wf_sessions_pk : NoDup (SessionRow.id <$> sessions d);
  wf_agents_user : Forall (λ a, user_exists d (AgentRow.user_id a)) (agents d);
  wf_schedules_fk : Forall (λ s, user_exists d (ScheduleRow.user_id s) ∧
                                 agent_exists d (ScheduleRow.agent_id s)) (schedules d);
  wf_runs_fk : Forall (λ r, user_exists d (RunRow.user_id r) ∧
                            agent_exists d (RunRow.agent_id r) ∧
                            (∀ s, RunRow.schedule_id r = Some s → schedule_exists d s))
                      (runs d);
  wf_steps_fk : Forall (λ s, run_exists d (StepRow.run_id s)) (run_steps d);
  wf_memory_fk : Forall (λ m, user_exists d (MemoryRow.user_id m) ∧
                              agent_exists d (MemoryRow.agent_id m)) (memory_records d);
  wf_secrets_fk : Forall (λ s, user_exists d (SecretRow.user_id s)) (secrets d);
  wf_sessions_fk : Forall (λ s, user_exists d (SessionRow.user_id s)) (sessions d)
}.

(** ON DELETE CASCADE and SET NULL, from the leaves up. *)
Definition delete_runs (P : RunRow.t → Prop) `{∀ r, Decision (P r)} (d : Database)
  : Database :=
  let gone := RunRow.id <$> filter P (runs d) in
  d <| runs := delete_where P (runs d) |>
    <| run_steps := delete_where (λ s, StepRow.run_id s ∈ gone) (run_steps d) |>.

Definition delete_schedules (P : ScheduleRow.t → Prop) `{∀ s, Decision (P s)}
  (d : Database) : Database :=
  let gone := ScheduleRow.id <$> filter P (schedules d) in
  d <| schedules := delete_where P (schedules d) |>
    <| runs := update_where (λ r, points_into (RunRow.schedule_id r) gone)
                 (λ r, r <| RunRow.schedule_id := None |>) (runs d) |>.

Definition delete_agents (P : AgentRow.t → Prop) `{∀ a, Decision (P a)}
  (d : Database) : Database :=
  let gone := AgentRow.id <$> filter P (agents d) in
  let d := delete_runs (λ r, RunRow.agent_id r ∈ gone) d in
  let d := delete_schedules (λ s, ScheduleRow.agent_id s ∈ gone) d in
  d <| agents := delete_where P (agents d) |>
    <| memory_records := delete_where (λ m, MemoryRow.agent_id m ∈ gone)
                           (memory_records d) |>.

(** ** Running statements

    What the server contributes to one statement: whether it fails for a
    reason outside the model (a lost connection, a timeout), what [NOW()]
    reads, and the identifier [uuid_generate_v4()] produces for a defaulted
    key.  A [World] is the database and the replies still to come; when they
    run out, the connection is gone. *)
Record Reply := mkReply { r_fault : option string; r_now : Time; r_uuid : string }.
Record World := mkWorld { w_db : Database; w_replies : list Reply }.
#[export] Instance eta_World : Eta World := λ w, mkWorld (w_db w) (w_replies w).

Definition conn_closed : error := Errorf "conn closed".

(** SQLSTATE codes the program's statements can raise. *)
Definition invalidTextRepresentation : string := "22P02".
Definition unique_violation : string := "23505".
Definition foreign_key_violation : string := "23503".

Definition Db (A : Type) := World → result A * World.

Definition ret {A} (a : A) : Db A := λ w, (Ok a, w).
Definition fail {A} (e : error) : Db A := λ w, (Err e, w).
Definition bind {A B} (m : Db A) (k : A → Db B) : Db B := λ w,
  match m w with
  | (Ok a, w') => k a w'
  | (Err e, w') => (Err e, w')
  end.

(** [if x, err := m; err != nil { return f(err) }]. *)
Definition map_err {A} (f : error → error) (m : Db A) : Db A := λ w,
  match m w with
  | (Ok a, w') => (Ok a, w')
  | (Err e, w') => (Err (f e), w')
  end.

(** The result of [m] as a value, for code that inspects the error. *)
Definition try {A} (m : Db A) : Db (result A) := λ w,
  let (r, w') := m w in (Ok r, w').

Definition lift {A} (r : result A) : Db A := λ w, (r, w).

Notation "x ← m ; k" := (bind m (λ x, k))
  (at level 20, m at level 100, k at level 200, right associativity) : go_scope.
Notation "m ;; k" := (bind m (λ _, k))
  (at level 100, k at level 200, right associativity) : go_scope.

(** One statement, run atomically on the tables: it fails without effect, or
    returns rows and changes the database. *)
Definition statement {A} (f : Reply → Database → result (A * Database)) : Db A := λ w,
  match w_replies w with
  | [] => (Err conn_closed, w)
  | r :: rest =>
      match r_fault r with
      | Some msg => (Err (Errorf msg), w <| w_replies := rest |>)
      | None =>
          match f r (w_db w) with
          | Err e => (Err e, w <| w_replies := rest |>)
          | Ok (a, d') => (Ok a, mkWorld d' rest)
          end
      end
  end.

(** A read-only statement. *)
Definition query {A} (f : Database → result A) : Db A :=
  statement (λ _ d, (a ←? f d; Ok (a, d))%go).

(** [pool.Begin] ... [tx.Commit] with [defer tx.Rollback]: the body's changes
    are kept only when the body succeeds and the commit does. *)
Definition in_transaction {A} (body : Db A) : Db A := λ w,
  match statement (λ _ d, Ok (tt, d)) w with
  | (Err e, w1) => (Err e, w1)
  | (Ok _, w1) =>
      match body w1 with
      | (Err e, w2) => (Err e, w2 <| w_db := w_db w1 |>)
      | (Ok a, w2) =>
          match statement (λ _ d, Ok (tt, d)) w2 with
          | (Err e, w3) => (Err e, w3 <| w_db := w_db w1 |>)
          | (Ok _, w3) => (Ok a, w3)
          end
      end
  end.

(** ** Identifiers

    Postgres parses a text parameter bound to a [uuid] column with its [uuid]
    input function, which normalises what it accepts and raises 22P02 on the
    rest.  The function is the server's, so it is a parameter; what the code
    relies on is that a normalised identifier reads back as itself. *)
Class PgUuid := uuid_in : string → option string.
Class PgUuidLaws `{!PgUuid} : Prop :=
  uuid_in_normal : ∀ s u, uuid_in s = Some u → uuid_in u = Some u.

Definition uuid_arg `{!PgUuid} (s : string) : result string :=
  of_option (PgError invalidTextRepresentation) (uuid_in s).

(** A [jsonb] column likewise stores the server's own rendering of the JSON text
    it is given, and refuses text that is not JSON with 22P02. *)
Class PgJsonb := jsonb_in : string → option string.

Definition jsonb_arg `{!PgJsonb} (s : string) : result string :=
  of_option (PgError invalidTextRepresentation) (jsonb_in s).

(** [err.Error()]; the text of a Postgres error is the server's. *)
Class PgMessages := pg_message : string → string.
Fixpoint error_text `{!PgMessages} (e : error) : string :=
  match e with
  | ErrNoRows => "no rows in result set"
  | ErrNotFound => "not found"
  | ErrNoMasterKey => "no master key configured"
  | PgError code => pg_message code
  | Errorf msg => msg
  | Wrapf msg inner => msg +:+ ": " +:+ error_text inner
  end.

(** An INTEGER column holds 32-bit values; the driver refuses to encode others. *)
Definition int4_arg (z : Z) : result Z :=
  if decide (- 2 ^ 31 ≤ z < 2 ^ 31) then Ok z
  else Err (Errorf (itoa z +:+ " is out of range for Int4")).

Lemma int4_arg_Ok z i : int4_arg z = Ok i ↔ i = z ∧ - 2 ^ 31 ≤ z < 2 ^ 31.
Proof.
  unfold int4_arg. case_decide; split; try done.
  - by intros [= ->].
  - by intros [-> _].
  - by intros [_ ?].
Qed.

(** ** Reasoning about statement programs

    [respects R m]: whatever the server replies, the databases before and
    after [m] are related by [R].  With [R] a preorder this is compositional;
    [keeps I] is the instance for an invariant. *)
Definition respects {A} (R : relation Database) (m : Db A) : Prop :=
  ∀ w, R (w_db w) (w_db (snd (m w))).

Definition keeping (I : Database → Prop) : relation Database := λ d d', I d → I d'.
Abbreviation keeps I m := (respects (keeping I) m).

#[export] Instance keeping_preorder I : PreOrder (keeping I).
Proof. split; [intros d HI; exact HI|]. intros d1 d2 d3 H12 H23 H. exact (H23 (H12 H)). Qed.

Section respects.
Context (R : relation Database) `{!PreOrder R}.

Lemma respects_ret {A} (a : A) : respects R (ret a).
Proof. intros w. done. Qed.

Lemma respects_fail {A} e : respects R (fail (A := A) e).
Proof. intros w. done. Qed.

Lemma respects_lift {A} (r : result A) : respects R (lift r).
Proof. intros w. done. Qed.

Lemma respects_bind {A B} (m : Db A) (k : A → Db B) :
  respects R m → (∀ a, respects R (k a)) → respects R (bind m k).
Proof.
  intros Hm Hk w. unfold bind. specialize (Hm w).
  destruct (m w) as [[a|e] w']; simpl in *; [|done].
  etrans; [exact Hm|apply Hk].
Qed.

Lemma respects_map_err {A} f (m : Db A) : respects R m → respects R (map_err f m).
Proof.
  intros Hm w. unfold map_err. specialize (Hm w). by destruct (m w) as [[a|e] w'].
Qed.

Lemma respects_try {A} (m : Db A) : respects R m → respects R (try m).
Proof. intros Hm w. unfold try. specialize (Hm w). by destruct (m w). Qed.

Lemma respects_statement {A} (f : Reply → Database → result (A * Database)) :
  (∀ r d a d', f r d = Ok (a, d') → R d d') → respects R (statement f).
Proof.
  intros Hf [d [|r rest]]; unfold statement; simpl; [done|].
  destruct (r_fault r); [done|].
  destruct (f r d) as [[a d']|e] eqn:E; simpl; [by eapply Hf|done].
Qed.

Lemma respects_query {A} (f : Database → result A) : respects R (query f).
Proof.
  apply respects_statement. intros r d a d'. simpl.
  destruct (f d); simpl; intros; by simplify_eq.
Qed.

Lemma respects_in_transaction {A} (body : Db A) :
  respects R body → respects R (in_transaction body).
Proof.
  intros Hb [d [|r rest]]; unfold in_transaction, statement; simpl; [done|].
  destruct (r_fault r); [done|]. simpl.
  specialize (Hb (mkWorld d rest)). destruct (body _) as [[a|e] [d2 [|r2 rest2]]]; try done.
  simpl in *. by destruct (r_fault r2).
Qed.
End respects.

#[export] Hint Resolve respects_ret respects_fail respects_lift respects_query
  respects_map_err respects_try respects_in_transaction : taskd.
#[export] Hint Resolve keeping_preorder : taskd.

(** Walks a program down to its statements. *)
Ltac respects :=
  repeat first
    [ progress intros
    | match goal with |- respects _ (in_transaction _) =>
        apply respects_in_transaction; [typeclasses eauto|] end
    | apply respects_bind; [typeclasses eauto| |]
    | apply respects_map_err
    | apply respects_try
    | apply respects_ret; typeclasses eauto
    | apply respects_fail; typeclasses eauto
    | apply respects_lift; typeclasses eauto
    | apply respects_query; typeclasses eauto
    | case_match; simplify_eq ].

(** Programs that leave the agents alone. *)
Definition same_agents : relation Database := λ d d', agents d' = agents d.
#[export] Instance same_agents_preorder : PreOrder same_agents.
Proof. split; [done|]. intros d1 d2 d3 H1 H2. unfold same_agents in *. by rewrite H2. Qed.

(** A statement program that reads only: the database is what it was. *)
Lemma query_db {A} (f : Database → result A) w : w_db (snd (query f w)) = w_db w.
Proof.
  pose proof (respects_query (=) f w) as H. by rewrite <- H.
Qed.

(** What a statement does when the server answers it. *)
Lemma statement_answered {A} (f : Reply → Database → result (A * Database)) d r rest :
  r_fault r = None →
  statement f (mkWorld d (r :: rest)) =
  match f r d with
  | Ok (a, d') => (Ok a, mkWorld d' rest)
  | Err e => (Err e, mkWorld d rest)
  end.
Proof. intros Hr. unfold statement. simpl. rewrite Hr. by destruct (f r d) as [[??]|?]. Qed.

(** ** The cascades keep the constraints *)
Lemma elem_of_key_delete {R K} (k : R → K) (P : R → Prop) `{∀ r, Decision (P r)} t x :
  x ∈ k <$> t → x ∉ k <$> filter P t → x ∈ k <$> delete_where P t.
Proof.
  intros (r & -> & Hr)%list_elem_of_fmap Hgone. apply list_elem_of_fmap. exists r.
  split; [done|]. apply elem_of_delete_where. split; [done|]. intros HP. apply Hgone.
  apply list_elem_of_fmap. exists r. split; [done|]. by apply list_elem_of_filter.
Qed.

Lemma Forall_delete_where {R} (P Q : R → Prop) `{∀ r, Decision (P r)} t :
  Forall Q t → Forall Q (delete_where P t).
Proof.
  rewrite !Forall_forall. intros HQ r [Hr _]%elem_of_delete_where. by apply HQ.
Qed.

Lemma Forall_delete_gone {R K} `{EqDecision K} (k : R → K) (gone : list K) t x :
  x ∈ gone → Forall (λ r, k r ≠ x) (delete_where (λ r, k r ∈ gone) t).
Proof.
  rewrite Forall_forall. intros Hx r [_ Hn]%elem_of_delete_where Heq.
  apply Hn. by rewrite Heq.
Qed.

Lemma Forall_in_delete {R S K} (k : R → K) (P : R → Prop) `{∀ r, Decision (P r)}
    (fk : S → K) (Q : S → Prop) `{∀ s, Decision (Q s)} t (ts : list S) :
  Forall (λ s, fk s ∈ k <$> t) ts →
  (∀ s, fk s ∈ k <$> filter P t → Q s) →
  Forall (λ s, fk s ∈ k <$> delete_where P t) (delete_where Q ts).
Proof.
  rewrite !Forall_forall. intros Hfk HQ s [Hs HnQ]%elem_of_delete_where.
  apply elem_of_key_delete; [by apply Hfk|]. intros Hin. by apply HnQ, HQ.
Qed.

Lemma wf_delete_runs P `{∀ r, Decision (P r)} d :
  wf_database d → wf_database (delete_runs P d).
Proof.
  intros []. split; simpl; try done.
  - by apply NoDup_key_delete.
  - by apply NoDup_key_delete.
  - by apply Forall_delete_where.
  - by apply (Forall_in_delete RunRow.id P StepRow.run_id).
Qed.

Lemma wf_delete_schedules P `{∀ s, Decision (P s)} d :
  wf_database d → wf_database (delete_schedules P d).
Proof.
  intros []. split; simpl; try done.
  - by apply NoDup_key_delete.
  - by apply NoDup_key_delete.
  - by rewrite update_where_key.
  - by apply Forall_delete_where.
  - rewrite Forall_forall in wf_runs_fk0 |- *.
    intros r' (r & Hr & [[Hp ->]|[Hp ->]])%elem_of_update_where.
    all: destruct (wf_runs_fk0 r Hr) as (? & ? & Hs); split_and!; try done; simpl.
    intros s Heq. apply elem_of_key_delete; [by apply Hs|].
    intros Hin. apply Hp. by rewrite Heq.
  - rewrite Forall_forall in wf_steps_fk0 |- *. intros s Hs.
    unfold run_exists. simpl. rewrite update_where_key by done. by apply wf_steps_fk0.
Qed.

(** Deleting agents takes their schedules, runs, traces and memory with them,
    and leaves no dangling reference. *)
Lemma wf_delete_agents P `{∀ a, Decision (P a)} d :
  wf_database d → wf_database (delete_agents P d).
Proof.
  intros Hwf. unfold delete_agents.
  set (gone := AgentRow.id <$> filter P (agents d)).
  pose proof (wf_delete_runs (λ r, RunRow.agent_id r ∈ gone) d Hwf) as Hwf1.
  pose proof (wf_delete_schedules (λ s, ScheduleRow.agent_id s ∈ gone) _ Hwf1) as [].
  set (d2 := delete_schedules _ (delete_runs _ d)) in *.
  assert (Hkeep : ∀ x, agent_exists d2 x → x ∉ gone →
    x ∈ AgentRow.id <$> delete_where P (agents d2)).
  { intros x. apply elem_of_key_delete. }
  split; simpl; try done.
  - by apply NoDup_key_delete.
  - by apply NoDup_key_delete.
  - by apply Forall_delete_where.
  - rewrite Forall_forall in wf_schedules_fk0 |- *. intros s Hs.
    destruct (wf_schedules_fk0 s Hs) as [? ?]. split; [done|].
    apply Hkeep; [done|]. by apply elem_of_delete_where in Hs as [_ ?].
  - rewrite Forall_forall in wf_runs_fk0 |- *. intros r Hr.
    destruct (wf_runs_fk0 r Hr) as (? & ? & ?). split_and!; try done.
    apply Hkeep; [done|].
    apply elem_of_update_where in Hr as (r' & Hr' & [[_ ->]|[_ ->]]);
      by apply elem_of_delete_where in Hr' as [_ ?].
  - rewrite Forall_forall in wf_memory_fk0 |- *.
    intros m [Hm Hgone]%elem_of_delete_where.
    destruct (wf_memory_fk0 m Hm) as [? ?]. split; [done|]. by apply Hkeep.
Qed.

#[export] Hint Resolve wf_delete_runs wf_delete_schedules wf_delete_agents : taskd.

(** Deleting nothing changes nothing. *)
Lemma delete_runs_none P `{∀ r, Decision (P r)} (d : Database) :
  Forall (λ r, ¬ P r) (runs d) → delete_runs P d = d.
Proof.
  intros Hnone. destruct d. unfold delete_runs, set_field. simpl in *.
  rewrite (proj2 (filter_nil_iff _ _)) by done.
  rewrite (delete_where_none P) by done. f_equal.
  apply delete_where_none, Forall_true. intros s. apply not_elem_of_nil.
Qed.

Lemma delete_schedules_none P `{∀ s, Decision (P s)} (d : Database) :
  Forall (λ s, ¬ P s) (schedules d) → delete_schedules P d = d.
Proof.
  intros Hnone. destruct d. unfold delete_schedules, set_field. simpl in *.
  rewrite (proj2 (filter_nil_iff _ _)) by done.
  rewrite (delete_where_none P) by done. f_equal.
  apply update_where_none, Forall_true. intros r.
  destruct (RunRow.schedule_id r); simpl; [apply not_elem_of_nil|tauto].
Qed.

Lemma delete_agents_none P `{∀ a, Decision (P a)} d :
  Forall (λ a, ¬ P a) (agents d) → delete_agents P d = d.
Proof.
  intros Hnone. unfold delete_agents.
  assert (Hgone : ∀ x, x ∉ AgentRow.id <$> filter P (agents d)).
  { intros x. rewrite (proj2 (filter_nil_iff _ _)) by done. apply not_elem_of_nil. }
  rewrite delete_runs_none by (apply Forall_true; intros; apply Hgone).
  rewrite delete_schedules_none by (apply Forall_true; intros; apply Hgone).
  rewrite (delete_where_none P) by done.
  rewrite delete_where_none by (apply Forall_true; intros; apply Hgone).
  by destruct d.
Qed.

Lemma wf_empty_database : wf_database empty_database.
Proof. split; simpl; repeat constructor; set_solver. Qed.

(** Appending a row to the target of foreign keys keeps them valid. *)
Lemma elem_of_key_snoc {R K} (k : R → K) t r x :
  x ∈ k <$> t → x ∈ k <$> t ++ [r].
Proof. rewrite fmap_app. intros. apply elem_of_app. by left. Qed.

Lemma not_elem_of_key {R K} (k : R → K) t x :
  x ∉ k <$> t → Forall (λ r, k r ≠ x) t.
Proof.
  intros Hx. rewrite Forall_forall. intros r Hr Heq. apply Hx.
  apply list_elem_of_fmap. eauto.
Qed.

#[export] Hint Resolve elem_of_key_snoc not_elem_of_key : taskd.

(** Closes the constraints of [wf_database] that an operation does not touch,
    or touches by appending a row. *)
Ltac wf_row :=
  try done;
  try (apply NoDup_key_snoc; [done|by apply not_elem_of_key]);
  try (apply Forall_app; split; [|apply Forall_singleton]; try done);
  try (eapply Forall_impl; [eassumption|]; simpl; intros ?;
       unfold user_exists, agent_exists, run_exists, schedule_exists in *; simpl;
       intuition eauto with taskd).

(** ** Inversion: how a program that succeeded got there *)
Lemma bind_Ok {A B} (m : Db A) (k : A → Db B) w b w' :
  bind m k w = (Ok b, w') ↔ ∃ a w1, m w = (Ok a, w1) ∧ k a w1 = (Ok b, w').
Proof.
  unfold bind. destruct (m w) as [[a|e] w1]; split.
  - eauto.
  - by intros (? & ? & [= -> ->] & ?).
  - done.
  - by intros (? & ? & ? & ?).
Qed.

Lemma map_err_Ok {A} f (m : Db A) w a w' :
  map_err f m w = (Ok a, w') ↔ m w = (Ok a, w').
Proof. unfold map_err. destruct (m w) as [[?|?] ?]; split; congruence. Qed.

Lemma ret_Ok {A} (a b : A) w w' : ret a w = (Ok b, w') ↔ b = a ∧ w' = w.
Proof. unfold ret. split; [by intros [= <- <-]|by intros [-> ->]]. Qed.

Lemma statement_Ok {A} (f : Reply → Database → result (A * Database)) w a w' :
  statement f w = (Ok a, w') →
  ∃ r, w_replies w = r :: w_replies w' ∧ r_fault r = None ∧
       f r (w_db w) = Ok (a, w_db w').
Proof.
  unfold statement. destruct w as [d [|r rest]]; simpl; [done|].
  destruct (r_fault r) eqn:Hf; [done|].
  destruct (f r d) as [[a' d']|e] eqn:Hd; intros; simplify_eq. by exists r.
Qed.

(** A transaction is all or nothing: it fails with the database as it was, or
    has the effect of its body. *)
Lemma in_transaction_Err {A} (body : Db A) w e w' :
  in_transaction body w = (Err e, w') → w_db w' = w_db w.
Proof.
  unfold in_transaction. destruct w as [d [|r rest]]; simpl; [by intros [= _ <-]|].
  unfold statement at 1. simpl. destruct (r_fault r); [by intros [= _ <-]|].
  destruct (body _) as [[a|e'] w2]; [|by intros [= _ <-]].
  destruct (statement _ w2) as [[?|?] w3]; by intros [= _ <-].
Qed.

Lemma in_transaction_Ok {A} (body : Db A) w a w' :
  in_transaction body w = (Ok a, w') →
  ∃ r w1 w2, w_replies w = r :: w_replies w1 ∧ w_db w1 = w_db w ∧
    body w1 = (Ok a, w2) ∧ w_db w' = w_db w2.
Proof.
  unfold in_transaction. destruct w as [d [|r rest]]; simpl; [done|].
  unfold statement at 1. simpl. destruct (r_fault r); [done|].
  destruct (body _) as [[b|e'] w2] eqn:Eb; [|done].
  destruct (statement _ w2) as [[[]|?] w3] eqn:Es; [|done]. intros [= -> <-].
  apply statement_Ok in Es as (r2 & _ & _ & [= Hdb]). by exists r, (mkWorld d rest), w2.
Qed.

(** Failed or not, a statement does nothing or what its function says. *)
Lemma statement_effect {A} (f : Reply → Database → result (A * Database)) w res w' :
  statement f w = (res, w') →
  w_db w' = w_db w ∨ ∃ r a, f r (w_db w) = Ok (a, w_db w').
Proof.
  unfold statement. destruct w as [d [|r rest]]; simpl; [by intros [= _ <-]; left|].
  destruct (r_fault r); [by intros [= _ <-]; left|].
  destruct (f r d) as [[a d']|e] eqn:E; intros [= _ <-]; [right; eauto|by left].
Qed.

Lemma query_Ok {A} (f : Database → result A) w a w' :
  query f w = (Ok a, w') →
  ∃ r, w_replies w = r :: w_replies w' ∧ r_fault r = None ∧
       f (w_db w) = Ok a ∧ w_db w' = w_db w.
Proof.
  intros (r & Hr & Hf & Hd)%statement_Ok. exists r. split_and!; try done.
  all: apply rbind_Ok in Hd as (? & ? & [= ? ?]); congruence.
Qed.

Lemma query_answered {A} (f : Database → result A) d r rest :
  r_fault r = None → query f (mkWorld d (r :: rest)) = (f d, mkWorld d rest).
Proof.
  intros. unfold query. rewrite statement_answered by done. by destruct (f d).
Qed.

(** The next [n] statements are answered. *)
Definition calm (w : World) (n : nat) : Prop :=
  (n ≤ length (w_replies w))%nat ∧ Forall (λ r, r_fault r = None) (w_replies w).

Lemma calm_le w n m : calm w n → (m ≤ n)%nat → calm w m.
Proof. intros [? ?] ?. split; [lia|done]. Qed.

Lemma calm_statement {A} (f : Reply → Database → result (A * Database)) w n :
  calm w (S n) → calm (snd (statement f w)) n ∧
    ∃ r, fst (statement f w) = (x ←? f r (w_db w); Ok (fst x)).
Proof.
  destruct w as [d [|r rest]]; unfold calm; simpl; intros [Hlen Hf]; [lia|].
  apply Forall_cons in Hf as [Hr Hf]. rewrite statement_answered by done.
  destruct (f r d) as [[a d']|e] eqn:E; simpl; (split; [split; [lia|done]|]);
    exists r; by rewrite E.
Qed.

(** ** Concrete databases

    Identifiers of 36 characters, JSON taken as it is, and an installation with
    one agent, for closed examples. *)
Definition example_uuid : PgUuid := λ s, if decide (len s = 36%nat) then Some s else None.
Definition example_jsonb : PgJsonb := Some.
Definition example_id (n : nat) : string :=
  "00000000-0000-0000-0000-00000000000" +:+ str1 (byte_of (96 + n)).
Definition example_agent_row (n : nat) : AgentRow.t :=
  AgentRow.mk (example_id n) OwnerUserID "digest" "" "gpt" "" "" "" (Some []) 20 100000 600
    ContextFresh 0 true 0 0 DefaultSecretName 0 None.
Definition example_database : Database :=
  empty_database <| agents := [example_agent_row 1] |>.

(** The server answers at [now] and hands out identifier [n]. *)
Definition answer (now : Time) (n : nat) : Reply := mkReply None now (example_id n).

(** A concrete database meets its constraints, by evaluation; for a run's
    nullable reference the row at hand is looked up. *)
Ltac wf_concrete :=
  split;
  try (apply (bool_decide_unpack _); vm_compute; exact I);
  repeat first [apply Forall_nil; exact I | apply Forall_cons; split];
  split_and?; try (intros ? [= <-]); try discriminate;
  try (apply (bool_decide_unpack _); vm_compute; exact I).

Lemma example_uuid_laws : @PgUuidLaws example_uuid.
Proof.
  intros s u. unfold example_uuid, uuid_in. intros Hs. destruct (decide _) as [Hl|]; [|done].
  injection Hs as <-. by rewrite decide_True.
Qed.

Lemma wf_example_database : wf_database example_database.
Proof. wf_concrete. Qed.
