(* ===== verification/AgentStore.v ===== *)
(** * The agent store ([src/pkg/store/agents.go], and [translateNoRows] of
      [runs.go])

    Each method is the statement it sends and the scan of what comes back. *)
From S2P Require Import Prelude GoStrings Model Database.
Local Open Scope go_scope.
Local Open Scope Z_scope.

(** "There is no such row" is [ErrNotFound], and so is an identifier Postgres
    cannot parse. *)
Definition translateNoRows (e : error) : error :=
  if errors_Is e ErrNoRows then ErrNotFound
  else if errors_Is e (PgError invalidTextRepresentation) then ErrNotFound
  else e.

(** [scanAgent]: the columns of [agentColumns], with the JSON of the tool
    grants decoded and a null array made empty. *)
Definition scanAgent (r : AgentRow.t) : Agent.t :=
  {| Agent.ID := AgentRow.id r;
     Agent.Name := AgentRow.name r;
     Agent.Description := AgentRow.description r;
     Agent.Model := AgentRow.model r;
     Agent.BaseURL := AgentRow.base_url r;
     Agent.SystemPrompt := AgentRow.system_prompt r;
     Agent.UserPrompt := AgentRow.user_prompt r;
     Agent.Tools := Some (default [] (AgentRow.tools r));
     Agent.MaxSteps := AgentRow.max_steps r;
     Agent.MaxTokens := AgentRow.max_tokens r;
     Agent.MaxDurationSeconds := AgentRow.max_duration_seconds r;
     Agent.SecretName := AgentRow.secret_name r;
     Agent.ContextMode := AgentRow.context_mode r;
     Agent.ContextRuns := AgentRow.context_runs r;
     Agent.Enabled := AgentRow.enabled r;
     Agent.CreatedAt := AgentRow.created_at r;
     Agent.UpdatedAt := AgentRow.updated_at r |}.

(** The four INTEGER parameters of an agent, as the driver encodes them. *)
Definition agent_int4_args (a : Agent.t) : result unit :=
  _ ←? int4_arg (Agent.MaxSteps a);
  _ ←? int4_arg (Agent.MaxTokens a);
  _ ←? int4_arg (Agent.MaxDurationSeconds a);
  _ ←? int4_arg (Agent.ContextRuns a);
  Ok tt.

(** The columns [INSERT] and [UPDATE] take from an agent. *)
Definition set_agent_columns (a : Agent.t) (r : AgentRow.t) : AgentRow.t :=
  r <| AgentRow.name := Agent.Name a |>
    <| AgentRow.description := Agent.Description a |>
    <| AgentRow.model := Agent.Model a |>
    <| AgentRow.base_url := Agent.BaseURL a |>
    <| AgentRow.system_prompt := Agent.SystemPrompt a |>
    <| AgentRow.user_prompt := Agent.UserPrompt a |>
    <| AgentRow.tools := Agent.Tools a |>
    <| AgentRow.max_steps := Agent.MaxSteps a |>
    <| AgentRow.max_tokens := Agent.MaxTokens a |>
    <| AgentRow.max_duration_seconds := Agent.MaxDurationSeconds a |>
    <| AgentRow.context_mode := Agent.ContextMode a |>
    <| AgentRow.context_runs := Agent.ContextRuns a |>
    <| AgentRow.secret_name := Agent.SecretName a |>
    <| AgentRow.enabled := Agent.Enabled a |>.

(** A row whose columns have their declared defaults. *)
Definition default_agent_row (id user : string) (now : Time) : AgentRow.t :=
  {| AgentRow.id := id; AgentRow.user_id := user;
     AgentRow.name := EmptyString; AgentRow.description := EmptyString;
     AgentRow.model := EmptyString; AgentRow.base_url := EmptyString;
     AgentRow.system_prompt := EmptyString; AgentRow.user_prompt := EmptyString;
     AgentRow.tools := Some []; AgentRow.max_steps := 20;
     AgentRow.max_tokens := 100000; AgentRow.max_duration_seconds := 600;
     AgentRow.context_mode := ContextFresh; AgentRow.context_runs := 0;
     AgentRow.enabled := true; AgentRow.created_at := now; AgentRow.updated_at := now;
     AgentRow.secret_name := DefaultSecretName; AgentRow.consecutive_failures := 0;
     AgentRow.failure_notified_at := None |}.

Section store.
Context {PU : PgUuid}.

Definition insert_agent (userID : string) (a : Agent.t) (r : Reply) (d : Database)
  : result (AgentRow.t * Database) :=
  _ ←? agent_int4_args a;
  u ←? uuid_arg userID;
  if decide (¬ user_exists d u) then Err (PgError foreign_key_violation)
  else if decide (agent_exists d (r_uuid r)) then Err (PgError unique_violation)
  else
    let row := set_agent_columns a (default_agent_row (r_uuid r) u (timestamptz (r_now r))) in
    Ok (row, d <| agents := agents d ++ [row] |>).

Definition AgentStore_Create (userID : string) (agent : Agent.t) : Db Agent.t :=
  row ← map_err translateNoRows (statement (insert_agent userID agent));
  ret (scanAgent row).

Definition AgentStore_Get (userID id : string) : Db Agent.t :=
  row ← map_err translateNoRows (query (λ d,
    i ←? uuid_arg id; u ←? uuid_arg userID;
    of_option ErrNoRows
      (first_where (λ a, AgentRow.id a = i ∧ AgentRow.user_id a = u) (agents d))));
  ret (scanAgent row).

Definition AgentStore_List (userID : string) : Db (list Agent.t) :=
  rows ← query (λ d,
    u ←? uuid_arg userID;
    Ok (order_by (desc AgentRow.created_at)
          (filter (λ a, AgentRow.user_id a = u) (agents d))));
  ret (scanAgent <$> rows).

(** [SELECT DISTINCT model, base_url]; the name shown is built from the model. *)
Definition AgentStore_ListUniqueEndpoints (userID : string)
  : Db (list ModelEndpoint.t) :=
  rows ← query (λ d,
    u ←? uuid_arg userID;
    Ok (remove_dups ((λ a, (AgentRow.model a, AgentRow.base_url a)) <$>
          filter (λ a, AgentRow.user_id a = u) (agents d))));
  ret ((λ '(m, url), {| ModelEndpoint.Name := "Custom: " +:+ m;
                        ModelEndpoint.Model := m;
                        ModelEndpoint.BaseURL := url;
                        ModelEndpoint.SecretName := EmptyString |}) <$> rows).

Definition update_agent (userID id : string) (a : Agent.t) (r : Reply) (d : Database)
  : result (AgentRow.t * Database) :=
  _ ←? agent_int4_args a;
  i ←? uuid_arg id;
  u ←? uuid_arg userID;
  let hit := λ row, AgentRow.id row = i ∧ AgentRow.user_id row = u in
  let upd := λ row, set_agent_columns a row
                      <| AgentRow.updated_at := timestamptz (r_now r) |> in
  row ←? of_option ErrNoRows (first_where hit (agents d));
  Ok (upd row, d <| agents := update_where hit upd (agents d) |>).

Definition AgentStore_Update (userID id : string) (agent : Agent.t) : Db Agent.t :=
  row ← map_err translateNoRows (statement (update_agent userID id agent));
  ret (scanAgent row).

(** [DELETE], returning the number of rows affected. *)
Definition delete_agent (userID id : string) (_ : Reply) (d : Database)
  : result (nat * Database) :=
  i ←? uuid_arg id;
  u ←? uuid_arg userID;
  let hit := λ row, AgentRow.id row = i ∧ AgentRow.user_id row = u in
  Ok (count_where hit (agents d), delete_agents hit d).

Definition AgentStore_Delete (userID id : string) : Db unit :=
  affected ← map_err translateNoRows (statement (delete_agent userID id));
  if decide (affected = 0%nat) then fail ErrNotFound else ret tt.
End store.

(** ** Constraints are kept *)
Section wf.
Context {PU : PgUuid}.

Lemma wf_insert_agent userID a r d row d' :
  insert_agent userID a r d = Ok (row, d') → wf_database d → wf_database d'.
Proof.
  unfold insert_agent. intros (_ & _ & H)%rbind_Ok.
  apply rbind_Ok in H as (u & _ & H). case_decide as Hu; [done|].
  case_decide as Hid; [done|]. simplify_eq.
  intros []. split; simpl; wf_row.
Qed.

Lemma wf_update_agent userID id a r d row d' :
  update_agent userID id a r d = Ok (row, d') → wf_database d → wf_database d'.
Proof.
  unfold update_agent. intros (_ & _ & H)%rbind_Ok.
  apply rbind_Ok in H as (i & _ & H). apply rbind_Ok in H as (u & _ & H).
  apply rbind_Ok in H as (row' & _ & [= <- <-]). intros [].
  split; simpl; try done; unfold agent_exists; simpl; rewrite ?update_where_key; try done.
  by apply Forall_update_where.
Qed.

Lemma wf_delete_agent userID id r d n d' :
  delete_agent userID id r d = Ok (n, d') → wf_database d → wf_database d'.
Proof.
  unfold delete_agent. intros (i & _ & H)%rbind_Ok.
  apply rbind_Ok in H as (u & _ & [= <- <-]). apply wf_delete_agents.
Qed.

Lemma AgentStore_Create_wf userID a : keeps wf_database (AgentStore_Create userID a).
Proof. unfold AgentStore_Create. respects. apply respects_statement; [typeclasses eauto|].
  intros; intros ?; by eapply wf_insert_agent. Qed.

Lemma AgentStore_Update_wf userID id a :
  keeps wf_database (AgentStore_Update userID id a).
Proof. unfold AgentStore_Update. respects. apply respects_statement; [typeclasses eauto|].
  intros; intros ?; by eapply wf_update_agent. Qed.

Lemma AgentStore_Delete_wf userID id : keeps wf_database (AgentStore_Delete userID id).
Proof. unfold AgentStore_Delete. respects. apply respects_statement; [typeclasses eauto|].
  intros; intros ?; by eapply wf_delete_agent. Qed.
End wf.

(** ** What the methods do *)

(** [a'] carries the settings of [a], with the tool list made non-nil. *)
Definition same_settings (a a' : Agent.t) : Prop :=
  a' = a <| Agent.ID := Agent.ID a' |> <| Agent.Tools := Some (Agent.granted a) |>
         <| Agent.CreatedAt := Agent.CreatedAt a' |>
         <| Agent.UpdatedAt := Agent.UpdatedAt a' |>.

Lemma same_settings_scan a row :
  same_settings a (scanAgent (set_agent_columns a row)).
Proof. destruct a, row. done. Qed.

Section spec.
Context {PU : PgUuid}.

Lemma insert_agent_Ok userID a r d row d' :
  insert_agent userID a r d = Ok (row, d') →
  ∃ u, uuid_in userID = Some u ∧
    row = set_agent_columns a (default_agent_row (r_uuid r) u (timestamptz (r_now r))) ∧
    user_exists d u ∧ ¬ agent_exists d (r_uuid r) ∧
    d' = d <| agents := agents d ++ [row] |>.
Proof.
  unfold insert_agent. intros (_ & _ & H)%rbind_Ok.
  apply rbind_Ok in H as (u & Hu%of_option_Ok & H).
  case_decide as Hx; [done|]. case_decide; simplify_eq. eauto 10.
Qed.

(** An identifier that is not a UUID reads as a row that is not there: the
    methods that take one answer [ErrNotFound] and change nothing. *)
Lemma agent_malformed_id userID id a d r rest :
  uuid_in id = None → r_fault r = None → agent_int4_args a = Ok tt →
  AgentStore_Get userID id (mkWorld d (r :: rest)) = (Err ErrNotFound, mkWorld d rest) ∧
  AgentStore_Update userID id a (mkWorld d (r :: rest)) =
    (Err ErrNotFound, mkWorld d rest) ∧
  AgentStore_Delete userID id (mkWorld d (r :: rest)) =
    (Err ErrNotFound, mkWorld d rest).
Proof.
  intros Hid Hr Ha.
  unfold AgentStore_Get, AgentStore_Update, AgentStore_Delete, bind, map_err, query.
  rewrite !statement_answered by done.
  unfold update_agent, delete_agent, uuid_arg. rewrite Hid, Ha. done.
Qed.

(** An agent that was created is read back with the settings it was given,
    under the identifier the database chose. *)
Lemma agent_create_get userID a a' d r rest d' r2 rest2 :
  AgentStore_Create userID a (mkWorld d (r :: rest)) = (Ok a', mkWorld d' (r2 :: rest2)) →
  uuid_in (r_uuid r) = Some (r_uuid r) → r_fault r2 = None →
  same_settings a a' ∧ Agent.ID a' = r_uuid r ∧
  AgentStore_Get userID (Agent.ID a') (mkWorld d' (r2 :: rest2)) =
    (Ok a', mkWorld d' rest2).
Proof.
  intros (row & w1 & (r' & Hr' & Hf & Hi)%map_err_Ok%statement_Ok & [-> <-]%ret_Ok)%bind_Ok
    Hid Hr2. simpl in *. simplify_eq.
  apply insert_agent_Ok in Hi as (u & Hu & -> & _ & Hnew & ->).
  split; [apply same_settings_scan|]. split; [done|].
  unfold AgentStore_Get, bind, map_err. rewrite query_answered by done.
  unfold uuid_arg. simpl. rewrite Hid, Hu. simpl.
  unfold first_where. rewrite filter_app, (proj2 (filter_nil_iff _ _)).
  - simpl. by rewrite filter_cons_True.
  - apply not_elem_of_key in Hnew. eapply Forall_impl; [exact Hnew|].
    simpl. intros row Hne [Heq _]. done.
Qed.
Lemma AgentStore_Delete_Ok userID id w w' :
  AgentStore_Delete userID id w = (Ok tt, w') →
  ∃ i u, uuid_in id = Some i ∧ uuid_in userID = Some u ∧
    Exists (λ a, AgentRow.id a = i ∧ AgentRow.user_id a = u) (agents (w_db w)) ∧
    w_db w' =
      delete_agents (λ a, AgentRow.id a = i ∧ AgentRow.user_id a = u) (w_db w).
Proof.
  intros (n & w1 & (r & _ & _ & Hd)%map_err_Ok%statement_Ok & Hk)%bind_Ok.
  unfold delete_agent in Hd.
  apply rbind_Ok in Hd as (i & Hi%of_option_Ok & Hd).
  apply rbind_Ok in Hd as (u & Hu%of_option_Ok & Hd). injection Hd as Hn Hdb.
  case_decide as Hz; [done|]. apply ret_Ok in Hk as [_ ->].
  exists i, u. split_and!; try done. rewrite <- Hn in Hz.
  apply dec_stable. by rewrite <- Forall_Exists_neg, <- count_where_0.
Qed.

End spec.

(** ** Closed examples *)
Definition example_settings : Agent.t := scanAgent (example_agent_row 2).

Lemma agent_malformed_id_witness :
  @AgentStore_Get example_uuid OwnerUserID "not-a-uuid" (mkWorld example_database [answer 0 1]) =
    (Err ErrNotFound, mkWorld example_database []).
Proof.
  apply (@agent_malformed_id example_uuid OwnerUserID "not-a-uuid" example_settings
    example_database (answer 0 1) []); reflexivity.
Defined.

Definition created : result Agent.t * World :=
  @AgentStore_Create example_uuid OwnerUserID example_settings
    (mkWorld example_database [answer 0 2; answer 0 3]).

Lemma agent_create_get_witness : ∃ a',
  fst created = Ok a' ∧ same_settings example_settings a' ∧
  fst (@AgentStore_Get example_uuid OwnerUserID (example_id 2) (snd created)) = Ok a'.
Proof.
  assert (Hc : created = (Ok (default example_settings
      match fst created with Ok a => Some a | Err _ => None end),
    mkWorld (w_db (snd created)) [answer 0 3])) by (vm_compute; reflexivity).
  destruct (@agent_create_get example_uuid OwnerUserID example_settings _ _ _ _ _ _ _ Hc
    eq_refl eq_refl) as (Hs & Hid & Hg).
  eexists. split; [exact (f_equal fst Hc)|split; [exact Hs|]].
  vm_compute. reflexivity.
Defined.

