(* ===== verification/RunStore.v ===== *)
(** * Runs, schedules and traces ([src/pkg/store/runs.go], [schedules.go],
      [steps.go]) *)
From S2P Require Import Prelude GoStrings Model Database AgentStore.
Local Open Scope go_scope.
Local Open Scope Z_scope.

(** ** Runs *)
Definition scanRun (r : RunRow.t) : Run.t :=
  {| Run.ID := RunRow.id r;
     Run.AgentID := RunRow.agent_id r;
     Run.ScheduleID := RunRow.schedule_id r;
     Run.Trigger := RunRow.trigger r;
     Run.Status := RunRow.status r;
     Run.ScheduledFor := RunRow.scheduled_for r;
     Run.PickedAt := RunRow.picked_at r;
     Run.StartedAt := RunRow.started_at r;
     Run.FinishedAt := RunRow.finished_at r;
     Run.Output := RunRow.output r;
     Run.Error := RunRow.error r;
     Run.PromptTokens := RunRow.prompt_tokens r;
     Run.CompletionTokens := RunRow.completion_tokens r;
     Run.RenderedPrompt := RunRow.rendered_prompt r;
     Run.CreatedAt := RunRow.created_at r |}.

(** The row an [INSERT INTO runs] of the six columns makes. *)
Definition new_run_row (id user agent : string) (schedule : option string)
    (trigger status : string) (scheduledFor now : Time) : RunRow.t :=
  {| RunRow.id := id; RunRow.user_id := user; RunRow.agent_id := agent;
     RunRow.schedule_id := schedule; RunRow.trigger := trigger;
     RunRow.status := status; RunRow.scheduled_for := timestamptz scheduledFor;
     RunRow.picked_at := None; RunRow.started_at := None;
     RunRow.finished_at := None; RunRow.lease_expires_at := None;
     RunRow.output := EmptyString; RunRow.error := EmptyString;
     RunRow.prompt_tokens := 0; RunRow.completion_tokens := 0;
     RunRow.created_at := timestamptz now; RunRow.rendered_prompt := EmptyString;
     RunRow.read_at := None |}.

Module InboxItem.
Record t := mk {
  RunID : string;
  AgentID : string;
  AgentName : string;
  Status : string;
  Output : string;
  Error : string;
  CreatedAt : Time;
  ReadAt : option Time
}.
End InboxItem.

(** [runs r JOIN agents a ON a.id = r.agent_id]. *)
Definition join_agent (d : Database) (r : RunRow.t) : list (RunRow.t * AgentRow.t) :=
  (λ a, (r, a)) <$> filter (λ a, AgentRow.id a = RunRow.agent_id r) (agents d).

Definition inbox_item (p : RunRow.t * AgentRow.t) : InboxItem.t :=
  let (r, a) := p in
  {| InboxItem.RunID := RunRow.id r; InboxItem.AgentID := RunRow.agent_id r;
     InboxItem.AgentName := AgentRow.name a; InboxItem.Status := RunRow.status r;
     InboxItem.Output := RunRow.output r; InboxItem.Error := RunRow.error r;
     InboxItem.CreatedAt := RunRow.created_at r; InboxItem.ReadAt := RunRow.read_at r |}.

(** The condition on a finished run of the user, and on an unread one. *)
Definition finished_of (u : string) (r : RunRow.t) : Prop :=
  RunRow.user_id r = u ∧ RunRow.finished_at r ≠ None.
Definition unread_of (u : string) (r : RunRow.t) : Prop :=
  finished_of u r ∧ RunRow.read_at r = None.
#[export] Instance finished_of_dec u r : Decision (finished_of u r).
Proof. unfold finished_of. apply _. Defined.
#[export] Instance unread_of_dec u r : Decision (unread_of u r).
Proof. unfold unread_of. apply _. Defined.

(** The order of a run history: [scheduled_for DESC, created_at DESC]. *)
Abbreviation newest_run :=
  (then_by (desc RunRow.scheduled_for) (desc RunRow.created_at)).

Section runs.
Context {PU : PgUuid}.

Definition schedule_arg (s : option string) : result (option string) :=
  match s with
  | None => Ok None
  | Some s => i ←? uuid_arg s; Ok (Some i)
  end.

(** [INSERT INTO runs], with its foreign keys checked. *)
Definition insert_run (userID agentID : string) (scheduleID : option string)
    (trigger status : string) (scheduledFor : Time) (r : Reply) (d : Database)
  : result (RunRow.t * Database) :=
  u ←? uuid_arg userID;
  a ←? uuid_arg agentID;
  s ←? schedule_arg scheduleID;
  if decide (¬ (user_exists d u ∧ agent_exists d a ∧
                (s = None ∨ points_into s (ScheduleRow.id <$> schedules d))))
  then Err (PgError foreign_key_violation)
  else if decide (run_exists d (r_uuid r)) then Err (PgError unique_violation)
  else
    let row := new_run_row (r_uuid r) u a s trigger status scheduledFor (r_now r) in
    Ok (row, d <| runs := runs d ++ [row] |>).

Definition RunStore_Create (userID agentID : string) (scheduleID : option string)
    (trigger status : string) (scheduledFor : Time) : Db Run.t :=
  row ← map_err translateNoRows
          (statement (insert_run userID agentID scheduleID trigger status scheduledFor));
  ret (scanRun row).

Definition RunStore_Get (userID id : string) : Db Run.t :=
  row ← map_err translateNoRows (query (λ d,
    i ←? uuid_arg id; u ←? uuid_arg userID;
    of_option ErrNoRows
      (first_where (λ r, RunRow.id r = i ∧ RunRow.user_id r = u) (runs d))));
  ret (scanRun row).

Definition RunStore_ListByAgent (userID agentID : string) (limit : nat)
  : Db (list Run.t) :=
  rows ← query (λ d,
    a ←? uuid_arg agentID; u ←? uuid_arg userID;
    Ok (take limit (order_by newest_run
          (filter (λ r, RunRow.agent_id r = a ∧ RunRow.user_id r = u) (runs d)))));
  ret (scanRun <$> rows).

(** [UPDATE runs SET ... WHERE id = $1]: a statement on one run by its key. *)
Definition update_run (runID : string) (f : RunRow.t → RunRow.t) (_ : Reply)
    (d : Database) : result (unit * Database) :=
  i ←? uuid_arg runID;
  Ok (tt, d <| runs := update_where (λ r, RunRow.id r = i) f (runs d) |>).

Definition RunStore_SetRenderedPrompt (runID prompt : string) : Db unit :=
  statement (update_run runID (λ r, r <| RunRow.rendered_prompt := prompt |>)).

Definition RunStore_RecentOutputs (userID agentID : string) (limit : Z)
  : Db (list string) :=
  rows ← query (λ d,
    a ←? uuid_arg agentID; u ←? uuid_arg userID;
    if decide (limit < 0) then Err (PgError "2201W")
    else Ok (take (Z.to_nat limit) (order_by (desc_nulls_last RunRow.finished_at)
      (filter (λ r, RunRow.agent_id r = a ∧ RunRow.user_id r = u ∧
                    RunRow.status r = RunSucceeded ∧ RunRow.output r ≠ EmptyString)
              (runs d)))));
  ret (RunRow.output <$> rows).

(** The page of finished runs, then the count of all unread ones. *)
Definition RunStore_Inbox (userID : string) (limit : nat)
  : Db (list InboxItem.t * nat) :=
  items ← query (λ d,
    u ←? uuid_arg userID;
    Ok (inbox_item <$> take limit (order_by (desc_nulls_last (RunRow.finished_at ∘ fst))
          (filter (finished_of u) (runs d) ≫= join_agent d))));
  unread ← query (λ d, u ←? uuid_arg userID; Ok (count_where (unread_of u) (runs d)));
  ret (items, unread).

Definition mark_read (userID runID : string) (now : Time) (_ : Reply) (d : Database)
  : result (nat * Database) :=
  i ←? uuid_arg runID;
  u ←? uuid_arg userID;
  let hit := λ r, RunRow.id r = i ∧ RunRow.user_id r = u ∧ RunRow.read_at r = None in
  Ok (count_where hit (runs d),
      d <| runs := update_where hit
                     (λ r, r <| RunRow.read_at := Some (timestamptz now) |>) (runs d) |>).

Definition RunStore_MarkRead (userID runID : string) (now : Time) : Db unit :=
  affected ← map_err translateNoRows (statement (mark_read userID runID now));
  if decide (affected = 0%nat) then
    exists_ ← map_err translateNoRows (query (λ d,
      i ←? uuid_arg runID; u ←? uuid_arg userID;
      Ok (exists_where (λ r, RunRow.id r = i ∧ RunRow.user_id r = u) (runs d))));
    if exists_ : bool then ret tt else fail ErrNotFound
  else ret tt.
End runs.

(** ** Schedules *)
Definition scanSchedule (s : ScheduleRow.t) : Schedule.t :=
  {| Schedule.ID := ScheduleRow.id s;
     Schedule.AgentID := ScheduleRow.agent_id s;
     Schedule.CronExpression := ScheduleRow.cron_expression s;
     Schedule.Timezone := ScheduleRow.timezone s;
     Schedule.Enabled := ScheduleRow.enabled s;
     Schedule.NextFireAt := ScheduleRow.next_fire_at s;
     Schedule.LastFiredAt := ScheduleRow.last_fired_at s;
     Schedule.CreatedAt := ScheduleRow.created_at s;
     Schedule.UpdatedAt := ScheduleRow.updated_at s |}.

Section schedules.
Context {PU : PgUuid}.

Definition new_schedule_row (id user agent : string) (s : Schedule.t)
    (nextFireAt : Time) (lastFiredWall : string) (now : Time) : ScheduleRow.t :=
  {| ScheduleRow.id := id; ScheduleRow.user_id := user; ScheduleRow.agent_id := agent;
     ScheduleRow.cron_expression := Schedule.CronExpression s;
     ScheduleRow.timezone := Schedule.Timezone s;
     ScheduleRow.enabled := Schedule.Enabled s;
     ScheduleRow.next_fire_at := Some (timestamptz nextFireAt);
     ScheduleRow.last_fired_at := None;
     ScheduleRow.last_fired_wall := lastFiredWall;
     ScheduleRow.created_at := timestamptz now;
     ScheduleRow.updated_at := timestamptz now |}.

(** [ON CONFLICT (agent_id) DO UPDATE SET ... = EXCLUDED...]: the owner, the
    identifier, the creation time and the last fire time stay. *)
Definition replace_schedule (new : ScheduleRow.t) (old : ScheduleRow.t) : ScheduleRow.t :=
  old <| ScheduleRow.cron_expression := ScheduleRow.cron_expression new |>
      <| ScheduleRow.timezone := ScheduleRow.timezone new |>
      <| ScheduleRow.enabled := ScheduleRow.enabled new |>
      <| ScheduleRow.next_fire_at := ScheduleRow.next_fire_at new |>
      <| ScheduleRow.last_fired_wall := ScheduleRow.last_fired_wall new |>
      <| ScheduleRow.updated_at := ScheduleRow.updated_at new |>.

Definition upsert_schedule (userID agentID : string) (s : Schedule.t)
    (nextFireAt : Time) (lastFiredWall : string) (r : Reply) (d : Database)
  : result (ScheduleRow.t * Database) :=
  u ←? uuid_arg userID;
  a ←? uuid_arg agentID;
  let new := new_schedule_row (r_uuid r) u a s nextFireAt lastFiredWall (r_now r) in
  match first_where (λ old, ScheduleRow.agent_id old = a) (schedules d) with
  | Some old =>
      Ok (replace_schedule new old,
          d <| schedules := update_where (λ old, ScheduleRow.agent_id old = a)
                              (replace_schedule new) (schedules d) |>)
  | None =>
      if decide (¬ (user_exists d u ∧ agent_exists d a))
      then Err (PgError foreign_key_violation)
      else if decide (schedule_exists d (r_uuid r)) then Err (PgError unique_violation)
      else Ok (new, d <| schedules := schedules d ++ [new] |>)
  end.

Definition ScheduleStore_Upsert (userID agentID : string) (s : Schedule.t)
    (nextFireAt : Time) (lastFiredWall : string) : Db Schedule.t :=
  row ← map_err translateNoRows
          (statement (upsert_schedule userID agentID s nextFireAt lastFiredWall));
  ret (scanSchedule row).

Definition ScheduleStore_GetByAgent (userID agentID : string) : Db Schedule.t :=
  row ← map_err translateNoRows (query (λ d,
    a ←? uuid_arg agentID; u ←? uuid_arg userID;
    of_option ErrNoRows
      (first_where (λ s, ScheduleRow.agent_id s = a ∧ ScheduleRow.user_id s = u)
                   (schedules d))));
  ret (scanSchedule row).

Definition delete_schedule (userID agentID : string) (_ : Reply) (d : Database)
  : result (nat * Database) :=
  a ←? uuid_arg agentID;
  u ←? uuid_arg userID;
  let hit := λ s, ScheduleRow.agent_id s = a ∧ ScheduleRow.user_id s = u in
  Ok (count_where hit (schedules d), delete_schedules hit d).

Definition ScheduleStore_DeleteByAgent (userID agentID : string) : Db unit :=
  affected ← map_err translateNoRows (statement (delete_schedule userID agentID));
  if decide (affected = 0%nat) then fail ErrNotFound else ret tt.
End schedules.

(** ** Constraints are kept *)
Section wf.
Context {PU : PgUuid}.

Lemma insert_run_Ok userID agentID s trigger status at_ r d row d' :
  insert_run userID agentID s trigger status at_ r d = Ok (row, d') →
  ∃ u a s', uuid_in userID = Some u ∧ uuid_in agentID = Some a ∧
    schedule_arg s = Ok s' ∧ user_exists d u ∧ agent_exists d a ∧
    (s' = None ∨ points_into s' (ScheduleRow.id <$> schedules d)) ∧
    ¬ run_exists d (r_uuid r) ∧
    row = new_run_row (r_uuid r) u a s' trigger status at_ (r_now r) ∧
    d' = d <| runs := runs d ++ [row] |>.
Proof.
  unfold insert_run. intros (u & Hu%of_option_Ok & H)%rbind_Ok.
  apply rbind_Ok in H as (a & Ha%of_option_Ok & H).
  apply rbind_Ok in H as (s' & Hs & H).
  case_decide as Hfk; [done|]. case_decide as Hid; [done|]. simplify_eq.
  destruct Hfk as (? & ? & ?). exists u, a, s'. by split_and!.
Qed.

Lemma wf_insert_run userID agentID s trigger status at_ r d row d' :
  insert_run userID agentID s trigger status at_ r d = Ok (row, d') →
  wf_database d → wf_database d'.
Proof.
  intros (u & a & s' & _ & _ & _ & ? & ? & Hs & Hid & -> & ->)%insert_run_Ok.
  intros []. split; simpl; wf_row. split_and!; [done..|].
  simpl. intros s0 ->. destruct Hs as [?|Hs]; [done|]. exact Hs.
Qed.

(** A change of run columns that keeps the key and the references. *)
Definition keeps_run_refs (f : RunRow.t → RunRow.t) : Prop :=
  ∀ r, RunRow.id (f r) = RunRow.id r ∧ RunRow.user_id (f r) = RunRow.user_id r ∧
       RunRow.agent_id (f r) = RunRow.agent_id r ∧
       RunRow.schedule_id (f r) = RunRow.schedule_id r.

Lemma wf_update_runs P `{∀ r, Decision (P r)} f d :
  keeps_run_refs f → wf_database d →
  wf_database (d <| runs := update_where P f (runs d) |>).
Proof.
  intros Hf []. assert (Hk : RunRow.id <$> update_where P f (runs d) =
                             RunRow.id <$> runs d).
  { apply update_where_key. intros r _. apply Hf. }
  split; simpl; try done; unfold run_exists; simpl; rewrite ?Hk; try done.
  apply Forall_update_where; [done|]. intros r _.
  destruct (Hf r) as (_ & -> & -> & ->). auto.
Qed.

Lemma wf_update_run runID f r d u d' :
  keeps_run_refs f → update_run runID f r d = Ok (u, d') →
  wf_database d → wf_database d'.
Proof.
  intros Hf. unfold update_run. intros (i & _ & [= _ <-])%rbind_Ok.
  by apply wf_update_runs.
Qed.

Lemma wf_mark_read userID runID now r d n d' :
  mark_read userID runID now r d = Ok (n, d') → wf_database d → wf_database d'.
Proof.
  unfold mark_read. intros (i & _ & H)%rbind_Ok.
  apply rbind_Ok in H as (u & _ & [= _ <-]). by apply wf_update_runs.
Qed.

Lemma wf_upsert_schedule userID agentID s at_ wall r d row d' :
  upsert_schedule userID agentID s at_ wall r d = Ok (row, d') →
  wf_database d → wf_database d'.
Proof.
  unfold upsert_schedule. intros (u & _ & H)%rbind_Ok.
  apply rbind_Ok in H as (a & _ & H).
  destruct (first_where _ _) as [old|] eqn:Hfirst.
  - injection H as _ <-. intros [].
    split; simpl; try done; unfold schedule_exists; simpl;
      rewrite ?update_where_key; try done.
    by apply Forall_update_where.
  - case_decide as Hfk; [done|]. case_decide as Hid; [done|]. simplify_eq.
    destruct Hfk as [??]. apply first_where_None in Hfirst.
    intros []. split; simpl; wf_row.
    apply NoDup_key_snoc; [done|]. exact Hfirst.
Qed.

Lemma wf_delete_schedule userID agentID r d n d' :
  delete_schedule userID agentID r d = Ok (n, d') → wf_database d → wf_database d'.
Proof.
  unfold delete_schedule. intros (a & _ & H)%rbind_Ok.
  apply rbind_Ok in H as (u & _ & [= _ <-]). apply wf_delete_schedules.
Qed.
End wf.

#[export] Hint Resolve wf_insert_run wf_mark_read wf_upsert_schedule wf_delete_schedule
  : taskd.
