(* ===== verification/StepStore.v ===== *)
(** * Run traces ([src/pkg/store/steps.go])

    A run's trace is the rows of [run_steps] in the order of their index. *)
From S2P Require Import Prelude GoStrings Model Database AgentStore.
Local Open Scope go_scope.
Local Open Scope Z_scope.

Definition StepModelCall : string := "model_call".
Definition StepToolCall : string := "tool_call".

Module Step.
Record t := mk {
  ID : string;
  StepIndex : Z;
  Kind : string;
  Content : string;
  ToolName : string;
  Arguments_ : string;
  Result : string;
  Error : string;
  PromptTokens : Z;
  CompletionTokens : Z;
  CreatedAt : Time
}.
#[global] Instance eta_t : Eta t := λ s,
  mk (ID s) (StepIndex s) (Kind s) (Content s) (ToolName s) (Arguments_ s) (Result s)
     (Error s) (PromptTokens s) (CompletionTokens s) (CreatedAt s).
End Step.

Definition scanStep (r : StepRow.t) : Step.t :=
  {| Step.ID := StepRow.id r; Step.StepIndex := StepRow.step_index r;
     Step.Kind := StepRow.kind r; Step.Content := StepRow.content r;
     Step.ToolName := StepRow.tool_name r; Step.Arguments_ := StepRow.arguments r;
     Step.Result := StepRow.result r; Step.Error := StepRow.error r;
     Step.PromptTokens := StepRow.prompt_tokens r;
     Step.CompletionTokens := StepRow.completion_tokens r;
     Step.CreatedAt := StepRow.created_at r |}.

(** The key of [idx_run_steps_order]. *)
Definition step_key (s : StepRow.t) : string * Z := (StepRow.run_id s, StepRow.step_index s).

Section steps.
Context {PU : PgUuid}.

Definition new_step_row (id run : string) (index : Z) (s : Step.t) (now : Time)
  : StepRow.t :=
  {| StepRow.id := id; StepRow.run_id := run; StepRow.step_index := index;
     StepRow.kind := Step.Kind s; StepRow.content := Step.Content s;
     StepRow.tool_name := Step.ToolName s; StepRow.arguments := Step.Arguments_ s;
     StepRow.result := Step.Result s; StepRow.error := Step.Error s;
     StepRow.prompt_tokens := Step.PromptTokens s;
     StepRow.completion_tokens := Step.CompletionTokens s;
     StepRow.created_at := timestamptz now |}.

Definition insert_step (runID : string) (index : Z) (step : Step.t) (r : Reply)
    (d : Database) : result (unit * Database) :=
  run ←? uuid_arg runID;
  index ←? int4_arg index;
  _ ←? int4_arg (Step.PromptTokens step);
  _ ←? int4_arg (Step.CompletionTokens step);
  if decide (r_uuid r ∈ StepRow.id <$> run_steps d ∨
             (run, index) ∈ step_key <$> run_steps d)
  then Err (PgError unique_violation)
  else if decide (¬ run_exists d run) then Err (PgError foreign_key_violation)
  else Ok (tt, d <| run_steps :=
             run_steps d ++ [new_step_row (r_uuid r) run index step (r_now r)] |>).

Definition StepStore_Record (runID : string) (index : Z) (step : Step.t) : Db unit :=
  statement (insert_step runID index step).

(** [run_steps s JOIN runs r ON r.id = s.run_id], restricted to a run of the
    user and in the order of the index. *)
Definition trace_rows (d : Database) (u run : string) : list StepRow.t :=
  order_by (asc StepRow.step_index)
    (filter (λ s, StepRow.run_id s = run ∧
                  Exists (λ r, RunRow.id r = StepRow.run_id s ∧ RunRow.user_id r = u)
                         (runs d))
            (run_steps d)).

Definition StepStore_ListByRun (userID runID : string) : Db (list Step.t) :=
  rows ← map_err translateNoRows (query (λ d,
    i ←? uuid_arg runID; u ←? uuid_arg userID; Ok (trace_rows d u i)));
  ret (scanStep <$> rows).

Lemma insert_step_Ok runID index step r d x d' :
  insert_step runID index step r d = Ok (x, d') →
  ∃ run, uuid_in runID = Some run ∧ run_exists d run ∧
    ¬ (run, index) ∈ step_key <$> run_steps d ∧
    d' = (d <| run_steps :=
            run_steps d ++ [new_step_row (r_uuid r) run index step (r_now r)] |>).
Proof.
  unfold insert_step. intros (run & Hrun%of_option_Ok & H)%rbind_Ok.
  apply rbind_Ok in H as (i & [-> _]%int4_arg_Ok & H).
  apply rbind_Ok in H as (? & _ & H). apply rbind_Ok in H as (? & _ & H).
  case_decide as Huniq; [done|]. case_decide as Hfk; [done|]. simplify_eq.
  exists run. split; [done|]. split; [done|]. split; [|done].
  intros ?. apply Huniq. by right.
Qed.

Lemma wf_insert_step runID index step r d x d' :
  insert_step runID index step r d = Ok (x, d') → wf_database d → wf_database d'.
Proof.
  intros (run & _ & Hrun & Huniq & ->)%insert_step_Ok. intros [].
  split; simpl; wf_row.
Qed.
End steps.

#[export] Hint Resolve wf_insert_step : taskd.

(** ** The trace reads in order

    The rows of a run form its trace; the indices of what [ListByRun] returns
    increase strictly, whatever the order the rows were written in. *)
Section trace.
Context {PU : PgUuid}.

Lemma trace_rows_strict d u run :
  wf_database d → StronglySorted (λ a b, StepRow.step_index a < StepRow.step_index b)
                    (trace_rows d u run).
Proof.
  intros Hwf. unfold trace_rows. set (l := filter _ _).
  assert (Hnd : NoDup (StepRow.step_index <$> order_by (asc StepRow.step_index) l)).
  { rewrite order_by_Permutation.
    assert (Hkeys : NoDup (step_key <$> l)).
    { eapply sublist_NoDup; [apply Hwf|]. apply fmap_sublist, sublist_filter. }
    apply NoDup_fmap_2_strong; [|by eapply NoDup_fmap_1].
    intros a b Ha Hb Heq. apply (NoDup_key_inj step_key l); try done.
    apply list_elem_of_filter in Ha as [[Ha _] _], Hb as [[Hb _] _].
    unfold step_key. congruence. }
  pose proof (order_by_sorted (asc StepRow.step_index) l) as Hs.
  induction Hs as [|a l' _ IH Hall]; [constructor|].
  apply NoDup_cons in Hnd as [Hnin Hnd]. constructor; [by apply IH|].
  rewrite Forall_forall in Hall |- *. intros b Hb.
  specialize (Hall b Hb). unfold asc in Hall.
  assert (StepRow.step_index a ≠ StepRow.step_index b); [|lia].
  intros Heq. apply Hnin. rewrite Heq. by apply list_elem_of_fmap_2.
Qed.

(** A trace is returned in the order of its steps, each index once. *)
Lemma trace_in_order userID runID w steps w' :
  wf_database (w_db w) → StepStore_ListByRun userID runID w = (Ok steps, w') →
  StronglySorted Z.lt (Step.StepIndex <$> steps) ∧ w_db w' = w_db w.
Proof.
  intros Hwf (rows & w1 & (r & _ & _ & Hd & Hdb)%map_err_Ok%query_Ok & [-> ->]%ret_Ok)%bind_Ok.
  split; [|done].
  apply rbind_Ok in Hd as (i & _ & Hd). apply rbind_Ok in Hd as (u & _ & [= <-]).
  rewrite <- list_fmap_compose.
  pose proof (trace_rows_strict (w_db w) u i Hwf) as Hs.
  induction Hs as [|a l _ IH Hall]; simpl; constructor; [exact IH|].
  rewrite Forall_fmap. exact Hall.
Qed.
End trace.

Definition traced_database : Database :=
  (example_database <| runs :=
     [RunRow.mk (example_id 5) OwnerUserID (example_id 1) None TriggerManual RunRunning 0 None None
        None None "" "" 0 0 0 "" None] |>)
  <| run_steps := (λ p : nat * Z,
       StepRow.mk (example_id (fst p)) (example_id 5) (snd p) StepModelCall "" "" "" "" "" 0 0 0)
       <$> [(1%nat, 2); (2%nat, 0); (3%nat, 1)] |>.

Lemma trace_in_order_witness :
  let out := @StepStore_ListByRun example_uuid OwnerUserID (example_id 5)
               (mkWorld traced_database [answer 0 1]) in
  ∃ steps, fst out = Ok steps ∧ Step.StepIndex <$> steps = [0; 1; 2] ∧
    StronglySorted Z.lt (Step.StepIndex <$> steps).
Proof.
  intros out. destruct (fst out) as [steps|e] eqn:E.
  2: { assert (Hok : is_ok (fst out) = true) by (vm_compute; reflexivity).
       rewrite E in Hok. discriminate. }
  assert (Hout : out = (Ok steps, snd out)) by (rewrite <- E; apply surjective_pairing).
  assert (Hwf : wf_database traced_database) by wf_concrete.
  destruct (@trace_in_order example_uuid OwnerUserID (example_id 5)
    (mkWorld traced_database [answer 0 1]) steps (snd out) Hwf Hout) as [Hs _].
  exists steps. split; [reflexivity|split; [|exact Hs]].
  assert (Hx : (Step.StepIndex <$> match fst out with Ok l => l | Err _ => [] end) = [0; 1; 2])
    by (vm_compute; reflexivity).
  rewrite E in Hx. exact Hx.
Defined.
