(* ===== verification/MemoryStore.v ===== *)
(** * Agent memory ([src/pkg/store/memory.go])

    A namespace is a log of records, pruned back to its cap after every
    write. *)
From S2P Require Import Prelude GoStrings Model Database AgentStore.
Local Open Scope go_scope.
Local Open Scope Z_scope.

Definition MaxRecordsPerNamespace : nat := 500.
Definition MaxRecordBytes : Z := 16 * 1024.
Definition MaxReadLimit : Z := 50.

Module MemoryRecord.
Record t := mk {
  ID : string;
  AgentID : string;
  Namespace : string;
  Key : string;
  Content : string;
  CreatedAt : Time
}.
End MemoryRecord.

Definition scanMemoryRecord (m : MemoryRow.t) : MemoryRecord.t :=
  {| MemoryRecord.ID := MemoryRow.id m; MemoryRecord.AgentID := MemoryRow.agent_id m;
     MemoryRecord.Namespace := MemoryRow.namespace m; MemoryRecord.Key := MemoryRow.key m;
     MemoryRecord.Content := MemoryRow.content m;
     MemoryRecord.CreatedAt := MemoryRow.created_at m |}.

(** [ORDER BY created_at DESC, id DESC]. *)
Abbreviation newest_record :=
  (then_by (desc MemoryRow.created_at) (desc_str MemoryRow.id)).

(** [WHERE user_id = $1 AND namespace = $2]. *)
Definition in_namespace (u ns : string) (m : MemoryRow.t) : Prop :=
  MemoryRow.user_id m = u ∧ MemoryRow.namespace m = ns.
#[export] Instance in_namespace_dec u ns m : Decision (in_namespace u ns m).
Proof. unfold in_namespace. apply _. Defined.

Definition with_memory (d : Database) (l : list MemoryRow.t) : Database :=
  d <| memory_records := l |>.

Section memory.
Context {PU : PgUuid} {PJ : PgJsonb}.

Definition insert_memory (userID agentID namespace key content : string) (r : Reply)
    (d : Database) : result (MemoryRow.t * Database) :=
  u ←? uuid_arg userID;
  a ←? uuid_arg agentID;
  content ←? jsonb_arg content;
  if decide (r_uuid r ∈ MemoryRow.id <$> memory_records d)
  then Err (PgError unique_violation)
  else if decide (¬ (user_exists d u ∧ agent_exists d a))
  then Err (PgError foreign_key_violation)
  else
    let row := MemoryRow.mk (r_uuid r) u a namespace key content (timestamptz (r_now r)) in
    Ok (row, with_memory d (memory_records d ++ [row])).

(** The sub-select's identifiers survive, the namespace's others go. *)
Definition prune (u ns : string) (t : list MemoryRow.t) : list MemoryRow.t :=
  let kept := MemoryRow.id <$>
    take MaxRecordsPerNamespace (order_by newest_record (filter (in_namespace u ns) t)) in
  delete_where (λ m, in_namespace u ns m ∧ MemoryRow.id m ∉ kept) t.

Definition prune_namespace (userID namespace : string) (_ : Reply) (d : Database)
  : result (unit * Database) :=
  u ←? uuid_arg userID;
  Ok (tt, with_memory d (prune u namespace (memory_records d))).

Definition MemoryStore_Write (userID agentID namespace key content : string)
  : Db MemoryRecord.t :=
  if decide (Z.of_nat (len content) > MaxRecordBytes)
  then fail (Errorf "a memory record may be at most 16384 bytes")
  else
    record ← map_err translateNoRows
               (statement (insert_memory userID agentID namespace key content));
    statement (prune_namespace userID namespace) ;;
    ret (scanMemoryRecord record).

(** [if limit < 1 { limit = 1 }; if limit > MaxReadLimit { ... }] *)
Definition read_limit (limit : Z) : Z :=
  let limit := if decide (limit < 1) then 1 else limit in
  if decide (limit > MaxReadLimit) then MaxReadLimit else limit.

Definition read_rows (u namespace key : string) (limit : Z) (t : list MemoryRow.t)
  : list MemoryRow.t :=
  take (Z.to_nat (read_limit limit))
    (order_by newest_record
       (filter (λ m, in_namespace u namespace m ∧
                     (key ≠ EmptyString → MemoryRow.key m = key)) t)).

Definition MemoryStore_Read (userID namespace key : string) (limit : Z)
  : Db (list MemoryRecord.t) :=
  rows ← map_err translateNoRows (query (λ d,
    u ←? uuid_arg userID; Ok (read_rows u namespace key limit (memory_records d))));
  ret (scanMemoryRecord <$> rows).

Definition MemoryStore_ListByAgent (userID agentID : string) (limit : nat)
  : Db (list MemoryRecord.t) :=
  rows ← map_err translateNoRows (query (λ d,
    u ←? uuid_arg userID; a ←? uuid_arg agentID;
    Ok (take limit (order_by newest_record
      (filter (λ m, MemoryRow.user_id m = u ∧ MemoryRow.agent_id m = a)
              (memory_records d))))));
  ret (scanMemoryRecord <$> rows).

Definition delete_memory (userID id : string) (_ : Reply) (d : Database)
  : result (nat * Database) :=
  i ←? uuid_arg id;
  u ←? uuid_arg userID;
  let hit := λ m, MemoryRow.id m = i ∧ MemoryRow.user_id m = u in
  Ok (count_where hit (memory_records d),
      with_memory d (delete_where hit (memory_records d))).

Definition MemoryStore_Delete (userID id : string) : Db unit :=
  affected ← map_err translateNoRows (statement (delete_memory userID id));
  if decide (affected = 0%nat) then fail ErrNotFound else ret tt.

Definition MemoryStore_CountInNamespace (userID namespace : string) : Db nat :=
  query (λ d,
    u ←? uuid_arg userID; Ok (count_where (in_namespace u namespace) (memory_records d))).
End memory.

(** ** Constraints are kept *)
Section wf.
Context {PU : PgUuid} {PJ : PgJsonb}.

Lemma insert_memory_Ok userID agentID ns key content r d row d' :
  insert_memory userID agentID ns key content r d = Ok (row, d') →
  ∃ u a c, uuid_in userID = Some u ∧ uuid_in agentID = Some a ∧
    jsonb_in content = Some c ∧ user_exists d u ∧ agent_exists d a ∧
    Forall (λ m, MemoryRow.id m ≠ r_uuid r) (memory_records d) ∧
    row = MemoryRow.mk (r_uuid r) u a ns key c (timestamptz (r_now r)) ∧
    d' = with_memory d (memory_records d ++ [row]).
Proof.
  unfold insert_memory. intros (u & Hu%of_option_Ok & H)%rbind_Ok.
  apply rbind_Ok in H as (a & Ha%of_option_Ok & H).
  apply rbind_Ok in H as (c & Hc%of_option_Ok & H).
  case_decide as Hid; [done|]. case_decide as Hfk; [done|]. simplify_eq.
  destruct Hfk. exists u, a, c. split_and!; eauto with taskd.
Qed.

Lemma wf_insert_memory userID agentID ns key content r d row d' :
  insert_memory userID agentID ns key content r d = Ok (row, d') →
  wf_database d → wf_database d'.
Proof.
  intros (u & a & c & _ & _ & _ & ? & ? & ? & -> & ->)%insert_memory_Ok. intros [].
  split; simpl; wf_row. by apply NoDup_key_snoc.
Qed.

Lemma wf_delete_memory_where P `{∀ m, Decision (P m)} d :
  wf_database d → wf_database (with_memory d (delete_where P (memory_records d))).
Proof.
  intros []. split; simpl; try done; [by apply NoDup_key_delete|].
  by apply Forall_delete_where.
Qed.

Lemma MemoryStore_Write_wf userID agentID ns key content :
  keeps wf_database (MemoryStore_Write userID agentID ns key content).
Proof.
  unfold MemoryStore_Write. respects; (apply respects_statement; [typeclasses eauto|]);
    intros r d x d' Hs Hd; [by eapply wf_insert_memory|].
  unfold prune_namespace in Hs. apply rbind_Ok in Hs as (u & _ & [= _ <-]).
  by apply wf_delete_memory_where.
Qed.

Lemma MemoryStore_Delete_wf userID id : keeps wf_database (MemoryStore_Delete userID id).
Proof.
  unfold MemoryStore_Delete. respects. apply respects_statement; [typeclasses eauto|].
  intros r d x d' Hs Hd. unfold delete_memory in Hs.
  apply rbind_Ok in Hs as (i & _ & Hs). apply rbind_Ok in Hs as (u & _ & [= _ <-]).
  by apply wf_delete_memory_where.
Qed.
End wf.

(** ** Pruning *)
Section prune.
Context (u ns : string).
Abbreviation mine := (in_namespace u ns).

(** What is left of the namespace is its first rows in the order newest
    first. *)
Lemma prune_namespace_perm t :
  NoDup (MemoryRow.id <$> t) →
  filter mine (prune u ns t) ≡ₚ
  take MaxRecordsPerNamespace (order_by newest_record (filter mine t)).
Proof.
  intros Hnd. set (top := take _ _).
  assert (Htop : ∀ m, m ∈ top → m ∈ t ∧ mine m).
  { intros m Hm. assert (m ∈ order_by newest_record (filter mine t)) as Hin.
    { by eapply elem_of_sublist, sublist_take. }
    rewrite elem_of_order_by in Hin. apply list_elem_of_filter in Hin as [? ?]. done. }
  assert (Hndt : NoDup t) by by eapply NoDup_fmap_1.
  apply NoDup_Permutation.
  - apply NoDup_filter. unfold prune. by apply NoDup_filter.
  - eapply sublist_NoDup; [|apply sublist_take].
    rewrite order_by_Permutation. by apply NoDup_filter.
  - intros m. rewrite list_elem_of_filter. unfold prune.
    rewrite elem_of_delete_where. fold top. split.
    + intros (Hm & Hin & Hkeep).
      destruct (decide (MemoryRow.id m ∈ MemoryRow.id <$> top)) as [Hk|]; [|tauto].
      apply list_elem_of_fmap in Hk as (m' & Hid & Hm').
      by rewrite (NoDup_key_inj MemoryRow.id t m m' Hnd Hin (proj1 (Htop _ Hm')) Hid).
    + intros Hm. destruct (Htop m Hm) as [? ?]. split_and!; [done..|].
      intros [_ Hn]. apply Hn. by apply list_elem_of_fmap_2.
Qed.

Lemma prune_count t :
  NoDup (MemoryRow.id <$> t) →
  count_where mine (prune u ns t) = (count_where mine t `min` MaxRecordsPerNamespace)%nat.
Proof.
  intros Hnd. unfold count_where. rewrite prune_namespace_perm by done.
  rewrite length_take, length_order_by. lia.
Qed.

Lemma prune_others t m : ¬ mine m → m ∈ prune u ns t ↔ m ∈ t.
Proof. intros Hm. unfold prune. rewrite elem_of_delete_where. tauto. Qed.

(** A pruned row is no newer than any row of its namespace that is left. *)
Lemma prune_oldest t gone left :
  gone ∈ t → gone ∉ prune u ns t → left ∈ prune u ns t → mine left →
  NoDup (MemoryRow.id <$> t) → newest_record left gone.
Proof.
  intros Hgone Hout Hleft Hm Hnd.
  assert (Hl : left ∈ filter mine (prune u ns t)) by by apply list_elem_of_filter.
  rewrite prune_namespace_perm in Hl by done.
  unfold prune in Hout. rewrite elem_of_delete_where in Hout.
  set (top := take _ _) in *.
  destruct (decide (mine gone ∧ MemoryRow.id gone ∉ MemoryRow.id <$> top))
    as [[Hg Hnin]|]; [|tauto].
  eapply (order_by_take_drop newest_record); [exact Hl|].
  assert (Hin : gone ∈ order_by newest_record (filter mine t)).
  { rewrite elem_of_order_by. by apply list_elem_of_filter. }
  rewrite <- (take_drop MaxRecordsPerNamespace (order_by _ _)) in Hin.
  apply elem_of_app in Hin as [Hin|Hin]; [|done].
  destruct Hnin. by apply list_elem_of_fmap_2.
Qed.

(** The strictly newest row of a namespace survives. *)
Lemma prune_keeps_newest t m :
  m ∈ t → mine m → NoDup (MemoryRow.id <$> t) →
  Forall (λ m', mine m' → m' ≠ m → MemoryRow.created_at m' < MemoryRow.created_at m) t →
  m ∈ prune u ns t.
Proof.
  intros Hin Hm Hnd Hnew. apply dec_stable. intros Hout.
  assert (Hcount : (0 < count_where mine (prune u ns t))%nat).
  { rewrite prune_count by done.
    assert (count_where mine t ≠ 0%nat) as Hpos.
    { rewrite count_where_0, Forall_forall. intros Hall. by apply (Hall m). }
    unfold MaxRecordsPerNamespace. lia. }
  unfold count_where in Hcount. destruct (filter mine (prune u ns t)) as [|m' l] eqn:E;
    [simpl in Hcount; lia|].
  assert (m' ∈ filter mine (prune u ns t)) as [Hm' Hin']%list_elem_of_filter
    by (rewrite E; left).
  pose proof (prune_oldest t m m' Hin Hout Hin' Hm' Hnd) as [Hle _].
  rewrite Forall_forall in Hnew. assert (m' ∈ t) as Ht.
  { unfold prune in Hin'. by apply elem_of_delete_where in Hin' as [? _]. }
  specialize (Hnew m' Ht Hm'). unfold desc in Hle.
  destruct (decide (m' = m)) as [->|Hne]; [done|]. specialize (Hnew Hne). lia.
Qed.
End prune.

(** ** What the store promises *)
Section spec.
Context {PU : PgUuid} {PJ : PgJsonb}.

Lemma MemoryStore_Write_Ok userID agentID ns key content w rec w' :
  MemoryStore_Write userID agentID ns key content w = (Ok rec, w') →
  ∃ u r row d1, uuid_in userID = Some u ∧ hd_error (w_replies w) = Some r ∧
    Z.of_nat (len content) ≤ MaxRecordBytes ∧
    insert_memory userID agentID ns key content r (w_db w) = Ok (row, d1) ∧
    rec = scanMemoryRecord row ∧
    w_db w' = with_memory d1 (prune u ns (memory_records d1)).
Proof.
  unfold MemoryStore_Write. case_decide as Hlen; [done|].
  intros (row & w1 & (r & Hr & _ & Hi)%map_err_Ok%statement_Ok & H)%bind_Ok.
  apply bind_Ok in H as (x & w2 & (r2 & _ & _ & Hp)%statement_Ok & [-> ->]%ret_Ok).
  apply rbind_Ok in Hp as (u & Hu%of_option_Ok & [= _ <-]).
  exists u, r, row, (w_db w1). rewrite Hr. split_and!; try done; lia.
Qed.

(** C24: a write keeps its namespace within 500 records by forgetting the oldest
    ones only, refuses records over 16 KiB, and touches no other namespace. *)
Theorem memory_write_bounded userID agentID ns key content w rec w' :
  wf_database (w_db w) →
  MemoryStore_Write userID agentID ns key content w = (Ok rec, w') →
  ∃ u, uuid_in userID = Some u ∧ Z.of_nat (len content) ≤ 16384 ∧
    let before := memory_records (w_db w) in
    let after := memory_records (w_db w') in
    count_where (in_namespace u ns) after =
      ((count_where (in_namespace u ns) before + 1) `min` 500)%nat ∧
    (∀ m, ¬ in_namespace u ns m → m ∈ after ↔ m ∈ before) ∧
    (∀ gone left, gone ∈ before → gone ∉ after → left ∈ after →
       in_namespace u ns left → newest_record left gone) ∧
    wf_database (w_db w').
Proof.
  intros Hwf Hw.
  assert (Hwf' : wf_database (w_db w')).
  { pose proof (MemoryStore_Write_wf userID agentID ns key content w Hwf) as H.
    by rewrite Hw in H. }
  apply MemoryStore_Write_Ok in Hw as (u & r & row & d1 & Hu & _ & Hlen & Hi & _ & Hdb).
  pose proof (wf_insert_memory _ _ _ _ _ _ _ _ _ Hi Hwf) as Hwf1.
  apply insert_memory_Ok in Hi as (u' & a & c & Hu' & _ & _ & _ & _ & _ & Hrow & Hd1).
  rewrite Hu in Hu'; injection Hu' as <-; subst row d1. exists u. simpl. rewrite Hdb. simpl.
  assert (Hnd : NoDup (MemoryRow.id <$> memory_records (w_db w) ++
    [MemoryRow.mk (r_uuid r) u a ns key c (timestamptz (r_now r))])) by apply Hwf1.
  assert (Hnew : in_namespace u ns
    (MemoryRow.mk (r_uuid r) u a ns key c (timestamptz (r_now r)))) by done.
  split_and!; try done.
  - rewrite prune_count by done. unfold count_where at 1.
    rewrite filter_app, filter_cons_True by done. rewrite length_app. done.
  - intros m Hm. rewrite prune_others by done. rewrite elem_of_app, list_elem_of_singleton.
    split; [|by left]. intros [?| ->]; done.
  - intros gone left Hgone Hout Hleft Hm.
    eapply (prune_oldest u ns); [|exact Hout|exact Hleft|exact Hm|exact Hnd].
    apply elem_of_app. by left.
  - rewrite Hdb in Hwf'. exact Hwf'.
Qed.

Lemma read_rows_first u ns key limit t m :
  m ∈ t → in_namespace u ns m → (key ≠ EmptyString → MemoryRow.key m = key) →
  Forall (λ m', in_namespace u ns m' → m' ≠ m →
                MemoryRow.created_at m' < MemoryRow.created_at m) t →
  ∃ rest, read_rows u ns key limit t = m :: rest.
Proof.
  intros Hin Hm Hkey Hnew. unfold read_rows.
  set (l := filter _ t). set (o := order_by _ l).
  assert (Hlim : (0 < Z.to_nat (read_limit limit))%nat).
  { unfold read_limit, MaxReadLimit. repeat case_decide; lia. }
  assert (Ho : m ∈ o) by (apply elem_of_order_by, list_elem_of_filter; done).
  pose proof (order_by_sorted newest_record l) as Hs. fold o in Hs.
  destruct o as [|m' o'] eqn:Eo; [by apply not_elem_of_nil in Ho|].
  destruct (Z.to_nat (read_limit limit)) as [|n]; [lia|]. simpl.
  assert (m' = m) as ->; [|eauto].
  apply dec_stable. intros Hne. apply elem_of_cons in Ho as [?|Ho]; [congruence|].
  apply StronglySorted_inv in Hs as [_ Hall]. rewrite Forall_forall in Hall, Hnew.
  destruct (Hall m Ho) as [Hle _]. unfold desc in Hle.
  assert (Hm' : m' ∈ order_by newest_record l) by (fold o; rewrite Eo; left).
  rewrite elem_of_order_by in Hm'.
  apply list_elem_of_filter in Hm' as [[Hmine _] Hin']. specialize (Hnew m' Hin' Hmine Hne). lia.
Qed.

(** What an agent writes is what it reads first afterwards, by namespace or
    by key, as long as the database's clock has moved on since the records
    already there. *)
Lemma memory_write_read userID agentID ns key content w rec w' r2 rest k limit :
  wf_database (w_db w) →
  MemoryStore_Write userID agentID ns key content w = (Ok rec, w') →
  (∀ r, hd_error (w_replies w) = Some r →
     Forall (λ m, MemoryRow.created_at m < timestamptz (r_now r)) (memory_records (w_db w))) →
  w_replies w' = r2 :: rest → r_fault r2 = None → k = EmptyString ∨ k = key →
  ∃ others, MemoryStore_Read userID ns k limit w' =
            (Ok (rec :: others), w' <| w_replies := rest |>).
Proof.
  intros Hwf Hw Hclock Hr2 Hf Hk.
  apply MemoryStore_Write_Ok in Hw as (u & r & row0 & d1 & Hu & Hhd & _ & Hi & -> & Hdb).
  pose proof (wf_insert_memory _ _ _ _ _ _ _ _ _ Hi Hwf) as Hwf1.
  apply insert_memory_Ok in Hi as (u' & a & c & Hu' & _ & _ & _ & _ & _ & Hrow & Hd1).
  rewrite Hu in Hu'; injection Hu' as <-; subst row0 d1. set (row := MemoryRow.mk _ _ _ _ _ _ _) in *.
  specialize (Hclock r Hhd).
  assert (Hnewest : Forall (λ m', in_namespace u ns m' → m' ≠ row →
    MemoryRow.created_at m' < MemoryRow.created_at row) (memory_records (w_db w) ++ [row])).
  { apply Forall_app. split; [|by apply Forall_singleton].
    eapply Forall_impl; [exact Hclock|]. intros m' Hlt _ _. exact Hlt. }
  assert (Hin : row ∈ prune u ns (memory_records (w_db w) ++ [row])).
  { apply prune_keeps_newest; try done; [apply elem_of_app; right; left|apply Hwf1]. }
  destruct (read_rows_first u ns k limit (memory_records (w_db w')) row) as [others Hread].
  - by rewrite Hdb.
  - done.
  - by destruct Hk as [->| ->].
  - rewrite Hdb. unfold prune. rewrite Forall_forall in Hnewest |- *.
    intros m' [Hm' _]%elem_of_delete_where. by apply Hnewest.
  - exists (scanMemoryRecord <$> others). unfold MemoryStore_Read, bind, map_err.
    destruct w' as [d' ?]. simpl in *. subst. rewrite query_answered by done.
    unfold uuid_arg. rewrite Hu. simpl in *. by rewrite Hread.
Qed.
End spec.

(** ** Closed examples *)
Lemma memory_write_bounded_witness :
  let w := mkWorld example_database [answer (5 * Second) 2; answer (5 * Second) 3] in
  ∃ rec w' u, @MemoryStore_Write example_uuid example_jsonb OwnerUserID (example_id 1)
                "notes" "k" "1" w = (Ok rec, w') ∧
    count_where (in_namespace u "notes") (memory_records (w_db w')) = 1%nat.
Proof.
  intros w.
  destruct (@MemoryStore_Write example_uuid example_jsonb OwnerUserID (example_id 1)
              "notes" "k" "1" w) as [[rec|e] w'] eqn:E;
    [|vm_compute in E; discriminate].
  pose proof (@memory_write_bounded example_uuid example_jsonb OwnerUserID (example_id 1)
    "notes" "k" "1" w rec w' wf_example_database E) as (u & _ & _ & Hcount & _).
  exists rec, w', u. by split.
Defined.

Lemma memory_write_read_witness :
  let w := mkWorld example_database
    [answer (5 * Second) 2; answer (5 * Second) 3; answer (6 * Second) 4] in
  ∃ rec w' others w'',
    @MemoryStore_Write example_uuid example_jsonb OwnerUserID (example_id 1)
      "notes" "k" "1" w = (Ok rec, w') ∧
    @MemoryStore_Read example_uuid OwnerUserID "notes" "k" 7 w' = (Ok (rec :: others), w'').
Proof.
  intros w.
  destruct (@MemoryStore_Write example_uuid example_jsonb OwnerUserID (example_id 1)
              "notes" "k" "1" w) as [[rec|e] w'] eqn:E;
    [|vm_compute in E; discriminate].
  destruct (@memory_write_read example_uuid example_jsonb OwnerUserID (example_id 1)
    "notes" "k" "1" w rec w' (answer (6 * Second) 4) [] "k" 7 wf_example_database E)
    as [others Hread].
  - intros r _. constructor.
  - vm_compute in E. by injection E as _ <-.
  - done.
  - by right.
  - exists rec, w', others, (w' <| w_replies := [] |>). by split.
Defined.
