(* ===== verification/CronSchedule.v ===== *)
(** * Schedules ([src/pkg/schedule/schedule.go])

    Wall clocks and time zones as Go's [time] package has them, the cron
    library as an interface, and [Parse], [checkGranularity], [WallClock] and
    [Next]. *)
From S2P Require Import Prelude GoStrings.
Local Open Scope go_scope.
Local Open Scope Z_scope.

(** ** Wall clocks

    A [*time.Location] is the offset, in seconds east of UTC, in force at each
    Unix second. *)
Record Location := mkLocation { loc_offset : Z → Z }.

(** The wall-clock second a location shows at an instant. *)
Definition unix (t : Time) : Z := t / Second.
Definition local_second (l : Location) (t : Time) : Z :=
  unix t + loc_offset l (unix t).

(** The proleptic Gregorian date of a day counted from 1970-01-01: the day is
    placed in its era of 400 years, whose years start in March. *)
Definition civil_of_days (days : Z) : Z * Z * Z :=
  let z := days + 719468 in
  let era := z / 146097 in
  let doe := z mod 146097 in
  let yoe := (doe - doe / 1460 + doe / 36524 - doe / 146096) / 365 in
  let doy := doe - (365 * yoe + yoe / 4 - yoe / 100) in
  let mp := (5 * doy + 2) / 153 in
  let d := doy - (153 * mp + 2) / 5 + 1 in
  let m := if decide (mp < 10) then mp + 3 else mp - 9 in
  ((if decide (m ≤ 2) then yoe + era * 400 + 1 else yoe + era * 400), m, d).

(** Zero padding to a width, as [time.Format] pads its fields. *)
Fixpoint zeros (n : nat) : string :=
  match n with O => EmptyString | S n' => String (byte_of 48) (zeros n') end.
Definition pad (width : nat) (z : Z) : string :=
  let digits := itoa (Z.abs z) in
  let padded := zeros (width - len digits) +:+ digits in
  if decide (z < 0) then "-" +:+ padded else padded.

(** [Format("2006-01-02T15:04:05")] of a wall-clock second. *)
Definition format_wall (s : Z) : string :=
  let '(y, m, d) := civil_of_days (s / 86400) in
  let sod := s mod 86400 in
  pad 4 y +:+ "-" +:+ pad 2 m +:+ "-" +:+ pad 2 d +:+ "T" +:+
  pad 2 (sod / 3600) +:+ ":" +:+ pad 2 (sod / 60 mod 60) +:+ ":" +:+ pad 2 (sod mod 60).

(** [time.Date(...)] for the wall-clock second [s]: the offset at [s] is tried
    first, and the one in force at the instant it gives is used. *)
Definition time_Date (l : Location) (s : Z) : Time :=
  let o := loc_offset l s in
  (if decide (o = 0) then s else s - loc_offset l (s - o)) * Second.

(** ** The cron library and the zone database

    [LoadLocation] is the embedded zone database and [ParseStandard] and
    [cron_Next] are robfig/cron's parser and [Schedule.Next].  The code relies
    on [Next] answering with an instant strictly after the one it is given, on
    a whole second, or with the zero time. *)
Class Cron := {
  cron_schedule : Type;
  LoadLocation : string → option Location;
  ParseStandard : string → result cron_schedule;
  cron_Next : cron_schedule → Location → Time → Time
}.
Class CronLaws `{!Cron} : Prop := {
  cron_Next_after : ∀ s l t, cron_Next s l t = zero_time ∨ t < cron_Next s l t;
  cron_Next_second : ∀ s l t, (Second | cron_Next s l t)
}.

Definition MinimumInterval : Duration := 5 * Minute.

(** The reference instant of [checkGranularity]: the wall-clock second of
    2025-06-01T00:00:00. *)
Definition reference_second : Z := 1748736000.

Section schedule.
Context {CR : Cron}.

Record Spec := mkSpec {
  Spec_Expression : string;
  Spec_Location : Location;
  Spec_schedule : cron_schedule
}.

Definition WallClock (s : Spec) (t : Time) : string :=
  format_wall (local_second (Spec_Location s) t).

Definition checkGranularity (s : Spec) : option error :=
  let reference := time_Date (Spec_Location s) reference_second in
  let first := cron_Next (Spec_schedule s) (Spec_Location s) reference in
  if time_IsZero first then Some (Errorf "cron expression never fires")
  else
    let second := cron_Next (Spec_schedule s) (Spec_Location s) first in
    if time_IsZero second then None
    else if decide (time_Sub second first < MinimumInterval)
    then Some (Errorf "schedule fires more often than every 5m0s")
    else None.

Definition Parse (expression timezone : string) : result Spec :=
  if decide (timezone = EmptyString) then Err (Errorf "timezone is required")
  else match LoadLocation timezone with
  | None => Err (Errorf ("unknown timezone " +:+ quoted timezone))
  | Some location =>
      match ParseStandard expression with
      | Err e => Err (Wrapf "invalid cron expression" e)
      | Ok parsed =>
          let spec := mkSpec expression location parsed in
          match checkGranularity spec with
          | Some e => Err e
          | None => Ok spec
          end
      end
  end.

Definition Next (s : Spec) (after : Time) (lastFiredWall : string) : Time :=
  let candidate := cron_Next (Spec_schedule s) (Spec_Location s) after in
  if time_IsZero candidate then zero_time
  else if decide (lastFiredWall ≠ EmptyString ∧ WallClock s candidate = lastFiredWall)
  then
    let candidate := cron_Next (Spec_schedule s) (Spec_Location s) candidate in
    if time_IsZero candidate then zero_time else candidate
  else candidate.
End schedule.

(** ** Lemmas *)
Lemma time_IsZero_true t : time_IsZero t = true ↔ t = zero_time.
Proof. apply bool_decide_eq_true. Qed.
Lemma time_IsZero_false t : time_IsZero t = false ↔ t ≠ zero_time.
Proof. apply bool_decide_eq_false. Qed.

Lemma Second_timestamptz t : (Second | t) → timestamptz t = t.
Proof. intros [k ->]. tlia. Qed.

Lemma zero_time_second : (Second | zero_time).
Proof. exists (-62135596800). done. Qed.

Section next.
Context {CR : Cron} {CL : CronLaws}.
Implicit Types s : Spec.

Lemma Next_second s after wall : (Second | Next s after wall).
Proof.
  unfold Next. repeat case_match; auto using zero_time_second, cron_Next_second.
Qed.

Lemma Next_gt s after wall :
  Next s after wall = zero_time ∨ after < Next s after wall.
Proof.
  unfold Next.
  destruct (time_IsZero (cron_Next _ _ after)) eqn:E1; [by left|].
  rewrite time_IsZero_false in E1.
  destruct (cron_Next_after (Spec_schedule s) (Spec_Location s) after) as [?|H1];
    [done|].
  case_decide; [|by right].
  destruct (time_IsZero (cron_Next _ _ (cron_Next _ _ after))) eqn:E2; [by left|].
  rewrite time_IsZero_false in E2. right.
  destruct (cron_Next_after (Spec_schedule s) (Spec_Location s)
              (cron_Next (Spec_schedule s) (Spec_Location s) after)); [done|lia].
Qed.
End next.

(** ** Reading a wall clock back

    [days_of_civil] inverts [civil_of_days], and the digits of a formatted
    wall clock give its fields back, so that two instants of the years the
    format has four digits for read alike only when they show the same second. *)
Definition days_of_civil (date : Z * Z * Z) : Z :=
  let '(y0, m, d) := date in
  let y := if decide (m ≤ 2) then y0 - 1 else y0 in
  let era := y / 400 in
  let yoe := y mod 400 in
  let mp := if decide (2 < m) then m - 3 else m + 9 in
  let doy := (153 * mp + 2) / 5 + d - 1 in
  let doe := yoe * 365 + yoe / 4 - yoe / 100 + doy in
  era * 146097 + doe - 719468.

(** The year of an era a day falls in, and the month of a year. *)
Lemma year_of_era doe yoe :
  0 ≤ doe < 146097 →
  yoe = (doe - doe / 1460 + doe / 36524 - doe / 146096) / 365 →
  0 ≤ yoe < 400 ∧ 0 ≤ doe - (365 * yoe + yoe / 4 - yoe / 100) ≤ 365.
Proof. intros ? ->. split; zlia. Qed.

Lemma month_of_year doy mp :
  0 ≤ doy ≤ 365 → mp = (5 * doy + 2) / 153 →
  0 ≤ mp ≤ 11 ∧ 1 ≤ doy - (153 * mp + 2) / 5 + 1 ≤ 31.
Proof. intros ? ->. split; zlia. Qed.

Lemma civil_of_days_spec days :
  let '(y, m, d) := civil_of_days days in
  1 ≤ m ≤ 12 ∧ 1 ≤ d ≤ 31 ∧ days_of_civil (y, m, d) = days.
Proof.
  unfold civil_of_days, days_of_civil.
  set (z := days + 719468). set (era := z / 146097). set (doe := z mod 146097).
  set (yoe := (doe - doe / 1460 + doe / 36524 - doe / 146096) / 365).
  set (doy := doe - (365 * yoe + yoe / 4 - yoe / 100)).
  set (mp := (5 * doy + 2) / 153).
  assert (Hdoe : 0 ≤ doe < 146097) by (apply Z.mod_pos_bound; lia).
  destruct (year_of_era doe yoe Hdoe eq_refl) as [Hyoe Hdoy].
  destruct (month_of_year doy mp Hdoy eq_refl) as [Hmp Hd].
  assert (Hz : z = era * 146097 + doe) by (subst era doe; zlia).
  assert (Hy : (yoe + era * 400) / 400 = era ∧ (yoe + era * 400) mod 400 = yoe)
    by zlia.
  clearbody mp era doe yoe. split_and!; try (case_decide; lia); try lia.
  assert (Hera : ∀ m : Z, m = (if decide (mp < 10) then mp + 3 else mp - 9) →
    (if decide (m ≤ 2)
     then (if decide (m ≤ 2) then yoe + era * 400 + 1 else yoe + era * 400) - 1
     else (if decide (m ≤ 2) then yoe + era * 400 + 1 else yoe + era * 400)) =
      yoe + era * 400 ∧
    (if decide (2 < m) then m - 3 else m + 9) = mp).
  { intros m ->. repeat case_decide; lia. }
  destruct (Hera _ eq_refl) as [-> ->]. destruct Hy as [-> ->].
  subst doy z. lia.
Qed.

Lemma civil_of_days_inj d1 d2 : civil_of_days d1 = civil_of_days d2 → d1 = d2.
Proof.
  intros Heq. pose proof (civil_of_days_spec d1) as H1.
  pose proof (civil_of_days_spec d2) as H2. rewrite Heq in H1.
  destruct (civil_of_days d2) as [[y m] d]. destruct H1 as (_ & _ & <-), H2 as (_ & _ & <-).
  done.
Qed.

(** The value of a string of digits. *)
Fixpoint digits_value (acc : Z) (s : string) : Z :=
  match s with
  | EmptyString => acc
  | String c s' => digits_value (10 * acc + (Z.of_nat (Ascii.nat_of_ascii c) - 48)) s'
  end.

Definition pad_reads_back (width : nat) (z : Z) : bool :=
  bool_decide (len (pad width z) = width) && bool_decide (digits_value 0 (pad width z) = z).

Lemma pad_2_reads_back : forallb (pad_reads_back 2) (seqZ 0 100) = true.
Proof. vm_compute. reflexivity. Qed.
Lemma pad_4_reads_back : forallb (pad_reads_back 4) (seqZ 0 10000) = true.
Proof. vm_compute. reflexivity. Qed.

Lemma pad_value width n z :
  forallb (pad_reads_back width) (seqZ 0 n) = true → 0 ≤ z < n →
  len (pad width z) = width ∧ digits_value 0 (pad width z) = z.
Proof.
  rewrite forallb_forall. intros Hall Hz.
  assert (Hin : In z (seqZ 0 n)) by (apply list_elem_of_In, elem_of_seqZ; lia).
  apply Hall, andb_true_iff in Hin as [?%bool_decide_eq_true ?%bool_decide_eq_true].
  done.
Qed.

Lemma str_app_inj (a1 b1 a2 b2 : string) :
  len a1 = len b1 → a1 +:+ a2 = b1 +:+ b2 → a1 = b1 ∧ a2 = b2.
Proof.
  revert b1. induction a1 as [|c a1 IH]; intros [|c' b1] Hlen Heq; simpl in *; try done.
  rewrite !append_cons in Heq. injection Heq as -> Heq. injection Hlen as Hlen.
  by destruct (IH b1 Hlen Heq) as [-> ->].
Qed.

Lemma pad_app_inj width n x y s t :
  forallb (pad_reads_back width) (seqZ 0 n) = true → 0 ≤ x < n → 0 ≤ y < n →
  pad width x +:+ s = pad width y +:+ t → x = y ∧ s = t.
Proof.
  intros Hall Hx Hy Heq.
  destruct (pad_value width n x Hall Hx) as [Hlx Hvx].
  destruct (pad_value width n y Hall Hy) as [Hly Hvy].
  apply str_app_inj in Heq as [Hp ->]; [|congruence]. split; [|done].
  by rewrite <- Hvx, Hp.
Qed.

(** The years the layout has four digits for. *)
Definition formatted_year (s : Z) : Prop :=
  let '(y, _, _) := civil_of_days (s / 86400) in 0 ≤ y < 10000.

Lemma format_wall_inj s t :
  formatted_year s → formatted_year t → format_wall s = format_wall t → s = t.
Proof.
  unfold formatted_year, format_wall. intros Hs Ht Heq.
  pose proof (civil_of_days_spec (s / 86400)) as Cs.
  pose proof (civil_of_days_spec (t / 86400)) as Ct.
  destruct (civil_of_days (s / 86400)) as [[y1 m1] d1] eqn:E1.
  destruct (civil_of_days (t / 86400)) as [[y2 m2] d2] eqn:E2.
  destruct Cs as (Hm1 & Hd1 & Cs), Ct as (Hm2 & Hd2 & Ct).
  apply (pad_app_inj 4 10000) in Heq as [-> Heq]; [|exact pad_4_reads_back|lia..].
  do 2 (apply str_app_inj in Heq as [_ Heq]; [|done];
        apply (pad_app_inj 2 100) in Heq as [-> Heq]; [|exact pad_2_reads_back|lia..]).
  do 2 (apply str_app_inj in Heq as [_ Heq]; [|done];
        apply (pad_app_inj 2 100) in Heq as [? Heq]; [|exact pad_2_reads_back|zlia..]).
  apply str_app_inj in Heq as [_ Heq]; [|done].
  rewrite <- (str_app_nil_r (pad 2 (s mod 86400 mod 60))),
    <- (str_app_nil_r (pad 2 (t mod 86400 mod 60))) in Heq.
  apply (pad_app_inj 2 100) in Heq as [? _]; [|exact pad_2_reads_back|zlia..].
  assert (s / 86400 = t / 86400) by congruence. zlia.
Qed.

(** Seconds of the years 1970 to 9999 have a four-digit year. *)
Lemma formatted_year_range s : 0 ≤ s < 253402300800 → formatted_year s.
Proof.
  intros Hs. unfold formatted_year, civil_of_days.
  assert (Hz : 719468 ≤ s / 86400 + 719468 < 3652365) by zlia.
  set (z := s / 86400 + 719468) in *.
  set (era := z / 146097). set (doe := z mod 146097).
  set (yoe := (doe - doe / 1460 + doe / 36524 - doe / 146096) / 365).
  set (doy := doe - (365 * yoe + yoe / 4 - yoe / 100)).
  assert (Hdoe : 0 ≤ doe < 146097) by (apply Z.mod_pos_bound; lia).
  destruct (year_of_era doe yoe Hdoe eq_refl) as [Hyoe Hdoy].
  assert (Hera : 4 ≤ era ≤ 24) by (unfold era; clearbody z; zlia).
  assert (Hsplit : z = 146097 * era + doe) by (by apply Z.div_mod).
  assert (Hlast : era = 24 → yoe = 399 → doy < 306).
  { intros He Hy. unfold doy. rewrite Hy. change (399 / 4) with 99.
    change (399 / 100) with 3. lia. }
  change (0 ≤ doy ≤ 365) in Hdoy. clearbody era yoe doy z.
  repeat case_decide; try lia; zlia.
Qed.

(** What the zone database guarantees: offsets within a day, and no local
    second shown at three instants (a clock is set back at most once over the
    same hour). *)
Record sane_location (l : Location) : Prop := {
  offset_bounded : ∀ u, Z.abs (loc_offset l u) ≤ 86400;
  shown_at_most_twice : ∀ a b c, a < b < c →
    a + loc_offset l a = b + loc_offset l b →
    b + loc_offset l b ≠ c + loc_offset l c
}.

(** The instants from 1970-01-02 to 9999-12-30. *)
Definition calendar_time (t : Time) : Prop :=
  86400 * Second ≤ t < 253402214400 * Second.

Section next_wall.
Context {CR : Cron} {CL : CronLaws}.
Implicit Types s : Spec.

Lemma WallClock_inj s t u :
  sane_location (Spec_Location s) → calendar_time t → calendar_time u →
  WallClock s t = WallClock s u →
  local_second (Spec_Location s) t = local_second (Spec_Location s) u.
Proof.
  intros [Hoff _] Ht Hu. unfold calendar_time in *. apply format_wall_inj;
    apply formatted_year_range; unfold local_second, unix;
    [specialize (Hoff (t / Second))|specialize (Hoff (u / Second))]; tlia.
Qed.

(** C20: the autumn guard works: the fire time after [after], asked for with the
    wall clock of [after] itself, is later than it and never reads the same on
    the owner's clock, even in the hour a zone shows twice. *)
Theorem Next_not_repeated s after :
  sane_location (Spec_Location s) → (Second | after) → calendar_time after →
  let next := Next s after (WallClock s after) in
  next < 253402214400 * Second →
  next = zero_time ∨ after < next ∧ WallClock s next ≠ WallClock s after.
Proof.
  simpl. intros Hsane Hsec Hcal. unfold Next.
  set (nx := cron_Next (Spec_schedule s) (Spec_Location s)).
  destruct (time_IsZero (nx after)) eqn:E1; [by left|]. rewrite time_IsZero_false in E1.
  destruct (cron_Next_after (Spec_schedule s) (Spec_Location s) after) as [?|H1]; [done|].
  fold nx in H1. case_decide as Hc; cycle 1.
  { intros _. right. split; [done|]. intros Heq. apply Hc. split; [|done].
    intros Hempty. unfold WallClock, format_wall in Hempty.
    destruct (civil_of_days _) as [[y m] d]. apply (f_equal len) in Hempty.
    autorewrite with taskd in Hempty. simpl in Hempty. lia. }
  destruct (time_IsZero (nx (nx after))) eqn:E2; [by left|]. rewrite time_IsZero_false in E2.
  destruct (cron_Next_after (Spec_schedule s) (Spec_Location s) (nx after)) as [?|H2]; [done|].
  fold nx in H2. intros Hlt. right. split; [lia|]. intros Heq.
  destruct Hc as [_ Hc]. unfold calendar_time in *.
  apply WallClock_inj in Hc; [|done|unfold calendar_time; lia..].
  apply WallClock_inj in Heq; [|done|unfold calendar_time; lia..].
  unfold local_second, unix in Hc, Heq.
  assert (Hs1 : (Second | nx after)) by apply cron_Next_second.
  assert (Hs2 : (Second | nx (nx after))) by apply cron_Next_second.
  destruct Hsec as [a Ha], Hs1 as [b Hb], Hs2 as [c Hcc].
  assert (Hdiv : ∀ k, k * Second / Second = k) by (intros; tlia).
  rewrite Hcc, Ha, !Hdiv in *. rewrite Hb, Hdiv in *.
  apply (shown_at_most_twice _ Hsane a b c); [|congruence..].
  unfold Second, Microsecond in *. lia.
Qed.
End next_wall.

(** ** A concrete clock

    A cron library whose schedules are periods in seconds, and a zone whose
    clock goes back by an hour at 2025-10-26T01:00:00Z, for closed examples. *)
Definition example_zone : Location :=
  mkLocation (λ u, if decide (u < 1761440400) then 7200 else 3600).
Definition example_cron : Cron := {|
  cron_schedule := positive;
  LoadLocation := λ name,
    if decide (name = "UTC") then Some (mkLocation (λ _, 0))
    else if decide (name = "Europe/Berlin") then Some example_zone else None;
  ParseStandard := λ e,
    if decide (e = "@hourly") then Ok 3600%positive
    else if decide (e = "* * * * *") then Ok 60%positive
    else Err (Errorf "expected exactly 5 fields");
  cron_Next := λ p _ t, (t / (Zpos p * Second) + 1) * (Zpos p * Second)
|}.

Lemma example_cron_laws : @CronLaws example_cron.
Proof.
  split.
  - intros p l t. right. simpl.
    assert (0 < Z.pos p * Second) as Hpos by (unfold Second, Microsecond; lia).
    pose proof (Z.mod_pos_bound t _ Hpos).
    pose proof (Z.div_mod t (Z.pos p * Second)). lia.
  - intros p l t. simpl. eexists ((t / (Z.pos p * Second) + 1) * Z.pos p). lia.
Qed.

(** At 02:00 summer time, one hour before the clock shows 02:00 again. *)
Lemma Next_not_repeated_witness :
  let s := @mkSpec example_cron "@hourly" example_zone 3600%positive in
  let after := 1761436800 * Second in
  let next := @Next example_cron s after (@WallClock example_cron s after) in
  @WallClock example_cron s after = "2025-10-26T02:00:00" ∧
  @WallClock example_cron s (after + Hour) = "2025-10-26T02:00:00" ∧
  next = after + 2 * Hour ∧
  (next = zero_time ∨ after < next ∧
   @WallClock example_cron s next ≠ @WallClock example_cron s after).
Proof.
  intros s after next. split; [vm_compute; reflexivity|].
  split; [vm_compute; reflexivity|]. split; [vm_compute; reflexivity|].
  apply (@Next_not_repeated example_cron example_cron_laws s after).
  - split; simpl; intros; repeat case_decide; lia.
  - by exists 1761436800.
  - by vm_compute.
  - by vm_compute.
Defined.
