(* ===== verification/Materializer.v ===== *)
(** * Schedules become runs ([src/pkg/materializer/materializer.go])

    [RunOnce] expands every due schedule into one run, in one transaction, and
    [resolveFireTimes] decides for which fire time and when the schedule fires
    next. *)
From S2P Require Import Prelude GoStrings Model Database RunStore CronSchedule.
Local Open Scope go_scope.
Local Open Scope Z_scope.

Definition GraceWindow : Duration := 5 * Minute.
Definition maxCatchUpIterations : nat := Z.to_nat 100000.

Module dueSchedule.
Record t := mk {
  id : string;
  userID : string;
  agentID : string;
  expression : string;
  timezone : string;
  nextFireAt : Time;
  lastFiredWall : string
}.
End dueSchedule.

(** [nullableTime]: the zero time is stored as NULL. *)
Definition nullableTime (t : Time) : option Time :=
  if time_IsZero t then None else Some t.

(** The rows the scan selects: enabled schedules of enabled agents whose fire
    time has come, [locked] being the rows other transactions hold
    ([SKIP LOCKED]). *)
Definition is_due (d : Database) (locked : list string) (now : Time) (s : ScheduleRow.t)
  : Prop :=
  ScheduleRow.enabled s = true ∧
  Exists (λ a, AgentRow.id a = ScheduleRow.agent_id s ∧ AgentRow.enabled a = true) (agents d) ∧
  match ScheduleRow.next_fire_at s with
  | Some t => t ≤ timestamptz now
  | None => False
  end ∧
  ScheduleRow.id s ∉ locked.
#[export] Instance is_due_dec d locked now s : Decision (is_due d locked now s).
Proof. unfold is_due. destruct (ScheduleRow.next_fire_at s); apply _. Defined.

Definition scan_due (s : ScheduleRow.t) : dueSchedule.t :=
  {| dueSchedule.id := ScheduleRow.id s;
     dueSchedule.userID := ScheduleRow.user_id s;
     dueSchedule.agentID := ScheduleRow.agent_id s;
     dueSchedule.expression := ScheduleRow.cron_expression s;
     dueSchedule.timezone := ScheduleRow.timezone s;
     dueSchedule.nextFireAt := default 0 (ScheduleRow.next_fire_at s);
     dueSchedule.lastFiredWall := ScheduleRow.last_fired_wall s |}.

Definition due_rows (locked : list string) (now : Time) (d : Database)
  : list ScheduleRow.t :=
  order_by (asc (λ s, default 0 (ScheduleRow.next_fire_at s)))
    (filter (is_due d locked now) (schedules d)).

Section materializer.
Context {PU : PgUuid} {CR : Cron}.

(** The body of the catch-up loop, [n] turns of it being left. *)
Fixpoint catch_up (spec : Spec) (now : Time) (n : nat) (fireAt : Time) : Time * Time :=
  match n with
  | O => (fireAt, zero_time)
  | S n' =>
      let next := Next spec fireAt (WallClock spec fireAt) in
      if time_IsZero next then (fireAt, zero_time)
      else if time_After next now then (fireAt, next)
      else catch_up spec now n' next
  end.

Definition resolveFireTimes (spec : Spec) (item : dueSchedule.t) (now : Time)
  : Time * Time * bool :=
  let '(fireAt, nextFireAt) :=
    catch_up spec now maxCatchUpIterations (dueSchedule.nextFireAt item) in
  (fireAt, nextFireAt, bool_decide (time_Sub now fireAt > GraceWindow)).

(** The UPDATE that advances a schedule. *)
Definition advance_row (next : Time) (fireAt : Time) (wall : string) (now : Time)
    (s : ScheduleRow.t) : ScheduleRow.t :=
  s <| ScheduleRow.next_fire_at := timestamptz <$> nullableTime next |>
    <| ScheduleRow.last_fired_at := Some (timestamptz fireAt) |>
    <| ScheduleRow.last_fired_wall := wall |>
    <| ScheduleRow.updated_at := timestamptz now |>.

Definition advance_schedule (id : string) (next fireAt : Time) (wall : string)
    (r : Reply) (d : Database) : result (unit * Database) :=
  i ←? uuid_arg id;
  Ok (tt, d <| schedules := update_where (λ s, ScheduleRow.id s = i)
                              (advance_row next fireAt wall (r_now r)) (schedules d) |>).

Definition run_status (missed : bool) : string := if missed then RunMissed else RunPending.

Fixpoint materialize_all (now : Time) (due : list dueSchedule.t) (created : nat) : Db nat :=
  match due with
  | [] => ret created
  | item :: rest =>
      match Parse (dueSchedule.expression item) (dueSchedule.timezone item) with
      | Err _ => materialize_all now rest created
      | Ok spec =>
          let '(fireAt, nextFireAt, missed) := resolveFireTimes spec item now in
          statement (insert_run (dueSchedule.userID item) (dueSchedule.agentID item)
                       (Some (dueSchedule.id item)) TriggerSchedule (run_status missed) fireAt) ;;
          statement (advance_schedule (dueSchedule.id item) nextFireAt fireAt
                       (WallClock spec fireAt)) ;;
          materialize_all now rest (S created)
      end
  end.

Definition Materializer_RunOnce (locked : list string) (now : Time) : Db nat :=
  in_transaction
    (due ← query (λ d, Ok (scan_due <$> due_rows locked now d));
     materialize_all now due 0).
End materializer.

(** ** Which fire time, and which next *)
Section resolve.
Context {CR : Cron} {CL : CronLaws}.
Implicit Types spec : Spec.

(** One occurrence of a schedule after another. *)
Definition follows spec (t u : Time) : Prop :=
  u = Next spec t (WallClock spec t) ∧ u ≠ zero_time.

Lemma follows_gt spec t u : follows spec t u → t < u.
Proof. intros [-> Hz]. by destruct (Next_gt spec t (WallClock spec t)). Qed.

Lemma follows_chain_le spec t u : rtc (follows spec) t u → t ≤ u.
Proof. induction 1 as [|t u v H%follows_gt _ IH]; lia. Qed.

Lemma catch_up_spec spec now n t fireAt next :
  t ≤ now → catch_up spec now n t = (fireAt, next) →
  rtc (follows spec) t fireAt ∧ fireAt ≤ now ∧
  (next = zero_time ∨ follows spec fireAt next ∧ now < next).
Proof.
  revert t. induction n as [|n IH]; simpl; intros t Ht Heq; [by simplify_eq; auto using rtc_refl|].
  destruct (time_IsZero _) eqn:Hz; [by simplify_eq; auto using rtc_refl|].
  rewrite time_IsZero_false in Hz. unfold time_After in Heq.
  case_bool_decide as Hafter; [simplify_eq; split_and!; eauto using rtc_refl; by right|].
  assert (Hf : follows spec t (Next spec t (WallClock spec t))) by done.
  apply IH in Heq as (Hchain & Hle & Hnext); [|lia].
  split_and!; [by eapply rtc_l|done|done].
Qed.

Lemma resolveFireTimes_catch_up spec item now fireAt next missed :
  resolveFireTimes spec item now = (fireAt, next, missed) →
  catch_up spec now maxCatchUpIterations (dueSchedule.nextFireAt item) = (fireAt, next) ∧
  missed = bool_decide (time_Sub now fireAt > GraceWindow).
Proof.
  unfold resolveFireTimes.
  destruct (catch_up spec now maxCatchUpIterations (dueSchedule.nextFireAt item)) as [f n].
  by intros [= <- <- <-].
Qed.

(** A turn of the loop moves by a whole second at least, so the loop ends by
    itself when fewer seconds than turns have gone by. *)
Lemma catch_up_ends spec now n t fireAt next :
  (Second | t) → t ≤ now → now - t < Z.of_nat n * Second →
  catch_up spec now n t = (fireAt, next) →
  next = Next spec fireAt (WallClock spec fireAt).
Proof.
  revert t. induction n as [|n IH]; simpl; intros t Hsec Ht Hn Heq; [lia|].
  destruct (time_IsZero _) eqn:Hz.
  { rewrite time_IsZero_true in Hz. by simplify_eq. }
  rewrite time_IsZero_false in Hz. unfold time_After in Heq.
  case_bool_decide as Hafter; [by simplify_eq|].
  assert (Hf : follows spec t (Next spec t (WallClock spec t))) by done.
  apply follows_gt in Hf.
  pose proof (Next_second spec t (WallClock spec t)) as Hsec'.
  eapply IH; [exact Hsec'|lia| |exact Heq].
  destruct Hsec as [a Ha], Hsec' as [b Hb].
  assert (a + 1 ≤ b); [|unfold Second, Microsecond in *; lia].
  unfold Second, Microsecond in *. nia.
Qed.

(** C7: the run is for the latest occurrence that has come, the schedule moves
    on to the first one still ahead, and the run is recorded as missed exactly
    when it is more than the grace window of five minutes late. *)
Theorem resolveFireTimes_spec spec item now :
  let t0 := dueSchedule.nextFireAt item in
  (Second | t0) → t0 ≤ now < t0 + 100000 * Second →
  let '(fireAt, next, missed) := resolveFireTimes spec item now in
  rtc (follows spec) t0 fireAt ∧ t0 ≤ fireAt ≤ now ∧
  next = Next spec fireAt (WallClock spec fireAt) ∧
  (next = zero_time ∨ now < next) ∧
  (missed = true ↔ fireAt + 5 * Minute < now).
Proof.
  simpl. intros Hsec [Hle Hlt]. unfold resolveFireTimes.
  destruct (catch_up _ _ _ _) as [fireAt next] eqn:E.
  assert (Hn : Z.of_nat maxCatchUpIterations = 100000)
    by (unfold maxCatchUpIterations; lia).
  pose proof (catch_up_ends _ _ _ _ _ _ Hsec Hle ltac:(rewrite Hn; lia) E) as Hnext.
  apply catch_up_spec in E as (Hchain & Hfire & Hn'); [|done].
  pose proof (follows_chain_le _ _ _ Hchain).
  split_and!; [done..| |].
  - destruct Hn' as [?|[_ ?]]; auto.
  - rewrite bool_decide_eq_true. unfold GraceWindow. rewrite Z.gt_lt_iff, time_Sub_gt; [lia|].
    unfold minDuration, maxDuration, Minute, Second, Microsecond. lia.
Qed.
End resolve.

(** ** What one scan does *)
Section run_once.
Context {PU : PgUuid} {CR : Cron} {CL : CronLaws}.

(** The schedule's expression and zone still make sense. *)
Definition parses (s : ScheduleRow.t) : Prop :=
  is_ok (Parse (ScheduleRow.cron_expression s) (ScheduleRow.timezone s)) = true.
#[export] Instance parses_dec s : Decision (parses s).
Proof. unfold parses. apply _. Defined.

(** The identifiers of a stored schedule are in the server's normal form. *)
Definition normal_schedule (s : ScheduleRow.t) : Prop :=
  uuid_in (ScheduleRow.id s) = Some (ScheduleRow.id s) ∧
  uuid_in (ScheduleRow.agent_id s) = Some (ScheduleRow.agent_id s) ∧
  uuid_in (ScheduleRow.user_id s) = Some (ScheduleRow.user_id s).

#[export] Instance normal_schedule_dec s : Decision (normal_schedule s).
Proof. unfold normal_schedule. apply _. Defined.

(** The run [s] gives rise to at [now], and the row [s] becomes. *)
Definition run_for (now : Time) (s : ScheduleRow.t) (r : RunRow.t) : Prop :=
  ∃ spec fireAt next missed id created,
    Parse (ScheduleRow.cron_expression s) (ScheduleRow.timezone s) = Ok spec ∧
    resolveFireTimes spec (scan_due s) now = (fireAt, next, missed) ∧
    r = new_run_row id (ScheduleRow.user_id s) (ScheduleRow.agent_id s)
          (Some (ScheduleRow.id s)) TriggerSchedule (run_status missed) fireAt created.

Definition advanced (now : Time) (s s' : ScheduleRow.t) : Prop :=
  ∃ spec fireAt next missed at_,
    Parse (ScheduleRow.cron_expression s) (ScheduleRow.timezone s) = Ok spec ∧
    resolveFireTimes spec (scan_due s) now = (fireAt, next, missed) ∧
    s' = advance_row next fireAt (WallClock spec fireAt) at_ s.

(** Every schedule of [fired] is advanced, the others stay as they are. *)
Definition moved (now : Time) (fired : list ScheduleRow.t) (s s' : ScheduleRow.t) : Prop :=
  if decide (ScheduleRow.id s ∈ ScheduleRow.id <$> fired)
  then advanced now s s' else s' = s.

Lemma advance_schedule_Ok id next fireAt wall r d x d' :
  advance_schedule id next fireAt wall r d = Ok (x, d') → uuid_in id = Some id →
  d' = d <| schedules := update_where (λ s, ScheduleRow.id s = id)
              (advance_row next fireAt wall (r_now r)) (schedules d) |>.
Proof.
  unfold advance_schedule, uuid_arg. intros H Hid. rewrite Hid in H. by injection H as _ <-.
Qed.

Lemma wf_advance_schedule id next fireAt wall r d x d' :
  advance_schedule id next fireAt wall r d = Ok (x, d') →
  wf_database d → wf_database d'.
Proof.
  unfold advance_schedule. intros (i & _ & [= _ <-])%rbind_Ok. intros [].
  split; simpl; try done; unfold schedule_exists; simpl; rewrite ?update_where_key; try done.
  by apply Forall_update_where.
Qed.

Lemma materialize_all_wf now due n : keeps wf_database (materialize_all now due n).
Proof.
  revert n. induction due as [|item due IH]; intros n; simpl; respects; try apply IH.
  - apply respects_statement; [typeclasses eauto|]. intros; intros ?; by eapply wf_insert_run.
  - apply respects_statement; [typeclasses eauto|]. intros; intros ?; by eapply wf_advance_schedule.
Qed.

Lemma Materializer_RunOnce_wf locked now : keeps wf_database (Materializer_RunOnce locked now).
Proof. unfold Materializer_RunOnce. respects. apply materialize_all_wf. Qed.

(** One row moved before the others of a list without it. *)
Lemma moved_step now x fired next fireAt wall at_ s s' t :
  s ∈ t → x ∈ t → NoDup (ScheduleRow.id <$> t) →
  ScheduleRow.id x ∉ ScheduleRow.id <$> fired →
  advanced now x (advance_row next fireAt wall at_ x) →
  moved now fired (if decide (ScheduleRow.id s = ScheduleRow.id x)
                   then advance_row next fireAt wall at_ s else s) s' →
  moved now (x :: fired) s s'.
Proof.
  intros Hs Hx Hnd Hnin Hadv Hm. unfold moved in *. rewrite fmap_cons.
  destruct (decide (ScheduleRow.id s = ScheduleRow.id x)) as [Heq|Hne].
  - assert (s = x) as -> by by apply (NoDup_key_inj ScheduleRow.id t).
    rewrite decide_False in Hm by done. rewrite decide_True by left. by subst.
  - destruct (decide (ScheduleRow.id s ∈ ScheduleRow.id <$> fired)).
    + by rewrite decide_True by by right.
    + by rewrite decide_False by by rewrite elem_of_cons; intros [?|?].
Qed.

Lemma materialize_all_Ok now rows created w n w' :
  NoDup (ScheduleRow.id <$> schedules (w_db w)) → NoDup (ScheduleRow.id <$> rows) →
  Forall (λ s, s ∈ schedules (w_db w) ∧ normal_schedule s) rows →
  materialize_all now (scan_due <$> rows) created w = (Ok n, w') →
  ∃ new, runs (w_db w') = runs (w_db w) ++ new ∧ n = (created + length new)%nat ∧
    Forall2 (run_for now) (filter parses rows) new ∧
    Forall2 (moved now (filter parses rows)) (schedules (w_db w)) (schedules (w_db w')) ∧
    agents (w_db w') = agents (w_db w).
Proof.
  revert created w. induction rows as [|x rows IH]; intros created w Hnd Hndr Hrows H.
  { apply ret_Ok in H as [-> ->]. exists []. rewrite app_nil_r, Nat.add_0_r.
    split_and!; try done. by apply Forall_Forall2_diag, Forall_true. }
  apply NoDup_cons in Hndr as [Hx Hndr]. apply Forall_cons in Hrows as [[Hxin Hxn] Hrows].
  rewrite filter_cons. simpl in H.
  destruct (decide (parses x)) as [Hpx|Hpx]; unfold parses in Hpx;
    destruct (Parse _ _) as [spec|e] eqn:Hp; try done; [|by apply IH in H].
  destruct (resolveFireTimes _ _ _) as [[fireAt next] missed] eqn:Hr.
  apply bind_Ok in H as (row & w1 & (r1 & _ & _ & Hi)%statement_Ok & H).
  apply bind_Ok in H as (u & w2 & (r2 & _ & _ & Ha)%statement_Ok & H).
  destruct Hxn as (Hid & Hag & Hus).
  apply insert_run_Ok in Hi as (u' & a' & s' & Hu' & Ha' & Hs' & _ & _ & _ & _ & Hrow & Hd1).
  simpl in Hu', Ha', Hs'. unfold uuid_arg in Hs'. rewrite Hid in Hs'.
  rewrite Hus in Hu'. rewrite Hag in Ha'. simpl in Hs'. simplify_eq.
  apply advance_schedule_Ok in Ha; [|done]. simpl in Ha.
  assert (Hk : ScheduleRow.id <$> schedules (w_db w2) = ScheduleRow.id <$> schedules (w_db w)).
  { rewrite Ha. simpl. rewrite Hd1. simpl. by rewrite update_where_key. }
  apply IH in H as (new & Hruns & -> & Hnew & Hmoved & Hagents).
  - eexists (_ :: new).
    rewrite Hruns, Hagents, Ha. simpl. rewrite Hd1. simpl. rewrite <- app_assoc.
    split_and!; try done.
    + constructor; [|done]. exists spec, fireAt, next, missed, (r_uuid r1), (r_now r1). done.
    + rewrite Ha, Hd1 in Hmoved. simpl in Hmoved. unfold update_where in Hmoved.
      rewrite Forall2_fmap_l in Hmoved. eapply Forall2_impl_in; [exact Hmoved|].
      intros s s' Hs Hm. simpl in Hm. eapply moved_step; try done.
      * intros (y & Hy & Hin)%list_elem_of_fmap. apply Hx.
        apply list_elem_of_filter in Hin as [_ Hin]. rewrite Hy. by apply list_elem_of_fmap_2.
      * exists spec, fireAt, next, missed, (r_now r2). done.
  - by rewrite Hk.
  - done.
  - rewrite Forall_forall in Hrows |- *. intros s Hs. destruct (Hrows s Hs) as [Hin ?].
    split; [|done]. rewrite Ha. simpl. rewrite Hd1. simpl. apply elem_of_update_where.
    exists s. split; [done|]. right. split; [|done]. intros Heq. apply Hx.
    rewrite <- Heq. by apply list_elem_of_fmap_2.
Qed.
End run_once.

Section run_once_spec.
Context {PU : PgUuid} {CR : Cron} {CL : CronLaws}.

Lemma due_rows_perm locked now d :
  due_rows locked now d ≡ₚ filter (is_due d locked now) (schedules d).
Proof. apply order_by_Permutation. Qed.

Lemma RunOnce_Ok locked now w n w' :
  wf_database (w_db w) → Forall normal_schedule (schedules (w_db w)) →
  Materializer_RunOnce locked now w = (Ok n, w') →
  let fired := filter parses (due_rows locked now (w_db w)) in
  ∃ new, runs (w_db w') = runs (w_db w) ++ new ∧ n = length new ∧
    Forall2 (run_for now) fired new ∧
    Forall2 (moved now fired) (schedules (w_db w)) (schedules (w_db w')) ∧
    agents (w_db w') = agents (w_db w).
Proof.
  intros Hwf Hnorm H fired.
  apply in_transaction_Ok in H as (rb & w1 & w2 & _ & Hw1 & Hb & Hw').
  apply bind_Ok in Hb as (due & w3 & (r & _ & _ & [= <-] & Hw3)%query_Ok & Hall).
  rewrite Hw1 in Hw3, Hall. apply materialize_all_Ok in Hall as (new & Hr & -> & Hf & Hm & Ha).
  - exists new. rewrite Hw', <- Hw3. by split_and!.
  - rewrite Hw3. apply Hwf.
  - rewrite due_rows_perm. eapply sublist_NoDup; [exact (wf_schedules_pk _ Hwf)|].
    apply fmap_sublist, sublist_filter.
  - rewrite Hw3. rewrite Forall_forall in Hnorm |- *. intros s Hs.
    rewrite due_rows_perm in Hs. apply list_elem_of_filter in Hs as [_ Hs]. auto.
Qed.

(** C8: a scan turns every due schedule that parses into exactly one run for
    its latest occurrence and advances it, touches nothing else, and is all or
    nothing: when any statement fails, no run is created and no schedule
    moves. *)
Theorem RunOnce_one_run_each locked now w res w' :
  wf_database (w_db w) → Forall normal_schedule (schedules (w_db w)) →
  Materializer_RunOnce locked now w = (res, w') →
  match res with
  | Ok n =>
      let fired := filter parses (due_rows locked now (w_db w)) in
      (∃ new, runs (w_db w') = runs (w_db w) ++ new ∧ n = length new ∧
              Forall2 (run_for now) fired new) ∧
      Forall2 (moved now fired) (schedules (w_db w)) (schedules (w_db w')) ∧
      wf_database (w_db w')
  | Err _ => w_db w' = w_db w
  end.
Proof.
  intros Hwf Hnorm H. destruct res as [n|e]; [|by eapply in_transaction_Err].
  assert (wf_database (w_db w')).
  { pose proof (Materializer_RunOnce_wf locked now w Hwf) as Hwf'. by rewrite H in Hwf'. }
  apply RunOnce_Ok in H as (new & ? & ? & ? & ? & _); eauto 10.
Qed.

(** A schedule just advanced is not due at the same instant. *)
Lemma advanced_not_due locked d now s s' :
  default 0 (ScheduleRow.next_fire_at s) ≤ now →
  advanced now s s' → ¬ is_due d locked now s'.
Proof.
  intros Hle (spec & fireAt & next & missed & at_ & _ & Hr & ->) (_ & _ & Hdue & _).
  apply resolveFireTimes_catch_up in Hr as [E _].
  apply catch_up_spec in E as (_ & _ & Hn); [|done]. simpl in Hdue.
  unfold nullableTime in Hdue. destruct (time_IsZero next) eqn:Hz; [done|]. simpl in Hdue.
  rewrite time_IsZero_false in Hz. destruct Hn as [?|[[Hf _] Hlt]]; [done|].
  rewrite Second_timestamptz in Hdue; [|rewrite Hf; apply Next_second].
  pose proof (timestamptz_le now). lia.
Qed.

Lemma is_due_agents d d' locked now s :
  agents d' = agents d → is_due d' locked now s ↔ is_due d locked now s.
Proof. intros Ha. unfold is_due. by rewrite Ha. Qed.

Lemma is_due_le d locked now s :
  is_due d locked now s → default 0 (ScheduleRow.next_fire_at s) ≤ now.
Proof.
  intros (_ & _ & Hdue & _). destruct (ScheduleRow.next_fire_at s) as [t|]; [|done].
  simpl. pose proof (timestamptz_le now). lia.
Qed.

(** C9: scanning twice at the same instant creates nothing the second time, so
    that two ticks of the coordinator do not run an agent twice. *)
Theorem RunOnce_idempotent locked now w n w' n' w'' :
  wf_database (w_db w) → Forall normal_schedule (schedules (w_db w)) →
  Forall normal_schedule (schedules (w_db w')) →
  Materializer_RunOnce [] now w = (Ok n, w') →
  Materializer_RunOnce locked now w' = (Ok n', w'') →
  n' = 0%nat ∧ runs (w_db w'') = runs (w_db w') ∧
  schedules (w_db w'') = schedules (w_db w').
Proof.
  intros Hwf Hn1 Hn2 H1 H2.
  assert (Hwf' : wf_database (w_db w')).
  { pose proof (Materializer_RunOnce_wf [] now w Hwf) as Hwf'. by rewrite H1 in Hwf'. }
  apply RunOnce_Ok in H1 as (new & _ & _ & _ & Hmoved & Hag); [|done..].
  apply RunOnce_Ok in H2 as (new2 & Hr2 & -> & Hf2 & Hm2 & _); [|done..].
  assert (Hnone : filter parses (due_rows locked now (w_db w')) = []).
  { apply filter_nil_iff, Forall_forall. intros s' Hs' Hp.
    rewrite due_rows_perm in Hs'. apply list_elem_of_filter in Hs' as [Hdue Hin].
    apply list_elem_of_lookup in Hin as [i Hi].
    destruct (Forall2_lookup_r _ _ _ _ _ Hmoved Hi) as (s & Hs & Hm).
    rewrite (is_due_agents _ _ _ _ _ Hag) in Hdue. unfold moved in Hm. case_decide as Hfired.
    - apply list_elem_of_fmap in Hfired as (x & Hx & [_ Hx']%list_elem_of_filter).
      rewrite due_rows_perm in Hx'. apply list_elem_of_filter in Hx' as [Hxdue Hxin].
      assert (s = x) as ->.
      { eapply (NoDup_key_inj ScheduleRow.id); [exact (wf_schedules_pk _ Hwf)| |done|done].
        by eapply list_elem_of_lookup_2. }
      by eapply advanced_not_due; [eapply is_due_le|exact Hm|].
    - subst s'. apply Hfired, list_elem_of_fmap_2, list_elem_of_filter. split; [done|].
      rewrite due_rows_perm. apply list_elem_of_filter.
      split; [|by eapply list_elem_of_lookup_2].
      destruct Hdue as (? & ? & ? & _). split_and!; try done. apply not_elem_of_nil. }
  rewrite Hnone in Hf2, Hm2. apply Forall2_nil_inv_l in Hf2 as ->.
  rewrite app_nil_r in Hr2. split_and!; try done.
  clear -Hm2. induction Hm2 as [|s s' l l' Hs _ IH]; [done|]. unfold moved in Hs.
  rewrite decide_False in Hs by apply not_elem_of_nil. by rewrite Hs, IH.
Qed.
End run_once_spec.

(** ** The bound of the catch-up loop *)
Section bound.
Context {PU : PgUuid} {CR : Cron} {CL : CronLaws}.

Lemma catch_up_exhausted spec now d n t :
  (∀ u, t ≤ u → Next spec u (WallClock spec u) ≠ zero_time ∧
                Next spec u (WallClock spec u) ≤ u + d) →
  t + Z.of_nat n * d ≤ now → snd (catch_up spec now n t) = zero_time.
Proof.
  revert t. induction n as [|n IH]; intros t Hgap Hnow; [done|]. simpl.
  destruct (Hgap t ltac:(lia)) as [Hz Hle].
  pose proof (follows_gt spec t _ (conj eq_refl Hz)) as Hgt.
  rewrite (proj2 (time_IsZero_false _) Hz). unfold time_After.
  rewrite bool_decide_eq_false_2 by nia. apply IH; [|nia].
  intros u Hu. apply Hgap. lia.
Qed.

(** An outage that swallows a hundred thousand occurrences retires the
    schedule: the loop stops at its bound, the next fire time is stored as
    NULL, and no later scan finds the schedule due although it is still
    enabled. *)
Lemma long_outage_retires spec item now gap :
  let t0 := dueSchedule.nextFireAt item in
  (∀ t, t0 ≤ t → Next spec t (WallClock spec t) ≠ zero_time ∧
                 Next spec t (WallClock spec t) ≤ t + gap) →
  t0 + 100000 * gap ≤ now →
  ∃ fireAt missed, resolveFireTimes spec item now = (fireAt, zero_time, missed) ∧
    ∀ wall at_ s d locked now',
      ScheduleRow.enabled (advance_row zero_time fireAt wall at_ s) = ScheduleRow.enabled s ∧
      ¬ is_due d locked now' (advance_row zero_time fireAt wall at_ s).
Proof.
  simpl. intros Hgap Hnow.
  destruct (resolveFireTimes spec item now) as [[fireAt next] missed] eqn:E.
  apply resolveFireTimes_catch_up in E as [E ->].
  pose proof (catch_up_exhausted spec now gap maxCatchUpIterations _ Hgap) as Hz.
  rewrite E in Hz. simpl in Hz. rewrite Hz.
  - eexists _, _. split; [done|]. intros. split; [done|]. by intros (_ & _ & Hdue & _).
  - unfold maxCatchUpIterations. rewrite Z2Nat.id; lia.
Qed.
End bound.

(** ** Closed examples *)
Definition example_schedule_row : ScheduleRow.t :=
  ScheduleRow.mk (example_id 7) OwnerUserID (example_id 1) "@hourly" "UTC" true
    (Some Hour) None "" 0 0.
Definition scheduled_database : Database :=
  example_database <| schedules := [example_schedule_row] |>.
Definition example_replies (n : nat) : list Reply :=
  (λ i, answer (Hour + Minute) (8 + i)) <$> seq 0 n.

Lemma wf_scheduled_database : wf_database scheduled_database.
Proof. wf_concrete. Qed.

Lemma resolveFireTimes_spec_witness :
  let spec := @mkSpec example_cron "@hourly" example_zone 3600%positive in
  let item := scan_due example_schedule_row in
  rtc (@follows example_cron spec) Hour (3 * Hour).
Proof.
  intros spec item.
  pose proof (@resolveFireTimes_spec example_cron example_cron_laws spec item
    (3 * Hour + Minute)) as H.
  assert (E : @resolveFireTimes example_cron spec item (3 * Hour + Minute) =
              (3 * Hour, 4 * Hour, false)) by (vm_compute; reflexivity).
  rewrite E in H. apply H; [by exists 3600|]. split; vm_compute; congruence.
Defined.

Lemma long_outage_retires_witness :
  let spec := @mkSpec example_cron "*/5 * * * *" (mkLocation (λ _, 0)) 300%positive in
  let item := dueSchedule.mk "" "" "" "" "" 0 "" in
  ∃ fireAt missed,
    @resolveFireTimes example_cron spec item (100000 * (600 * Second)) =
    (fireAt, zero_time, missed).
Proof.
  intros spec item.
  destruct (@long_outage_retires example_cron example_cron_laws spec item
    (100000 * (600 * Second)) (600 * Second)) as (f & m & H & _); [|done|by exists f, m].
  intros t Ht. change (0 ≤ t) in Ht.
  assert (Hc : ∀ u, 0 ≤ u → 0 < @cron_Next example_cron 300%positive (mkLocation (λ _, 0)) u
    ≤ u + 300 * Second) by (intros; simpl; tlia).
  pose proof (Hc t Ht) as H1. unfold Next, time_IsZero. simpl Spec_schedule in *.
  simpl Spec_Location in *. pose proof (Hc _ (Z.lt_le_incl _ _ (proj1 H1))) as H2.
  unfold zero_time, Second, Microsecond in *.
  repeat (case_bool_decide || case_decide); split; lia.
Defined.

Lemma RunOnce_one_run_each_witness :
  let w := mkWorld scheduled_database (example_replies 5) in
  ∃ w', @Materializer_RunOnce example_uuid example_cron [] (Hour + Minute) w = (Ok 1%nat, w') ∧
    ∃ new, runs (w_db w') = runs (w_db w) ++ new ∧ 1%nat = length new.
Proof.
  intros w.
  destruct (@Materializer_RunOnce example_uuid example_cron [] (Hour + Minute) w)
    as [[n|e] w'] eqn:E; [|vm_compute in E; discriminate].
  assert (n = 1%nat) as -> by (vm_compute in E; congruence).
  exists w'. split; [done|].
  destruct (@RunOnce_one_run_each example_uuid example_cron [] (Hour + Minute)
    w (Ok 1%nat) w' wf_scheduled_database) as [(new & ? & ? & _) _].
  - by repeat constructor.
  - exact E.
  - eauto.
Defined.

Lemma RunOnce_idempotent_witness :
  let scan := @Materializer_RunOnce example_uuid example_cron [] (Hour + Minute) in
  let w' := snd (scan (mkWorld scheduled_database (example_replies 9))) in
  length (runs (w_db w')) = 1%nat ∧ runs (w_db (snd (scan w'))) = runs (w_db w').
Proof.
  intros scan w'. split; [vm_compute; reflexivity|].
  apply (@RunOnce_idempotent example_uuid example_cron example_cron_laws [] (Hour + Minute)
    (mkWorld scheduled_database (example_replies 9)) 1%nat w' 0%nat (snd (scan w'))
    wf_scheduled_database).
  - apply Forall_singleton. vm_compute. done.
  - apply (bool_decide_unpack _). vm_compute. exact I.
  - vm_compute. reflexivity.
  - vm_compute. reflexivity.
Defined.
