(* ===== verification/WorkerPool.v ===== *)
(** * The coordinator's workers ([src/pkg/coordinator/coordinator.go]:
      [SendHeartbeat], [removeInactiveWorkers], [getNextWorker],
      [offerRunToWorker])

    The pool is a map from worker identifiers, with its keys copied to a slice
    so that round robin can index them. *)
From S2P Require Import Prelude GoStrings Model.
Local Open Scope go_scope.
Local Open Scope Z_scope.

Definition defaultMaxMisses : Z := 1.

Module workerInfo.
Record t := mk { heartbeatMisses : Z; address : string }.
#[global] Instance eta_t : Eta t := λ w, mk (heartbeatMisses w) (address w).
End workerInfo.

Module Pool.
Record t := mk {
  WorkerPool : gmap Z workerInfo.t;
  WorkerPoolKeys : list Z;
  maxHeartbeatMisses : Z;
  roundRobinIndex : Z
}.
#[global] Instance eta_t : Eta t := λ p,
  mk (WorkerPool p) (WorkerPoolKeys p) (maxHeartbeatMisses p) (roundRobinIndex p).
End Pool.
Import Pool.

Definition new_pool : Pool.t := Pool.mk ∅ [] defaultMaxMisses 0.

(** The keys of a map. *)
Definition map_keys (m : gmap Z workerInfo.t) : list Z := (map_to_list m).*1.

Section pool.
(** The order in which a [range] over the map visits its keys, which Go leaves
    open. *)
Context (range : gmap Z workerInfo.t → list Z).

(** [WorkerPoolKeys] filled again from the map. *)
Definition rebuild_keys (p : Pool.t) : Pool.t :=
  p <| WorkerPoolKeys := range (WorkerPool p) |>.

(** [SendHeartbeat]; [dial] is what [grpc.Dial] answers for an address. *)
Definition SendHeartbeat (dial : string → option error) (workerID : Z)
    (address : string) (p : Pool.t) : result bool * Pool.t :=
  match WorkerPool p !! workerID with
  | Some worker =>
      (Ok true, p <| WorkerPool ::= <[workerID :=
                       worker <| workerInfo.heartbeatMisses := 0 |>]> |>)
  | None =>
      match dial address with
      | Some e => (Err e, p)
      | None =>
          (Ok true,
           rebuild_keys (p <| WorkerPool ::= <[workerID := workerInfo.mk 0 address]> |>))
      end
  end.

(** One turn of [removeInactiveWorkers]' loop, and the loop. *)
Definition sweep_one (workerID : Z) (p : Pool.t) : Pool.t :=
  match WorkerPool p !! workerID with
  | None => p
  | Some worker =>
      if decide (workerInfo.heartbeatMisses worker > maxHeartbeatMisses p)
      then rebuild_keys (p <| WorkerPool ::= delete workerID |>)
      else p <| WorkerPool ::= <[workerID :=
                  worker <| workerInfo.heartbeatMisses ::= (λ m, u8 (m + 1)) |>]> |>
  end.

Fixpoint sweep (ids : list Z) (p : Pool.t) : Pool.t :=
  match ids with
  | [] => p
  | workerID :: rest => sweep rest (sweep_one workerID p)
  end.

Definition removeInactiveWorkers (p : Pool.t) : Pool.t := sweep (range (WorkerPool p)) p.
End pool.

(** [getNextWorker]: nil when there are no keys, and when the key's worker is
    no longer in the map. *)
Definition getNextWorker (p : Pool.t) : option workerInfo.t * Pool.t :=
  let workerCount := Z.of_nat (length (WorkerPoolKeys p)) in
  if decide (workerCount = 0) then (None, p)
  else
    let key := WorkerPoolKeys p !! Z.to_nat (roundRobinIndex p `mod` u32 workerCount) in
    (k ← key; WorkerPool p !! k, p <| roundRobinIndex ::= (λ i, u32 (i + 1)) |>)%stdpp.

(** [offerRunToWorker]: [submit] is what a worker's [SubmitRun] answers; the
    workers the run was offered to are returned in order. *)
Definition no_workers : error := Errorf "no workers available".

Fixpoint offer_attempts (submit : workerInfo.t → result bool) (attempts : nat)
    (p : Pool.t) : result bool * list workerInfo.t * Pool.t :=
  match attempts with
  | O => (Ok false, [], p)
  | S attempts' =>
      match getNextWorker p with
      | (None, p') => (Err no_workers, [], p')
      | (Some worker, p') =>
          match submit worker with
          | Ok true => (Ok true, [worker], p')
          | _ =>
              let '(r, offered, p'') := offer_attempts submit attempts' p' in
              (r, worker :: offered, p'')
          end
      end
  end.

Definition offerRunToWorker (submit : workerInfo.t → result bool) (p : Pool.t)
  : result bool * list workerInfo.t * Pool.t :=
  let workerCount := length (WorkerPoolKeys p) in
  if decide (workerCount = 0%nat) then (Err no_workers, [], p)
  else offer_attempts submit workerCount p.

(** ** Registration *)

(** Between two critical sections the slice lists the map's keys. *)
Definition pool_ok (p : Pool.t) : Prop := WorkerPoolKeys p ≡ₚ map_keys (WorkerPool p).

(** What [range] is bound to do. *)
Abbreviation range_law range := (∀ m : gmap Z workerInfo.t, range m ≡ₚ map_keys m).

Lemma elem_of_map_keys m k : k ∈ map_keys m ↔ is_Some (m !! k).
Proof.
  unfold map_keys. rewrite list_elem_of_fmap. split.
  - intros ([k' w] & -> & Hin%elem_of_map_to_list). eauto.
  - intros [w Hw]. exists (k, w). by rewrite elem_of_map_to_list.
Qed.

Lemma NoDup_map_keys m : NoDup (map_keys m).
Proof. apply NoDup_fst_map_to_list. Qed.

Lemma map_keys_insert m k w : is_Some (m !! k) → map_keys (<[k := w]> m) ≡ₚ map_keys m.
Proof.
  intros Hk. apply NoDup_Permutation; [apply NoDup_map_keys..|]. intros j.
  rewrite !elem_of_map_keys, lookup_insert_is_Some.
  split; [intros [<-|[_ Hj]]; done|]. destruct (decide (k = j)); auto.
Qed.

Lemma pool_ok_elem p k : pool_ok p → k ∈ WorkerPoolKeys p ↔ is_Some (WorkerPool p !! k).
Proof. unfold pool_ok. intros Hok. rewrite Hok. apply elem_of_map_keys. Qed.

Section sweep.
Context (range : gmap Z workerInfo.t → list Z) (Hrange : range_law range).

Lemma pool_ok_rebuild p : pool_ok (rebuild_keys range p).
Proof. apply Hrange. Qed.

Lemma sweep_one_ok k p : pool_ok p → pool_ok (sweep_one range k p).
Proof.
  intros Hok. unfold sweep_one. destruct (WorkerPool p !! k) as [w|] eqn:E; [|done].
  case_decide; [apply pool_ok_rebuild|]. unfold pool_ok. simpl.
  rewrite map_keys_insert by eauto. exact Hok.
Qed.

(** What a sweep leaves of one worker. *)
Definition survivor (max : Z) (w : workerInfo.t) : option workerInfo.t :=
  if decide (workerInfo.heartbeatMisses w > max) then None
  else Some (w <| workerInfo.heartbeatMisses ::= (λ m, u8 (m + 1)) |>).

Lemma sweep_one_lookup k p j :
  WorkerPool (sweep_one range k p) !! j =
  (if decide (j = k) then WorkerPool p !! j ≫= survivor (maxHeartbeatMisses p)
   else WorkerPool p !! j).
Proof.
  unfold sweep_one, survivor.
  destruct (WorkerPool p !! k) as [w|] eqn:E; [case_decide as Hd; simpl|];
    destruct (decide (j = k)) as [->|Hne].
  - rewrite lookup_delete_eq, E. simpl. by rewrite decide_True.
  - by rewrite lookup_delete_ne.
  - rewrite lookup_insert_eq, E. simpl. by rewrite decide_False.
  - by rewrite lookup_insert_ne.
  - by rewrite E.
  - done.
Qed.

Lemma sweep_one_max k p : maxHeartbeatMisses (sweep_one range k p) = maxHeartbeatMisses p.
Proof. unfold sweep_one. by repeat case_match. Qed.

Lemma sweep_spec ids p j :
  NoDup ids →
  WorkerPool (sweep range ids p) !! j =
  (if decide (j ∈ ids) then WorkerPool p !! j ≫= survivor (maxHeartbeatMisses p)
   else WorkerPool p !! j) ∧
  (pool_ok p → pool_ok (sweep range ids p)).
Proof.
  revert p. induction ids as [|k ids IH]; intros p; simpl.
  - done.
  - intros [Hk Hnd]%NoDup_cons.
    destruct (IH (sweep_one range k p) Hnd) as [Hl Hok].
    split; [|auto using sweep_one_ok].
    rewrite Hl, sweep_one_lookup, sweep_one_max.
    destruct (decide (j = k)) as [->|Hne].
    + rewrite decide_False by done. by rewrite (decide_True (P := k ∈ k :: ids)) by left.
    + destruct (decide (j ∈ ids)) as [Hj|Hj].
      * rewrite (decide_True (P := j ∈ k :: ids)) by by right. done.
      * rewrite (decide_False (P := j ∈ k :: ids)); [done|].
        rewrite elem_of_cons. by intros [?|?].
Qed.

Lemma removeInactiveWorkers_lookup p j :
  WorkerPool (removeInactiveWorkers range p) !! j =
  WorkerPool p !! j ≫= survivor (maxHeartbeatMisses p).
Proof.
  unfold removeInactiveWorkers.
  assert (Hnd : NoDup (range (WorkerPool p))) by (rewrite Hrange; apply NoDup_map_keys).
  destruct (sweep_spec (range (WorkerPool p)) p j Hnd) as [-> _].
  case_decide as Hin; [done|]. rewrite Hrange, elem_of_map_keys in Hin.
  apply eq_None_not_Some in Hin. by rewrite Hin.
Qed.


Lemma removeInactiveWorkers_max p :
  maxHeartbeatMisses (removeInactiveWorkers range p) = maxHeartbeatMisses p.
Proof.
  unfold removeInactiveWorkers. generalize (range (WorkerPool p)) as ids. intros ids.
  revert p. induction ids as [|k ids IH]; intros p; simpl; [done|].
  by rewrite IH, sweep_one_max.
Qed.

Lemma SendHeartbeat_fresh p dial id addr p' :
  SendHeartbeat range dial id addr p = (Ok true, p') →
  maxHeartbeatMisses p' = maxHeartbeatMisses p ∧
  ∃ w, WorkerPool p' !! id = Some w ∧ workerInfo.heartbeatMisses w = 0.
Proof.
  unfold SendHeartbeat. destruct (WorkerPool p !! id) as [w|] eqn:E; simpl.
  - intros [= <-]. split; [done|]. eexists. simpl. by rewrite lookup_insert_eq.
  - destruct (dial addr); [done|]. intros [= <-]. split; [done|].
    eexists. simpl. by rewrite lookup_insert_eq.
Qed.

(** C19: a worker that was just heard from survives two sweeps in silence and is
    dropped by the third, unless it is heard from again; then it starts
    over. *)
Theorem silent_worker_dropped p dial id addr p' :
  maxHeartbeatMisses p = defaultMaxMisses →
  SendHeartbeat range dial id addr p = (Ok true, p') →
  let s1 := removeInactiveWorkers range p' in
  let s2 := removeInactiveWorkers range s1 in
  let s3 := removeInactiveWorkers range s2 in
  is_Some (WorkerPool s1 !! id) ∧ is_Some (WorkerPool s2 !! id) ∧
  WorkerPool s3 !! id = None ∧
  ∀ addr', is_Some (WorkerPool (removeInactiveWorkers range
             (removeInactiveWorkers range
               (snd (SendHeartbeat range dial id addr' s2)))) !! id).
Proof.
  intros Hmax [Hmax' (w & Hw & Hm)]%SendHeartbeat_fresh. simpl.
  assert (Hs : ∀ q, maxHeartbeatMisses q = 1 →
    (∃ w, WorkerPool q !! id = Some w ∧ workerInfo.heartbeatMisses w = 0) →
    let q1 := removeInactiveWorkers range q in
    let q2 := removeInactiveWorkers range q1 in
    is_Some (WorkerPool q1 !! id) ∧
    (∃ w, WorkerPool q2 !! id = Some w ∧ workerInfo.heartbeatMisses w = 2)).
  { intros q Hq (v & Hv & Hvm). simpl.
    assert (E1 : WorkerPool (removeInactiveWorkers range q) !! id =
                 Some (workerInfo.mk 1 (workerInfo.address v))).
    { rewrite removeInactiveWorkers_lookup, Hv. unfold survivor. simpl.
      rewrite Hvm, Hq. done. }
    rewrite E1. split; [eauto|]. rewrite removeInactiveWorkers_lookup, E1.
    unfold survivor. rewrite removeInactiveWorkers_max, Hq. simpl. eauto. }
  assert (Hmax1 : maxHeartbeatMisses p' = 1) by by rewrite Hmax', Hmax.
  destruct (Hs p' Hmax1) as (H1 & v & Hv & Hvm); [eauto|].
  set (s2 := removeInactiveWorkers range (removeInactiveWorkers range p')) in *.
  assert (Hmax2 : maxHeartbeatMisses s2 = 1)
    by (unfold s2; by rewrite !removeInactiveWorkers_max).
  split_and!; [done|eauto| |].
  - rewrite removeInactiveWorkers_lookup, Hv. simpl. unfold survivor. by rewrite Hmax2, Hvm.
  - intros addr'. unfold SendHeartbeat. rewrite Hv. simpl.
    match goal with |- context [removeInactiveWorkers range (removeInactiveWorkers range ?q)] =>
      destruct (Hs q) as (_ & u & Hu & _) end.
    + done.
    + eexists. simpl. by rewrite lookup_insert_eq.
    + eauto.
Qed.
End sweep.

(** ** Round robin *)

(** The keys in the order round robin visits them next. *)
Definition rotation (p : Pool.t) : list Z :=
  rotate (Z.to_nat (roundRobinIndex p)) (WorkerPoolKeys p).

Definition no_wrap (p : Pool.t) : Prop :=
  0 ≤ roundRobinIndex p ∧
  roundRobinIndex p + Z.of_nat (length (WorkerPoolKeys p)) < 2 ^ 32.

(** The pool after [n] calls of [getNextWorker]. *)
Definition advanced_by (n : nat) (p : Pool.t) : Pool.t :=
  p <| roundRobinIndex ::= (λ i, u32 (i + Z.of_nat n)) |>.

(** The workers in that order. *)
Definition workers (p : Pool.t) : list workerInfo.t :=
  omap (λ k, WorkerPool p !! k) (rotation p).

Lemma u32_small z : 0 ≤ z < 2 ^ 32 → u32 z = z.
Proof. apply Z.mod_small. Qed.

Lemma advanced_by_0 p : no_wrap p → advanced_by 0 p = p.
Proof.
  destruct p. unfold advanced_by, no_wrap. simpl. intros H. rewrite Z.add_0_r.
  by rewrite u32_small by lia.
Qed.

(** The [i]th call from now visits the [i]th key of the rotation. *)
Lemma getNextWorker_rotation p i k :
  no_wrap p → rotation p !! i = Some k →
  getNextWorker (advanced_by i p) = (WorkerPool p !! k, advanced_by (S i) p).
Proof.
  intros [Hpos Hwrap] [Hk Hi]%lookup_rotate_r_Some.
  destruct p as [pool keys max rr].
  unfold getNextWorker, advanced_by in *. simpl in *.
  rewrite decide_False by lia. rewrite (u32_small (rr + Z.of_nat i)) by lia.
  rewrite (u32_small (Z.of_nat (length keys))) by lia.
  unfold rotate_nat_add in Hk. rewrite Z2Nat.id in Hk by lia. rewrite Hk. simpl.
  do 3 f_equal. lia.
Qed.

Lemma rotation_Permutation p : rotation p ≡ₚ WorkerPoolKeys p.
Proof.
  unfold rotation, rotate. rewrite Permutation_app_comm. by rewrite take_drop.
Qed.

Lemma rotation_worker p i k :
  pool_ok p → rotation p !! i = Some k → is_Some (WorkerPool p !! k).
Proof.
  intros Hok Hk%list_elem_of_lookup_2. rewrite rotation_Permutation in Hk.
  by apply pool_ok_elem.
Qed.

Lemma workers_Permutation p : pool_ok p → workers p ≡ₚ (map_to_list (WorkerPool p)).*2.
Proof.
  intros Hok. unfold workers. rewrite rotation_Permutation. unfold pool_ok in Hok.
  rewrite Hok. unfold map_keys. apply Permutation_refl'.
  assert (Hall : Forall (λ kw, WorkerPool p !! kw.1 = Some kw.2) (map_to_list (WorkerPool p))).
  { apply Forall_forall. intros [k w]. apply elem_of_map_to_list. }
  induction Hall as [|[k w] l Hkw _ IH]; simpl in *; [done|]. rewrite Hkw. f_equal. exact IH.
Qed.

(** The offers made while walking down a list of workers. *)
Fixpoint offers (submit : workerInfo.t → result bool) (ws : list workerInfo.t)
  : bool * list workerInfo.t :=
  match ws with
  | [] => (false, [])
  | w :: ws' =>
      match submit w with
      | Ok true => (true, [w])
      | _ => let '(b, l) := offers submit ws' in (b, w :: l)
      end
  end.

(** The workers from the [i]th call on. *)
Definition workers_from (i : nat) (p : Pool.t) : list workerInfo.t :=
  omap (λ k, WorkerPool p !! k) (drop i (rotation p)).

Lemma workers_from_S i p k w :
  rotation p !! i = Some k → WorkerPool p !! k = Some w →
  workers_from i p = w :: workers_from (S i) p.
Proof. intros Hk Hw. unfold workers_from. rewrite (drop_S _ _ _ Hk). simpl. by rewrite Hw. Qed.

Lemma offer_attempts_offers submit p n i :
  pool_ok p → no_wrap p → (i + n)%nat = length (WorkerPoolKeys p) →
  offer_attempts submit n (advanced_by i p) =
  let '(b, offered) := offers submit (workers_from i p) in
  (Ok b, offered, advanced_by (i + length offered) p).
Proof.
  intros Hok Hnw. revert i. induction n as [|n IH]; intros i Hi; simpl.
  - unfold workers_from. rewrite drop_ge by (unfold rotation; rewrite length_rotate; lia).
    simpl. by rewrite Nat.add_0_r.
  - destruct (lookup_lt_is_Some_2 (rotation p) i) as [k Hk].
    { unfold rotation. rewrite length_rotate. lia. }
    destruct (rotation_worker p i k Hok Hk) as [w Hw].
    rewrite (workers_from_S _ _ _ _ Hk Hw). simpl.
    rewrite (getNextWorker_rotation _ _ _ Hnw Hk), Hw, (IH (S i)) by lia.
    destruct (offers submit (workers_from (S i) p)) as [b offered].
    destruct (submit w) as [[]|e]; do 2 f_equal; simpl; lia.
Qed.

Lemma offers_spec submit ws :
  let '(b, offered) := offers submit ws in
  offered `prefix_of` ws ∧
  (b = true ↔ Exists (λ w, submit w = Ok true) ws) ∧
  (b = true → ∃ w before, offered = before ++ [w] ∧ submit w = Ok true ∧
                          Forall (λ w', submit w' ≠ Ok true) before) ∧
  (b = false → offered = ws).
Proof.
  induction ws as [|w ws IH]; simpl.
  - split; [done|]. split; [split; [done|by intros ?%Exists_nil]|done].
  - destruct (offers submit ws) as [b offered].
    destruct IH as (Hpre & Hb & Ht & Hf).
    destruct (submit w) as [[]|e] eqn:Hw; rewrite Exists_cons, Hw.
    1: { split; [by exists ws|]. split; [tauto|]. split; [|done].
         intros _. by exists w, []. }
    all: split; [by apply prefix_cons|].
    all: split; [rewrite Hb; split; [by right|by intros [?|?]]|].
    all: split; [|by intros ->%Hf].
    all: intros (x & before & -> & Hx & Hbef)%Ht; exists x, (w :: before).
    all: split_and!; [done..|]; constructor; [congruence|done].
Qed.

(** C17: a run is offered to each worker of the pool at most once, in round-robin
    order, until one accepts; it is accepted exactly when some worker would
    take it, the index moves on by the offers made, and an empty pool is an
    error. *)
Theorem offer_tries_each_once submit p :
  pool_ok p → no_wrap p →
  (WorkerPoolKeys p = [] → offerRunToWorker submit p = (Err no_workers, [], p)) ∧
  (WorkerPoolKeys p ≠ [] → ∃ b offered,
    offerRunToWorker submit p = (Ok b, offered, advanced_by (length offered) p) ∧
    offered `prefix_of` workers p ∧
    workers p ≡ₚ (map_to_list (WorkerPool p)).*2 ∧
    (b = true ↔ ∃ k w, WorkerPool p !! k = Some w ∧ submit w = Ok true) ∧
    (b = true → ∃ w before, offered = before ++ [w] ∧ submit w = Ok true ∧
                            Forall (λ w', submit w' ≠ Ok true) before) ∧
    (b = false → offered = workers p)).
Proof.
  intros Hok Hnw. unfold offerRunToWorker. split; [by intros ->|]. intros Hne.
  rewrite decide_False by (by rewrite length_zero_iff_nil).
  pose proof (offer_attempts_offers submit p _ 0 Hok Hnw eq_refl) as Hatt.
  rewrite advanced_by_0 in Hatt by done. change (workers_from 0 p) with (workers p) in Hatt.
  pose proof (offers_spec submit (workers p)) as Hs.
  destruct (offers submit (workers p)) as [b offered].
  destruct Hs as (Hpre & Hb & Ht & Hf).
  exists b, offered. split_and!; try done; [by apply workers_Permutation|].
  rewrite Hb, Exists_exists. setoid_rewrite (workers_Permutation p Hok). split.
  - intros (w & ([k w'] & -> & Hin%elem_of_map_to_list)%list_elem_of_fmap & Hw).
    by exists k, w'.
  - intros (k & w & Hin & Hw). exists w. split; [|done].
    apply list_elem_of_fmap. exists (k, w). by rewrite elem_of_map_to_list.
Qed.

(** ** Closed examples *)
Definition example_worker (a : string) : workerInfo.t := workerInfo.mk 0 a.
Definition example_pool (rr : Z) : Pool.t :=
  Pool.mk {[ 1 := example_worker "a"; 2 := example_worker "b"; 3 := example_worker "c" ]}
    [1; 2; 3] defaultMaxMisses rr.
Definition only (a : string) (w : workerInfo.t) : result bool :=
  Ok (bool_decide (workerInfo.address w = a)).

Lemma example_pool_ok rr : pool_ok (example_pool rr).
Proof. apply (bool_decide_unpack _). vm_compute. exact I. Qed.

(** Where the 32-bit round-robin index wraps, three workers are not each
    tried: the run is refused although the third worker would take it. *)
Lemma offer_wrap_skips_worker :
  let p := example_pool (2 ^ 32 - 1) in
  pool_ok p ∧
  (∃ k w, WorkerPool p !! k = Some w ∧ only "c" w = Ok true) ∧
  fst (offerRunToWorker (only "c") p) =
    (Ok false, [example_worker "a"; example_worker "a"; example_worker "b"]).
Proof.
  split; [apply example_pool_ok|]. split; [|vm_compute; reflexivity].
  exists 3, (example_worker "c"). split; vm_compute; reflexivity.
Qed.


Lemma silent_worker_dropped_witness :
  WorkerPool (removeInactiveWorkers map_keys (removeInactiveWorkers map_keys
    (removeInactiveWorkers map_keys
      (snd (SendHeartbeat map_keys (λ _, None) 4 "d" (example_pool 0)))))) !! 4 = None.
Proof.
  apply (silent_worker_dropped map_keys (λ m, reflexivity _) (example_pool 0)
           (λ _, None) 4 "d"); [reflexivity|vm_compute; reflexivity].
Defined.

Lemma offer_tries_each_once_witness :
  ∃ b offered, offerRunToWorker (only "b") (example_pool 7) =
    (Ok b, offered, advanced_by (length offered) (example_pool 7)) ∧
    (b = true ↔ ∃ k w, WorkerPool (example_pool 7) !! k = Some w ∧ only "b" w = Ok true).
Proof.
  destruct (offer_tries_each_once (only "b") (example_pool 7) (example_pool_ok 7))
    as [_ H]; [split; vm_compute; congruence|].
  destruct H as (b & offered & ? & _ & _ & ? & _); [discriminate|]. by exists b, offered.
Defined.
