(* ===== verification/Coordinator.v ===== *)
(** * The coordinator's database work ([src/pkg/coordinator/coordinator.go],
      [src/pkg/reaper/reaper.go])

    What workers report ([UpdateRunStatus], [RenewLease]), how due runs are
    offered to them ([dispatchPendingRuns]), and how the runs of workers that
    went away are failed ([Reaper.RunOnce]). *)
From S2P Require Import Prelude GoStrings Model Database AgentStore RunStore WorkerPool.
Local Open Scope go_scope.
Local Open Scope Z_scope.

Definition dispatchBatchSize : nat := 50.
Definition LeaseTTL : Duration := 60 * Second.
Definition RenewalInterval : Duration := 15 * Second.
Definition lostWorkerMessage : string :=
  "worker stopped reporting; the run was abandoned".

(** proto3 enums are open: a peer may send a number the schema does not name. *)
Inductive RunStatus :=
| RUN_STATUS_UNSPECIFIED | RUNNING | SUCCEEDED | FAILED | BUDGET_EXCEEDED
| Unrecognized (n : Z).
#[export] Instance RunStatus_eq_dec : EqDecision RunStatus.
Proof. solve_decision. Defined.

Module UpdateRunStatusRequest.
Record t := mk {
  RunId : string;
  Status : RunStatus;
  Output : string;
  Error : string;
  PromptTokens : Z;
  CompletionTokens : Z
}.
End UpdateRunStatusRequest.

Module RunRequest.
Record t := mk { RunId : string; AgentId : string }.
End RunRequest.

Definition with_runs (d : Database) (l : list RunRow.t) : Database := d <| runs := l |>.

(** ** Failure counts *)
Definition numeric_out_of_range : string := "22003".

(** [SET consecutive_failures = consecutive_failures + 1], on an INTEGER. *)
Definition count_failure (P : AgentRow.t → Prop) `{∀ a, Decision (P a)} (d : Database)
  : result Database :=
  if decide (Exists (λ a, P a ∧ AgentRow.consecutive_failures a = 2 ^ 31 - 1) (agents d))
  then Err (PgError numeric_out_of_range)
  else Ok (d <| agents := update_where P
                  (λ a, a <| AgentRow.consecutive_failures ::= (λ n, n + 1) |>) (agents d) |>).

(** [a.id = (SELECT agent_id FROM runs WHERE id = run)]. *)
Definition agent_of_run (d : Database) (run : string) (a : AgentRow.t) : Prop :=
  Exists (λ r, RunRow.id r = run ∧ RunRow.agent_id r = AgentRow.id a) (runs d).
#[export] Instance agent_of_run_dec d run a : Decision (agent_of_run d run a).
Proof. unfold agent_of_run. apply _. Defined.

Definition clear_failures (a : AgentRow.t) : AgentRow.t :=
  a <| AgentRow.consecutive_failures := 0 |> <| AgentRow.failure_notified_at := None |>.

Section coordinator.
Context {PU : PgUuid}.

(** ** What workers report *)
Definition agent_outcome (runID : string) (succeeded : bool) (_ : Reply) (d : Database)
  : result (unit * Database) :=
  i ←? uuid_arg runID;
  if succeeded
  then Ok (tt, d <| agents := update_where (agent_of_run d i) clear_failures (agents d) |>)
  else d' ←? count_failure (agent_of_run d i) d; Ok (tt, d').

Definition recordAgentOutcome (runID : string) (succeeded : bool) : Db unit :=
  statement (agent_outcome runID succeeded).

Definition set_running (now : Time) (r : RunRow.t) : RunRow.t :=
  r <| RunRow.status := RunRunning |> <| RunRow.started_at := Some (timestamptz now) |>.

Definition set_outcome (now : Time) (status : string) (req : UpdateRunStatusRequest.t)
    (r : RunRow.t) : RunRow.t :=
  r <| RunRow.status := status |>
    <| RunRow.finished_at := Some (timestamptz now) |>
    <| RunRow.output := UpdateRunStatusRequest.Output req |>
    <| RunRow.error := UpdateRunStatusRequest.Error req |>
    <| RunRow.prompt_tokens := UpdateRunStatusRequest.PromptTokens req |>
    <| RunRow.completion_tokens := UpdateRunStatusRequest.CompletionTokens req |>
    <| RunRow.lease_expires_at := None |>.

(** The row status of a terminal report. *)
Definition outcome_status (s : RunStatus) : option string :=
  match s with
  | SUCCEEDED => Some RunSucceeded
  | FAILED => Some RunFailed
  | BUDGET_EXCEEDED => Some RunBudgetExceeded
  | _ => None
  end.

Definition UpdateRunStatus (now : Time) (req : UpdateRunStatusRequest.t) : Db bool :=
  let runID := UpdateRunStatusRequest.RunId req in
  match UpdateRunStatusRequest.Status req with
  | RUNNING =>
      statement (update_run runID (set_running now)) ;; ret true
  | (SUCCEEDED | FAILED | BUDGET_EXCEEDED) as s =>
      let status := default RunSucceeded (outcome_status s) in
      statement (update_run runID (set_outcome now status req)) ;;
      recordAgentOutcome runID (bool_decide (status = RunSucceeded)) ;;
      ret true
  | _ => fail (Errorf "unsupported run status")
  end.

Definition extend_lease (now : Time) (r : RunRow.t) : RunRow.t :=
  r <| RunRow.lease_expires_at := Some (timestamptz (time_Add now LeaseTTL)) |>.

Definition renew_lease (runID : string) (now : Time) (_ : Reply) (d : Database)
  : result (nat * Database) :=
  i ←? uuid_arg runID;
  let hit := λ r, RunRow.id r = i ∧ RunRow.status r = RunRunning in
  Ok (count_where hit (runs d),
      with_runs d (update_where hit (extend_lease now) (runs d))).

Definition RenewLease (now : Time) (runID : string) : Db bool :=
  affected ← statement (renew_lease runID now); ret (bool_decide (affected = 1%nat)).

(** ** Dispatch *)

(** The due runs the scan locks, [locked] being rows other transactions hold. *)
Definition is_pending (locked : list string) (now : Time) (r : RunRow.t) : Prop :=
  RunRow.status r = RunPending ∧ RunRow.scheduled_for r ≤ timestamptz now ∧
  RunRow.id r ∉ locked.
#[export] Instance is_pending_dec locked now r : Decision (is_pending locked now r).
Proof. unfold is_pending. apply _. Defined.

Definition pending_rows (locked : list string) (now : Time) (d : Database)
  : list RunRow.t :=
  take dispatchBatchSize (order_by (asc RunRow.scheduled_for)
    (filter (is_pending locked now) (runs d))).

Definition scan_pending (r : RunRow.t) : RunRequest.t :=
  RunRequest.mk (RunRow.id r) (RunRow.agent_id r).

Definition claim (now : Time) (r : RunRow.t) : RunRow.t :=
  r <| RunRow.status := RunRunning |>
    <| RunRow.picked_at := Some (timestamptz now) |>
    <| RunRow.lease_expires_at := Some (timestamptz (time_Add now LeaseTTL)) |>.

(** A statement inside a transaction: once one has failed, the server refuses
    the others until the end of the block. *)
Definition in_failed_transaction : error := PgError "25P02".
Definition tx_exec {A} (aborted : bool) (f : Reply → Database → result (A * Database))
  : Db A :=
  statement (if aborted then λ _ _, Err in_failed_transaction else f).

(** The loop over the batch: the accepted runs, whether a statement failed on
    the way, the pool and the world. *)
Fixpoint dispatch_loop (submit : RunRequest.t → workerInfo.t → result bool) (now : Time)
    (pending : list RunRequest.t) (aborted : bool) (p : Pool.t) (w : World)
  : list string * bool * Pool.t * World :=
  match pending with
  | [] => ([], aborted, p, w)
  | run :: rest =>
      match offerRunToWorker (submit run) p with
      | (Ok true, _, p') =>
          let id := RunRequest.RunId run in
          let '(res, w') := tx_exec aborted (update_run id (claim now)) w in
          let '(accepted, aborted', p'', w'') :=
            dispatch_loop submit now rest (aborted || negb (is_ok res)) p' w' in
          (id :: accepted, aborted', p'', w'')
      | (_, _, p') => ([], aborted, p', w)
      end
  end.

(** [pool.Begin] and [tx.Commit]; committing an aborted transaction rolls it
    back and is an error. *)
Definition tx_begin : Db unit := statement (λ _ d, Ok (tt, d)).
Definition tx_commit (aborted : bool) : Db unit :=
  statement (λ _ d, if aborted then Err (Errorf "commit unexpectedly resulted in rollback")
                    else Ok (tt, d)).

(** The runs workers accepted, the pool, and the world after the scan. *)
Definition dispatchPendingRuns (submit : RunRequest.t → workerInfo.t → result bool)
    (locked : list string) (now : Time) (p : Pool.t) (w : World)
  : list string * Pool.t * World :=
  match tx_begin w with
  | (Err _, w1) => ([], p, w1)
  | (Ok _, w1) =>
      match query (λ d, Ok (scan_pending <$> pending_rows locked now d)) w1 with
      | (Err _, w2) => ([], p, w2)
      | (Ok pending, w2) =>
          let '(accepted, aborted, p', w3) := dispatch_loop submit now pending false p w2 in
          match tx_commit aborted w3 with
          | (Ok _, w4) => (accepted, p', w4)
          | (Err _, w4) => (accepted, p', w4 <| w_db := w_db w1 |>)
          end
      end
  end.
End coordinator.

(** ** The reaper *)
Definition expired (now : Time) (r : RunRow.t) : Prop :=
  RunRow.status r = RunRunning ∧
  match RunRow.lease_expires_at r with
  | Some t => t < timestamptz now
  | None => False
  end.
#[export] Instance expired_dec now r : Decision (expired now r).
Proof. unfold expired. destruct (RunRow.lease_expires_at r); apply _. Defined.

Definition abandon (now : Time) (r : RunRow.t) : RunRow.t :=
  r <| RunRow.status := RunFailed |>
    <| RunRow.error := lostWorkerMessage |>
    <| RunRow.finished_at := Some (timestamptz now) |>.

(** The statement's three parts see the same snapshot: the agents counted are
    those of the runs the first part returns. *)
Definition reap (now : Time) (_ : Reply) (d : Database) : result (nat * Database) :=
  let reaped := RunRow.agent_id <$> filter (expired now) (runs d) in
  d' ←? count_failure (λ a, AgentRow.id a ∈ reaped) d;
  Ok (length reaped, with_runs d' (update_where (expired now) (abandon now) (runs d))).

Definition Reaper_RunOnce (now : Time) : Db nat := statement (reap now).

(** ** Constraints are kept *)
Section wf.
Context {PU : PgUuid}.

Lemma wf_update_agents P `{∀ a, Decision (P a)} f d :
  (∀ a, AgentRow.id (f a) = AgentRow.id a ∧ AgentRow.user_id (f a) = AgentRow.user_id a) →
  wf_database d → wf_database (d <| agents := update_where P f (agents d) |>).
Proof.
  intros Hf []. assert (Hk : AgentRow.id <$> update_where P f (agents d) =
                             AgentRow.id <$> agents d).
  { apply update_where_key. intros a _. apply Hf. }
  split; simpl; try done; unfold agent_exists; simpl; rewrite ?Hk; try done.
  apply Forall_update_where; [done|]. intros a _. by destruct (Hf a) as [_ ->].
Qed.

Lemma count_failure_Ok P `{∀ a, Decision (P a)} d d' :
  count_failure P d = Ok d' →
  d' = d <| agents := update_where P
              (λ a, a <| AgentRow.consecutive_failures ::= (λ n, n + 1) |>) (agents d) |>.
Proof. unfold count_failure. case_decide; [done|]. by intros [= <-]. Qed.

Lemma wf_count_failure P `{∀ a, Decision (P a)} d d' :
  count_failure P d = Ok d' → wf_database d → wf_database d'.
Proof. intros ->%count_failure_Ok. by apply wf_update_agents. Qed.

Lemma wf_agent_outcome runID ok r d x d' :
  agent_outcome runID ok r d = Ok (x, d') → wf_database d → wf_database d'.
Proof.
  unfold agent_outcome. intros (i & _ & H)%rbind_Ok. destruct ok.
  - injection H as _ <-. by apply wf_update_agents.
  - apply rbind_Ok in H as (d1 & H & [= _ <-]). by eapply wf_count_failure.
Qed.

Lemma UpdateRunStatus_wf now req : keeps wf_database (UpdateRunStatus now req).
Proof.
  unfold UpdateRunStatus, recordAgentOutcome. respects;
    (apply respects_statement; [typeclasses eauto|]); intros r d x d' Hs Hd;
    first [exact (wf_agent_outcome _ _ _ _ _ _ Hs Hd)
          |by refine (wf_update_run _ _ _ _ _ _ _ Hs Hd)].
Qed.

Lemma RenewLease_wf now runID : keeps wf_database (RenewLease now runID).
Proof.
  unfold RenewLease. respects. apply respects_statement; [typeclasses eauto|].
  unfold renew_lease. intros r d x d' (i & _ & [= _ <-])%rbind_Ok Hd.
  by apply wf_update_runs.
Qed.

Lemma wf_with_runs P `{∀ r, Decision (P r)} f d :
  keeps_run_refs f → wf_database d → wf_database (with_runs d (update_where P f (runs d))).
Proof. apply wf_update_runs. Qed.

Lemma Reaper_RunOnce_wf now : keeps wf_database (Reaper_RunOnce now).
Proof.
  unfold Reaper_RunOnce. apply respects_statement; [typeclasses eauto|].
  unfold reap. intros r d x d' (d1 & Hc & [= _ <-])%rbind_Ok Hwf.
  pose proof (count_failure_Ok _ _ _ Hc) as Hd1. apply (wf_count_failure _ _ _ Hc) in Hwf.
  replace (runs d) with (runs d1) by by rewrite Hd1. by apply wf_with_runs.
Qed.
End wf.

(** ** Dispatch claims what workers accepted *)
Section dispatch.
Context {PU : PgUuid}.
Implicit Types submit : RunRequest.t → workerInfo.t → result bool.

Definition normal_run (r : RunRow.t) : Prop := uuid_in (RunRow.id r) = Some (RunRow.id r).
#[export] Instance normal_run_dec r : Decision (normal_run r).
Proof. unfold normal_run. apply _. Defined.

(** The database with the runs of [ids] claimed. *)
Definition claim_all (now : Time) (ids : list string) (d : Database) : Database :=
  with_runs d (update_where (λ r, RunRow.id r ∈ ids) (claim now) (runs d)).

Lemma claim_all_nil now d : claim_all now [] d = d.
Proof.
  unfold claim_all. rewrite update_where_none; [by destruct d|].
  apply Forall_true. intros r. apply not_elem_of_nil.
Qed.

Lemma claim_all_cons now id ids d :
  claim_all now ids (with_runs d (update_where (λ r, RunRow.id r = id) (claim now) (runs d)))
  = claim_all now (id :: ids) d.
Proof.
  unfold claim_all, with_runs. destruct d. unfold set_field. simpl. f_equal.
  unfold update_where. rewrite <- list_fmap_compose. apply list_fmap_ext. intros _ r _. simpl.
  destruct (decide (RunRow.id r = id)) as [Heq|Hne]; simpl.
  - rewrite (decide_True (P := RunRow.id r ∈ id :: ids)) by (rewrite Heq; left).
    by case_decide.
  - destruct (decide (RunRow.id r ∈ ids)).
    + by rewrite (decide_True (P := RunRow.id r ∈ id :: ids)) by by right.
    + rewrite (decide_False (P := RunRow.id r ∈ id :: ids)); [done|].
      rewrite elem_of_cons. by intros [?|?].
Qed.

Lemma dispatch_loop_spec submit now rows ab p w accepted ab' p' w' :
  Forall (λ id, uuid_in id = Some id) (RunRequest.RunId <$> rows) →
  dispatch_loop submit now rows ab p w = (accepted, ab', p', w') →
  accepted `prefix_of` (RunRequest.RunId <$> rows) ∧
  (ab = true → ab' = true) ∧
  (ab' = false → w_db w' = claim_all now accepted (w_db w)).
Proof.
  revert ab p w accepted. induction rows as [|run rows IH]; intros ab p w accepted Hn H; simpl in H.
  { simplify_eq. by rewrite claim_all_nil. }
  apply Forall_cons in Hn as [Hid Hn].
  destruct (offerRunToWorker (submit run) p) as [[[[]|e] offered] p1];
    [|by simplify_eq; rewrite claim_all_nil; split; [apply prefix_nil|]..].
  destruct (tx_exec ab _ w) as [res w1] eqn:Hs.
  destruct (dispatch_loop _ _ _ _ p1 w1) as [[[acc ab1] p2] w2] eqn:Hl. simplify_eq.
  apply IH in Hl as (Hpre & Hab & Hdb); [|done].
  split; [by apply prefix_cons|].
  split; [by intros ->; apply Hab|]. intros ->.
  destruct ab; [by specialize (Hab eq_refl)|].
  destruct res as [x|e]; [|by specialize (Hab eq_refl)].
  rewrite Hdb by done. unfold tx_exec in Hs. apply statement_Ok in Hs as (r & _ & _ & Hu).
  unfold update_run, uuid_arg in Hu. simpl in Hid. rewrite Hid in Hu.
  injection Hu as _ Hu. rewrite <- claim_all_cons. by rewrite <- Hu.
Qed.

Lemma dispatch_loop_calm submit now rows p w accepted ab' p' w' n :
  Forall (λ id, uuid_in id = Some id) (RunRequest.RunId <$> rows) →
  calm w (length rows + n) →
  dispatch_loop submit now rows false p w = (accepted, ab', p', w') →
  ab' = false ∧ calm w' n.
Proof.
  revert p w accepted. induction rows as [|run rows IH]; intros p w accepted Hn Hc H; simpl in H.
  { by simplify_eq. }
  apply Forall_cons in Hn as [Hid Hn]. simpl in Hc, Hid.
  assert (Hle : calm w n) by (eapply calm_le; [exact Hc|lia]).
  destruct (offerRunToWorker (submit run) p) as [[[[]|e] offered] p1]; [|by simplify_eq..].
  destruct (calm_statement (update_run (RunRequest.RunId run) (claim now)) w _ Hc)
    as (Hc1 & r & Hs). unfold tx_exec in H. destruct (statement _ w) as [res w1]. simpl in Hs, Hc1.
  unfold update_run, uuid_arg in Hs. rewrite Hid in Hs. simpl in Hs. rewrite Hs in H.
  destruct (dispatch_loop _ _ _ _ p1 _) as [[[acc ab1] p2] w2] eqn:Hl. simplify_eq.
  by eapply IH.
Qed.

(** The rows a scan works on are due runs of the table. *)
Lemma pending_rows_elem locked now d r :
  r ∈ pending_rows locked now d → is_pending locked now r ∧ r ∈ runs d.
Proof.
  intros Hr. eapply list_elem_of_filter, (elem_of_order_by (asc RunRow.scheduled_for)).
  eapply elem_of_sublist; [exact Hr|apply sublist_take].
Qed.

Lemma pending_rows_all locked now d r :
  (length (filter (is_pending locked now) (runs d)) ≤ dispatchBatchSize)%nat →
  is_pending locked now r → r ∈ runs d → r ∈ pending_rows locked now d.
Proof.
  intros Hlen Hp Hr. unfold pending_rows.
  rewrite take_ge by by rewrite length_order_by.
  apply elem_of_order_by. by apply list_elem_of_filter.
Qed.

(** How a scan ends: before its loop, or with its loop's effect or without. *)
Lemma dispatch_cases submit locked now p w accepted p' w' :
  dispatchPendingRuns submit locked now p w = (accepted, p', w') →
  (accepted = [] ∧ w_db w' = w_db w) ∨
  ∃ w2 ab w3, w_db w2 = w_db w ∧ (∀ n, calm w (2 + n) → calm w2 n) ∧
    dispatch_loop submit now (scan_pending <$> pending_rows locked now (w_db w)) false p w2 =
      (accepted, ab, p', w3) ∧
    (w_db w' = w_db w ∨ ab = false ∧ w_db w' = w_db w3) ∧
    (ab = false → calm w3 1 → w_db w' = w_db w3).
Proof.
  unfold dispatchPendingRuns.
  pose proof (calm_statement (λ _ d, Ok (tt, d)) w) as Hc1.
  pose proof (respects_statement (=) (λ _ d, Ok (tt, d)) ltac:(congruence) w) as Hw1.
  unfold tx_begin. destruct (statement _ w) as [[[]|e] w1]; simpl in Hc1, Hw1;
    [|by intros [= <- <- <-]; left].
  pose proof (calm_statement (λ _ d, (a ←? Ok (scan_pending <$> pending_rows locked now d);
                                      Ok (a, d))) w1) as Hc2.
  pose proof (query_db (λ d, Ok (scan_pending <$> pending_rows locked now d)) w1) as Hw2.
  destruct (query _ w1) as [[pending|e] w2] eqn:Hq; simpl in Hw2;
    [|intros [= <- <- <-]; left; split; congruence].
  apply query_Ok in Hq as Hq'. destruct Hq' as (r & _ & _ & [= <-] & _).
  unfold query in Hq. rewrite Hq in Hc2. rewrite <- Hw1.
  destruct (dispatch_loop _ _ _ _ _ _) as [[[acc ab] p1] w3] eqn:Hl.
  unfold tx_commit.
  pose proof (calm_statement (λ _ d, if ab then Err (Errorf
    "commit unexpectedly resulted in rollback") else Ok (tt, d)) w3 0) as Hc4.
  destruct (statement _ w3) as [[[]|e] w4] eqn:Hs; intros [= <- <- <-]; right;
    exists w2, ab, w3; split; [congruence| |congruence| ].
  all: split; [by intros n Hc; apply Hc2, Hc1|]; split; [done|].
  - apply statement_Ok in Hs as (r4 & _ & _ & Hs). destruct ab; [done|].
    injection Hs as Hs. rewrite Hs. by split; [right|].
  - split; [by left|]. intros -> Hc. by destruct (Hc4 Hc) as (_ & r4 & ?).
Qed.

Lemma dispatch_effect submit locked now p w accepted p' w' :
  Forall normal_run (runs (w_db w)) →
  dispatchPendingRuns submit locked now p w = (accepted, p', w') →
  accepted `prefix_of` (RunRow.id <$> pending_rows locked now (w_db w)) ∧
  (length accepted ≤ 50)%nat ∧
  (w_db w' = w_db w ∨ w_db w' = claim_all now accepted (w_db w)) ∧
  (calm w 53 → w_db w' = claim_all now accepted (w_db w)).
Proof.
  intros Hnorm H. set (rows := pending_rows locked now (w_db w)).
  assert (Hrows : (length rows ≤ 50)%nat).
  { unfold rows, pending_rows. rewrite length_take. apply Nat.le_min_l. }
  assert (Hids : RunRequest.RunId <$> (scan_pending <$> rows) = RunRow.id <$> rows)
    by by rewrite <- list_fmap_compose.
  assert (Hn : Forall (λ id, uuid_in id = Some id) (RunRequest.RunId <$> (scan_pending <$> rows))).
  { rewrite Hids, Forall_fmap. rewrite Forall_forall in Hnorm |- *. intros r Hr. apply Hnorm.
    by apply pending_rows_elem in Hr as [_ ?]. }
  apply dispatch_cases in H as [[-> Hdb]|(w2 & ab & w3 & Hw2 & Hc & Hl & Hend & Hok)].
  { rewrite claim_all_nil. split_and!; [apply prefix_nil|simpl; lia|by left|done]. }
  fold rows in Hl. pose proof (dispatch_loop_spec _ _ _ _ _ _ _ _ _ _ Hn Hl) as (Hpre & _ & Hdb).
  rewrite Hids in Hpre. rewrite Hw2 in Hdb. split; [done|]. split.
  { apply prefix_length in Hpre. rewrite length_fmap in Hpre. lia. }
  split.
  - destruct Hend as [?|[Hab ->]]; [by left|right; by apply Hdb].
  - intros Hcalm. assert (Hcw : calm w2 (length (scan_pending <$> rows) + 1)).
    { apply Hc. eapply calm_le; [exact Hcalm|]. rewrite length_fmap. lia. }
    destruct (dispatch_loop_calm _ _ _ _ _ _ _ _ _ _ Hn Hcw Hl) as [Hab Hc3].
    rewrite Hok by done. by apply Hdb.
Qed.

End dispatch.

(** ** Two coordinators, and a commit that fails *)
Section concurrency.
Context {PU : PgUuid}.

Lemma pending_rows_not_locked locked now d r :
  r ∈ pending_rows locked now d → RunRow.id r ∉ locked.
Proof.
  by intros [(_ & _ & ?) _]%pending_rows_elem.
Qed.

Lemma dispatch_accepted_selected submit locked now p w accepted p' w' id :
  Forall normal_run (runs (w_db w)) →
  dispatchPendingRuns submit locked now p w = (accepted, p', w') →
  id ∈ accepted → id ∈ RunRow.id <$> pending_rows locked now (w_db w).
Proof.
  intros Hnorm H Hid. apply dispatch_cases in H as [[-> _]|(w2 & ab & w3 & _ & _ & Hl & _)].
  { by apply not_elem_of_nil in Hid. }
  assert (Hids : ∀ rows, RunRequest.RunId <$> (scan_pending <$> rows) = RunRow.id <$> rows)
    by (intros; by rewrite <- list_fmap_compose).
  pose proof (dispatch_loop_spec submit now (scan_pending <$> pending_rows locked now (w_db w))
    false p w2 accepted ab p' w3) as Hs. rewrite Hids in Hs.
  destruct Hs as ([rest Hpre] & _ & _); [|done|].
  - rewrite Forall_fmap, Forall_forall in *. intros r Hr. apply Hnorm.
    by apply pending_rows_elem in Hr as [_ ?].
  - rewrite Hpre. apply elem_of_app. by left.
Qed.

(** Two coordinators that scan at the same time never hand out the same run:
    the second one skips the rows the first has locked. *)
Lemma concurrent_dispatch_disjoint submit1 submit2 now1 now2 locked1 p1 p2 w1 w2 acc1 acc2
    p1' p2' w1' w2' :
  let locked2 := RunRow.id <$> pending_rows locked1 now1 (w_db w1) in
  Forall normal_run (runs (w_db w1)) → Forall normal_run (runs (w_db w2)) →
  dispatchPendingRuns submit1 locked1 now1 p1 w1 = (acc1, p1', w1') →
  dispatchPendingRuns submit2 locked2 now2 p2 w2 = (acc2, p2', w2') →
  acc1 ## acc2.
Proof.
  simpl. intros Hn1 Hn2 H1 H2 id Hid1 Hid2.
  pose proof (dispatch_accepted_selected _ _ _ _ _ _ _ _ _ Hn1 H1 Hid1) as Hsel.
  apply (dispatch_accepted_selected _ _ _ _ _ _ _ _ _ Hn2 H2) in Hid2.
  apply list_elem_of_fmap in Hid2 as (r & -> & Hr). by apply pending_rows_not_locked in Hr.
Qed.
End concurrency.

(** ** Leases *)
Section leases.
Context {PU : PgUuid}.

(** A scan of the reaper fails exactly the running runs whose lease has run
    out, leaves none of them running, and counts one failure for each agent
    concerned, however many of its runs were lost. *)
Lemma reaper_fails_expired now w n w' :
  Reaper_RunOnce now w = (Ok n, w') →
  n = count_where (expired now) (runs (w_db w)) ∧
  runs (w_db w') = update_where (expired now) (abandon now) (runs (w_db w)) ∧
  Forall (λ r, ¬ expired now r) (runs (w_db w')) ∧
  agents (w_db w') =
    update_where (λ a, Exists (λ r, expired now r ∧ RunRow.agent_id r = AgentRow.id a)
                              (runs (w_db w)))
      (λ a, a <| AgentRow.consecutive_failures ::= (λ n, n + 1) |>) (agents (w_db w)).
Proof.
  intros (r & _ & _ & Hr)%statement_Ok. unfold reap in Hr.
  apply rbind_Ok in Hr as (d1 & Hd1%count_failure_Ok & [= <- Hdb]).
  rewrite <- Hdb, Hd1. simpl. rewrite length_fmap. split_and!; [done|done| |].
  - apply Forall_forall. intros r' (r0 & _ & [[_ ->]|[? ->]])%elem_of_update_where; [|done].
    by intros [[=] _].
  - unfold update_where. apply list_fmap_ext. intros _ a _. simpl.
    apply decide_ext. rewrite list_elem_of_fmap, Exists_exists.
    split; intros (r0 & H1 & H2); exists r0; rewrite list_elem_of_filter in *; tauto || intuition.
Qed.

(** A lease granted or renewed at [t] holds for sixty seconds: no scan up to
    [t + 60 s] fails the run, and every scan after that does if the worker has
    not renewed it. *)
Lemma lease_lasts_sixty_seconds t now r w n w' :
  r ∈ runs (w_db w) → RunRow.status r = RunRunning →
  RunRow.lease_expires_at r = RunRow.lease_expires_at (extend_lease t r) →
  Reaper_RunOnce now w = (Ok n, w') →
  (now ≤ t + 60 * Second → r ∈ runs (w_db w')) ∧
  (t + 60 * Second + Microsecond ≤ now → abandon now r ∈ runs (w_db w')).
Proof.
  intros Hin Hst Hl (rep & _ & _ & Hr)%statement_Ok. unfold reap in Hr.
  apply rbind_Ok in Hr as (d1 & Hd1%count_failure_Ok & [= _ Hdb]). rewrite <- Hdb. simpl.
  assert (Hexp : expired now r ↔ timestamptz (t + 60 * Second) < timestamptz now).
  { unfold expired. rewrite Hl. simpl. tauto. }
  split; intros Hnow; apply elem_of_update_where; exists r; (split; [done|]).
  - right. split; [|done]. rewrite Hexp. apply (timestamptz_mono now) in Hnow. lia.
  - left. split; [|done]. rewrite Hexp. revert Hnow. clear. tlia.
Qed.
End leases.

(** ** Reports *)
Section reports.
Context {PU : PgUuid}.

Lemma update_run_Ok runID f r d x d' i :
  uuid_in runID = Some i → update_run runID f r d = Ok (x, d') →
  d' = with_runs d (update_where (λ r, RunRow.id r = i) f (runs d)).
Proof. unfold update_run, uuid_arg. intros -> H. simpl in H. by injection H as _ <-. Qed.

Lemma agent_of_run_update d i f a :
  keeps_run_refs f →
  agent_of_run (with_runs d (update_where (λ r, RunRow.id r = i) f (runs d))) i a ↔
  agent_of_run d i a.
Proof.
  intros Hf. unfold agent_of_run. rewrite !Exists_exists. simpl. split.
  - intros (r' & (r & Hr & [[_ ->]|[_ ->]])%elem_of_update_where & Hid & Hag);
      [destruct (Hf r) as (Hi & _ & Ha & _); rewrite Hi, Ha in *|]; eauto.
  - intros (r & Hr & Hid & Hag). exists (f r). destruct (Hf r) as (-> & _ & -> & _).
    split; [|done]. apply elem_of_update_where. eauto 10.
Qed.

(** What a terminal report writes. *)
Lemma report_settles now req w i :
  uuid_in (UpdateRunStatusRequest.RunId req) = Some i →
  match outcome_status (UpdateRunStatusRequest.Status req) with
  | Some status => ∀ w', UpdateRunStatus now req w = (Ok true, w') →
      runs (w_db w') = update_where (λ r, RunRow.id r = i) (set_outcome now status req)
                         (runs (w_db w)) ∧
      agents (w_db w') = update_where (agent_of_run (w_db w) i)
        (λ a, if decide (status = RunSucceeded) then clear_failures a
              else a <| AgentRow.consecutive_failures ::= (λ n, n + 1) |>) (agents (w_db w))
  | None => UpdateRunStatusRequest.Status req ≠ RUNNING →
      UpdateRunStatus now req w = (Err (Errorf "unsupported run status"), w)
  end.
Proof.
  intros Hid. destruct (outcome_status _) as [status|] eqn:Hst.
  2: { unfold UpdateRunStatus. by destruct (UpdateRunStatusRequest.Status req). }
  assert (Heq : UpdateRunStatus now req =
    (statement (update_run (UpdateRunStatusRequest.RunId req) (set_outcome now status req)) ;;
     recordAgentOutcome (UpdateRunStatusRequest.RunId req) (bool_decide (status = RunSucceeded)) ;;
     ret true)).
  { unfold UpdateRunStatus. destruct (UpdateRunStatusRequest.Status req);
      simpl in Hst; try done; by injection Hst as <-. }
  rewrite Heq. intros w' (x & w1 & (r1 & _ & _ & H1)%statement_Ok & H)%bind_Ok.
  apply bind_Ok in H as (y & w2 & (r2 & _ & _ & H2)%statement_Ok & [_ ->]%ret_Ok).
  apply (update_run_Ok _ _ _ _ _ _ _ Hid) in H1. unfold agent_outcome, uuid_arg in H2.
  rewrite Hid in H2. simpl in H2.
  assert (Hag : ∀ a, agent_of_run (w_db w1) i a ↔ agent_of_run (w_db w) i a).
  { intros a. rewrite H1. by apply agent_of_run_update. }
  assert (Hext : ∀ f : AgentRow.t → AgentRow.t,
    update_where (agent_of_run (w_db w1) i) f (agents (w_db w1)) =
    update_where (agent_of_run (w_db w) i) f (agents (w_db w))).
  { intros f. rewrite H1 at 3. apply list_fmap_ext. intros _ a _. by apply decide_ext. }
  destruct (decide (status = RunSucceeded)) as [Hs|Hs].
  - rewrite bool_decide_eq_true_2 in H2 by done. injection H2 as _ <-. simpl.
    split; [by rewrite H1|apply Hext].
  - rewrite bool_decide_eq_false_2 in H2 by done.
    apply rbind_Ok in H2 as (d1 & Hc%count_failure_Ok & [= _ <-]). rewrite Hc. simpl.
    split; [by rewrite H1|apply Hext].
Qed.

End reports.

(** ** Closed examples *)
Definition example_run_row (n : nat) (status : string) (lease : option Time) : RunRow.t :=
  (new_run_row (example_id n) OwnerUserID (example_id 1) None TriggerManual status 0 0)
    <| RunRow.lease_expires_at := lease |>.
Definition pending_database : Database :=
  example_database <| runs := [example_run_row 5 RunPending None] |>.
Definition running_database (lease : Time) : Database :=
  example_database <| runs := [example_run_row 5 RunRunning (Some lease)] |>.
Definition quiet (n : nat) : list Reply := replicate n (answer 0 9).
Definition accepts (_ : RunRequest.t) (_ : workerInfo.t) : result bool := Ok true.

(** A run that a worker accepted but whose claim was not committed stays
    pending and is handed out a second time by the next scan. *)
Lemma lost_commit_dispatches_twice :
  let scan w := @dispatchPendingRuns example_uuid accepts [] Second (example_pool 0) w in
  let w := mkWorld pending_database
             (quiet 3 ++ [mkReply (Some "connection reset") 0 EmptyString] ++ quiet 4) in
  let '(first, _, w1) := scan w in
  let '(second, _, w2) := scan w1 in
  first = [example_id 5] ∧ second = [example_id 5] ∧ w_db w1 = w_db w ∧
  RunRow.status <$> runs (w_db w2) = [RunRunning].
Proof. vm_compute. split_and!; reflexivity. Qed.


Lemma concurrent_dispatch_disjoint_witness :
  let w := mkWorld pending_database (quiet 60) in
  let scan locked := @dispatchPendingRuns example_uuid accepts locked Second (example_pool 0) w in
  fst (fst (scan [])) = [example_id 5] ∧
  fst (fst (scan [])) ## fst (fst (scan [example_id 5])).
Proof.
  intros w scan. split; [vm_compute; reflexivity|].
  apply (@concurrent_dispatch_disjoint example_uuid accepts accepts Second Second [] (example_pool 0)
    (example_pool 0) w w _ _ (snd (fst (scan []))) (snd (fst (scan [example_id 5])))
    (snd (scan [])) (snd (scan [example_id 5])));
    [apply (bool_decide_unpack _); vm_compute; exact I..|vm_compute; reflexivity
    |vm_compute; reflexivity].
Defined.

Lemma reaper_fails_expired_witness :
  let w := mkWorld (running_database Minute) (quiet 1) in
  RunRow.status <$> runs (w_db (snd (Reaper_RunOnce Hour w))) = [RunFailed] ∧
  1%nat = count_where (expired Hour) (runs (w_db w)).
Proof.
  intros w. split; [vm_compute; reflexivity|].
  apply (reaper_fails_expired Hour w 1%nat (snd (Reaper_RunOnce Hour w))).
  vm_compute. reflexivity.
Defined.

Lemma lease_lasts_sixty_seconds_witness :
  let r := example_run_row 5 RunRunning (Some (60 * Second)) in
  let w := mkWorld (running_database (60 * Second)) (quiet 1) in
  r ∈ runs (w_db (snd (Reaper_RunOnce (60 * Second) w))) ∧
  abandon (61 * Second) r ∈ runs (w_db (snd (Reaper_RunOnce (61 * Second) w))).
Proof.
  intros r w. split.
  - apply (lease_lasts_sixty_seconds 0 (60 * Second) r w 0%nat); [left|done|done| |done].
    vm_compute. reflexivity.
  - apply (lease_lasts_sixty_seconds 0 (61 * Second) r w 1%nat); [left|done|done| |done].
    vm_compute. reflexivity.
Defined.
