(* ===== verification/RunLifecycle.v ===== *)
(** * The life of a run

    The coordinator's scans, the workers' reports and the owner's requests as
    the steps of one transition system over the database, and the state
    machine every run goes through under them.

    Besides the database a state records which runs were ever handed to a
    worker; only those are reported on. *)
From S2P Require Import Prelude GoStrings Model Database AgentStore RunStore StepStore.
From S2P Require Import MemoryStore CronSchedule Materializer WorkerPool Coordinator.
Local Open Scope go_scope.
Local Open Scope Z_scope.

Record Sys := mkSys { sys_db : Database; handed : list string }.

(** Who moves. *)
Inductive actor :=
| AMaterializer | AOwner | ADispatcher | AWorker (run : string) | AReaper.

(** ** The state machine of one run *)

(** A run as it is created: by a schedule, or by hand. *)
Definition fresh_run (r : RunRow.t) : Prop :=
  ∃ id user agent schedule trigger status at_ now,
    r = new_run_row id user agent schedule trigger status at_ now ∧
    (status = RunPending ∨ status = RunMissed ∧ trigger = TriggerSchedule) ∧
    (trigger = TriggerSchedule ∨ trigger = TriggerManual).

(** The counts of a report travel as 32-bit integers. *)
Definition wire_report (req : UpdateRunStatusRequest.t) : Prop :=
  - 2 ^ 31 ≤ UpdateRunStatusRequest.PromptTokens req < 2 ^ 31 ∧
  - 2 ^ 31 ≤ UpdateRunStatusRequest.CompletionTokens req < 2 ^ 31.

(** What the owner's requests leave alone. *)
Definition same_life (r r' : RunRow.t) : Prop :=
  RunRow.id r' = RunRow.id r ∧ RunRow.user_id r' = RunRow.user_id r ∧
  RunRow.agent_id r' = RunRow.agent_id r ∧
  RunRow.trigger r' = RunRow.trigger r ∧ RunRow.status r' = RunRow.status r ∧
  RunRow.scheduled_for r' = RunRow.scheduled_for r ∧
  RunRow.picked_at r' = RunRow.picked_at r ∧ RunRow.started_at r' = RunRow.started_at r ∧
  RunRow.finished_at r' = RunRow.finished_at r ∧
  RunRow.lease_expires_at r' = RunRow.lease_expires_at r ∧
  RunRow.output r' = RunRow.output r ∧ RunRow.error r' = RunRow.error r ∧
  RunRow.prompt_tokens r' = RunRow.prompt_tokens r ∧
  RunRow.completion_tokens r' = RunRow.completion_tokens r.

Inductive transition (given : list string) : actor → RunRow.t → RunRow.t → Prop :=
| tr_keep a r r' : same_life r r' → transition given a r r'
| tr_claim now r : RunRow.status r = RunPending → RunRow.id r ∈ given →
    transition given ADispatcher r (claim now r)
| tr_running now r : RunRow.id r ∈ given →
    transition given (AWorker (RunRow.id r)) r (set_running now r)
| tr_outcome now s st req r : RunRow.id r ∈ given → outcome_status s = Some st →
    wire_report req →
    transition given (AWorker (RunRow.id r)) r (set_outcome now st req r)
| tr_renew now r : RunRow.id r ∈ given → RunRow.status r = RunRunning →
    transition given (AWorker (RunRow.id r)) r (extend_lease now r)
| tr_abandon now r : expired now r → transition given AReaper r (abandon now r).

Section lifecycle.
Context {PU : PgUuid} {PJ : PgJsonb} {CR : Cron}.

(** The server's new identifiers are in normal form and were never used. *)
Definition new_ids (s : Sys) (w : World) : Prop :=
  w_db w = sys_db s ∧
  Forall (λ r, uuid_in (r_uuid r) = Some (r_uuid r) ∧ r_uuid r ∉ handed s) (w_replies w).

(** The requests of the owner that touch runs in passing or not at all. *)
Inductive owner_request : ∀ {A}, Db A → Prop :=
| or_create u a : owner_request (AgentStore_Create u a)
| or_update u i a : owner_request (AgentStore_Update u i a)
| or_delete u i : owner_request (AgentStore_Delete u i)
| or_upsert u a s t wall : owner_request (ScheduleStore_Upsert u a s t wall)
| or_unschedule u a : owner_request (ScheduleStore_DeleteByAgent u a)
| or_mark_read u i now : owner_request (RunStore_MarkRead u i now)
| or_prompt i p : owner_request (RunStore_SetRenderedPrompt i p)
| or_step i n st : owner_request (StepStore_Record i n st)
| or_remember u a ns k c : owner_request (MemoryStore_Write u a ns k c)
| or_forget u i : owner_request (MemoryStore_Delete u i).

Inductive step : actor → Sys → Sys → Prop :=
| step_materialize s locked now w res w' :
    new_ids s w → Materializer_RunOnce locked now w = (res, w') →
    step AMaterializer s (mkSys (w_db w') (handed s))
| step_owner {A} s (m : Db A) w res w' :
    new_ids s w → owner_request m → m w = (res, w') →
    step AOwner s (mkSys (w_db w') (handed s))
| step_trigger s user agent now w res w' :
    new_ids s w →
    RunStore_Create user agent None TriggerManual RunPending now w = (res, w') →
    step AOwner s (mkSys (w_db w') (handed s))
| step_dispatch s submit locked now p w accepted p' w' :
    new_ids s w → dispatchPendingRuns submit locked now p w = (accepted, p', w') →
    step ADispatcher s (mkSys (w_db w') (handed s ++ accepted))
| step_report s now req i w res w' :
    new_ids s w → uuid_in (UpdateRunStatusRequest.RunId req) = Some i → i ∈ handed s →
    wire_report req → UpdateRunStatus now req w = (res, w') →
    step (AWorker i) s (mkSys (w_db w') (handed s))
| step_renew s now id i w res w' :
    new_ids s w → uuid_in id = Some i → i ∈ handed s →
    RenewLease now id w = (res, w') →
    step (AWorker i) s (mkSys (w_db w') (handed s))
| step_reap s now w res w' :
    new_ids s w → Reaper_RunOnce now w = (res, w') →
    step AReaper s (mkSys (w_db w') (handed s)).

(** What a step does to the runs: each one left went through a transition of
    its actor, or is new. *)
Definition runs_follow (a : actor) (s s' : Sys) : Prop :=
  ∀ r', r' ∈ runs (sys_db s') →
    (∃ r, r ∈ runs (sys_db s) ∧ transition (handed s') a r r') ∨
    (fresh_run r' ∧ uuid_in (RunRow.id r') = Some (RunRow.id r') ∧
     ¬ RunRow.id r' ∈ handed s' ∧ ¬ run_exists (sys_db s) (RunRow.id r')).
End lifecycle.

(** ** The owner's requests leave runs alone *)
Definition spares_runs (d d' : Database) : Prop :=
  ∀ r', r' ∈ runs d' → ∃ r, r ∈ runs d ∧ same_life r r'.

Lemma same_life_refl r : same_life r r.
Proof. by repeat split. Qed.

Lemma same_life_trans r1 r2 r3 : same_life r1 r2 → same_life r2 r3 → same_life r1 r3.
Proof. unfold same_life. intuition congruence. Qed.

#[export] Instance spares_runs_preorder : PreOrder spares_runs.
Proof.
  split.
  - intros d r' Hr. eauto using same_life_refl.
  - intros d1 d2 d3 H12 H23 r3 (r2 & (r1 & ? & ?)%H12 & ?)%H23.
    eauto using same_life_trans.
Qed.

Lemma spares_same_runs d d' : runs d' = runs d → spares_runs d d'.
Proof. intros Heq r' Hr. rewrite Heq in Hr. eauto using same_life_refl. Qed.

Lemma spares_update_runs P `{∀ r, Decision (P r)} f d :
  (∀ r, same_life r (f r)) →
  spares_runs d (d <| runs := update_where P f (runs d) |>).
Proof.
  intros Hf r' (r & Hr & [[_ ->]|[_ ->]])%elem_of_update_where; eauto using same_life_refl.
Qed.

Lemma spares_delete_schedules P `{∀ s, Decision (P s)} d :
  spares_runs d (delete_schedules P d).
Proof.
  intros r' (r & Hr & [[_ ->]|[_ ->]])%elem_of_update_where; exists r; (split; [done|]);
    [by repeat split|apply same_life_refl].
Qed.

Lemma spares_delete_agents P `{∀ a, Decision (P a)} d : spares_runs d (delete_agents P d).
Proof.
  unfold delete_agents. set (gone := AgentRow.id <$> filter P (agents d)).
  trans (delete_runs (λ r, RunRow.agent_id r ∈ gone) d).
  - intros r' [Hr _]%elem_of_delete_where. eauto using same_life_refl.
  - apply (spares_delete_schedules (λ s, ScheduleRow.agent_id s ∈ gone)).
Qed.

(** Walks a statement that succeeded down to the database it answered. *)
Ltac inv_statement H :=
  repeat match type of H with
  | rbind _ _ = Ok _ => apply rbind_Ok in H as (? & _ & H)
  | (if decide ?P then Err _ else _) = Ok _ => destruct (decide P); [discriminate H|]
  | match ?o with Some _ => _ | None => _ end = Ok _ => destruct o
  end;
  injection H as _ <-.

Section owner.
Context {PU : PgUuid} {PJ : PgJsonb}.

Lemma owner_request_spares {A} (m : Db A) : owner_request m → respects spares_runs m.
Proof.
  intros Hm; destruct Hm; unfold AgentStore_Create, AgentStore_Update, AgentStore_Delete,
    ScheduleStore_Upsert, ScheduleStore_DeleteByAgent, RunStore_MarkRead,
    RunStore_SetRenderedPrompt, StepStore_Record, MemoryStore_Write, MemoryStore_Delete;
    respects; (apply respects_statement; [typeclasses eauto|]);
    intros rep d x d' Hs; unfold insert_agent, update_agent, delete_agent, upsert_schedule,
      delete_schedule, mark_read, update_run, insert_step, insert_memory, prune_namespace,
      delete_memory in Hs; inv_statement Hs;
    first [by apply spares_same_runs | apply spares_delete_agents
          | apply spares_delete_schedules | by apply spares_update_runs; repeat split].
Qed.

Lemma owner_request_wf {A} (m : Db A) : owner_request m → keeps wf_database m.
Proof.
  intros Hm; destruct Hm; auto using AgentStore_Create_wf, AgentStore_Update_wf,
    AgentStore_Delete_wf, MemoryStore_Write_wf, MemoryStore_Delete_wf;
    unfold ScheduleStore_Upsert, ScheduleStore_DeleteByAgent, RunStore_MarkRead,
      RunStore_SetRenderedPrompt, StepStore_Record; respects;
    (apply respects_statement; [typeclasses eauto|]); intros rep d x d' Hs Hd;
    eauto with taskd.
  by refine (wf_update_run _ _ _ _ _ _ _ Hs Hd).
Qed.
End owner.

(** ** What each step does to the runs *)
Section steps.
Context {PU : PgUuid} {PJ : PgJsonb} {CR : Cron} {CL : CronLaws}.

Lemma new_run_fresh id u a s trigger status at_ now :
  status = RunPending ∨ status = RunMissed ∧ trigger = TriggerSchedule →
  trigger = TriggerSchedule ∨ trigger = TriggerManual →
  fresh_run (new_run_row id u a s trigger status at_ now).
Proof. intros H Ht. by exists id, u, a, s, trigger, status, at_, now. Qed.

Lemma materialize_all_new Q now due c w n w' :
  Forall Q (w_replies w) → materialize_all now due c w = (Ok n, w') →
  ∀ r', r' ∈ runs (w_db w') → r' ∈ runs (w_db w) ∨
    (fresh_run r' ∧ ¬ run_exists (w_db w) (RunRow.id r') ∧
     ∃ rep, Q rep ∧ RunRow.id r' = r_uuid rep).
Proof.
  revert c w. induction due as [|item due IH]; intros c w HQ H r' Hr'.
  { apply ret_Ok in H as [_ ->]. by left. }
  simpl in H. destruct (Parse _ _) as [spec|e]; [|by eapply IH].
  destruct (resolveFireTimes _ _ _) as [[fireAt next] missed].
  apply bind_Ok in H as (row & w1 & (r1 & E1 & _ & Hi)%statement_Ok & H).
  apply bind_Ok in H as (u & w2 & (r2 & E2 & _ & Ha)%statement_Ok & H).
  rewrite E1, E2 in HQ. apply Forall_cons in HQ as [HQ1 [_ HQ]%Forall_cons].
  unfold advance_schedule in Ha. apply rbind_Ok in Ha as (i & _ & [= _ Hw2]).
  apply insert_run_Ok in Hi as (u' & a & s & _ & _ & _ & _ & _ & _ & Hnew & -> & Hw1).
  apply (IH _ _ HQ H) in Hr' as [Hr'|(? & Hne & ?)].
  2: { right. split_and!; [done| |done]. intros Hex. apply Hne. rewrite <- Hw2.
       unfold run_exists. simpl. rewrite Hw1. simpl. by apply elem_of_key_snoc. }
  rewrite <- Hw2 in Hr'. simpl in Hr'.
  rewrite Hw1 in Hr'. simpl in Hr'. apply elem_of_app in Hr' as [?|Hr']; [by left|].
  apply list_elem_of_singleton in Hr' as ->. right. split; [|split; [done|by exists r1]].
  apply new_run_fresh; [destruct missed; [by right|by left]|by left].
Qed.

Lemma keep_run given a r : transition given a r r.
Proof. apply tr_keep, same_life_refl. Qed.

Lemma runs_follow_same a s s' :
  runs (sys_db s') = runs (sys_db s) → runs_follow a s s'.
Proof. intros Heq r' Hr'. rewrite Heq in Hr'. left. eauto using keep_run. Qed.

(** A step whose effect on the runs is an update by transitions. *)
Lemma runs_follow_update a s s' P `{∀ r, Decision (P r)} f :
  runs (sys_db s') = update_where P f (runs (sys_db s)) →
  (∀ r, r ∈ runs (sys_db s) → P r → transition (handed s') a r (f r)) →
  runs_follow a s s'.
Proof.
  intros Heq Hf r' Hr'. rewrite Heq in Hr'. left.
  apply elem_of_update_where in Hr' as (r & Hr & [[HP ->]|[_ ->]]); exists r;
    eauto using keep_run.
Qed.

Lemma materialize_follows s locked now w res w' :
  new_ids s w → Materializer_RunOnce locked now w = (res, w') →
  runs_follow AMaterializer s (mkSys (w_db w') (handed s)).
Proof.
  intros [Hdb Hids] H. destruct res as [n|e].
  - apply in_transaction_Ok in H as (rb & w1 & w2 & E & Hw1 & Hb & Hw').
    apply bind_Ok in Hb as (due & w3 & (r & E3 & _ & _ & Hw3)%query_Ok & Hall).
    rewrite E, E3 in Hids. apply Forall_cons in Hids as [_ [_ Hids]%Forall_cons].
    intros r' Hr'. simpl in Hr'. rewrite Hw' in Hr'.
    apply (materialize_all_new _ _ _ _ _ _ _ Hids Hall) in Hr'
      as [Hr'|(Hf & Hne & rep & [Hn Hh] & Hid)]; rewrite Hw3, Hw1, Hdb in *.
    + left. exists r'. eauto using keep_run.
    + right. rewrite Hid in *. by split_and!.
  - apply in_transaction_Err in H. apply runs_follow_same. simpl. congruence.
Qed.

Lemma trigger_follows s user agent now w res w' :
  new_ids s w → RunStore_Create user agent None TriggerManual RunPending now w = (res, w') →
  runs_follow AOwner s (mkSys (w_db w') (handed s)).
Proof.
  intros [Hdb Hids] H. unfold RunStore_Create, bind, map_err, statement in H.
  destruct (w_replies w) as [|rep rest]; [simplify_eq; apply runs_follow_same; simpl; congruence|].
  destruct (r_fault rep); [simplify_eq; apply runs_follow_same; simpl; congruence|].
  destruct (insert_run _ _ _ _ _ _ _ _) as [[row d']|e] eqn:E;
    [|simplify_eq; apply runs_follow_same; simpl; congruence].
  apply Forall_cons in Hids as [[Hn Hh] _]. simpl in H. unfold ret in H. injection H as _ <-.
  apply insert_run_Ok in E as (u & a & s' & _ & _ & _ & _ & _ & _ & Hne & -> & ->).
  intros r' Hr'. simpl in Hr'. apply elem_of_app in Hr' as [Hr'|Hr'].
  - left. exists r'. rewrite Hdb in Hr'. eauto using keep_run.
  - apply list_elem_of_singleton in Hr' as ->. right.
    rewrite Hdb in Hne. split; [apply new_run_fresh; [by left|by right]|by split].
Qed.
End steps.

Section worker_steps.
Context {PU : PgUuid}.

Lemma dispatch_follows s submit locked now p w accepted p' w' :
  wf_database (sys_db s) → Forall normal_run (runs (sys_db s)) → w_db w = sys_db s →
  dispatchPendingRuns submit locked now p w = (accepted, p', w') →
  runs_follow ADispatcher s (mkSys (w_db w') (handed s ++ accepted)).
Proof.
  intros Hwf Hnorm Hdb H. rewrite <- Hdb in Hwf, Hnorm.
  pose proof (λ id, dispatch_accepted_selected _ _ _ _ _ _ _ _ id Hnorm H) as Hsel.
  pose proof (dispatch_effect _ _ _ _ _ _ _ _ Hnorm H) as (_ & _ & [Heq|Heq] & _).
  { apply runs_follow_same. simpl. congruence. }
  eapply (runs_follow_update _ _ _ (λ r, RunRow.id r ∈ accepted) (claim now)).
  { simpl. by rewrite Heq, <- Hdb. }
  intros r Hr Hid. apply tr_claim; [|simpl; apply elem_of_app; by right].
  specialize (Hsel _ Hid). apply list_elem_of_fmap in Hsel as (r0 & Hid0 & Hr0).
  apply pending_rows_elem in Hr0 as [(Hst & _) Hin].
  rewrite <- Hdb in Hr.
  by rewrite (NoDup_key_inj RunRow.id _ r r0 (wf_runs_pk _ Hwf) Hr Hin Hid0).
Qed.

Lemma update_run_effect runID f w res w' i :
  uuid_in runID = Some i → statement (update_run runID f) w = (res, w') →
  runs (w_db w') = runs (w_db w) ∨
  runs (w_db w') = update_where (λ r, RunRow.id r = i) f (runs (w_db w)).
Proof.
  intros Hid [->|(r & a & Hu)]%statement_effect; [by left|right].
  by rewrite (update_run_Ok _ _ _ _ _ _ _ Hid Hu).
Qed.

Lemma agent_outcome_runs runID ok w res w' :
  statement (agent_outcome runID ok) w = (res, w') → runs (w_db w') = runs (w_db w).
Proof.
  intros [->|(r & a & H)]%statement_effect; [done|]. unfold agent_outcome in H.
  apply rbind_Ok in H as (i & _ & H). destruct ok; [by injection H as _ <-|].
  apply rbind_Ok in H as (d & Hd%count_failure_Ok & [= _ <-]). by rewrite Hd.
Qed.

(** The first statement of a report decides what becomes of the run. *)
Lemma report_runs now req i w res w' :
  uuid_in (UpdateRunStatusRequest.RunId req) = Some i →
  UpdateRunStatus now req w = (res, w') →
  runs (w_db w') = runs (w_db w) ∨
  runs (w_db w') = update_where (λ r, RunRow.id r = i) (set_running now) (runs (w_db w)) ∨
  ∃ st, outcome_status (UpdateRunStatusRequest.Status req) = Some st ∧
    runs (w_db w') = update_where (λ r, RunRow.id r = i) (set_outcome now st req)
                       (runs (w_db w)).
Proof.
  intros Hid H. unfold UpdateRunStatus in H.
  destruct (UpdateRunStatusRequest.Status req) eqn:Hst;
    try (injection H as _ <-; by left); unfold bind in H.
  { destruct (statement _ w) as [[[]|e] w1] eqn:E; unfold ret in H; injection H as _ <-;
      destruct (update_run_effect _ _ _ _ _ _ Hid E); auto. }
  all: destruct (statement _ w) as [r w1] eqn:E.
  all: assert (Hw' : runs (w_db w') = runs (w_db w1)) by
    (destruct r as [[]|e]; [|by injection H as _ <-]; unfold recordAgentOutcome in H;
     destruct (statement (agent_outcome _ _) w1) as [[[]|e] w2] eqn:E2;
     apply agent_outcome_runs in E2; unfold ret in H; injection H as _ <-; done).
  all: rewrite Hw'; destruct (update_run_effect _ _ _ _ _ _ Hid E) as [Hr|Hr];
    [by left|right; right; eexists; split; [done|exact Hr]].
Qed.

Lemma report_follows s now req i w res w' :
  w_db w = sys_db s → uuid_in (UpdateRunStatusRequest.RunId req) = Some i → i ∈ handed s →
  wire_report req → UpdateRunStatus now req w = (res, w') →
  runs_follow (AWorker i) s (mkSys (w_db w') (handed s)).
Proof.
  intros Hdb Hid Hh Hwire H.
  destruct (report_runs _ _ _ _ _ _ Hid H) as [Hr|[Hr|(st & Hst & Hr)]]; rewrite Hdb in Hr.
  - by apply runs_follow_same.
  - eapply (runs_follow_update _ s (mkSys (w_db w') (handed s)) _ _ Hr). intros r _ <-. by apply tr_running.
  - eapply (runs_follow_update _ s (mkSys (w_db w') (handed s)) _ _ Hr). intros r _ <-. by eapply tr_outcome.
Qed.

Lemma renew_follows s now id i w res w' :
  w_db w = sys_db s → uuid_in id = Some i → i ∈ handed s →
  RenewLease now id w = (res, w') →
  runs_follow (AWorker i) s (mkSys (w_db w') (handed s)).
Proof.
  intros Hdb Hid Hh H. unfold RenewLease, bind in H.
  destruct (statement _ w) as [n w1] eqn:E.
  assert (w' = w1) as -> by (destruct n; unfold ret in H; by injection H as _ <-).
  apply statement_effect in E as [E|(rep & a & E)].
  - apply runs_follow_same. simpl. congruence.
  - unfold renew_lease, uuid_arg in E. rewrite Hid in E. simpl in E. injection E as _ E.
    eapply (runs_follow_update _ _ _
      (λ r, RunRow.id r = i ∧ RunRow.status r = RunRunning) (extend_lease now)).
    { simpl. by rewrite <- E, <- Hdb. }
    intros r _ [<- Hst]. by apply tr_renew.
Qed.

Lemma reap_follows s now w res w' :
  w_db w = sys_db s → Reaper_RunOnce now w = (res, w') →
  runs_follow AReaper s (mkSys (w_db w') (handed s)).
Proof.
  intros Hdb [E|(rep & a & E)]%statement_effect.
  - apply runs_follow_same. simpl. congruence.
  - unfold reap in E. apply rbind_Ok in E as (d & _ & [= _ E]).
    eapply (runs_follow_update _ _ _ (expired now) (abandon now)).
    { simpl. by rewrite <- E, <- Hdb. }
    intros r _ He. by apply tr_abandon.
Qed.
End worker_steps.

(** ** Reachable states *)
Section reachable.
Context {PU : PgUuid} {PJ : PgJsonb} {CR : Cron}.

Definition any_step (s s' : Sys) : Prop := ∃ a, step a s s'.

(** From an installation without runs. *)
Definition reachable (s : Sys) : Prop :=
  ∃ d, wf_database d ∧ runs d = [] ∧ rtc any_step (mkSys d []) s.

(** The statuses a worker's verdict leaves. *)
Definition finished_status (status : string) : Prop :=
  status = RunSucceeded ∨ status = RunFailed ∨ status = RunBudgetExceeded.
#[export] Instance finished_status_dec status : Decision (finished_status status).
Proof. unfold finished_status. apply _. Defined.

Definition untouched (r : RunRow.t) : Prop :=
  RunRow.picked_at r = None ∧ RunRow.started_at r = None ∧ RunRow.finished_at r = None ∧
  RunRow.lease_expires_at r = None.

Record run_ok (given : list string) (r : RunRow.t) : Prop := {
  ro_status : RunRow.status r = RunPending ∨ RunRow.status r = RunRunning ∨
              RunRow.status r = RunMissed ∨ finished_status (RunRow.status r);
  ro_pending : RunRow.status r = RunPending → untouched r;
  ro_missed : RunRow.status r = RunMissed → untouched r ∧ RunRow.id r ∉ given;
  ro_running : RunRow.status r = RunRunning → RunRow.id r ∈ given;
  ro_finished : finished_status (RunRow.status r) →
                RunRow.finished_at r ≠ None ∧ RunRow.id r ∈ given
}.

Record sys_ok (s : Sys) : Prop := {
  so_wf : wf_database (sys_db s);
  so_normal : Forall normal_run (runs (sys_db s));
  so_runs : Forall (run_ok (handed s)) (runs (sys_db s))
}.

(** Runs are handed out while pending. *)
Definition hands_pending (s s' : Sys) : Prop :=
  (∀ id, id ∈ handed s → id ∈ handed s') ∧
  ∀ id, id ∈ handed s' → id ∈ handed s ∨
    ∃ r, r ∈ runs (sys_db s) ∧ RunRow.id r = id ∧ RunRow.status r = RunPending.

Lemma hands_same s d : hands_pending s (mkSys d (handed s)).
Proof. by split; [|left]. Qed.

Lemma dispatch_hands_pending s submit locked now p w accepted p' w' :
  Forall normal_run (runs (sys_db s)) → w_db w = sys_db s →
  dispatchPendingRuns submit locked now p w = (accepted, p', w') →
  hands_pending s (mkSys (w_db w') (handed s ++ accepted)).
Proof.
  intros Hnorm Hdb H. split; simpl; [intros id ?; apply elem_of_app; by left|].
  intros id [?|Hid]%elem_of_app; [by left|right]. rewrite <- Hdb in Hnorm.
  pose proof (dispatch_accepted_selected _ _ _ _ _ _ _ _ id Hnorm H Hid) as Hsel.
  apply list_elem_of_fmap in Hsel as (r & -> & Hr). exists r.
  apply pending_rows_elem in Hr as [(? & _) ?]. by rewrite <- Hdb.
Qed.

(** What every step guarantees. *)
Lemma step_effect a s s' :
  sys_ok s → step a s s' →
  wf_database (sys_db s') ∧ runs_follow a s s' ∧ hands_pending s s'.
Proof.
  intros [Hwf Hnorm _] Hstep.
  assert (Hkeeps : ∀ {A} (m : Db A) w res w', keeps wf_database m → w_db w = sys_db s →
    m w = (res, w') → wf_database (w_db w')).
  { intros A m w res w' Hm Hdb H. specialize (Hm w). rewrite H, Hdb in Hm. by apply Hm. }
  destruct Hstep as
    [s locked now w res w' Hnew H|A s m w res w' Hnew Hm H|s user agent now w res w' Hnew H
    |s submit locked now p w accepted p' w' Hnew H|s now req i w res w' Hnew Hid Hh Hwire H
    |s now id i w res w' Hnew Hid Hh H|s now w res w' Hnew H]; simpl.
  all: pose proof (proj1 Hnew) as Hdb.
  - split_and!; [|by eapply materialize_follows|apply hands_same].
    eapply Hkeeps; [apply Materializer_RunOnce_wf|done|done].
  - split_and!; [|intros r' Hr'|apply hands_same].
    + eapply Hkeeps; [by apply owner_request_wf|done|done].
    + left. pose proof (owner_request_spares m Hm w) as Hs. rewrite H in Hs. simpl in Hs.
      destruct (Hs r' Hr') as (r & Hr & Hl). exists r. rewrite <- Hdb. eauto using tr_keep.
  - split_and!; [|by eapply trigger_follows|apply hands_same].
    eapply (Hkeeps _ (RunStore_Create user agent None TriggerManual RunPending now));
      [|done|done]. unfold RunStore_Create. respects.
    apply respects_statement; [typeclasses eauto|]. intros; intros ?; by eapply wf_insert_run.
  - split_and!; [|by eapply dispatch_follows|by eapply dispatch_hands_pending].
    rewrite <- Hdb in Hwf, Hnorm.
    destruct (dispatch_effect _ _ _ _ _ _ _ _ Hnorm H) as (_ & _ & [->| ->] & _); [done|].
    by apply wf_with_runs.
  - split_and!; [|by eapply report_follows|apply hands_same].
    eapply Hkeeps; [apply UpdateRunStatus_wf|done|done].
  - split_and!; [|by eapply renew_follows|apply hands_same].
    eapply Hkeeps; [apply RenewLease_wf|done|done].
  - split_and!; [|by eapply reap_follows|apply hands_same].
    eapply Hkeeps; [apply Reaper_RunOnce_wf|done|done].
Qed.

Ltac statuses :=
  unfold finished_status, RunPending, RunRunning, RunMissed, RunSucceeded, RunFailed,
    RunBudgetExceeded in *; intuition congruence.

Lemma outcome_finished s st : outcome_status s = Some st → finished_status st.
Proof. unfold finished_status. destruct s; simpl; intros [=]; subst; auto. Qed.

Lemma fresh_run_ok given r : fresh_run r → ¬ RunRow.id r ∈ given → run_ok given r.
Proof.
  intros (id & u & a & s & tr & st & at_ & now & -> & Hst & _) Hn.
  split; simpl in *; destruct Hst as [-> | [-> _]]; try (by repeat split);
    unfold finished_status; intuition discriminate.
Qed.

(** A transition keeps what is known of a run. *)
Lemma transition_ok given given' a r r' :
  transition given' a r r' → run_ok given r →
  (∀ id, id ∈ given → id ∈ given') →
  (RunRow.status r = RunMissed → ¬ RunRow.id r ∈ given') →
  run_ok given' r'.
Proof.
  intros Htr [Hst Hp Hm Hr Hf] Hsub Hmiss. destruct Htr as
    [a r r' Hl|now r Hs Hid|now r Hid|now s st req r Hid Ho Hwire|now r Hid Hs|now r [Hs He]].
  - destruct Hl as (Eid & _ & _ & _ & Est & _ & Epi & Esta & Efi & Ele & _).
    split; unfold untouched in *; rewrite ?Eid, ?Est, ?Epi, ?Esta, ?Efi, ?Ele; auto.
    + intros H. split; [by apply Hm|auto].
    + intros H. destruct (Hf H). auto.
  - split; simpl; try done; statuses.
  - split; simpl; try done; statuses.
  - apply outcome_finished in Ho. split; simpl; try done; statuses.
  - split; simpl; rewrite ?Hs in *; try done; statuses.
  - split; simpl; try done; [statuses|]. intros _. auto.
Qed.

(** What follows the state machine and hands out pending runs only keeps a system in
    order. *)
Lemma follow_keeps_ok a s s' :
  sys_ok s → wf_database (sys_db s') → runs_follow a s s' → hands_pending s s' → sys_ok s'.
Proof.
  intros [Hwf0 Hnorm Hruns] Hwf Hf [Hsub Hnew]. rewrite Forall_forall in Hnorm, Hruns.
  split; [done| |]; rewrite Forall_forall; intros r' Hr'.
  - destruct (Hf r' Hr') as [(r & Hr & Htr)|(_ & Hn & _)]; [|done].
    specialize (Hnorm r Hr). unfold normal_run in *.
    assert (RunRow.id r' = RunRow.id r) as ->; [|done].
    destruct Htr as [? ? ? [Hid _]| | | | |]; try done.
  - destruct (Hf r' Hr') as [(r & Hr & Htr)|(Hfr & _ & Hn & _)]; [|by apply fresh_run_ok].
    eapply transition_ok; [exact Htr|by apply Hruns|done|].
    intros Hmiss [Hin|(r0 & Hr0 & Hid & Hst)]%Hnew.
    + by apply (ro_missed _ _ (Hruns r Hr)) in Hmiss as [_ ?].
    + rewrite (NoDup_key_inj RunRow.id _ r0 r (wf_runs_pk _ Hwf0) Hr0 Hr Hid) in Hst.
      statuses.
Qed.

Lemma step_keeps_ok a s s' : sys_ok s → step a s s' → sys_ok s'.
Proof.
  intros Hok Hstep. destruct (step_effect a s s' Hok Hstep) as (Hwf & Hf & Hh).
  by eapply follow_keeps_ok.
Qed.

Lemma reachable_ok s : reachable s → sys_ok s.
Proof.
  intros (d & Hwf & Hnil & Hrtc).
  assert (Hinit : sys_ok (mkSys d [])) by (split; simpl; [done|rewrite Hnil; constructor..]).
  revert Hinit. clear Hwf Hnil. induction Hrtc as [s|s1 s2 s3 [a Ha] _ IH]; [done|].
  intros Hok. by eapply IH, step_keeps_ok.
Qed.

Lemma step_transition a s s' r r' :
  reachable s → step a s s' → r ∈ runs (sys_db s) → r' ∈ runs (sys_db s') →
  RunRow.id r' = RunRow.id r → transition (handed s') a r r'.
Proof.
  intros Hreach Hstep Hr Hr' Hid. pose proof (reachable_ok s Hreach) as Hok.
  destruct (step_effect a s s' Hok Hstep) as (_ & Hf & _).
  destruct (Hf r' Hr') as [(r0 & Hr0 & Htr)|(_ & _ & _ & Hne)].
  - assert (RunRow.id r0 = RunRow.id r) as Hid0.
    { destruct Htr as [? ? ? [Heq _]| | | | |]; simpl in *; congruence. }
    by rewrite <- (NoDup_key_inj RunRow.id _ r0 r (wf_runs_pk _ (so_wf _ Hok)) Hr0 Hr Hid0).
  - destruct Hne. unfold run_exists. rewrite Hid. by apply list_elem_of_fmap_2.
Qed.


(** C5: whatever the services and the owner do, each run follows the state
    machine: it is claimed when pending and accepted, reported on and renewed
    only by its worker, failed only when its lease expired, and otherwise keeps
    its status, times and result. *)
Theorem runs_follow_state_machine a s s' r r' :
  reachable s → step a s s' → r ∈ runs (sys_db s) → r' ∈ runs (sys_db s') →
  RunRow.id r' = RunRow.id r → transition (handed s') a r r'.
Proof. apply step_transition. Qed.

(** *** The columns hold what their types allow

    Statuses and triggers are text in the database and plain strings in Go; the
    counts are 32-bit columns. *)
Record typed_run (r : RunRow.t) : Prop := {
  ty_status : RunRow.status r ∈ [RunPending; RunRunning; RunSucceeded; RunFailed; RunMissed;
                                 RunBudgetExceeded];
  ty_trigger : RunRow.trigger r = TriggerSchedule ∨ RunRow.trigger r = TriggerManual;
  ty_missed : RunRow.status r = RunMissed → RunRow.trigger r = TriggerSchedule;
  ty_prompt : - 2 ^ 31 ≤ RunRow.prompt_tokens r < 2 ^ 31;
  ty_completion : - 2 ^ 31 ≤ RunRow.completion_tokens r < 2 ^ 31
}.

Ltac declared := apply (bool_decide_unpack _); vm_compute; exact I.

Lemma fresh_run_typed r : fresh_run r → typed_run r.
Proof.
  intros (id & u & a & s & tr & st & at_ & now & -> & Hst & Htr).
  split; simpl; [| |intros ->|lia..]; [|done|].
  - destruct Hst as [-> | [-> _]]; declared.
  - by destruct Hst as [? | [_ ?]].
Qed.

Lemma transition_typed given a r r' : transition given a r r' → typed_run r → typed_run r'.
Proof.
  intros Htr [Hs Ht Hm Hp Hc]. destruct Htr as
    [a r r' Hl|now r _ _|now r _|now s st req r _ Ho [Hwp Hwc]|now r _ _|now r _].
  - destruct Hl as (_ & _ & _ & Et & Es & _ & _ & _ & _ & _ & _ & _ & Ep & Ec).
    split; rewrite ?Et, ?Es, ?Ep, ?Ec; auto.
  - split; simpl; [declared|done|discriminate|lia..].
  - split; simpl; [declared|done|discriminate|lia..].
  - split; simpl; [|done| |lia..]; apply outcome_finished in Ho as [-> |[-> | ->]];
      try discriminate; declared.
  - split; simpl; auto.
  - split; simpl; [declared|done|discriminate|lia..].
Qed.

(** C4: in every reachable state the text and number columns of a run are of their
    types: the status is one of six constants, never [cancelled], the trigger one
    of two, a run is missed only if a schedule asked for it, and the token counts
    are those of 32-bit integers. *)
Theorem reachable_runs_typed s : reachable s → Forall typed_run (runs (sys_db s)).
Proof.
  intros (d & Hwf & Hnil & Hrtc).
  assert (Hgen : ∀ s0, sys_ok s0 → Forall typed_run (runs (sys_db s0)) →
    rtc any_step s0 s → Forall typed_run (runs (sys_db s))).
  { clear. intros s0 Hok Hty Hrtc. induction Hrtc as [s0|s1 s2 s3 [a Ha] _ IH]; [done|].
    apply IH; [by eapply step_keeps_ok|].
    destruct (step_effect _ _ _ Hok Ha) as (_ & Hf & _). apply Forall_forall. intros r' Hr'.
    rewrite Forall_forall in Hty. destruct (Hf r' Hr') as [(r & Hr & Htr)|[Hfr _]].
    - eapply transition_typed; eauto.
    - by apply fresh_run_typed. }
  apply (Hgen (mkSys d [])); [|simpl; rewrite Hnil; constructor|done].
  split; simpl; [done|rewrite Hnil; constructor..].
Qed.

(** C13: a verdict is changed by nothing but a report of the run's own worker, and
    a missed run is never executed: its status, times and result stay. *)
Theorem verdicts_kept a s s' r r' :
  reachable s → step a s s' → r ∈ runs (sys_db s) → r' ∈ runs (sys_db s') →
  RunRow.id r' = RunRow.id r →
  RunRow.status r = RunMissed ∨
    (finished_status (RunRow.status r) ∧ a ≠ AWorker (RunRow.id r)) →
  same_life r r'.
Proof.
  intros Hreach Hstep Hr Hr' Hid Hcase.
  pose proof (step_keeps_ok _ _ _ (reachable_ok s Hreach) Hstep) as [_ _ Hruns'].
  pose proof (step_effect _ _ _ (reachable_ok s Hreach) Hstep) as (_ & _ & Hsub & Hnew).
  pose proof (reachable_ok s Hreach) as [Hwf _ Hruns]. rewrite Forall_forall in Hruns.
  assert (Hmiss : RunRow.status r = RunMissed → ¬ RunRow.id r ∈ handed s').
  { intros Hm [Hin|(r0 & Hr0 & Hid0 & Hst)]%Hnew.
    - by apply (ro_missed _ _ (Hruns r Hr)) in Hm as [_ ?].
    - rewrite (NoDup_key_inj RunRow.id _ r0 r (wf_runs_pk _ Hwf) Hr0 Hr Hid0) in Hst.
      statuses. }
  pose proof (step_transition _ _ _ _ _ Hreach Hstep Hr Hr' Hid) as Htr.
  destruct Htr as [? ? ? Hl|now r Hs Hg|now r Hg|now s0 st req r Hg Ho Hwire|now r Hg Hs|now r [Hs He]];
    [done|..]; destruct Hcase as [Hm|[Hf Hne]]; try (by destruct (Hmiss Hm)); statuses.
Qed.
End reachable.

(** ** A closed history

    A run is triggered by hand and claimed, its worker goes silent, the reaper
    fails it, and the worker reports success after all. *)
Module History.
#[local] Existing Instance example_uuid.
#[local] Existing Instance example_jsonb.
#[local] Existing Instance example_cron.

Definition run : string := example_id 5.
Definition db1 : Database :=
  w_db (snd (RunStore_Create OwnerUserID (example_id 1) None TriggerManual RunPending 0
               (mkWorld example_database [answer 0 5]))).
Definition db2 : Database :=
  w_db (snd (dispatchPendingRuns accepts [] Second (example_pool 0) (mkWorld db1 (quiet 60)))).
Definition db3 : Database := w_db (snd (Reaper_RunOnce Hour (mkWorld db2 (quiet 1)))).
Definition late : UpdateRunStatusRequest.t :=
  UpdateRunStatusRequest.mk run SUCCEEDED "done" "" 10 20.
Definition reported : result bool * World :=
  UpdateRunStatus Hour late (mkWorld db3 (quiet 2)).
Definition db4 : Database := w_db (snd reported).
Definition reaped_again : result nat * World := Reaper_RunOnce (2 * Hour) (mkWorld db3 (quiet 1)).

Definition s0 : Sys := mkSys example_database [].
Definition s1 : Sys := mkSys db1 [].
Definition s2 : Sys := mkSys db2 [run].
Definition s3 : Sys := mkSys db3 [run].
Definition s4 : Sys := mkSys db4 [run].
Definition s5 : Sys := mkSys (w_db (snd reaped_again)) [run].

Lemma new_ids_check s w :
  bool_decide (Forall (λ r, uuid_in (r_uuid r) = Some (r_uuid r) ∧ r_uuid r ∉ handed s)
                      (w_replies w)) = true →
  w_db w = sys_db s → new_ids s w.
Proof. intros H%bool_decide_eq_true ?. by split. Qed.

Lemma step01 : step AOwner s0 s1.
Proof.
  apply (step_trigger s0 OwnerUserID (example_id 1) 0 (mkWorld example_database [answer 0 5])
           _ _ (new_ids_check s0 (mkWorld example_database [answer 0 5]) eq_refl eq_refl) (surjective_pairing _)).
Qed.

Lemma step12 : step ADispatcher s1 s2.
Proof.
  apply (step_dispatch s1 accepts [] Second (example_pool 0) (mkWorld db1 (quiet 60))
           [run] (snd (fst (dispatchPendingRuns accepts [] Second (example_pool 0)
                              (mkWorld db1 (quiet 60))))));
    [by apply new_ids_check|]. vm_compute. reflexivity.
Qed.

Lemma step23 : step AReaper s2 s3.
Proof.
  apply (step_reap s2 Hour (mkWorld db2 (quiet 1)) _ _
           (new_ids_check s2 (mkWorld db2 (quiet 1)) eq_refl eq_refl) (surjective_pairing _)).
Qed.

Lemma step34 : step (AWorker run) s3 s4.
Proof.
  apply (step_report s3 Hour late run (mkWorld db3 (quiet 2)) (fst reported) (snd reported)).
  - apply new_ids_check; reflexivity.
  - reflexivity.
  - left.
  - by vm_compute.
  - apply (surjective_pairing reported).
Qed.

Lemma step35 : step AReaper s3 s5.
Proof.
  apply (step_reap s3 (2 * Hour) (mkWorld db3 (quiet 1)) (fst reaped_again) (snd reaped_again)).
  - apply new_ids_check; reflexivity.
  - unfold reaped_again. apply surjective_pairing.
Qed.

Lemma reachable_s2 : reachable s2.
Proof.
  exists example_database. split; [apply wf_example_database|]. split; [done|].
  eapply rtc_l; [exists AOwner; exact step01|].
  eapply rtc_l; [exists ADispatcher; exact step12|]. apply rtc_refl.
Qed.

Lemma reachable_s3 : reachable s3.
Proof.
  destruct reachable_s2 as (d & ? & ? & Hr). exists d. split_and!; try done.
  eapply rtc_r; [exact Hr|]. exists AReaper. exact step23.
Qed.
End History.

(** A run the reaper has failed is turned into a success by a worker that
    reports late: nothing in the report checks that the run is still running,
    so a run does not end in exactly one of the terminal statuses. *)
Lemma late_report_reverses_verdict :
  @reachable example_uuid example_jsonb example_cron History.s3 ∧
  @step example_uuid example_jsonb example_cron (AWorker History.run) History.s3 History.s4 ∧
  RunRow.status <$> runs (sys_db History.s3) = [RunFailed] ∧
  RunRow.status <$> runs (sys_db History.s4) = [RunSucceeded].
Proof.
  split; [apply History.reachable_s3|]. split; [apply History.step34|].
  split; vm_compute; reflexivity.
Qed.


Lemma runs_follow_state_machine_witness :
  let r := hd (example_run_row 5 RunPending None) (runs History.db2) in
  let r' := hd (example_run_row 5 RunPending None) (runs History.db3) in
  RunRow.status r' = RunFailed ∧ transition [History.run] AReaper r r'.
Proof.
  intros r r'. split; [vm_compute; reflexivity|].
  apply (@runs_follow_state_machine example_uuid example_jsonb example_cron AReaper
    History.s2 History.s3 r r' History.reachable_s2 History.step23); vm_compute;
    [left|left|reflexivity].
Defined.

Lemma verdicts_kept_witness :
  let r := hd (example_run_row 5 RunPending None) (runs History.db3) in
  let r' := hd (example_run_row 5 RunPending None) (runs (sys_db History.s5)) in
  RunRow.status r = RunFailed ∧ same_life r r'.
Proof.
  intros r r'. split; [vm_compute; reflexivity|].
  apply (@verdicts_kept example_uuid example_jsonb example_cron AReaper
    History.s3 History.s5 r r' History.reachable_s3 History.step35).
  - vm_compute. left.
  - vm_compute. left.
  - vm_compute. reflexivity.
  - right. split; [right; left; vm_compute; reflexivity|discriminate].
Defined.

Lemma reachable_runs_typed_witness : Forall typed_run (runs (sys_db History.s3)).
Proof.
  exact (@reachable_runs_typed example_uuid example_jsonb example_cron History.s3
           History.reachable_s3).
Defined.
