(* ===== verification/Json.v ===== *)
(** * JSON ([encoding/json])

    The syntax Go's scanner accepts, the value it denotes with the raw text of
    every object member (for [json.RawMessage]), and the decoding of the struct
    fields the program unmarshals into. *)
From S2P Require Import Prelude GoStrings.
From Stdlib Require Import Ascii.
Local Open Scope go_scope.
Local Open Scope nat_scope.

(** Members keep their raw text beside their value. *)
#[warnings="-register-all"]
Inductive json :=
| JNull
| JBool (b : bool)
| JNum (raw : string)
| JStr (s : string)
| JArr (l : list json)
| JObj (members : list (string * (string * json))).

Definition code (c : ascii) : nat := nat_of_ascii c.
Definition is_byte (n : nat) (c : ascii) : bool := bool_decide (code c = n).

(** ** White space, literals and numbers *)
Definition is_space (c : ascii) : bool :=
  is_byte 32 c || is_byte 9 c || is_byte 13 c || is_byte 10 c.
Fixpoint skip_space (s : string) : string :=
  match s with
  | String c s' => if is_space c then skip_space s' else s
  | EmptyString => s
  end.

Definition is_digit (c : ascii) : bool := bool_decide (48 ≤ code c ≤ 57).

(** The digits a string starts with, and the rest. *)
Fixpoint span_digits (s : string) : string * string :=
  match s with
  | String c s' =>
      if is_digit c then let (d, r) := span_digits s' in (String c d, r)
      else (EmptyString, s)
  | EmptyString => (EmptyString, EmptyString)
  end.

(** One digit at least. *)
Definition digits1 (s : string) : option (string * string) :=
  match span_digits s with
  | (EmptyString, _) => None
  | p => Some p
  end.

(** [0] or digits that do not start with [0]. *)
Definition int_part (s : string) : option (string * string) :=
  match s with
  | String c s' => if is_byte 48 c then Some (str1 c, s') else digits1 s
  | EmptyString => None
  end.

Definition frac_part (s : string) : option (string * string) :=
  match s with
  | String c s' =>
      if is_byte 46 c then '(d, r) ← digits1 s'; Some (String c d, r)
      else Some (EmptyString, s)
  | EmptyString => Some (EmptyString, s)
  end%stdpp.

Definition exp_part (s : string) : option (string * string) :=
  match s with
  | String c s' =>
      if is_byte 101 c || is_byte 69 c then
        let '(sign, s'') :=
          match s' with
          | String d s'' => if is_byte 43 d || is_byte 45 d then (str1 d, s'')
                            else (EmptyString, s')
          | EmptyString => (EmptyString, s')
          end in
        '(d, r) ← digits1 s''; Some (String c (sign +:+ d), r)
      else Some (EmptyString, s)
  | EmptyString => Some (EmptyString, s)
  end%stdpp.

Definition number (s : string) : option (string * string) :=
  let '(sign, s1) :=
    match s with
    | String c s' => if is_byte 45 c then (str1 c, s') else (EmptyString, s)
    | EmptyString => (EmptyString, s)
    end in
  ('(i, s2) ← int_part s1;
   '(f, s3) ← frac_part s2;
   '(e, s4) ← exp_part s3;
   Some (sign +:+ i +:+ f +:+ e, s4))%stdpp.

(** ** Strings *)
Definition hex_digit (c : ascii) : option N :=
  let n := code c in
  if bool_decide (48 ≤ n ≤ 57) then Some (N.of_nat (n - 48))
  else if bool_decide (97 ≤ n ≤ 102) then Some (N.of_nat (n - 87))
  else if bool_decide (65 ≤ n ≤ 70) then Some (N.of_nat (n - 55))
  else None.

(** Four hexadecimal digits. *)
Definition hex4 (s : string) : option (N * string) :=
  match s with
  | String a (String b (String c (String d s'))) =>
      (w ← hex_digit a; x ← hex_digit b; y ← hex_digit c; z ← hex_digit d;
       Some (((w * 16 + x) * 16 + y) * 16 + z, s')%N)%stdpp
  | _ => None
  end.

(** UTF-8 of a code point. *)
Definition utf8_byte (n : N) : ascii := ascii_of_N n.
Definition encode_rune (r : N) : string :=
  (if decide (r < 128) then str1 (utf8_byte r)
   else if decide (r < 2048) then
     String (utf8_byte (192 + r / 64)) (str1 (utf8_byte (128 + r mod 64)))
   else if decide (r < 65536) then
     String (utf8_byte (224 + r / 4096)) (String (utf8_byte (128 + r / 64 mod 64))
       (str1 (utf8_byte (128 + r mod 64))))
   else
     String (utf8_byte (240 + r / 262144)) (String (utf8_byte (128 + r / 4096 mod 64))
       (String (utf8_byte (128 + r / 64 mod 64)) (str1 (utf8_byte (128 + r mod 64))))))%N.
Definition replacement : N := 65533.

Definition is_surrogate (r : N) : bool := bool_decide (55296 ≤ r < 57344)%N.
(** [utf16.DecodeRune]; [None] where it answers U+FFFD. *)
Definition decode_pair (r1 r2 : N) : option N :=
  if bool_decide (55296 ≤ r1 < 56320 ∧ 56320 ≤ r2 < 57344)%N
  then Some ((r1 - 55296) * 1024 + (r2 - 56320) + 65536)%N else None.

(** The length of the well-formed UTF-8 sequence a string starts with, if there
    is one. *)
Definition cont (c : ascii) : bool := bool_decide (128 ≤ code c ≤ 191).
Definition between (a b : nat) (c : ascii) : bool := bool_decide (a ≤ code c ≤ b).
Definition utf8_len (s : string) : option nat :=
  match s with
  | EmptyString => None
  | String a r =>
      if between 0 127 a then Some 1
      else match r with
      | String b r2 =>
          if between 194 223 a && cont b then Some 2
          else match r2 with
          | String c r3 =>
              if (is_byte 224 a && between 160 191 b || between 225 236 a && cont b ||
                  is_byte 237 a && between 128 159 b || between 238 239 a && cont b) && cont c
              then Some 3
              else match r3 with
              | String d _ =>
                  if (is_byte 240 a && between 144 191 b || between 241 243 a && cont b ||
                      is_byte 244 a && between 128 143 b) && cont c && cont d
                  then Some 4 else None
              | EmptyString => None
              end
          | EmptyString => None
          end
      | EmptyString => None
      end
  end.

Definition simple_escape (c : ascii) : option ascii :=
  let n := code c in
  if bool_decide (n = 34 ∨ n = 92 ∨ n = 47) then Some c
  else if is_byte 98 c then Some (byte_of 8)
  else if is_byte 102 c then Some (byte_of 12)
  else if is_byte 110 c then Some (byte_of 10)
  else if is_byte 114 c then Some (byte_of 13)
  else if is_byte 116 c then Some (byte_of 9)
  else None.

(** What follows an opening quote: the decoded text and what comes after the
    closing quote. *)
Fixpoint string_body (fuel : nat) (s : string) : option (string * string) :=
  match fuel with
  | 0 => None
  | S fuel' =>
      (match s with
       | EmptyString => None
       | String c s' =>
           if is_byte 34 c then Some (EmptyString, s')
           else if is_byte 92 c then
             match s' with
             | EmptyString => None
             | String e s'' =>
                 if is_byte 117 e then
                   '(r, rest) ← hex4 s'';
                   if is_surrogate r then
                     match
                       match rest with
                       | String b (String u rest') =>
                           if is_byte 92 b && is_byte 117 u
                           then '(r2, rest'') ← hex4 rest';
                                p ← decode_pair r r2; Some (p, rest'')
                           else None
                       | _ => None
                       end
                     with
                     | Some (p, rest'') =>
                         '(t, k) ← string_body fuel' rest''; Some (encode_rune p +:+ t, k)
                     | None =>
                         '(t, k) ← string_body fuel' rest;
                         Some (encode_rune replacement +:+ t, k)
                     end
                   else '(t, k) ← string_body fuel' rest; Some (encode_rune r +:+ t, k)
                 else
                   b ← simple_escape e;
                   '(t, k) ← string_body fuel' s''; Some (String b t, k)
             end
           else if bool_decide (code c < 32) then None
           else match utf8_len s with
                | Some n =>
                    '(t, k) ← string_body fuel' (str_drop n s); Some (str_take n s +:+ t, k)
                | None =>
                    '(t, k) ← string_body fuel' s';
                    Some (encode_rune replacement +:+ t, k)
                end
       end)%stdpp
  end.
Definition json_string (s : string) : option (string * string) :=
  string_body (S (len s)) s.

(** ** Values

    [fuel] bounds the number of values and members still to read, [depth] the
    nesting Go allows. *)
Definition maxNestingDepth : nat := Z.to_nat 10000.

Definition expect (n : nat) (s : string) : option string :=
  match s with
  | String c s' => if is_byte n c then Some s' else None
  | EmptyString => None
  end.

Definition literal (word : string) (v : json) (s : string) : option (json * string) :=
  if HasPrefix s word then Some (v, str_drop (len word) s) else None.

Definition raw_of (s rest : string) : string := str_take (len s - len rest) s.

Fixpoint value (fuel depth : nat) (s : string) : option (json * string) :=
  match fuel with
  | 0 => None
  | S fuel' =>
      (match s with
       | EmptyString => None
       | String c s' =>
           if is_byte 123 c then
             match depth with
             | 0 => None
             | S depth' =>
                 match expect 125 (skip_space s') with
                 | Some rest => Some (JObj [], rest)
                 | None => '(ms, rest) ← members fuel' depth' (skip_space s');
                           Some (JObj ms, rest)
                 end
             end
           else if is_byte 91 c then
             match depth with
             | 0 => None
             | S depth' =>
                 match expect 93 (skip_space s') with
                 | Some rest => Some (JArr [], rest)
                 | None => '(vs, rest) ← elements fuel' depth' (skip_space s');
                           Some (JArr vs, rest)
                 end
             end
           else if is_byte 34 c then '(t, rest) ← json_string s'; Some (JStr t, rest)
           else if is_byte 116 c then literal "true" (JBool true) s
           else if is_byte 102 c then literal "false" (JBool false) s
           else if is_byte 110 c then literal "null" JNull s
           else '(raw, rest) ← number s; Some (JNum raw, rest)
       end)%stdpp
  end
with members (fuel depth : nat) (s : string)
  : option (list (string * (string * json)) * string) :=
  match fuel with
  | 0 => None
  | S fuel' =>
      (s1 ← expect 34 s;
       '(key, s2) ← json_string s1;
       s3 ← expect 58 (skip_space s2);
       let s4 := skip_space s3 in
       '(v, s5) ← value fuel' depth s4;
       let member := (key, (raw_of s4 s5, v)) in
       let s6 := skip_space s5 in
       match expect 44 s6 with
       | Some s7 => '(ms, rest) ← members fuel' depth (skip_space s7); Some (member :: ms, rest)
       | None => rest ← expect 125 s6; Some ([member], rest)
       end)%stdpp
  end
with elements (fuel depth : nat) (s : string) : option (list json * string) :=
  match fuel with
  | 0 => None
  | S fuel' =>
      ('(v, s1) ← value fuel' depth s;
       let s2 := skip_space s1 in
       match expect 44 s2 with
       | Some s3 => '(vs, rest) ← elements fuel' depth (skip_space s3); Some (v :: vs, rest)
       | None => rest ← expect 93 s2; Some ([v], rest)
       end)%stdpp
  end.

(** A whole document. Each value, member and element consumes a byte, and a
    member or element is one level above its value, so twice the length is
    enough fuel. *)
Definition parse_json (s : string) : option json :=
  match value (2 * len s + 2) maxNestingDepth (skip_space s) with
  | Some (v, rest) => if decide (skip_space rest = EmptyString) then Some v else None
  | None => None
  end.

(** [json.Valid]. *)
Definition json_Valid (s : string) : bool := bool_decide (is_Some (parse_json s)).

(** ** Decoding into struct fields *)

(** Go matches member names to field names up to case folding; besides the ASCII
    letters the Kelvin sign folds to [k] and the long s to [s]. *)
Fixpoint fold_name (s : string) : string :=
  match s with
  | EmptyString => EmptyString
  | String c s1 =>
      match s1 with
      | EmptyString => str1 (upper_byte c)
      | String d s2 =>
          if is_byte 197 c && is_byte 191 d then String (byte_of 83) (fold_name s2)
          else
            match s2 with
            | String e s3 =>
                if is_byte 226 c && is_byte 132 d && is_byte 170 e
                then String (byte_of 75) (fold_name s3)
                else String (upper_byte c) (fold_name s1)
            | EmptyString => String (upper_byte c) (fold_name s1)
            end
      end
  end.

(** The members that fall on a field, in order. *)
Definition field_members (name : string) (ms : list (string * (string * json)))
  : list (string * json) :=
  snd <$> filter (λ m, fold_name (fst m) = fold_name name) ms.

Definition type_error : error := Errorf "json: cannot unmarshal".

(** A field's value after its members, and the first type error; [set] is the
    field type's own decoding, [None] on a mismatch. *)
Fixpoint decode_members {A} (set : string → json → A → option A) (name : string)
    (ms : list (string * json)) (acc : A) : A * option error :=
  match ms with
  | [] => (acc, None)
  | (raw, v) :: rest =>
      match set raw v acc with
      | Some acc' => decode_members set name rest acc'
      | None => (fst (decode_members set name rest acc), Some type_error)
      end
  end.

Definition set_string (_ : string) (v : json) (old : string) : option string :=
  match v with JStr s => Some s | JNull => Some old | _ => None end.
Definition set_raw (raw : string) (_ : json) (_ : string) : option string := Some raw.

(** The value of a string of digits, and an [int] literal within 64 bits. *)
Fixpoint digits_N (acc : N) (s : string) : option N :=
  match s with
  | EmptyString => Some acc
  | String c s' =>
      if is_digit c then digits_N (10 * acc + N.of_nat (code c - 48)) s' else None
  end.
Definition parse_int (s : string) : option Z :=
  let '(neg, body) :=
    match s with
    | String c s' => if is_byte 45 c then (true, s') else (false, s)
    | EmptyString => (false, s)
    end in
  (n ← (if decide (body = EmptyString) then None else digits_N 0 body);
   let z := (if neg then - Z.of_N n else Z.of_N n)%Z in
   if decide (- 2 ^ 63 ≤ z < 2 ^ 63)%Z then Some z else None)%stdpp.
Definition set_int (_ : string) (v : json) (old : Z) : option Z :=
  match v with JNum raw => parse_int raw | JNull => Some old | _ => None end.

(** [json.Unmarshal] into a struct: the members, none for [null]. *)
Definition unmarshal (s : string) : result (list (string * (string * json))) :=
  match parse_json s with
  | None => Err (Errorf "invalid JSON")
  | Some (JObj ms) => Ok ms
  | Some JNull => Ok []
  | Some _ => Err type_error
  end.

(** One field of the struct, from the value it had. *)
Definition get_field {A} (set : string → json → A → option A) (old : A) (name : string)
    (ms : list (string * (string * json))) : option A :=
  match decode_members set name (field_members name ms) old with
  | (a, None) => Some a
  | (_, Some _) => None
  end.
Definition field {A} (set : string → json → A → option A) (zero : A) (name : string)
    (ms : list (string * (string * json))) : result A :=
  of_option type_error (get_field set zero name ms).

(** A nested struct, whose [fields] are decoded over the value it had, and a slice,
    whose elements are decoded over those it had at the same index (a fresh one has
    none); the raw text of an element is not needed. *)
Definition set_struct {A} (fields : list (string * (string * json)) → A → option A)
    (_ : string) (v : json) (old : A) : option A :=
  match v with JObj ms => fields ms old | JNull => Some old | _ => None end.
Fixpoint set_elements {A} (set : string → json → A → option A) (zero : A)
    (l : list json) (old : list A) : option (list A) :=
  match l with
  | [] => Some []
  | v :: l' =>
      (a ← set EmptyString v (default zero (head old));
       rest ← set_elements set zero l' (tail old);
       Some (a :: rest))%stdpp
  end.
Definition set_list {A} (set : string → json → A → option A) (zero : A)
    (_ : string) (v : json) (old : list A) : option (list A) :=
  match v with
  | JArr l => set_elements set zero l old
  | JNull => Some []
  | _ => None
  end.
(** A slice whose being nil matters. *)
Definition set_slice {A} (set : string → json → A → option A) (zero : A)
    (raw : string) (v : json) (old : option (list A)) : option (option (list A)) :=
  match v with
  | JNull => Some None
  | _ => Some <$> set_list set zero raw v (default [] old)
  end.
Definition set_bool (_ : string) (v : json) (old : bool) : option bool :=
  match v with JBool b => Some b | JNull => Some old | _ => None end.

(** ** Printing ([json.Marshal])

    What the program marshals: strings, integers, arrays and objects. The keys
    of a Go map are printed in the order of their bytes, the fields of a struct
    in that of its declaration. *)
#[warnings="-register-all"]
Inductive doc :=
| DStr (s : string)
| DInt (z : Z)
| DArr (l : list doc)
| DObj (members : list (string * doc)).

Definition key_order : relation (string * doc) := λ a b, str_le a.1 b.1.
#[export] Instance key_order_dec : RelDecision key_order.
Proof. intros a b. apply str_le_dec. Defined.
Definition go_map (members : list (string * doc)) : doc := DObj (order_by key_order members).

Definition hex_lower (n : nat) : ascii :=
  byte_of (if decide (n < 10) then 48 + n else 87 + n).
Definition backslashed (c : ascii) : string := String (byte_of 92) (str1 c).
Definition u00 (n : nat) : string :=
  "\u00" +:+ String (hex_lower (n / 16)) (str1 (hex_lower (n mod 16))).

(** One ASCII byte; [<], [>] and [&] are escaped for HTML. *)
Definition print_ascii (c : ascii) : string :=
  let n := code c in
  if is_byte 34 c || is_byte 92 c then backslashed c
  else if is_byte 8 c then backslashed (byte_of 98)
  else if is_byte 12 c then backslashed (byte_of 102)
  else if is_byte 10 c then backslashed (byte_of 110)
  else if is_byte 13 c then backslashed (byte_of 114)
  else if is_byte 9 c then backslashed (byte_of 116)
  else if bool_decide (n < 32) || is_byte 60 c || is_byte 62 c || is_byte 38 c then u00 n
  else str1 c.

Definition line_separator : string := bytes_string [226; 128; 168].
Definition paragraph_separator : string := bytes_string [226; 128; 169].

(** The inside of a string literal; bytes that are not UTF-8 become U+FFFD, and
    each turn drops a byte at least. *)
Fixpoint print_body (fuel : nat) (s : string) : string :=
  match fuel, s with
  | S fuel', String c s' =>
      match utf8_len s with
      | None => "\ufffd" +:+ print_body fuel' s'
      | Some 1 => print_ascii c +:+ print_body fuel' s'
      | Some n =>
          let rune := str_take n s in
          (if decide (rune = line_separator) then "\u2028"
           else if decide (rune = paragraph_separator) then "\u2029"
           else rune) +:+ print_body fuel' (str_drop n s)
      end
  | _, _ => EmptyString
  end.
Definition print_string (s : string) : string :=
  str1 quote_byte +:+ print_body (len s) s +:+ str1 quote_byte.

Fixpoint print_doc (d : doc) : string :=
  match d with
  | DStr s => print_string s
  | DInt z => itoa z
  | DArr l => "[" +:+ Join (print_doc <$> l) "," +:+ "]"
  | DObj members =>
      "{" +:+ Join ((λ m, print_string (fst m) +:+ ":" +:+ print_doc (snd m)) <$> members) ","
      +:+ "}"
  end.
Definition Marshal : doc → string := print_doc.

Example Marshal_example :
  Marshal (go_map [("text", DStr ("a<b" +:+ nl)); ("chat_id", DArr [DInt 42; DStr "x"])])
  = "{" +:+ print_string "chat_id" +:+ ":[42," +:+ print_string "x" +:+ "]," +:+
    print_string "text" +:+ ":" +:+ str1 quote_byte +:+ "a\u003cb\n" +:+ str1 quote_byte +:+ "}".
Proof. vm_compute. reflexivity. Qed.

(** ** What is printed reads back

    A string as a reader sees it: the bytes that are not UTF-8 replaced. *)
Fixpoint valid_text (fuel : nat) (s : string) : string :=
  match fuel, s with
  | S fuel', String c s' =>
      match utf8_len s with
      | None => encode_rune replacement +:+ valid_text fuel' s'
      | Some n => str_take n s +:+ valid_text fuel' (str_drop n s)
      end
  | _, _ => EmptyString
  end.
Definition to_valid (s : string) : string := valid_text (len s) s.

Lemma ascii_cases (P : ascii → Prop) : (∀ n, n < 256 → P (byte_of n)) → ∀ c, P c.
Proof.
  intros H c. rewrite <- (ascii_nat_embedding c). apply H, nat_ascii_bounded.
Qed.

(** A reader that meets the text [tok] of one rune gives back [t]. *)
Definition reads (tok t : string) : Prop := ∀ fuel rest,
  string_body (S fuel) (tok +:+ rest) =
  (match string_body fuel rest with Some (t', k) => Some (t +:+ t', k) | None => None end).

Lemma print_ascii_reads c : code c < 128 → reads (print_ascii c) (str1 c).
Proof.
  intros Hc fuel rest. destruct c as [[] [] [] [] [] [] [] []];
    first [by vm_compute in Hc; lia | reflexivity].
Qed.

(** The first bytes of longer sequences. *)
Lemma lead_byte a : code a < 194 →
  between 194 223 a = false ∧ is_byte 224 a = false ∧ between 225 236 a = false ∧
  is_byte 237 a = false ∧ between 238 239 a = false ∧ is_byte 240 a = false ∧
  between 241 243 a = false ∧ is_byte 244 a = false.
Proof. intros. unfold between, is_byte. split_and!; apply bool_decide_eq_false; lia. Qed.

Lemma utf8_len_spec c s n rest :
  utf8_len (String c s) = Some n →
  utf8_len (str_take n (String c s) +:+ rest) = Some n ∧ len (str_take n (String c s)) = n ∧
  (n = 1 ∧ code c < 128 ∨ 2 ≤ n ∧ 194 ≤ code c).
Proof.
  intros H. assert (Hc : code c < 128 ∨ 194 ≤ code c).
  { destruct (decide (194 ≤ code c)) as [|Hlt]; [by right|]. left.
    destruct (lead_byte c) as (E1 & E2 & E3 & E4 & E5 & E6 & E7 & E8); [lia|].
    unfold utf8_len in H. rewrite E1, E2, E3, E4, E5, E6, E7, E8 in H. simpl in H.
    destruct (between 0 127 c) eqn:E; [unfold between in E; apply bool_decide_eq_true in E; lia|].
    by repeat case_match. }
  unfold utf8_len in H. destruct (between 0 127 c) eqn:E1.
  { injection H as <-. simpl. rewrite E1.
    unfold between in E1. apply bool_decide_eq_true in E1. split_and!; [done|by destruct s|lia]. }
  assert (194 ≤ code c) as H194.
  { destruct Hc; [|done]. unfold between in E1. apply bool_decide_eq_false in E1. lia. }
  clear Hc. destruct s as [|b s]; [done|].
  destruct (between 194 223 c && cont b) eqn:E2.
  { injection H as <-. simpl. rewrite E1, E2. split_and!; [done..|right; split; [lia|done]]. }
  destruct s as [|d s]; [done|]. match type of H with (if ?g then _ else _) = _ => set (g3 := g) in H end.
  destruct g3 eqn:E3.
  { injection H as <-. subst g3. simpl. rewrite E1, E2, E3.
    split_and!; [done..|right; split; [lia|done]]. }
  destruct s as [|e s]; [done|]. match type of H with (if ?g then _ else _) = _ => set (g4 := g) in H end.
  destruct g4 eqn:E4; [|done].
  injection H as <-. subst g3 g4. simpl. rewrite E1, E2, E3, E4.
  split_and!; [done..|right; split; [lia|done]].
Qed.

Lemma rune_reads c s n :
  utf8_len (String c s) = Some n → 2 ≤ n →
  reads (str_take n (String c s)) (str_take n (String c s)).
Proof.
  intros H Hn fuel rest. destruct (utf8_len_spec c s n rest H) as (H1 & Hlen & [|[_ Hc]]); [lia|].
  set (tok := str_take n (String c s)) in *.
  assert (Htok : ∃ t, tok = String c t) by (subst tok; destruct n; [lia|simpl; eauto]).
  destruct Htok as [t Ht]. clearbody tok. subst tok.
  change (string_body (S fuel) (String c t +:+ rest)) with
    (string_body (S fuel) (String c (t +:+ rest))).
  change (String c t +:+ rest) with (String c (t +:+ rest)) in H1.
  cbn [string_body]. unfold is_byte. rewrite !bool_decide_eq_false_2 by lia. rewrite H1.
  replace (str_drop n (String c (t +:+ rest))) with rest.
  2: { rewrite <- Hlen. symmetry. apply (str_drop_app (String c t)). }
  replace (str_take n (String c (t +:+ rest))) with (String c t).
  2: { rewrite <- Hlen. symmetry. apply (str_take_app (String c t)). }
  by destruct (string_body fuel rest) as [[t' k]|].
Qed.

(** One turn of the printer, as a reader sees it. *)
Lemma print_body_reads n s fuel rest :
  len s ≤ n → len s < fuel →
  string_body fuel (print_body n s +:+ str1 quote_byte +:+ rest) = Some (valid_text n s, rest).
Proof.
  revert s fuel. induction n as [|n IH]; intros s fuel Hn Hfuel.
  { destruct s; [|simpl in Hn; lia]. destruct fuel; [lia|]. done. }
  destruct fuel as [|fuel]; [lia|]. destruct s as [|c s]; [done|].
  assert (Hstep : ∀ tok t s', reads tok t → len s' ≤ len s →
    string_body (S fuel) ((tok +:+ print_body n s') +:+ str1 quote_byte +:+ rest) =
    Some (t +:+ valid_text n s', rest)).
  { intros tok t s' Hr Hs'. simpl in Hn, Hfuel. rewrite str_app_assoc, Hr, IH by lia. done. }
  change (print_body (S n) (String c s)) with
    (match utf8_len (String c s) with
     | None => "\ufffd" +:+ print_body n s
     | Some 1 => print_ascii c +:+ print_body n s
     | Some k =>
         (if decide (str_take k (String c s) = line_separator) then "\u2028"
          else if decide (str_take k (String c s) = paragraph_separator) then "\u2029"
          else str_take k (String c s)) +:+ print_body n (str_drop k (String c s))
     end).
  change (valid_text (S n) (String c s)) with
    (match utf8_len (String c s) with
     | None => encode_rune replacement +:+ valid_text n s
     | Some k => str_take k (String c s) +:+ valid_text n (str_drop k (String c s))
     end).
  destruct (utf8_len (String c s)) as [k|] eqn:E.
  2: { apply Hstep; [|lia]. intros fuel' rest'. reflexivity. }
  destruct (utf8_len_spec c s k rest E) as (_ & Hlen & [[-> Hc]|[Hk Hc]]).
  { apply Hstep; [by apply print_ascii_reads|simpl; lia]. }
  destruct k as [|[|k]]; [lia..|]. apply Hstep; [|rewrite len_str_drop; simpl; lia].
  case_decide as H1; [rewrite H1; intros fuel' rest'; reflexivity|].
  case_decide as H2; [rewrite H2; intros fuel' rest'; reflexivity|].
  by apply rune_reads.
Qed.

Lemma len_print_ascii c : 1 ≤ len (print_ascii c).
Proof. unfold print_ascii. repeat case_match; simpl; lia. Qed.

Lemma len_print_body n s : len s ≤ n → len s ≤ len (print_body n s).
Proof.
  revert s. induction n as [|n IH]; intros s Hn; [by destruct s; simpl in *|].
  destruct s as [|c s]; [done|]. simpl in Hn.
  change (print_body (S n) (String c s)) with
    (match utf8_len (String c s) with
     | None => "\ufffd" +:+ print_body n s
     | Some 1 => print_ascii c +:+ print_body n s
     | Some k =>
         (if decide (str_take k (String c s) = line_separator) then "\u2028"
          else if decide (str_take k (String c s) = paragraph_separator) then "\u2029"
          else str_take k (String c s)) +:+ print_body n (str_drop k (String c s))
     end).
  destruct (utf8_len (String c s)) as [k|] eqn:E.
  2: { rewrite len_app. simpl. specialize (IH s). lia. }
  destruct (utf8_len_spec c s k EmptyString E) as (_ & Hlen & [[-> Hc]|[Hk Hc]]).
  { rewrite len_app. pose proof (len_print_ascii c). specialize (IH s). simpl in *. lia. }
  destruct k as [|[|k]]; [lia..|].
  assert (Hrest : len (String c s) - S (S k) ≤ len (print_body n (str_drop (S (S k)) (String c s)))).
  { rewrite <- len_str_drop. apply IH. rewrite len_str_drop. simpl. lia. }
  rewrite len_app. set (printed := len (print_body n _)) in *.
  change (len (String c s)) with (S (len s)) in *.
  case_decide as H1; [rewrite H1 in Hlen; simpl in *; lia|].
  case_decide as H2; [rewrite H2 in Hlen; simpl in *; lia|]. rewrite Hlen. lia.
Qed.

(** A printed string reads back, its invalid bytes replaced. *)
Lemma print_string_reads s rest :
  (s1 ← expect 34 (print_string s +:+ rest); json_string s1)%stdpp = Some (to_valid s, rest).
Proof.
  unfold print_string. rewrite !str_app_assoc.
  transitivity (json_string (print_body (len s) s +:+ str1 quote_byte +:+ rest)); [done|].
  apply print_body_reads; [done|]. rewrite !len_app. pose proof (len_print_body (len s) s). simpl. lia.
Qed.

(** A printed object of two string members, read back. *)
Lemma value_string fuel depth s rest :
  value (S fuel) depth (print_string s +:+ rest) = Some (JStr (to_valid s), rest).
Proof.
  pose proof (print_string_reads s rest) as H. unfold print_string in *.
  rewrite !str_app_assoc in *.
  change (match json_string (print_body (len s) s +:+ str1 quote_byte +:+ rest) with
          | Some (t, k) => Some (JStr t, k) | None => None end = Some (JStr (to_valid s), rest)).
  change (json_string (print_body (len s) s +:+ str1 quote_byte +:+ rest) =
          Some (to_valid s, rest)) in H. by rewrite H.
Qed.

Lemma skip_space_print s rest : skip_space (print_string s +:+ rest) = print_string s +:+ rest.
Proof. unfold print_string. by rewrite str_app_assoc. Qed.

(** One member with a string value, then what follows it. *)
Lemma members_string fuel depth k s rest :
  members (S (S fuel)) depth (print_string k +:+ ":" +:+ print_string s +:+ rest) =
  (let member := (to_valid k, (raw_of (print_string s +:+ rest) rest, JStr (to_valid s))) in
   match expect 44 (skip_space rest) with
   | Some next => '(ms, after) ← members (S fuel) depth (skip_space next); Some (member :: ms, after)
   | None => after ← expect 125 (skip_space rest); Some ([member], after)
   end)%stdpp.
Proof.
  set (f := S fuel). cbn [members]. subst f.
  pose proof (print_string_reads k (":" +:+ print_string s +:+ rest)) as Hk.
  destruct (expect 34 (print_string k +:+ _)) as [s1|]; [|done].
  change (json_string s1 = Some (to_valid k, ":" +:+ print_string s +:+ rest)) in Hk.
  cbn [mbind option_bind].
  rewrite Hk. cbn [mbind option_bind].
  change (expect 58 (skip_space (":" +:+ print_string s +:+ rest))) with
    (Some (print_string s +:+ rest)). cbn [mbind option_bind].
  rewrite skip_space_print, value_string. done.
Qed.

Definition member_text (m : string * string) : string :=
  print_string (fst m) +:+ ":" +:+ print_string (snd m).

(** The object with two string members. *)
Lemma parse_two k1 s1 k2 s2 : ∃ raw1 raw2,
  parse_json ("{" +:+ (member_text (k1, s1) +:+ "," +:+ member_text (k2, s2)) +:+ "}") =
  Some (JObj [(to_valid k1, (raw1, JStr (to_valid s1)));
              (to_valid k2, (raw2, JStr (to_valid s2)))]).
Proof.
  unfold member_text. cbn [fst snd]. rewrite !str_app_assoc.
  set (tail := print_string k1 +:+ _).
  assert (Hdepth : ∃ m, maxNestingDepth = S m)
    by (exists (Z.to_nat 9999); unfold maxNestingDepth; lia).
  destruct Hdepth as [m Hm]. unfold parse_json. rewrite Hm.
  assert (Hfuel : ∃ f, 2 * len ("{" +:+ tail) + 2 = S (S (S (S f)))).
  { exists (2 * len tail). rewrite len_app. simpl. lia. }
  destruct Hfuel as [f ->]. change (skip_space ("{" +:+ tail)) with (String (byte_of 123) tail).
  assert (Hv : value (S (S (S (S f)))) (S m) (String (byte_of 123) tail) =
    match expect 125 (skip_space tail) with
    | Some rest => Some (JObj [], rest)
    | None => '(ms, rest) ← members (S (S (S f))) m (skip_space tail); Some (JObj ms, rest)
    end%stdpp) by reflexivity.
  rewrite Hv. subst tail. rewrite skip_space_print.
  match goal with |- context[expect 125 ?x] => change (expect 125 x) with (@None string) end.
  rewrite members_string.
  match goal with |- context[expect 44 ?x] =>
    change (expect 44 x) with (Some (print_string k2 +:+ ":" +:+ print_string s2 +:+ "}")) end.
  cbv beta zeta iota. rewrite skip_space_print, members_string. cbn.
  eexists _, _. reflexivity.
Qed.
