(* ===== verification/Secretbox.v ===== *)
(** * Sealed credentials ([src/pkg/secretbox/secretbox.go])

    Envelope encryption over AES-GCM, the master key's encoding, and the mask
    the dashboard shows. *)
From S2P Require Import Prelude GoStrings.
From Stdlib Require Import Ascii.
Local Open Scope go_scope.
Local Open Scope nat_scope.

Definition MasterKeyEnvVar : string := "TASKD_SECRET_KEY".
Definition keyLength : nat := 32.

(** [cipher.AEAD] as [crypto/cipher] documents GCM: nonces of twelve bytes, and
    [Open] answers exactly on what [Seal] produced under the same key and
    nonce.  A key makes a cipher when it has 16, 24 or 32 bytes. *)
Class Gcm := {
  gcm_Seal : string → string → string → string;
  gcm_Open : string → string → string → option string
}.
Class GcmLaws `{!Gcm} : Prop :=
  gcm_Open_Seal : ∀ k n c p, gcm_Open k n c = Some p ↔ c = gcm_Seal k n p.

Definition NonceSize : nat := 12.

(** [io.ReadFull(rand.Reader, b)]: the bytes of the [i]th read of a call, for a
    buffer of [n] bytes. *)
Definition Random := nat → nat → result string.
Definition reads_full (rand : Random) : Prop := ∀ i n s, rand i n = Ok s → len s = n.

(** ** Standard base64

    [base64.StdEncoding.DecodeString]: line breaks are skipped, the last group
    is padded. *)
Definition base64_value (c : ascii) : option nat :=
  let n := nat_of_ascii c in
  if decide (65 ≤ n ≤ 90) then Some (n - 65)
  else if decide (97 ≤ n ≤ 122) then Some (n - 71)
  else if decide (48 ≤ n ≤ 57) then Some (n + 4)
  else if decide (n = 43) then Some 62
  else if decide (n = 47) then Some 63
  else None.

Fixpoint strip_breaks (s : string) : string :=
  match s with
  | EmptyString => EmptyString
  | String c s' =>
      if decide (nat_of_ascii c = 10 ∨ nat_of_ascii c = 13) then strip_breaks s'
      else String c (strip_breaks s')
  end.

Definition is_pad (c : ascii) : bool := bool_decide (nat_of_ascii c = 61).

Fixpoint base64_groups (s : string) : option string :=
  match s with
  | EmptyString => Some EmptyString
  | String a (String b (String c (String d rest))) =>
      (x ← base64_value a; y ← base64_value b;
       let first := byte_of (x * 4 + y / 16) in
       if is_pad c then
         if is_pad d && bool_decide (rest = EmptyString) then Some (str1 first) else None
       else
         z ← base64_value c;
         let second := byte_of (y mod 16 * 16 + z / 4) in
         if is_pad d then
           if decide (rest = EmptyString) then Some (String first (str1 second)) else None
         else
           w ← base64_value d;
           t ← base64_groups rest;
           Some (String first (String second (String (byte_of (z mod 4 * 64 + w)) t))))%stdpp
  | _ => None
  end.
Definition base64_decode (s : string) : option string := base64_groups (strip_breaks s).

(** [base64.StdEncoding.EncodeToString]. *)
Definition base64_char (n : nat) : ascii :=
  byte_of (if decide (n < 26) then n + 65
           else if decide (n < 52) then n + 71
           else if decide (n < 62) then n - 4
           else if decide (n = 62) then 43 else 47).
Definition pad : ascii := byte_of 61.
Fixpoint base64_encode (s : string) : string :=
  match s with
  | EmptyString => EmptyString
  | String a EmptyString =>
      let x := nat_of_ascii a in
      String (base64_char (x / 4)) (String (base64_char (x mod 4 * 16)) (String pad (str1 pad)))
  | String a (String b EmptyString) =>
      let x := nat_of_ascii a in
      let y := nat_of_ascii b in
      String (base64_char (x / 4)) (String (base64_char (x mod 4 * 16 + y / 16))
        (String (base64_char (y mod 16 * 4)) (str1 pad)))
  | String a (String b (String c rest)) =>
      let x := nat_of_ascii a in
      let y := nat_of_ascii b in
      let z := nat_of_ascii c in
      String (base64_char (x / 4)) (String (base64_char (x mod 4 * 16 + y / 16))
        (String (base64_char (y mod 16 * 4 + z / 64)) (String (base64_char (z mod 64))
          (base64_encode rest))))
  end.

(** ** The sealer *)
Module Sealer.
Record t := mk { masterKey : string }.
End Sealer.

Definition New (encodedMasterKey : string) : result Sealer.t :=
  match base64_decode encodedMasterKey with
  | None => Err (Errorf (MasterKeyEnvVar +:+ " is not valid base64"))
  | Some masterKey =>
      if decide (len masterKey ≠ keyLength)
      then Err (Errorf (MasterKeyEnvVar +:+ " must decode to 32 bytes, got " +:+
                        itoa (Z.of_nat (len masterKey))))
      else Ok (Sealer.mk masterKey)
  end.

(** [env] is the value of the environment variable, empty when it is not set. *)
Definition NewFromEnv (env : string) : result Sealer.t :=
  if decide (env = EmptyString) then Err (Wrapf "no master key configured" ErrNoMasterKey)
  else New env.

(** A key in the form the environment variable expects. *)
Definition GenerateMasterKey (rand : Random) : result string :=
  key ←? rand 0 keyLength; Ok (base64_encode key).

Section sealer.
Context {G : Gcm}.

(** [newGCM], for the effect of its check on the key. *)
Definition newGCM (key : string) : result string :=
  if decide (len key = 16 ∨ len key = 24 ∨ len key = 32) then Ok key
  else Err (Errorf "crypto/aes: invalid key size").

(** [encrypt]; the nonce is the call's next random read. *)
Definition encrypt (nonce : result string) (key plaintext : string) : result string :=
  gcm ←? newGCM key;
  nonce ←? nonce;
  Ok (nonce +:+ gcm_Seal gcm nonce plaintext).

Definition decrypt (key sealed : string) : result string :=
  gcm ←? newGCM key;
  if decide (len sealed < NonceSize) then Err (Errorf "the sealed value is too short")
  else
    of_option (Errorf "cipher: message authentication failed")
      (gcm_Open gcm (str_take NonceSize sealed) (str_drop NonceSize sealed)).

(** The sealed value and the sealed data key. *)
Definition Seal (rand : Random) (s : Sealer.t) (plaintext : string)
  : result (string * string) :=
  dataKey ←? rand 0 keyLength;
  sealedValue ←? encrypt (rand 1 NonceSize) dataKey plaintext;
  sealedDataKey ←? encrypt (rand 2 NonceSize) (Sealer.masterKey s) dataKey;
  Ok (sealedValue, sealedDataKey).

Definition map_error {A} (f : error → error) (r : result A) : result A :=
  match r with Ok a => Ok a | Err e => Err (f e) end.

Definition Open (s : Sealer.t) (sealedValue sealedDataKey : string) : result string :=
  dataKey ←? map_error (Wrapf "could not unseal the data key")
               (decrypt (Sealer.masterKey s) sealedDataKey);
  map_error (Wrapf "could not unseal the value") (decrypt dataKey sealedValue).
End sealer.

(** [Mask]: an ellipsis (three bytes of UTF-8) and at most four bytes. *)
Definition ellipsis : string := bytes_string [226; 128; 166].
Definition Mask (value : string) : string :=
  if decide (len value ≤ 4) then ellipsis
  else ellipsis +:+ str_drop (len value - 4) value.

(** ** Lemmas *)
Section laws.
Context {G : Gcm} {GL : GcmLaws}.

Lemma newGCM_Ok key k : newGCM key = Ok k → k = key.
Proof. unfold newGCM. case_decide; [by intros [= ->]|done]. Qed.

Lemma encrypt_Ok nonce key p sealed :
  encrypt nonce key p = Ok sealed →
  newGCM key = Ok key ∧ ∃ n, nonce = Ok n ∧ sealed = n +:+ gcm_Seal key n p.
Proof.
  intros (k & Hk & (n & Hn & [= <-])%rbind_Ok)%rbind_Ok.
  pose proof (newGCM_Ok _ _ Hk) as ->. eauto.
Qed.

Lemma decrypt_Ok key sealed p :
  newGCM key = Ok key →
  decrypt key sealed = Ok p ↔
  ∃ n, len n = NonceSize ∧ sealed = n +:+ gcm_Seal key n p.
Proof.
  intros Hk. unfold decrypt. rewrite Hk. cbn [rbind]. case_decide as Hlen; split.
  - done.
  - intros (n & Hn & ->). rewrite len_app in Hlen. lia.
  - intros Ho%of_option_Ok%gcm_Open_Seal. exists (str_take NonceSize sealed).
    rewrite len_str_take. split; [lia|]. by rewrite <- Ho, str_take_drop.
  - intros (n & Hn & ->). rewrite <- Hn, str_take_app, str_drop_app.
    apply of_option_Ok. by apply gcm_Open_Seal.
Qed.

Lemma newGCM_master key : len key = keyLength → newGCM key = Ok key.
Proof. intros H. unfold newGCM. rewrite H, decide_True; [done|]. right; by right. Qed.

Lemma Seal_Open rand s plaintext v k :
  reads_full rand → Seal rand s plaintext = Ok (v, k) → Open s v k = Ok plaintext.
Proof.
  intros Hfull (dk & Hdk & H)%rbind_Ok.
  apply rbind_Ok in H as (sv & (Hg1 & n1 & Hn1 & ->)%encrypt_Ok & H).
  apply rbind_Ok in H as (sk & (Hg2 & n2 & Hn2 & ->)%encrypt_Ok & [= <- <-]).
  apply Hfull in Hn1, Hn2.
  assert (H2 : decrypt (Sealer.masterKey s) (n2 +:+ gcm_Seal (Sealer.masterKey s) n2 dk) = Ok dk)
    by (apply decrypt_Ok; eauto).
  assert (H1 : decrypt dk (n1 +:+ gcm_Seal dk n1 plaintext) = Ok plaintext)
    by (apply decrypt_Ok; eauto).
  unfold Open. rewrite H2. simpl. by rewrite H1.
Qed.

(** C21: a sealed value opens to what was sealed, and to nothing else: whatever
    blobs are presented, the sealer opens them only to the text that was sealed
    under its own master key. *)
Theorem Seal_Open_exactly rand s plaintext v k p v' k' :
  reads_full rand → len (Sealer.masterKey s) = keyLength →
  Seal rand s plaintext = Ok (v, k) →
  Open s v k = Ok plaintext ∧
  (Open s v' k' = Ok p →
   ∃ dataKey n1 n2, len n1 = NonceSize ∧ len n2 = NonceSize ∧
     v' = n1 +:+ gcm_Seal dataKey n1 p ∧
     k' = n2 +:+ gcm_Seal (Sealer.masterKey s) n2 dataKey).
Proof.
  intros Hfull Hlen Hseal. split; [by eapply Seal_Open|].
  unfold Open. destruct (decrypt _ k') as [dk|e] eqn:Hk; [|done]. simpl.
  destruct (decrypt dk v') as [p'|e] eqn:Hv; [|done]. intros [= ->].
  apply decrypt_Ok in Hk as (n2 & Hn2 & Hk'); [|by apply newGCM_master].
  assert (Hg : newGCM dk = Ok dk).
  { unfold decrypt in Hv. apply rbind_Ok in Hv as (g & Hg & _).
    by rewrite (newGCM_Ok _ _ Hg) in Hg. }
  apply decrypt_Ok in Hv as (n1 & Hn1 & Hv'); [|done]. by exists dk, n1, n2.
Qed.
End laws.

(** The master key is what decodes to thirty-two bytes; without one there is
    no sealer, rather than one with a default key. *)
Lemma NewFromEnv_spec env s :
  (NewFromEnv env = Ok s ↔
   env ≠ EmptyString ∧ base64_decode env = Some (Sealer.masterKey s) ∧
   len (Sealer.masterKey s) = 32) ∧
  (env = EmptyString → ∃ e, NewFromEnv env = Err e ∧ errors_Is e ErrNoMasterKey = true).
Proof.
  split.
  - unfold NewFromEnv, New, keyLength. case_decide; [by split; [|intros [? _]]|].
    destruct (base64_decode env) as [k|]; [|by split; [|intros (_ & ? & _)]].
    case_decide as Hl; split.
    + done.
    + by intros (_ & [= ->] & ?).
    + intros [= <-]. split_and!; done || by apply dec_stable.
    + destruct s. by intros (_ & [= ->] & _).
  - intros ->. eexists. by split.
Qed.

(** *** What the encoder writes, the decoder reads *)
Lemma below_64 (P : nat → Prop) `{∀ n, Decision (P n)} :
  forallb (λ n, bool_decide (P n)) (seq 0 64) = true → ∀ n, n < 64 → P n.
Proof.
  intros Hall n Hn. rewrite forallb_forall in Hall.
  apply (bool_decide_eq_true (P n)), Hall, in_seq. lia.
Qed.

Lemma base64_value_char n : n < 64 → base64_value (base64_char n) = Some n.
Proof. revert n. apply (below_64 (λ n, base64_value (base64_char n) = Some n)). by vm_compute. Qed.

Lemma base64_char_plain n : n < 64 →
  nat_of_ascii (base64_char n) ≠ 10 ∧ nat_of_ascii (base64_char n) ≠ 13 ∧
  is_pad (base64_char n) = false.
Proof.
  revert n. apply (below_64 (λ n, nat_of_ascii (base64_char n) ≠ 10 ∧
    nat_of_ascii (base64_char n) ≠ 13 ∧ is_pad (base64_char n) = false)). by vm_compute.
Qed.

Lemma strip_char n s :
  n < 64 → strip_breaks (String (base64_char n) s) = String (base64_char n) (strip_breaks s).
Proof. intros (? & ? & _)%base64_char_plain. simpl. rewrite decide_False; [done|]. by intros [|]. Qed.

(** Three at a time. *)
Lemma string_ind3 (P : string → Prop) :
  P EmptyString → (∀ a, P (str1 a)) → (∀ a b, P (String a (str1 b))) →
  (∀ a b c s, P s → P (String a (String b (String c s)))) → ∀ s, P s.
Proof.
  intros H0 H1 H2 H3. fix go 1. intros [|a [|b [|c s]]]; [done|apply H1|apply H2|].
  apply H3, go.
Qed.

(** Where a sextet holds the low end of one byte and the high end of the next. *)
Lemma sextet k n x y : 0 < k → 0 < n → y < k * n → (x * k + y / n) / k = x ∧ (x * k + y / n) mod k = y / n.
Proof.
  intros Hk Hn Hy. assert (y / n < k) by (apply Nat.Div0.div_lt_upper_bound; lia).
  rewrite (Nat.add_comm (x * k)), Nat.div_add, Nat.div_small, Nat.Div0.mod_add, Nat.mod_small; lia.
Qed.

Lemma nat_rejoin k x : k ≠ 0 → x / k * k + x mod k = x.
Proof. intros H. pose proof (Nat.div_mod_eq x k). lia. Qed.

Lemma below_parts x k n : x < k * n → k ≠ 0 → n ≠ 0 → x / k < n ∧ x mod k < k.
Proof. split; [apply Nat.Div0.div_lt_upper_bound; lia|by apply Nat.mod_upper_bound]. Qed.

Lemma groups_step p q r w rest t :
  p < 64 → q < 64 → r < 64 → w < 64 → base64_groups rest = Some t →
  base64_groups (String (base64_char p) (String (base64_char q)
    (String (base64_char r) (String (base64_char w) rest)))) =
  Some (String (byte_of (p * 4 + q / 16)) (String (byte_of (q mod 16 * 16 + r / 4))
    (String (byte_of (r mod 4 * 64 + w)) t))).
Proof.
  intros Hp Hq Hr Hw Hrest. cbn [base64_groups].
  by rewrite !base64_value_char, (proj2 (proj2 (base64_char_plain r Hr))),
    (proj2 (proj2 (base64_char_plain w Hw))), Hrest.
Qed.

Lemma groups_pad1 p q r :
  p < 64 → q < 64 → r < 64 →
  base64_groups (String (base64_char p) (String (base64_char q)
    (String (base64_char r) (str1 pad)))) =
  Some (String (byte_of (p * 4 + q / 16)) (str1 (byte_of (q mod 16 * 16 + r / 4)))).
Proof.
  intros Hp Hq Hr. unfold str1. cbn [base64_groups].
  by rewrite !base64_value_char, (proj2 (proj2 (base64_char_plain r Hr))).
Qed.

Lemma groups_pad2 p q :
  p < 64 → q < 64 →
  base64_groups (String (base64_char p) (String (base64_char q) (String pad (str1 pad)))) =
  Some (str1 (byte_of (p * 4 + q / 16))).
Proof.
  intros Hp Hq. unfold str1. cbn [base64_groups]. by rewrite !base64_value_char.
Qed.

(** The sextets of [encode] are sextets. *)
Lemma sextets x y z :
  x < 256 → y < 256 → z < 256 →
  x / 4 < 64 ∧ x mod 4 * 16 + y / 16 < 64 ∧ y mod 16 * 4 + z / 64 < 64 ∧ z mod 64 < 64.
Proof.
  intros Hx Hy Hz.
  destruct (below_parts x 4 64), (below_parts y 16 16), (below_parts z 64 4); lia.
Qed.

(** What the encoder writes decodes to what it was given. *)
Lemma base64_decode_encode s : base64_decode (base64_encode s) = Some s.
Proof.
  unfold base64_decode. assert (Hpad : ∀ s, strip_breaks (String pad s) = String pad (strip_breaks s)) by done.
  induction s as [|a|a b|a b c s IH] using string_ind3; [done|..];
    cbn [base64_encode str1]; unfold str1 in *.
  - pose proof (nat_ascii_bounded a) as Hba. destruct (sextets (nat_of_ascii a) 0 0) as (H1 & H2 & _); [lia..|].
    change (0 / 16) with 0 in H2. rewrite Nat.add_0_r in H2. rewrite !strip_char, !Hpad by done.
    change (strip_breaks EmptyString) with EmptyString. fold (str1 pad). rewrite groups_pad2 by done.
    rewrite Nat.div_mul, nat_rejoin by done. unfold byte_of. by rewrite ascii_nat_embedding.
  - pose proof (nat_ascii_bounded a) as Hba. pose proof (nat_ascii_bounded b) as Hbb.
    destruct (sextets (nat_of_ascii a) (nat_of_ascii b) 0) as (H1 & H2 & H3 & _); [lia..|].
    change (0 / 64) with 0 in H3. rewrite Nat.add_0_r in H3. rewrite !strip_char, !Hpad by done.
    change (strip_breaks EmptyString) with EmptyString. fold (str1 pad). rewrite groups_pad1 by done.
    destruct (sextet 16 16 (nat_of_ascii a mod 4) (nat_of_ascii b)) as [-> ->]; [lia..|].
    rewrite Nat.div_mul, !nat_rejoin by done. unfold byte_of. by rewrite !ascii_nat_embedding.
  - pose proof (nat_ascii_bounded a) as Hba. pose proof (nat_ascii_bounded b) as Hbb. pose proof (nat_ascii_bounded c) as Hbc.
    destruct (sextets (nat_of_ascii a) (nat_of_ascii b) (nat_of_ascii c)) as (H1 & H2 & H3 & H4); [lia..|].
    rewrite !strip_char by done. erewrite groups_step by done.
    destruct (sextet 16 16 (nat_of_ascii a mod 4) (nat_of_ascii b)) as [-> ->]; [lia..|].
    destruct (sextet 4 64 (nat_of_ascii b mod 16) (nat_of_ascii c)) as [-> ->]; [lia..|].
    rewrite !nat_rejoin by done. unfold byte_of. by rewrite !ascii_nat_embedding.
Qed.

(** A generated key is one the services start with. *)
Lemma generated_key_accepted rand encoded :
  reads_full rand → GenerateMasterKey rand = Ok encoded →
  ∃ key, rand 0 keyLength = Ok key ∧ NewFromEnv encoded = Ok (Sealer.mk key).
Proof.
  intros Hfull (key & Hkey & [= <-])%rbind_Ok. exists key. split; [done|].
  apply Hfull in Hkey. apply NewFromEnv_spec. simpl. split_and!; [|apply base64_decode_encode|done].
  by destruct key as [|? [|? [|? ?]]].
Qed.

(** ** Closed examples *)
Definition example_gcm : Gcm := {|
  gcm_Seal := λ k n p, k +:+ n +:+ p;
  gcm_Open := λ k n c, if HasPrefix c (k +:+ n) then Some (str_drop (len (k +:+ n)) c) else None
|}.

Lemma example_gcm_laws : @GcmLaws example_gcm.
Proof.
  intros k n c p. simpl. destruct (HasPrefix c (k +:+ n)) eqn:E.
  - apply HasPrefix_spec in E as [t ->]. rewrite str_drop_app, str_app_assoc. split.
    + by intros [= ->].
    + rewrite <- !str_app_assoc. intros H. f_equal.
      by rewrite <- (str_drop_app (k +:+ n) t), H, str_drop_app.
  - split; [done|]. intros ->. assert (HasPrefix (k +:+ n +:+ p) (k +:+ n) = true); [|congruence].
    apply HasPrefix_spec. exists p. by rewrite str_app_assoc.
Qed.

Fixpoint repeat_byte (n : nat) (c : ascii) : string :=
  match n with 0 => EmptyString | S n' => String c (repeat_byte n' c) end.
Definition example_random : Random := λ i n, Ok (repeat_byte n (byte_of (65 + i))).
Definition example_sealer : Sealer.t := Sealer.mk (repeat_byte 32 (byte_of 120)).

Lemma example_random_full : reads_full example_random.
Proof. intros i n s [= <-]. induction n as [|n IH]; [done|]. simpl. by rewrite IH. Qed.

Lemma Seal_Open_exactly_witness :
  ∃ v k, @Seal example_gcm example_random example_sealer "hunter2" = Ok (v, k) ∧
         @Open example_gcm example_sealer v k = Ok "hunter2".
Proof.
  destruct (@Seal example_gcm example_random example_sealer "hunter2") as [[v k]|e] eqn:E;
    [|vm_compute in E; discriminate].
  exists v, k. split; [done|].
  apply (@Seal_Open_exactly example_gcm example_gcm_laws example_random example_sealer
    "hunter2" v k "" "" "" example_random_full eq_refl E).
Defined.
