(* ===== verification/Accounts.v ===== *)
(** * Credentials, settings, password and sessions
      ([src/pkg/store/secrets.go], [settings.go], [sessions.go]) *)
From S2P Require Import Prelude GoStrings Model Database AgentStore Secretbox.
From Stdlib Require Import Ascii.
Local Open Scope go_scope.
Local Open Scope Z_scope.

(** ** What is outside the program

    The database's collation, which orders names, and bcrypt, whose hashes are
    not empty and match the password they were made from. *)
Class PgCollation := {
  text_le : relation string;
  text_le_dec :: RelDecision text_le
}.
Definition by_text `{!PgCollation} {R} (k : R → string) : relation R := λ a b,
  text_le (k a) (k b).
#[export] Instance by_text_dec `{!PgCollation} {R} (k : R → string) : RelDecision (by_text k).
Proof. intros a b. apply text_le_dec. Defined.
Class Bcrypt := {
  GenerateFromPassword : string → result string;
  CompareHashAndPassword : string → string → bool
}.
Class BcryptLaws `{!Bcrypt} : Prop :=
  bcrypt_matches : ∀ p h, GenerateFromPassword p = Ok h →
    h ≠ EmptyString ∧ CompareHashAndPassword h p = true.

Definition with_secrets (d : Database) (l : list SecretRow.t) : Database :=
  d <| secrets := l |>.
Definition with_users (d : Database) (l : list UserRow.t) : Database := d <| users := l |>.
Definition with_sessions (d : Database) (l : list SessionRow.t) : Database :=
  d <| sessions := l |>.

(** ** The secret store *)
Module Secret.
Record t := mk {
  ID : string;
  Name : string;
  MaskedSuffix : string;
  CreatedAt : Time;
  UpdatedAt : Time
}.
End Secret.

Module Settings.
Record t := mk {
  TelegramChatID : string;
  TelegramConfigured : bool;
  FailureAlertsEnabled : bool;
  CustomProviders : list CustomProvider.t
}.
End Settings.

Definition scanSecret (s : SecretRow.t) : Secret.t :=
  {| Secret.ID := SecretRow.id s; Secret.Name := SecretRow.name s;
     Secret.MaskedSuffix := SecretRow.masked_suffix s;
     Secret.CreatedAt := SecretRow.created_at s; Secret.UpdatedAt := SecretRow.updated_at s |}.

(** [WHERE user_id = $1 AND name = $2]. *)
Definition is_secret (u name : string) (s : SecretRow.t) : Prop :=
  SecretRow.user_id s = u ∧ SecretRow.name s = name.
#[export] Instance is_secret_dec u name s : Decision (is_secret u name s).
Proof. unfold is_secret. apply _. Defined.

Section secrets.
Context {PU : PgUuid} {G : Gcm}.

Definition reseal (value key mask : string) (now : Time) (s : SecretRow.t) : SecretRow.t :=
  s <| SecretRow.encrypted_value := value |>
    <| SecretRow.encrypted_data_key := key |>
    <| SecretRow.masked_suffix := mask |>
    <| SecretRow.updated_at := timestamptz now |>.

Definition put_secret (userID name value key mask : string) (r : Reply) (d : Database)
  : result (SecretRow.t * Database) :=
  u ←? uuid_arg userID;
  match first_where (is_secret u name) (secrets d) with
  | Some old =>
      Ok (reseal value key mask (r_now r) old,
          with_secrets d (update_where (is_secret u name) (reseal value key mask (r_now r))
                            (secrets d)))
  | None =>
      if decide (r_uuid r ∈ SecretRow.id <$> secrets d)
      then Err (PgError unique_violation)
      else if decide (¬ user_exists d u) then Err (PgError foreign_key_violation)
      else
        let now := timestamptz (r_now r) in
        let row := SecretRow.mk (r_uuid r) u name value key mask now now in
        Ok (row, with_secrets d (secrets d ++ [row]))
  end.

Definition SecretStore_Put (rand : Random) (sealer : Sealer.t) (userID name value : string)
  : Db Secret.t :=
  sealed ← lift (Seal rand sealer value);
  row ← map_err translateNoRows
          (statement (put_secret userID name (fst sealed) (snd sealed) (Mask value)));
  ret (scanSecret row).

Definition SecretStore_List `{!PgCollation} (userID : string) : Db (list Secret.t) :=
  rows ← query (λ d,
    u ←? uuid_arg userID;
    Ok (order_by (by_text SecretRow.name)
          (filter (λ s, SecretRow.user_id s = u) (secrets d))));
  ret (scanSecret <$> rows).

Definition SecretStore_Reveal (sealer : Sealer.t) (userID name : string) : Db string :=
  row ← map_err translateNoRows (query (λ d,
    u ←? uuid_arg userID;
    of_option ErrNoRows (first_where (is_secret u name) (secrets d))));
  lift (Open sealer (SecretRow.encrypted_value row) (SecretRow.encrypted_data_key row)).

Definition delete_secret (userID name : string) (_ : Reply) (d : Database)
  : result (nat * Database) :=
  u ←? uuid_arg userID;
  Ok (count_where (is_secret u name) (secrets d),
      with_secrets d (delete_where (is_secret u name) (secrets d))).

Definition SecretStore_Delete (userID name : string) : Db unit :=
  affected ← statement (delete_secret userID name);
  if decide (affected = 0%nat) then fail ErrNotFound else ret tt.

(** ** Settings *)
Definition TelegramTokenSecret : string := "telegram_bot_token".


Definition user_row (userID : string) (d : Database) : result UserRow.t :=
  u ←? uuid_arg userID;
  of_option ErrNoRows (first_where (λ x, UserRow.id x = u) (users d)).

(** [sealer] is [None] where the store has no secret store. *)
Definition TelegramToken (sealer : option Sealer.t) (userID : string) : Db string :=
  match sealer with
  | None => ret EmptyString
  | Some sealer =>
      r ← try (SecretStore_Reveal sealer userID TelegramTokenSecret);
      match r with
      | Ok token => ret token
      | Err e => if errors_Is e ErrNotFound then ret EmptyString else fail e
      end
  end.

Definition SettingsStore_Get (sealer : option Sealer.t) (userID : string) : Db Settings.t :=
  row ← map_err translateNoRows (query (user_row userID));
  token ← TelegramToken sealer userID;
  ret {| Settings.TelegramChatID := UserRow.telegram_chat_id row;
         Settings.TelegramConfigured :=
           bool_decide (token ≠ EmptyString ∧ UserRow.telegram_chat_id row ≠ EmptyString);
         Settings.FailureAlertsEnabled := UserRow.failure_alerts_enabled row;
         Settings.CustomProviders := UserRow.custom_providers row |}.

Definition set_settings (s : Settings.t) (r : UserRow.t) : UserRow.t :=
  r <| UserRow.telegram_chat_id := Settings.TelegramChatID s |>
    <| UserRow.failure_alerts_enabled := Settings.FailureAlertsEnabled s |>
    <| UserRow.custom_providers := Settings.CustomProviders s |>.

Definition update_user (userID : string) (f : UserRow.t → UserRow.t) (_ : Reply)
    (d : Database) : result (unit * Database) :=
  u ←? uuid_arg userID;
  Ok (tt, with_users d (update_where (λ x, UserRow.id x = u) f (users d))).

Definition SettingsStore_Update (sealer : option Sealer.t) (userID : string) (s : Settings.t)
  : Db Settings.t :=
  map_err translateNoRows (statement (update_user userID (set_settings s))) ;;
  SettingsStore_Get sealer userID.

(** [None] is Go's [("", "", false)]. *)
Definition TelegramDelivery (sealer : option Sealer.t) (userID : string)
  : Db (option (string * string)) :=
  settings ← try (SettingsStore_Get sealer userID);
  match settings with
  | Err _ => ret None
  | Ok settings =>
      token ← try (TelegramToken sealer userID);
      match token with
      | Err _ => ret None
      | Ok token =>
          if decide (token = EmptyString ∨ Settings.TelegramChatID settings = EmptyString)
          then ret None
          else ret (Some (token, Settings.TelegramChatID settings))
      end
  end.
End secrets.

(** ** Password and sessions *)
Definition SessionLifetime : Duration := 30 * 24 * Hour.

(** [base64.RawURLEncoding.EncodeToString]. *)
Definition base64url_digit (n : nat) : ascii :=
  (if decide (n < 26)%nat then byte_of (65 + n)
   else if decide (n < 52)%nat then byte_of (71 + n)
   else if decide (n < 62)%nat then byte_of (n - 4)
   else if decide (n = 62)%nat then byte_of 45 else byte_of 95)%nat.
Fixpoint base64url (s : string) : string :=
  (match s with
   | String a (String b (String c s')) =>
       let (x, y) := (nat_of_ascii a, nat_of_ascii b) in
       let z := nat_of_ascii c in
       String (base64url_digit (x / 4)) (String (base64url_digit (x mod 4 * 16 + y / 16))
         (String (base64url_digit (y mod 16 * 4 + z / 64))
           (String (base64url_digit (z mod 64)) (base64url s'))))
   | String a (String b EmptyString) =>
       let (x, y) := (nat_of_ascii a, nat_of_ascii b) in
       String (base64url_digit (x / 4)) (String (base64url_digit (x mod 4 * 16 + y / 16))
         (str1 (base64url_digit (y mod 16 * 4))))
   | String a EmptyString =>
       let x := nat_of_ascii a in
       String (base64url_digit (x / 4)) (str1 (base64url_digit (x mod 4 * 16)))
   | EmptyString => EmptyString
   end)%nat.

Section users.
Context {PU : PgUuid} {B : Bcrypt}.

Definition password_of (userID : string) : Db string :=
  row ← map_err translateNoRows (query (user_row userID)); ret (UserRow.password_hash row).

Definition set_password (hash : string) (r : UserRow.t) : UserRow.t :=
  r <| UserRow.password_hash := hash |>.

Definition EnsurePassword (userID password : string) : Db unit :=
  existing ← password_of userID;
  if decide (existing ≠ EmptyString) then ret tt
  else
    hash ← lift (GenerateFromPassword password);
    statement (update_user userID (set_password hash)).

Definition HasPassword (userID : string) : Db bool :=
  hash ← password_of userID; ret (bool_decide (hash ≠ EmptyString)).

Definition CheckPassword (userID password : string) : Db bool :=
  hash ← password_of userID;
  if decide (hash = EmptyString) then ret false
  else ret (CompareHashAndPassword hash password).

Definition insert_session (token userID : string) (expires : Time) (_ : Reply) (d : Database)
  : result (unit * Database) :=
  u ←? uuid_arg userID;
  if decide (token ∈ SessionRow.id <$> sessions d) then Err (PgError unique_violation)
  else if decide (¬ user_exists d u) then Err (PgError foreign_key_violation)
  else Ok (tt, with_sessions d (sessions d ++ [SessionRow.mk token u (timestamptz expires)])).

Definition CreateSession (rand : Random) (userID : string) (now : Time) : Db string :=
  raw ← lift (rand 0%nat 32%nat);
  statement (insert_session (base64url raw) userID (time_Add now SessionLifetime)) ;;
  ret (base64url raw).

Definition UserForSession (token : string) (now : Time) : Db string :=
  row ← map_err translateNoRows (query (λ d,
    of_option ErrNoRows
      (first_where (λ s, SessionRow.id s = token ∧
                         timestamptz now < SessionRow.expires_at s) (sessions d))));
  ret (SessionRow.user_id row).

Definition DeleteSession (token : string) : Db unit :=
  statement (λ _ d,
    Ok (tt, with_sessions d (delete_where (λ s, SessionRow.id s = token) (sessions d)))).
End users.

(** ** Constraints are kept *)
Section wf.
Context {PU : PgUuid} {G : Gcm} {B : Bcrypt}.

Lemma wf_put_secret userID name v k mask r d row d' :
  put_secret userID name v k mask r d = Ok (row, d') → wf_database d → wf_database d'.
Proof.
  unfold put_secret. intros (u & _ & H)%rbind_Ok.
  destruct (first_where _ _) as [old|] eqn:Hfirst.
  - injection H as _ <-. intros []. split; simpl; try done; rewrite ?update_where_key; try done.
    by apply Forall_update_where.
  - case_decide as Hid; [done|]. case_decide as Hu; [done|]. simplify_eq.
    apply first_where_None in Hfirst. intros []. split; simpl; wf_row.
    apply NoDup_key_snoc; [done|]. eapply Forall_impl; [exact Hfirst|].
    intros s Hs [= Hu' Hn]. by apply Hs.
Qed.

Lemma wf_delete_secret userID name r d n d' :
  delete_secret userID name r d = Ok (n, d') → wf_database d → wf_database d'.
Proof.
  unfold delete_secret. intros (u & _ & [= _ <-])%rbind_Ok. intros [].
  split; simpl; try done; [by apply NoDup_key_delete|by apply Forall_delete_where].
Qed.

Lemma wf_update_user userID f r d x d' :
  (∀ x, UserRow.id (f x) = UserRow.id x) →
  update_user userID f r d = Ok (x, d') → wf_database d → wf_database d'.
Proof.
  intros Hf. unfold update_user. intros (u & _ & [= _ <-])%rbind_Ok. intros [].
  split; simpl; try done; unfold user_exists; simpl; rewrite ?update_where_key; done.
Qed.

Lemma wf_insert_session token userID t r d x d' :
  insert_session token userID t r d = Ok (x, d') → wf_database d → wf_database d'.
Proof.
  unfold insert_session. intros (u & _ & H)%rbind_Ok.
  case_decide as Hid; [done|]. case_decide as Hu; [done|]. simplify_eq. intros [].
  split; simpl; wf_row.
Qed.

Lemma wf_delete_session token d :
  wf_database d →
  wf_database (with_sessions d (delete_where (λ s, SessionRow.id s = token) (sessions d))).
Proof.
  intros []. split; simpl; try done; [by apply NoDup_key_delete|by apply Forall_delete_where].
Qed.
End wf.

#[export] Hint Resolve wf_put_secret wf_delete_secret wf_insert_session wf_delete_session : taskd.

(** ** Credentials *)
Section secret_spec.
Context {PU : PgUuid} {G : Gcm} {GL : GcmLaws}.

Lemma put_secret_Ok userID name v k mask r d row d' :
  put_secret userID name v k mask r d = Ok (row, d') →
  ∃ u, uuid_in userID = Some u ∧ is_secret u name row ∧
    SecretRow.encrypted_value row = v ∧ SecretRow.encrypted_data_key row = k ∧
    SecretRow.masked_suffix row = mask ∧
    first_where (is_secret u name) (secrets d') = Some row ∧
    ∀ s, ¬ is_secret u name s → s ∈ secrets d' ↔ s ∈ secrets d.
Proof.
  unfold put_secret. intros (u & Hu%of_option_Ok & H)%rbind_Ok. exists u.
  destruct (first_where _ (secrets d)) as [old|] eqn:Hfirst.
  - pose proof (first_where_Some _ _ _ Hfirst) as [Hin Hold].
    injection H as <- <-. split_and!; try done.
    + unfold first_where in *. simpl. clear Hin. unfold update_where.
      induction (secrets d) as [|s l IH]; [done|]. rewrite fmap_cons, !filter_cons in *.
      destruct (decide (is_secret u name s)) as [Hs|Hs].
      * rewrite decide_True by done. simpl in *. congruence.
      * rewrite decide_False by done. by apply IH.
    + intros s Hs. simpl. rewrite elem_of_update_where. split.
      * intros (s0 & Hs0 & [[H0 ->]|[_ ->]]); [|done]. by destruct Hs.
      * intros ?. exists s. eauto.
  - case_decide as Hid; [done|]. case_decide as Hx; [done|]. simplify_eq.
    apply first_where_None in Hfirst. split_and!; try done.
    + unfold first_where. simpl. rewrite filter_app, (proj2 (filter_nil_iff _ _) Hfirst).
      by rewrite filter_cons_True.
    + intros s Hs. simpl. rewrite elem_of_app, list_elem_of_singleton.
      split; [intros [?| ->]; [done|by destruct Hs]|by left].
Qed.

Lemma SecretStore_Put_Ok rand sealer userID name value w sec w' :
  SecretStore_Put rand sealer userID name value w = (Ok sec, w') →
  ∃ v k r row d', Seal rand sealer value = Ok (v, k) ∧ w_db w' = d' ∧
    put_secret userID name v k (Mask value) r (w_db w) = Ok (row, d') ∧
    sec = scanSecret row.
Proof.
  intros ([v k] & w1 & Hs & H)%bind_Ok. injection Hs as Hs <-.
  apply bind_Ok in H as (row & w2 & (r & _ & _ & Hp)%map_err_Ok%statement_Ok & [-> ->]%ret_Ok).
  by exists v, k, r, row, (w_db w2).
Qed.

(** C22: a credential that was stored is revealed as it was given, under its name
    and user; the others are untouched, and what the dashboard gets is a mask of
    at most its last four bytes. *)
Theorem secret_put_reveal rand sealer userID name value w sec w' r2 rest :
  reads_full rand →
  SecretStore_Put rand sealer userID name value w = (Ok sec, w') →
  w_replies w' = r2 :: rest → r_fault r2 = None →
  SecretStore_Reveal sealer userID name w' = (Ok value, w' <| w_replies := rest |>) ∧
  Secret.Name sec = name ∧ Secret.MaskedSuffix sec = Mask value ∧
  (∃ u, uuid_in userID = Some u ∧ ∀ s, ¬ is_secret u name s →
     s ∈ secrets (w_db w') ↔ s ∈ secrets (w_db w)).
Proof.
  intros Hfull (v & k & r & row & d' & Hseal & Hdb & Hp & ->)%SecretStore_Put_Ok Hrep Hr2.
  apply put_secret_Ok in Hp as (u & Hu & [_ Hname] & Hv & Hk & Hm & Hfirst & Hothers).
  split; [|split; [done|split; [done|]]]; [|exists u; split; [done|by rewrite Hdb]].
  unfold SecretStore_Reveal, bind, map_err. destruct w' as [d w']. simpl in *. subst.
  rewrite query_answered by done. unfold uuid_arg. rewrite Hu. simpl. rewrite Hfirst. simpl.
  unfold lift. by rewrite (Seal_Open _ _ _ _ _ Hfull Hseal).
Qed.

(** What the listing depends on. *)
Definition public_secret (s : SecretRow.t) : string * string * string * string * Time * Time :=
  (SecretRow.id s, SecretRow.user_id s, SecretRow.name s, SecretRow.masked_suffix s,
   SecretRow.created_at s, SecretRow.updated_at s).

Definition listed (p : string * string * string * string * Time * Time) : Secret.t :=
  let '(id, _, name, mask, created, updated) := p in Secret.mk id name mask created updated.

Lemma SecretStore_List_public `{!PgCollation} userID d r rest :
  r_fault r = None →
  SecretStore_List userID (mkWorld d (r :: rest)) =
  (u ←? uuid_arg userID;
   Ok (listed <$> order_by (by_text (λ p, p.1.1.1.2))
         (filter (λ p, p.1.1.1.1.2 = u) (public_secret <$> secrets d))), mkWorld d rest).
Proof.
  intros Hr. unfold SecretStore_List, bind. rewrite query_answered by done.
  destruct (uuid_arg userID) as [u|e]; [|done]. simpl. unfold ret. do 2 f_equal.
  rewrite filter_fmap. rewrite <- (order_by_fmap (by_text SecretRow.name)) by done.
  rewrite <- list_fmap_compose. f_equal.
Qed.

(** The listing tells nothing about a credential beyond its mask: two
    databases whose credentials agree in name, mask and times list alike,
    whatever the sealed values are. *)
Lemma secret_list_hides_values `{!PgCollation} userID d1 d2 r rest :
  r_fault r = None → public_secret <$> secrets d1 = public_secret <$> secrets d2 →
  fst (SecretStore_List userID (mkWorld d1 (r :: rest))) =
  fst (SecretStore_List userID (mkWorld d2 (r :: rest))).
Proof. intros Hr Heq. rewrite !SecretStore_List_public by done. by rewrite Heq. Qed.
End secret_spec.

(** ** Settings *)
Section settings_spec.
Context {PU : PgUuid} {G : Gcm}.

(** Looking up the delivery address only reads. *)
Lemma TelegramDelivery_reads (R : relation Database) `{!PreOrder R} sealer userID :
  respects R (TelegramDelivery sealer userID).
Proof.
  unfold TelegramDelivery, SettingsStore_Get, TelegramToken, SecretStore_Reveal.
  destruct sealer; respects.
Qed.

(** What the token is in a database. *)
Definition token_in (sealer : option Sealer.t) (userID : string) (d : Database)
  : result string :=
  match sealer with
  | None => Ok EmptyString
  | Some sealer =>
      let revealed :=
        match (u ←? uuid_arg userID;
               of_option ErrNoRows (first_where (is_secret u TelegramTokenSecret) (secrets d)))
        with
        | Err e => Err (translateNoRows e)
        | Ok row => Open sealer (SecretRow.encrypted_value row) (SecretRow.encrypted_data_key row)
        end in
      match revealed with
      | Ok token => Ok token
      | Err e => if errors_Is e ErrNotFound then Ok EmptyString else Err e
      end
  end.

(** The replies a look-up of the token takes. *)
Definition token_replies (sealer : option Sealer.t) : nat :=
  match sealer with None => 0 | Some _ => 1 end.

Lemma TelegramToken_answered sealer userID d replies rest :
  length replies = token_replies sealer → Forall (λ r, r_fault r = None) replies →
  TelegramToken sealer userID (mkWorld d (replies ++ rest)) =
  (token_in sealer userID d, mkWorld d rest).
Proof.
  unfold TelegramToken, token_in. destruct sealer as [sealer|]; simpl.
  - destruct replies as [|r [|??]]; simpl; try done. intros _ [Hr _]%Forall_cons.
    unfold try, bind, SecretStore_Reveal, bind, map_err. rewrite query_answered by done.
    destruct (rbind _ _) as [row|e]; unfold lift, ret, fail.
    + destruct (Open _ _ _) as [t|e]; [done|]. by destruct (errors_Is e ErrNotFound).
    + by destruct (errors_Is (translateNoRows e) ErrNotFound).
  - destruct replies; [|done]. by intros.
Qed.

Lemma SettingsStore_Get_answered sealer userID d r replies rest :
  r_fault r = None → length replies = token_replies sealer →
  Forall (λ r, r_fault r = None) replies →
  SettingsStore_Get sealer userID (mkWorld d (r :: replies ++ rest)) =
  match user_row userID d with
  | Err e => (Err (translateNoRows e), mkWorld d (replies ++ rest))
  | Ok row =>
      (token ←? token_in sealer userID d;
       Ok {| Settings.TelegramChatID := UserRow.telegram_chat_id row;
             Settings.TelegramConfigured :=
               bool_decide (token ≠ EmptyString ∧ UserRow.telegram_chat_id row ≠ EmptyString);
             Settings.FailureAlertsEnabled := UserRow.failure_alerts_enabled row;
             Settings.CustomProviders := UserRow.custom_providers row |}, mkWorld d rest)
  end.
Proof.
  intros Hr Hlen Hall. unfold SettingsStore_Get, bind, map_err.
  rewrite query_answered by done. destruct (user_row userID d) as [row|e]; [|done].
  rewrite TelegramToken_answered by done. by destruct (token_in sealer userID d).
Qed.

(** The dashboard's "configured" and what the tools can deliver with are the
    same thing: a delivery address exists exactly when the settings say
    Telegram is configured, and then it is the stored token and chat. *)
Lemma telegram_configured_agrees sealer userID d r rs1 rs2 rest s w' :
  r_fault r = None → Forall (λ r, r_fault r = None) rs1 → Forall (λ r, r_fault r = None) rs2 →
  length rs1 = token_replies sealer → length rs2 = token_replies sealer →
  SettingsStore_Get sealer userID (mkWorld d (r :: rs1 ++ rs2 ++ rest)) = (Ok s, w') →
  ∃ delivery,
    TelegramDelivery sealer userID (mkWorld d (r :: rs1 ++ rs2 ++ rest)) =
      (Ok delivery, mkWorld d rest) ∧
    (is_Some delivery ↔ Settings.TelegramConfigured s = true) ∧
    ∀ token chat, delivery = Some (token, chat) →
      token_in sealer userID d = Ok token ∧ chat = Settings.TelegramChatID s ∧
      token ≠ EmptyString ∧ chat ≠ EmptyString.
Proof.
  intros Hr H1 H2 L1 L2. unfold TelegramDelivery, try, bind.
  rewrite SettingsStore_Get_answered by done.
  destruct (user_row userID d) as [row|e]; [|done].
  destruct (token_in sealer userID d) as [token|e] eqn:Ht; [|done]. simpl. intros [= <- <-].
  rewrite TelegramToken_answered by done. rewrite Ht. simpl. unfold ret.
  case_decide as Hc.
  - exists None. split; [done|]. split; [|done]. rewrite bool_decide_eq_true.
    split; [by intros [? ?]|tauto].
  - eexists. split; [done|]. rewrite bool_decide_eq_true. split.
    + split; [tauto|eauto].
    + intros t c [= <- <-]. tauto.
Qed.
End settings_spec.

(** ** Password and sessions *)
Section users_spec.
Context {PU : PgUuid} {B : Bcrypt} {BL : BcryptLaws}.

Lemma password_of_Ok userID w h w' :
  password_of userID w = (Ok h, w') →
  ∃ u row, uuid_in userID = Some u ∧
    first_where (λ x, UserRow.id x = u) (users (w_db w)) = Some row ∧
    h = UserRow.password_hash row ∧ w_db w' = w_db w.
Proof.
  intros (row & w1 & (r & _ & _ & Hq & Hdb)%map_err_Ok%query_Ok & [-> ->]%ret_Ok)%bind_Ok.
  apply rbind_Ok in Hq as (u & Hu%of_option_Ok & Hq%of_option_Ok). by exists u, row.
Qed.

Lemma first_where_update_key {R K} `{EqDecision K} (k : R → K) (f : R → R) t x r :
  (∀ r, k (f r) = k r) → first_where (λ r, k r = x) t = Some r →
  first_where (λ r, k r = x) (update_where (λ r, k r = x) f t) = Some (f r).
Proof.
  intros Hk. unfold first_where, update_where.
  induction t as [|r0 t IH]; [done|]. rewrite fmap_cons, !filter_cons.
  destruct (decide (k r0 = x)) as [H|H].
  - rewrite decide_True by by rewrite Hk. simpl. by intros [= ->].
  - rewrite decide_False by done. apply IH.
Qed.

Lemma EnsurePassword_Ok userID p w w' :
  EnsurePassword userID p w = (Ok tt, w') →
  ∃ u row row', uuid_in userID = Some u ∧
    first_where (λ x, UserRow.id x = u) (users (w_db w)) = Some row ∧
    first_where (λ x, UserRow.id x = u) (users (w_db w')) = Some row' ∧
    (UserRow.password_hash row ≠ EmptyString → row' = row) ∧
    (UserRow.password_hash row = EmptyString →
     GenerateFromPassword p = Ok (UserRow.password_hash row')).
Proof.
  intros (h & w1 & (u & row & Hu & Hrow & -> & Hdb)%password_of_Ok & H)%bind_Ok.
  case_decide as Hh.
  - apply ret_Ok in H as [_ ->]. rewrite Hdb. exists u, row, row. by split_and!.
  - apply bind_Ok in H as (hash & w2 & Hg & (r & _ & _ & Hs)%statement_Ok).
    injection Hg as Hg <-. unfold update_user, uuid_arg in Hs. rewrite Hu in Hs.
    injection Hs as Hs. rewrite Hdb in Hs.
    exists u, row, (set_password hash row). rewrite <- Hs. split_and!; try done.
    by apply (first_where_update_key UserRow.id).
Qed.

(** The first boot closes the installation: after a password has been set,
    starting again with another one changes nothing and the first one is still
    the one that logs in. *)
Lemma first_password_stays userID p1 p2 w w1 w2 r rest :
  EnsurePassword userID p1 w = (Ok tt, w1) → EnsurePassword userID p2 w1 = (Ok tt, w2) →
  (∃ u row, uuid_in userID = Some u ∧
     first_where (λ x, UserRow.id x = u) (users (w_db w)) = Some row ∧
     UserRow.password_hash row = EmptyString) →
  w_replies w2 = r :: rest → r_fault r = None →
  CheckPassword userID p1 w2 = (Ok true, w2 <| w_replies := rest |>) ∧
  ∀ p, fst (CheckPassword userID p w2) = Ok (CompareHashAndPassword
    (default EmptyString (match GenerateFromPassword p1 with Ok h => Some h | _ => None end)) p).
Proof.
  intros (u & row & row1 & Hu & Hrow & Hrow1 & _ & Hset)%EnsurePassword_Ok
    (u' & row1' & row2 & Hu' & Hrow1' & Hrow2 & Hkeep & _)%EnsurePassword_Ok
    (u0 & row0 & Hu0 & Hrow0 & Hempty) Hrep Hr.
  simplify_eq. specialize (Hset Hempty). destruct (bcrypt_matches _ _ Hset) as [Hne Hm].
  rewrite (Hkeep Hne) in Hrow2.
  assert (Hcheck : ∀ p, CheckPassword userID p w2 =
    (Ok (CompareHashAndPassword (UserRow.password_hash row1) p), w2 <| w_replies := rest |>)).
  { intros p. unfold CheckPassword, password_of, bind, map_err. destruct w2 as [d ?].
    simpl in *. subst. rewrite query_answered by done. unfold user_row, uuid_arg.
    rewrite Hu. simpl. rewrite Hrow2. simpl. by rewrite decide_False. }
  split; [by rewrite Hcheck, Hm|]. intros p. by rewrite Hcheck, Hset.
Qed.

(** C23: a session lasts thirty days from its login and not longer, and not past
    its deletion. *)
Theorem session_lifetime rand userID t w token w' t' r rest d' :
  CreateSession rand userID t w = (Ok token, w') →
  w_replies w' = r :: rest → r_fault r = None →
  (t' + Microsecond ≤ t + 30 * 24 * Hour →
   ∃ u, uuid_in userID = Some u ∧
     UserForSession token t' w' = (Ok u, w' <| w_replies := rest |>)) ∧
  (t + 30 * 24 * Hour ≤ t' → fst (UserForSession token t' w') = Err ErrNotFound) ∧
  (w_db (snd (DeleteSession token w')) = d' →
   ∀ r2 rest2, r_fault r2 = None →
     fst (UserForSession token t' (mkWorld d' (r2 :: rest2))) = Err ErrNotFound).
Proof.
  intros (raw & w1 & Hraw & H)%bind_Ok Hrep Hr. injection Hraw as Hraw <-.
  apply bind_Ok in H as (x & w2 & (rs & _ & _ & Hs)%statement_Ok & [-> ->]%ret_Ok).
  unfold insert_session in Hs. apply rbind_Ok in Hs as (u & Hu%of_option_Ok & Hs).
  case_decide as Hid; [done|]. case_decide as Hx; [done|]. injection Hs as _ Hs.
  apply not_elem_of_key in Hid. destruct w2 as [d rs2]. simpl in *. subst rs2 d.
  set (tok := base64url raw) in *. set (row := SessionRow.mk _ _ _) in *.
  assert (Hfind : ∀ P `{∀ s, Decision (P s)}, (∀ s, P s → SessionRow.id s = tok) →
    filter P (sessions (w_db w) ++ [row]) = filter P [row]).
  { intros P ? HP. rewrite filter_app, (proj2 (filter_nil_iff P _)); [done|].
    eapply Forall_impl; [exact Hid|]. intros s Hne Hs. by apply Hne, HP. }
  assert (Huser : ∀ t', UserForSession tok t' (mkWorld (with_sessions (w_db w)
      (sessions (w_db w) ++ [row])) (r :: rest)) =
    (if decide (timestamptz t' < SessionRow.expires_at row) then Ok u else Err ErrNotFound,
     mkWorld (with_sessions (w_db w) (sessions (w_db w) ++ [row])) rest)).
  { intros t0. unfold UserForSession, bind, map_err. rewrite query_answered by done.
    unfold first_where. simpl. rewrite Hfind by by intros s [? _].
    destruct (decide (timestamptz t0 < timestamptz (time_Add t SessionLifetime))) as [Hd|Hd].
    - by rewrite filter_cons_True.
    - rewrite filter_cons_False; [done|]. by intros [_ ?]. }
  assert (Hexp : SessionRow.expires_at row = timestamptz (t + 30 * 24 * Hour)) by done.
  split; [|split].
  - intros Ht. exists u. split; [done|]. rewrite Huser, Hexp, decide_True; [done|].
    revert Ht. clear. tlia.
  - intros Ht. rewrite Huser, Hexp, decide_False; [done|].
    apply timestamptz_mono in Ht. lia.
  - unfold DeleteSession. rewrite statement_answered by done. simpl. intros <- r2 rest2 Hr2.
    unfold UserForSession, bind, map_err. rewrite query_answered by done. simpl.
    unfold first_where. rewrite (proj2 (filter_nil_iff _ _)); [done|].
    apply Forall_forall. intros s [_ Hne]%elem_of_delete_where [? _]. done.
Qed.
End users_spec.

(** ** Closed examples *)
Definition example_bcrypt : Bcrypt := {|
  GenerateFromPassword := λ p, Ok ("$2a$" +:+ p);
  CompareHashAndPassword := λ h p, bool_decide (h = "$2a$" +:+ p)
|}.
Lemma example_bcrypt_laws : @BcryptLaws example_bcrypt.
Proof. intros p h [= <-]. split; [done|]. by apply bool_decide_eq_true. Qed.
Definition example_collation : PgCollation := {| text_le := str_le; text_le_dec := str_le_dec |}.

Definition put_key (w : World) : result Secret.t * World :=
  @SecretStore_Put example_uuid example_gcm example_random example_sealer OwnerUserID
    TelegramTokenSecret "123:abcdef" w.

Lemma secret_put_reveal_witness :
  let w := mkWorld empty_database (replicate 3 (answer 0 1)) in
  let w' := snd (put_key w) in
  fst (@SecretStore_Reveal example_uuid example_gcm example_sealer OwnerUserID
         TelegramTokenSecret w') = Ok "123:abcdef".
Proof.
  intros w w'.
  destruct (put_key w) as [[sec|e] w1] eqn:E; [|vm_compute in E; discriminate].
  destruct (@secret_put_reveal example_uuid example_gcm example_gcm_laws example_random
    example_sealer OwnerUserID TelegramTokenSecret "123:abcdef" w sec w1 (answer 0 1)
    [answer 0 1] example_random_full E) as [H _].
  - vm_compute in E. by injection E as _ <-.
  - done.
  - change w' with w1. by rewrite H.
Defined.

Lemma secret_list_hides_values_witness :
  let row v := SecretRow.mk (example_id 1) OwnerUserID "key" v "k" (Mask "xxxx1234") 0 0 in
  let listing v := fst (@SecretStore_List example_uuid example_collation OwnerUserID
    (mkWorld (with_secrets empty_database [row v]) [answer 0 1])) in
  listing "sealed a" = listing "sealed b".
Proof.
  intros row listing.
  apply (@secret_list_hides_values example_uuid example_collation OwnerUserID); reflexivity.
Defined.

Definition telegram_database : Database :=
  with_users (w_db (snd (put_key (mkWorld empty_database (replicate 3 (answer 0 1))))))
    [UserRow.mk OwnerUserID EmptyString "42" true []].

Lemma telegram_configured_agrees_witness :
  let w := mkWorld telegram_database (replicate 3 (answer 0 1)) in
  ∃ delivery, fst (@TelegramDelivery example_uuid example_gcm (Some example_sealer)
                     OwnerUserID w) = Ok delivery ∧
    (is_Some delivery ↔ true = true).
Proof.
  intros w.
  destruct (@SettingsStore_Get example_uuid example_gcm (Some example_sealer) OwnerUserID w)
    as [[s|e] w'] eqn:E; [|vm_compute in E; discriminate].
  assert (Settings.TelegramConfigured s = true) as Hc
    by (vm_compute in E; injection E as <- _; reflexivity).
  destruct (@telegram_configured_agrees example_uuid example_gcm (Some example_sealer)
    OwnerUserID telegram_database (answer 0 1) [answer 0 1] [answer 0 1] [] s w')
    as (delivery & Hd & Hiff & _); [done|repeat constructor|repeat constructor|done|done|exact E|].
  exists delivery. rewrite Hc in Hiff. split; [exact (f_equal fst Hd)|exact Hiff].
Defined.

Lemma first_password_stays_witness :
  let w := mkWorld empty_database (replicate 5 (answer 0 1)) in
  let w1 := snd (@EnsurePassword example_uuid example_bcrypt OwnerUserID "first" w) in
  let w2 := snd (@EnsurePassword example_uuid example_bcrypt OwnerUserID "second" w1) in
  fst (@CheckPassword example_uuid example_bcrypt OwnerUserID "first" w2) = Ok true.
Proof.
  intros w w1 w2.
  destruct (@first_password_stays example_uuid example_bcrypt example_bcrypt_laws OwnerUserID
    "first" "second" w w1 w2 (answer 0 1) [answer 0 1]) as [H _].
  - vm_compute. reflexivity.
  - vm_compute. reflexivity.
  - exists OwnerUserID, owner_row. vm_compute. done.
  - vm_compute. reflexivity.
  - done.
  - by rewrite H.
Defined.

Lemma session_lifetime_witness :
  let w := mkWorld empty_database (replicate 3 (answer 0 1)) in
  let r := @CreateSession example_uuid example_random OwnerUserID 0 w in
  let token := base64url (repeat_byte 32 (byte_of 65)) in
  fst r = Ok token ∧
  fst (@UserForSession token (30 * 24 * Hour) (snd r)) = Err ErrNotFound.
Proof.
  intros w r token. split; [vm_compute; reflexivity|].
  apply (@session_lifetime example_uuid example_random OwnerUserID 0 w token (snd r)
    (30 * 24 * Hour) (answer 0 1) [answer 0 1] (w_db (snd (DeleteSession token (snd r))))).
  - vm_compute. reflexivity.
  - vm_compute. reflexivity.
  - done.
  - vm_compute. congruence.
Defined.
