(* ===== verification/Telegram.v ===== *)
(** * Splitting messages ([splitForTelegram] of [src/pkg/tools/delivery.go])

    Text longer than Telegram's limit is cut into chunks on line boundaries
    where it can be. *)
From S2P Require Import Prelude GoStrings.
From Stdlib Require Import Ascii.
Local Open Scope nat_scope.

Definition telegramMessageLimit : nat := Z.to_nat 4096.

Section split.
(** The cap on a message; the source's is [telegramMessageLimit]. *)
Context (limit : nat).

(** The inner loop: a line longer than the limit is cut into full chunks, after
    what was pending.  Each turn takes [limit] bytes off the line. *)
Fixpoint cut_line (fuel : nat) (chunks : list string) (current paragraph : string)
  : list string * string * string :=
  match fuel with
  | 0 => (chunks, current, paragraph)
  | S fuel' =>
      if decide (limit < len paragraph) then
        let '(chunks, current) :=
          if decide (0 < len current) then (chunks ++ [current], EmptyString)
          else (chunks, current) in
        cut_line fuel' (chunks ++ [str_take limit paragraph]) current
          (str_drop limit paragraph)
      else (chunks, current, paragraph)
  end.

(** One turn of the outer loop. *)
Definition add_line (st : list string * string) (paragraph : string)
  : list string * string :=
  let '(chunks, current) := st in
  let '(chunks, current, paragraph) := cut_line (len paragraph) chunks current paragraph in
  let '(chunks, current) :=
    if decide (limit < len current + len paragraph + 1) then (chunks ++ [current], EmptyString)
    else (chunks, current) in
  let current := if decide (0 < len current) then current +:+ nl else current in
  (chunks, current +:+ paragraph).

Definition split_text (text : string) : list string :=
  if decide (len text ≤ limit) then [text]
  else
    let '(chunks, current) := foldl add_line ([], EmptyString) (Split text newline) in
    if decide (0 < len current) then chunks ++ [current] else chunks.
End split.

Definition splitForTelegram (text : string) : list string :=
  split_text telegramMessageLimit text.

(** ** Nothing is lost but line breaks *)

(** A text without its line breaks. *)
Fixpoint strip_nl (s : string) : string :=
  match s with
  | EmptyString => EmptyString
  | String c s' => if decide (c = newline) then strip_nl s' else String c (strip_nl s')
  end.

Fixpoint concat_all (l : list string) : string :=
  match l with [] => EmptyString | s :: l' => s +:+ concat_all l' end.

Lemma strip_nl_app s t : strip_nl (s +:+ t) = strip_nl s +:+ strip_nl t.
Proof.
  induction s as [|c s IH]; [done|]. rewrite append_cons. simpl.
  case_decide; [done|]. by rewrite IH.
Qed.

Lemma concat_all_app l1 l2 : concat_all (l1 ++ l2) = concat_all l1 +:+ concat_all l2.
Proof. induction l1 as [|s l1 IH]; [done|]. simpl. by rewrite IH, str_app_assoc. Qed.

Lemma strip_nl_Join l : strip_nl (Join l nl) = strip_nl (concat_all l).
Proof.
  induction l as [|x [|y l] IH]; [done|simpl; by rewrite str_app_nil_r|].
  rewrite Join_cons by done. change (concat_all (x :: y :: l)) with (x +:+ concat_all (y :: l)).
  rewrite !strip_nl_app, IH. done.
Qed.

Section lemmas.
Context (limit : nat) (Hlimit : 0 < limit).

Abbreviation fits := (λ s, len s ≤ limit).

(** What is pending and what was cut, in the order of the text. *)
Abbreviation text_of := (λ st : list string * string, concat_all st.1 +:+ st.2).

Lemma cut_line_spec fuel chunks current p chunks' current' p' :
  len p ≤ fuel → cut_line limit fuel chunks current p = (chunks', current', p') →
  len p' ≤ limit ∧
  (concat_all chunks +:+ current) +:+ p = (concat_all chunks' +:+ current') +:+ p' ∧
  (Forall fits chunks → fits current → Forall fits chunks' ∧ fits current').
Proof.
  revert chunks current p. induction fuel as [|fuel IH]; intros chunks current p Hf H; simpl in H.
  { simplify_eq. split_and!; [lia|done|done]. }
  case_decide as Hp; [|simplify_eq; split_and!; [lia|done|done]].
  assert (Htake : fits (str_take limit p)) by (simpl; rewrite len_str_take; lia).
  assert (Hdrop : len (str_drop limit p) ≤ fuel) by (rewrite len_str_drop; lia).
  case_decide as Hc; apply IH in H as (Hp' & Heq & Hfits); try done.
  - split_and!; [done| |].
    + rewrite <- Heq. rewrite !concat_all_app. simpl. rewrite !str_app_nil_r, !str_app_assoc.
      by rewrite str_take_drop.
    + intros Hch Hcur. apply Hfits; [|simpl; lia].
      repeat (apply Forall_app; split); [done|by apply Forall_singleton..].
  - assert (current = EmptyString) as -> by (apply len_0; lia). split_and!; [done| |].
    + rewrite <- Heq. rewrite !concat_all_app. simpl. rewrite !str_app_nil_r, !str_app_assoc.
      by rewrite str_take_drop.
    + intros Hch Hcur. apply Hfits; [|done].
      apply Forall_app. split; [done|by apply Forall_singleton].
Qed.

Lemma add_line_spec st p :
  strip_nl (text_of (add_line limit st p)) = strip_nl (text_of st) +:+ strip_nl p ∧
  (Forall fits st.1 ∧ fits st.2 →
   Forall fits (add_line limit st p).1 ∧ fits (add_line limit st p).2).
Proof.
  destruct st as [chunks current]. unfold add_line.
  destruct (cut_line limit (len p) chunks current p) as [[chunks1 current1] p1] eqn:E.
  apply cut_line_spec in E as (Hp & Heq & Hfits); [|done].
  assert (Hs : strip_nl (concat_all chunks +:+ current) +:+ strip_nl p =
               strip_nl (concat_all chunks1 +:+ current1) +:+ strip_nl p1)
    by (by rewrite <- !strip_nl_app, Heq).
  cbn [fst snd]. rewrite Hs. clear Heq Hs.
  case_decide as Hl; simpl.
  - split.
    + rewrite concat_all_app. simpl. rewrite !str_app_nil_r. by rewrite !strip_nl_app.
    + intros [Hch Hcur]. destruct (Hfits Hch Hcur). split; [|done].
      apply Forall_app. split; [done|by apply Forall_singleton].
  - case_decide as Hc; simpl; split.
    + rewrite !strip_nl_app. simpl. by rewrite !str_app_nil_r, !str_app_assoc.
    + intros [Hch Hcur]. destruct (Hfits Hch Hcur). split; [done|].
      autorewrite with taskd. simpl. lia.
    + by rewrite !strip_nl_app, !str_app_assoc.
    + intros [Hch Hcur]. destruct (Hfits Hch Hcur). split; [done|].
      autorewrite with taskd. lia.
Qed.

Lemma add_lines_spec ps st :
  strip_nl (text_of (foldl (add_line limit) st ps)) =
    strip_nl (text_of st) +:+ strip_nl (concat_all ps) ∧
  (Forall fits st.1 ∧ fits st.2 →
   Forall fits (foldl (add_line limit) st ps).1 ∧ fits (foldl (add_line limit) st ps).2).
Proof.
  revert st. induction ps as [|p ps IH]; intros st; simpl.
  { split; [by rewrite str_app_nil_r|done]. }
  destruct (IH (add_line limit st p)) as [IH1 IH2].
  destruct (add_line_spec st p) as [H1 H2]. split; [|auto].
  by rewrite IH1, H1, (strip_nl_app p), str_app_assoc.
Qed.

Lemma split_text_spec text :
  Forall fits (split_text limit text) ∧
  strip_nl (concat_all (split_text limit text)) = strip_nl text.
Proof.
  unfold split_text. case_decide as Hlen.
  { split; [by apply Forall_singleton|]. simpl. by rewrite str_app_nil_r. }
  destruct (add_lines_spec (Split text newline) ([], EmptyString)) as [Htext Hfits].
  rewrite <- strip_nl_Join, Join_Split in Htext.
  destruct (foldl _ _ _) as [chunks current]. simpl in *.
  destruct Hfits as [Hch Hcur]; [split; [constructor|simpl; lia]|].
  change (EmptyString +:+ strip_nl text) with (strip_nl text) in Htext.
  rewrite <- Htext. case_decide as Hc.
  - split; [apply Forall_app; split; [done|by apply Forall_singleton]|].
    rewrite concat_all_app. simpl. by rewrite str_app_nil_r.
  - assert (current = EmptyString) as -> by (apply len_0; lia).
    by rewrite str_app_nil_r.
Qed.
End lemmas.


Fixpoint repeated (n : nat) (c : ascii) (s : string) : string :=
  match n with 0 => s | S n' => String c (repeated n' c s) end.

(** A message whose first line has exactly 4096 bytes and that goes on after
    it is split with an empty first chunk, which is sent before the rest. *)
Lemma splitForTelegram_empty_chunk :
  let line := repeated telegramMessageLimit (byte_of 97) EmptyString in
  splitForTelegram (line +:+ nl +:+ "b") = [EmptyString; line; "b"].
Proof. vm_compute. reflexivity. Qed.
