(* ===== verification/Net.v ===== *)
(** * The network, as the tools meet it ([src/pkg/tools/address_policy.go])

    Name look-ups and HTTP round trips, Go's [http.Client] with its redirects,
    and the policy that decides which addresses a tool may reach. *)
From S2P Require Import Prelude GoStrings.
From Stdlib Require Import Ascii.
Local Open Scope go_scope.
Local Open Scope Z_scope.

(** ** Outside the process

    [url.URL] as far as the program looks at it, with [String_] the text of
    [u.String()]. A response's [Location] is the header resolved against the
    request, an error where it does not parse; its [Body] is what arrives before
    the stream ends, with the error it ends in. *)
Definition IP := list Z.

Module URL.
Record t := mk { Scheme : string; Hostname : string; String_ : string }.
#[global] Instance eq_dec : EqDecision t.
Proof. solve_decision. Defined.
End URL.

Module HttpRequest.
Record t := mk {
  Method : string;
  Target : URL.t;
  Header : list (string * string);
  Body : string
}.
#[global] Instance eta_t : Eta t := λ r, mk (Method r) (Target r) (Header r) (Body r).
End HttpRequest.

Module HttpResponse.
Record t := mk {
  StatusCode : Z;
  Location : option (result URL.t);
  Body : string * option error
}.
End HttpResponse.

(** The answers one caller meets, in the order it asks. *)
Record Outside := mkOutside {
  round_trip : nat → HttpRequest.t → result HttpResponse.t;
  LookupIP : nat → string → option (list IP)
}.

(** [url.Parse]; the text of a URL parses back to its scheme and host. *)
Class NetUrl := url_Parse : string → option URL.t.
Class NetUrlLaws `{!NetUrl} : Prop :=
  url_String_parses : ∀ s u u', url_Parse s = Some u →
    url_Parse (URL.String_ u) = Some u' →
    URL.Scheme u' = URL.Scheme u ∧ URL.Hostname u' = URL.Hostname u.

(** What a caller asked so far. *)
Record HttpLog := mkLog { sent : list HttpRequest.t; looked_up : list string }.
#[export] Instance eta_HttpLog : Eta HttpLog := λ l, mkLog (sent l) (looked_up l).
Definition quiet : HttpLog := mkLog [] [].

Definition Http (A : Type) := Outside → HttpLog → result A * HttpLog.

Definition hret {A} (r : result A) : Http A := λ _ l, (r, l).
Definition hbind {A B} (m : Http A) (k : A → Http B) : Http B := λ o l,
  match m o l with
  | (Ok a, l') => k a o l'
  | (Err e, l') => (Err e, l')
  end.
Definition hmap_err {A} (f : error → error) (m : Http A) : Http A := λ o l,
  match m o l with
  | (Ok a, l') => (Ok a, l')
  | (Err e, l') => (Err (f e), l')
  end.
Notation "x ←h m ; k" := (hbind m (λ x, k))
  (at level 20, m at level 100, k at level 200, right associativity) : go_scope.

Definition send (req : HttpRequest.t) : Http HttpResponse.t := λ o l,
  (round_trip o (length (sent l)) req, l <| sent := sent l ++ [req] |>).
Definition net_LookupIP (host : string) : Http (option (list IP)) := λ o l,
  (Ok (LookupIP o (length (looked_up l)) host), l <| looked_up := looked_up l ++ [host] |>).

(** [io.ReadAll(io.LimitReader(body, n))]: an error past the limit is not met. *)
Definition read_limited (n : nat) (body : string * option error) : string * option error :=
  let (s, e) := body in
  if decide (n ≤ len s)%nat then (str_take n s, None) else (s, e).
Definition read_all (body : string * option error) : result string :=
  match body with
  | (s, None) => Ok s
  | (_, Some e) => Err e
  end.

(** [http.NewRequestWithContext], which parses its URL. *)
Definition NewRequest `{!NetUrl} (method url body : string) (header : list (string * string))
  : result HttpRequest.t :=
  match url_Parse url with
  | Some u => Ok (HttpRequest.mk method u header body)
  | None => Err (Errorf ("parse " +:+ quoted url))
  end.

(** ** [http.Client]

    What a response redirects to. 301, 302 and 303 turn into a [GET] without a
    body, 307 and 308 repeat the first request's method and body; a 3xx without
    [Location] is an ordinary response. The credentials header only travels
    within the first host's domain. *)
Definition same_domain (sub parent : string) : bool :=
  bool_decide (sub = parent) || HasSuffix sub ("." +:+ parent).

Definition copy_header (first : HttpRequest.t) (to : URL.t) : list (string * string) :=
  if same_domain (URL.Hostname to) (URL.Hostname (HttpRequest.Target first))
  then HttpRequest.Header first
  else filter (λ h, h.1 ≠ "Authorization") (HttpRequest.Header first).

Definition redirect_of (first last : HttpRequest.t) (r : HttpResponse.t)
  : option (result HttpRequest.t) :=
  let code := HttpResponse.StatusCode r in
  let next method body u := HttpRequest.mk method u (copy_header first u) body in
  let method := HttpRequest.Method last in
  match HttpResponse.Location r with
  | None => None
  | Some location =>
      if decide (code ∈ [301; 302; 303]) then
        Some (u ←? location;
              Ok (next (if decide (method = "HEAD") then method else "GET") EmptyString u))
      else if decide (code ∈ [307; 308]) then
        Some (u ←? location; Ok (next method (HttpRequest.Body first) u))
      else None
  end.

(** The redirect loop; [via] is what was sent before [req]. *)
Section client.
Context (CheckRedirect : URL.t → list HttpRequest.t → Http unit).

Fixpoint follow (fuel : nat) (first : HttpRequest.t) (via : list HttpRequest.t)
    (req : HttpRequest.t) : Http HttpResponse.t :=
  match fuel with
  | O => hret (Err (Errorf "no fuel"))
  | S fuel' =>
      response ←h send req;
      match redirect_of first req response with
      | None => hret (Ok response)
      | Some next =>
          next ←h hret next;
          _ ←h CheckRedirect (HttpRequest.Target next) (via ++ [req]);
          follow fuel' first (via ++ [req]) next
      end
  end.

(** Both policies of the program stop after at most ten requests. *)
Definition maxRequests : nat := 10.

Definition url_error (req : HttpRequest.t) : error → error :=
  Wrapf (str_take 1 (HttpRequest.Method req) +:+ ToLower (str_drop 1 (HttpRequest.Method req)) +:+
         " " +:+ quoted (URL.String_ (HttpRequest.Target req))).

Definition client_Do (req : HttpRequest.t) : Http HttpResponse.t :=
  hmap_err (url_error req) (follow (S maxRequests) req [] req).
End client.

(** [defaultCheckRedirect], for a client that sets none. *)
Definition defaultCheckRedirect (_ : URL.t) (via : list HttpRequest.t) : Http unit :=
  if decide (10 ≤ length via)%nat then hret (Err (Errorf "stopped after 10 redirects"))
  else hret (Ok tt).

(** ** Addresses ([net.IP]) *)
Definition To4 (ip : IP) : option IP :=
  if decide (length ip = 4%nat) then Some ip
  else if decide (length ip = 16%nat ∧
                  take 12 ip = [0; 0; 0; 0; 0; 0; 0; 0; 0; 0; 255; 255])
  then Some (drop 12 ip) else None.

Definition ip_byte (ip : IP) (i : nat) : Z := default 0 (ip !! i).
Definition is16 (ip : IP) : bool := bool_decide (length ip = 16%nat).
Definition ip_is (ip : IP) (i : nat) (b : Z) : bool := bool_decide (ip_byte ip i = b).
Definition ip_masked (ip : IP) (i : nat) (mask b : Z) : bool :=
  bool_decide (Z.land (ip_byte ip i) mask = b).

(** [ip.Equal]: an IPv4 address and its IPv6-mapped form are equal. *)
Definition ip_Equal (a b : IP) : bool :=
  match To4 a, To4 b with
  | Some a', Some b' => bool_decide (a' = b')
  | None, None => bool_decide (a = b)
  | _, _ => false
  end.

Definition zeros (n : nat) : IP := replicate n 0.
Definition IPv4zero : IP := zeros 4.
Definition IPv6unspecified : IP := zeros 16.
Definition IPv6loopback : IP := zeros 15 ++ [1].

Definition IsUnspecified (ip : IP) : bool := ip_Equal ip IPv4zero || ip_Equal ip IPv6unspecified.
Definition IsLoopback (ip : IP) : bool :=
  match To4 ip with Some ip4 => ip_is ip4 0 127 | None => ip_Equal ip IPv6loopback end.
Definition IsPrivate (ip : IP) : bool :=
  match To4 ip with
  | Some ip4 => ip_is ip4 0 10 || (ip_is ip4 0 172 && ip_masked ip4 1 240 16) ||
                (ip_is ip4 0 192 && ip_is ip4 1 168)
  | None => is16 ip && ip_masked ip 0 254 252
  end.
Definition IsInterfaceLocalMulticast (ip : IP) : bool :=
  is16 ip && ip_is ip 0 255 && ip_masked ip 1 15 1.
Definition IsLinkLocalMulticast (ip : IP) : bool :=
  match To4 ip with
  | Some ip4 => ip_is ip4 0 224 && ip_is ip4 1 0 && ip_is ip4 2 0
  | None => is16 ip && ip_is ip 0 255 && ip_masked ip 1 15 2
  end.
Definition IsLinkLocalUnicast (ip : IP) : bool :=
  match To4 ip with
  | Some ip4 => ip_is ip4 0 169 && ip_is ip4 1 254
  | None => is16 ip && ip_is ip 0 254 && ip_masked ip 1 192 128
  end.

(** [ip.String()]: dotted decimal, or groups of sixteen bits in hexadecimal with
    the first longest run of two or more zero groups written as two colons. *)
Definition hex_char (d : Z) : ascii := byte_of (Z.to_nat (if decide (d < 10) then 48 + d else 87 + d)).
Fixpoint hex_digits (fuel : nat) (z : Z) : string :=
  match fuel with
  | O => EmptyString
  | S fuel' =>
      (if decide (z < 16) then EmptyString else hex_digits fuel' (z / 16)) +:+
      str1 (hex_char (z mod 16))
  end.
Fixpoint ip_groups (ip : IP) : list Z :=
  match ip with a :: b :: rest => a * 256 + b :: ip_groups rest | _ => [] end.
Fixpoint zero_run (l : list Z) : nat :=
  match l with z :: l' => if decide (z = 0) then S (zero_run l') else O | [] => O end.
(** Start and length of the first longest run. *)
Fixpoint longest_run (l : list Z) (i : nat) (best : nat * nat) : nat * nat :=
  match l with
  | [] => best
  | _ :: l' =>
      longest_run l' (S i)
        (if decide (snd best < zero_run l)%nat then (i, zero_run l) else best)
  end.
Definition colon_hex (l : list Z) : string := Join (hex_digits 4 <$> l) ":".
Definition ip_String (ip : IP) : string :=
  match To4 ip with
  | Some ip4 => Join (itoa <$> ip4) "."
  | None =>
      let l := ip_groups ip in
      let '(start, n) := longest_run l 0 (O, O) in
      if decide (2 ≤ n)%nat
      then colon_hex (take start l) +:+ "::" +:+ colon_hex (drop (start + n) l)
      else colon_hex l
  end.

(** ** The address policy *)
Definition isMetadataAddress (address : IP) : bool :=
  bool_decide (ip_String address ∈
    ["169.254.169.254"; "fd00:ec2::254"; "169.254.170.2"]).

Definition isPublicAddress (address : IP) : bool :=
  negb (IsLoopback address || IsPrivate address || IsUnspecified address ||
        IsLinkLocalUnicast address || IsLinkLocalMulticast address ||
        IsInterfaceLocalMulticast address).

Module addressPolicy.
Record t := mk { allowPrivate : bool }.
End addressPolicy.

Definition addressPolicy_check (p : addressPolicy.t) (target : URL.t) : Http unit :=
  if decide (ToLower (URL.Scheme target) ∈ ["http"; "https"]) then
    let host := URL.Hostname target in
    if decide (host = EmptyString) then hret (Err (Errorf "the url has no host"))
    else
      addresses ←h net_LookupIP host;
      match addresses with
      | None => hret (Err (Errorf ("could not resolve " +:+ host)))
      | Some addresses =>
          if decide (Exists (λ a, isMetadataAddress a = true) addresses) then
            hret (Err (Errorf ("refusing to reach " +:+ host +:+
                               ": it resolves to a cloud metadata endpoint")))
          else if addressPolicy.allowPrivate p then hret (Ok tt)
          else if decide (Exists (λ a, isPublicAddress a = false) addresses) then
            hret (Err (Errorf ("refusing to reach " +:+ host +:+
                               ": it resolves to a private or link-local address")))
          else hret (Ok tt)
      end
  else hret (Err (Errorf "only http and https urls may be used")).

(** [CheckRedirect] of the clients [NewHTTPFetch] and [NewSendWebhook] build. *)
Definition policyCheckRedirect (p : addressPolicy.t) (to : URL.t) (via : list HttpRequest.t)
  : Http unit :=
  if decide (5 ≤ length via)%nat then hret (Err (Errorf "too many redirects"))
  else addressPolicy_check p to.

(** ** The policy's ranges *)
Definition mapped (ip4 : IP) : IP := [0; 0; 0; 0; 0; 0; 0; 0; 0; 0; 255; 255] ++ ip4.

Lemma To4_4 a b c d : To4 [a; b; c; d] = Some [a; b; c; d].
Proof. done. Qed.
Lemma To4_mapped ip4 : length ip4 = 4%nat → To4 (mapped ip4) = Some ip4.
Proof. destruct ip4 as [|a [|b [|c [|d []]]]]; intros; done. Qed.

(** A property of all bytes, checked on each. *)
Lemma byte_forall (P : Z → bool) :
  forallb P (seqZ 0 256) = true → ∀ b, 0 ≤ b < 256 → P b = true.
Proof.
  intros H b Hb. rewrite forallb_forall in H. apply H. apply list_elem_of_In, elem_of_seqZ. lia.
Qed.

Lemma masked_range b : 0 ≤ b < 256 →
  bool_decide (Z.land b 240 = 16) = bool_decide (16 ≤ b < 32).
Proof.
  intros Hb. apply (eqb_prop (bool_decide (Z.land b 240 = 16))).
  revert b Hb. apply byte_forall. by vm_compute.
Qed.

(** The addresses an IPv4 answer is refused for are exactly the loopback,
    private, unspecified, link-local and local multicast ranges. *)
Lemma isPublicAddress_ranges a b c d :
  0 ≤ a < 256 → 0 ≤ b < 256 →
  isPublicAddress [a; b; c; d] = false ↔
  a = 127 ∨ a = 10 ∨ (a = 172 ∧ 16 ≤ b < 32) ∨ (a = 192 ∧ b = 168) ∨
  (a = 0 ∧ b = 0 ∧ c = 0 ∧ d = 0) ∨ (a = 169 ∧ b = 254) ∨ (a = 224 ∧ b = 0 ∧ c = 0).
Proof.
  intros Ha Hb. unfold isPublicAddress, IsLoopback, IsPrivate, IsUnspecified, ip_Equal,
    IsLinkLocalUnicast, IsLinkLocalMulticast, IsInterfaceLocalMulticast.
  rewrite To4_4. change (To4 IPv4zero) with (Some [0; 0; 0; 0]).
  change (To4 IPv6unspecified) with (@None IP).
  unfold ip_is, ip_masked, ip_byte, is16. simpl. rewrite masked_range by done.
  rewrite negb_false_iff, !orb_true_iff, !andb_true_iff, !bool_decide_eq_true.
  split; intros Hr; destruct_or! Hr; destruct_and? Hr; simplify_eq; try lia; tauto.
Qed.

(** Writing an IPv4 address in its IPv6-mapped form neither hides it from the
    policy nor makes it refused. *)
Lemma mapped_address_no_escape ip4 :
  length ip4 = 4%nat →
  isPublicAddress (mapped ip4) = isPublicAddress ip4 ∧
  isMetadataAddress (mapped ip4) = isMetadataAddress ip4.
Proof.
  intros H4. pose proof (To4_mapped ip4 H4) as Hm.
  assert (To4 ip4 = Some ip4) as H0 by (destruct ip4 as [|a [|b [|c [|d []]]]]; done).
  unfold isPublicAddress, isMetadataAddress, IsLoopback, IsPrivate, IsUnspecified, ip_Equal,
    IsLinkLocalUnicast, IsLinkLocalMulticast, IsInterfaceLocalMulticast, ip_String.
  rewrite Hm, H0. split; [|done]. do 2 f_equal.
  destruct ip4 as [|a [|b [|c [|d []]]]]; done.
Qed.

(** The metadata endpoints are refused whether or not private addresses are
    allowed, and nothing is sent for them. *)
Lemma metadata_always_refused p u o l addresses a :
  LookupIP o (length (looked_up l)) (URL.Hostname u) = Some addresses → a ∈ addresses →
  isMetadataAddress a = true →
  is_ok (fst (addressPolicy_check p u o l)) = false ∧
  sent (snd (addressPolicy_check p u o l)) = sent l.
Proof.
  intros Hl Ha Hm. unfold addressPolicy_check.
  case_decide; [|done]. case_decide; [done|].
  unfold hbind, net_LookupIP. rewrite Hl.
  rewrite decide_True by (apply Exists_exists; eauto). done.
Qed.

(** ** What a policed client sends *)
Definition permitted (p : addressPolicy.t) (a : IP) : Prop :=
  isMetadataAddress a = false ∧
  (addressPolicy.allowPrivate p = true ∨ isPublicAddress a = true).

(** The [i]-th request is to a host whose [i]-th look-up was acceptable. *)
Definition cleared (p : addressPolicy.t) (o : Outside) (looks : list string) (i : nat)
    (u : URL.t) : Prop :=
  ToLower (URL.Scheme u) ∈ ["http"; "https"] ∧
  looks !! i = Some (URL.Hostname u) ∧
  ∃ addresses, LookupIP o i (URL.Hostname u) = Some addresses ∧
               Forall (permitted p) addresses.
Definition all_cleared p o (l : HttpLog) : Prop :=
  ∀ i req, sent l !! i = Some req → cleared p o (looked_up l) i (HttpRequest.Target req).

Lemma addressPolicy_check_spec p u o l r l' :
  addressPolicy_check p u o l = (r, l') →
  sent l' = sent l ∧ looked_up l `prefix_of` looked_up l' ∧
  (r = Ok tt → looked_up l' = looked_up l ++ [URL.Hostname u] ∧
               cleared p o (looked_up l') (length (looked_up l)) u).
Proof.
  unfold addressPolicy_check. case_decide as Hs.
  2: { intros [= <- <-]. split_and!; [done|done|by intros]. }
  case_decide as Hh.
  { intros [= <- <-]. split_and!; [done|done|by intros]. }
  unfold hbind, net_LookupIP, hret.
  destruct (LookupIP o (length (looked_up l)) (URL.Hostname u)) as [addrs|] eqn:Hl;
    [|intros [= <- <-]; split_and!; [done|by apply prefix_app_r|by intros]].
  case_decide as Hm; [intros [= <- <-]; split_and!; [done|by apply prefix_app_r|by intros]|].
  apply not_Exists_Forall in Hm; [|apply _].
  assert (Hclear : Forall (permitted p) addrs →
    cleared p o (looked_up l ++ [URL.Hostname u]) (length (looked_up l)) u).
  { intros Hp. split_and!; [done|by apply list_lookup_middle|by exists addrs]. }
  destruct (addressPolicy.allowPrivate p) eqn:Hpriv.
  - intros [= <- <-]. split_and!; [done|by apply prefix_app_r|]. intros _. split; [done|].
    apply Hclear. eapply Forall_impl; [exact Hm|]. intros a Ha.
    split; [by apply not_true_is_false|by left].
  - case_decide as Hpub; intros [= <- <-]; (split_and!; [done|by apply prefix_app_r|]);
      [by intros|]. intros _. split; [done|]. apply Hclear.
    apply not_Exists_Forall in Hpub; [|apply _].
    rewrite Forall_forall in Hm, Hpub |- *. intros a Ha.
    split; [apply not_true_is_false, (Hm _ Ha)|right; by apply not_false_is_true, (Hpub _ Ha)].
Qed.

Lemma cleared_prefix p o looks looks' i u :
  looks `prefix_of` looks' → cleared p o looks i u → cleared p o looks' i u.
Proof.
  intros Hp (Hs & Hl & Ha). split_and!; [done| |done]. by eapply prefix_lookup_Some.
Qed.

(** Before [req] is sent, its own look-up has been made and accepted. *)
Lemma follow_cleared p fuel first req o l r l' :
  all_cleared p o l → length (looked_up l) = S (length (sent l)) →
  cleared p o (looked_up l) (length (sent l)) (HttpRequest.Target req) →
  (length (sent l) < 5)%nat →
  follow (policyCheckRedirect p) fuel first (sent l) req o l = (r, l') →
  all_cleared p o l' ∧ (length (sent l') ≤ 5)%nat.
Proof.
  revert req l. induction fuel as [|fuel IH]; intros req l Hall Hlen Hreq Hmax; simpl.
  { intros [= <- <-]. split; [done|lia]. }
  unfold hbind at 1. unfold send at 1.
  set (l1 := mkLog (sent l ++ [req]) (looked_up l)).
  change (l <| sent := sent l ++ [req] |>) with l1.
  assert (Hall1 : all_cleared p o l1).
  { intros i q Hq. simpl in *. apply lookup_app_Some in Hq as [Hq|[Hi Hq]]; [by apply Hall|].
    apply list_lookup_singleton_Some in Hq as [Hi0 ->].
    assert (i = length (sent l)) as -> by lia. done. }
  assert (Hlen1 : length (sent l1) = S (length (sent l))) by (simpl; rewrite length_app; simpl; lia).
  destruct (round_trip o (length (sent l)) req) as [response|e];
    [|intros [= <- <-]; split; [done|lia]].
  destruct (redirect_of first req response) as [[next|e]|];
    [|intros [= <- <-]; split; [done|lia]..].
  unfold hbind at 1. cbn [hret]. unfold hbind at 1, policyCheckRedirect at 1.
  case_decide as Hvia; [intros [= <- <-]; split; [done|lia]|].
  destruct (addressPolicy_check p (HttpRequest.Target next) o l1) as [[[]|e] l2] eqn:Hc;
    apply addressPolicy_check_spec in Hc as (Hsent & Hpre & Hok).
  - destruct (Hok eq_refl) as [Hlooked Hcl].
    change (sent l ++ [req]) with (sent l1). rewrite <- Hsent. apply IH.
    + intros i q Hq. rewrite Hsent in Hq. eapply cleared_prefix; [exact Hpre|by apply Hall1].
    + rewrite Hlooked, Hsent, length_app, Hlen1. simpl in *. lia.
    + rewrite Hsent, Hlen1. by rewrite <- Hlen.
    + rewrite Hsent, Hlen1. change (sent l ++ [req]) with (sent l1) in Hvia. lia.
  - intros [= <- <-]. split; [|rewrite Hsent; lia].
    intros i q Hq. rewrite Hsent in Hq. eapply cleared_prefix; [exact Hpre|by apply Hall1].
Qed.

(** The fuel of [client_Do] is never what stops a client. *)
Lemma follow_fuel check fuel extra first via req o l :
  (∀ to via o l, (10 ≤ length via)%nat → is_ok (fst (check to via o l)) = false) →
  (0 < fuel)%nat → (10 < fuel + length via)%nat →
  follow check (fuel + extra) first via req o l = follow check fuel first via req o l.
Proof.
  intros Hcheck. revert via req l. induction fuel as [|fuel IH]; intros via req l H0 Hf; [lia|].
  simpl. unfold hbind at 1 4. destruct (send req o l) as [[response|e] l1]; [|done].
  destruct (redirect_of first req response) as [[next|e]|]; [|done..].
  unfold hbind. cbn [hret].
  destruct (check (HttpRequest.Target next) (via ++ [req]) o l1) as [[[]|e] l2] eqn:E; [|done].
  assert (length (via ++ [req]) < 10)%nat as Hlt.
  { destruct (decide (10 ≤ length (via ++ [req]))%nat) as [Hge|]; [|lia].
    apply (Hcheck (HttpRequest.Target next) _ o l1) in Hge. by rewrite E in Hge. }
  rewrite length_app in Hlt. simpl in Hlt.
  apply IH; [lia|rewrite length_app; simpl; lia].
Qed.

Lemma policy_stops_at_ten p to via o l :
  (10 ≤ length via)%nat → is_ok (fst (policyCheckRedirect p to via o l)) = false.
Proof. intros. unfold policyCheckRedirect. by rewrite decide_True by lia. Qed.
Lemma default_stops_at_ten to via o l :
  (10 ≤ length via)%nat → is_ok (fst (defaultCheckRedirect to via o l)) = false.
Proof. intros. unfold defaultCheckRedirect. by rewrite decide_True by lia. Qed.

(** The redirect loop ends by itself: more fuel than [client_Do] gives it
    changes nothing, under either redirect policy. *)
Lemma client_Do_terminates extra p req o l :
  follow (policyCheckRedirect p) (S maxRequests + extra) req [] req o l =
    follow (policyCheckRedirect p) (S maxRequests) req [] req o l ∧
  follow defaultCheckRedirect (S maxRequests + extra) req [] req o l =
    follow defaultCheckRedirect (S maxRequests) req [] req o l.
Proof.
  split; apply follow_fuel; simpl; try lia;
    [apply policy_stops_at_ten|apply default_stops_at_ten].
Qed.

(** ** Answers that do not depend on headers *)
Definition no_header (r : HttpRequest.t) : HttpRequest.t := r <| HttpRequest.Header := [] |>.
Definition header_blind (o : Outside) : Prop := ∀ n r r',
  no_header r = no_header r' → round_trip o n r = round_trip o n r'.

Lemma redirect_of_no_header first first' last last' r :
  no_header first = no_header first' → no_header last = no_header last' →
  match redirect_of first last r, redirect_of first' last' r with
  | None, None => True
  | Some (Ok n), Some (Ok n') => no_header n = no_header n'
  | Some (Err e), Some (Err e') => e = e'
  | _, _ => False
  end.
Proof.
  destruct first, first', last, last'. unfold no_header. simpl. intros [= <- <- <-] [= <- <- <-].
  unfold redirect_of. simpl. destruct (HttpResponse.Location r) as [[u|e]|]; [| |done];
    by repeat (case_decide; simpl).
Qed.

Lemma follow_blind o fuel first first' via via' req req' l l' :
  header_blind o → no_header first = no_header first' → no_header req = no_header req' →
  length via = length via' → length (sent l) = length (sent l') →
  fst (follow defaultCheckRedirect fuel first via req o l) =
  fst (follow defaultCheckRedirect fuel first' via' req' o l').
Proof.
  intros Ho Hf. revert via via' req req' l l'.
  induction fuel as [|fuel IH]; intros via via' req req' l l' Hr Hvia Hl; [done|].
  simpl. unfold hbind, send. rewrite Hl, (Ho _ req req' Hr).
  destruct (round_trip o (length (sent l')) req') as [response|e]; [|done].
  pose proof (redirect_of_no_header first first' req req' response Hf Hr) as Hn.
  destruct (redirect_of first req response) as [[next|e]|],
    (redirect_of first' req' response) as [[next'|e']|]; simpl in *; try done; try (by subst).
  set (F := follow defaultCheckRedirect fuel) in *. unfold defaultCheckRedirect.
  rewrite !length_app, Hvia. destruct (decide (10 ≤ _))%nat; [done|].
  apply IH; [done|by rewrite !length_app, Hvia|simpl; by rewrite !length_app, Hl].
Qed.

Lemma client_Do_blind o req req' :
  header_blind o → no_header req = no_header req' →
  fst (client_Do defaultCheckRedirect req o quiet) =
  fst (client_Do defaultCheckRedirect req' o quiet).
Proof.
  intros Ho Hr. unfold client_Do, hmap_err.
  pose proof (follow_blind o (S maxRequests) req req' [] [] req req' quiet quiet
    Ho Hr Hr eq_refl eq_refl) as H.
  destruct (follow _ _ req [] req o quiet) as [r l], (follow _ _ req' [] req' o quiet) as [r' l'].
  simpl in H. subst r'. destruct r as [a|e]; [done|]. simpl.
  destruct req, req'. unfold no_header in Hr. simpl in Hr. by simplify_eq.
Qed.

#[global] Arguments follow : simpl never.

(** ** A small Internet

    URLs of the form [http://host/path]; [example.com] is public and redirects to
    [internal], which is not. *)
Fixpoint up_to_slash (s : string) : string :=
  match s with
  | EmptyString => EmptyString
  | String c s' => if decide (nat_of_ascii c = 47%nat) then EmptyString
                   else String c (up_to_slash s')
  end.
Definition example_url : NetUrl := λ s,
  if HasPrefix s "http://"
  then Some (URL.mk "http" (up_to_slash (str_drop 7 s)) s) else None.
Lemma example_url_laws : @NetUrlLaws example_url.
Proof.
  intros s u u' Hu Hu'. unfold url_Parse, example_url in *.
  destruct (HasPrefix s "http://") eqn:E; [|done]. injection Hu as <-. cbn [URL.String_] in Hu'.
  rewrite E in Hu'. by injection Hu' as <-.
Qed.

Definition internal_url : URL.t := URL.mk "http" "internal" "http://internal/".
Definition example_internet : Outside := {|
  round_trip := λ _ r,
    if decide (URL.Hostname (HttpRequest.Target r) = "example.com")
    then Ok (HttpResponse.mk 302 (Some (Ok internal_url)) (EmptyString, None))
    else Ok (HttpResponse.mk 200 None ("secret", None));
  LookupIP := λ _ host,
    if decide (host = "example.com") then Some [[93; 184; 216; 34]]
    else if decide (host = "metadata") then Some [[169; 254; 169; 254]]
    else Some [[10; 0; 0; 5]]
|}.

Lemma isPublicAddress_ranges_witness : isPublicAddress [172; 31; 0; 9] = false.
Proof.
  apply (isPublicAddress_ranges 172 31 0 9); [lia|lia|]. right. right. left. lia.
Defined.

Lemma mapped_address_no_escape_witness :
  isPublicAddress (mapped [10; 0; 0; 5]) = false ∧
  isMetadataAddress (mapped [169; 254; 169; 254]) = true.
Proof.
  split.
  - rewrite (proj1 (mapped_address_no_escape [10; 0; 0; 5] eq_refl)). by vm_compute.
  - rewrite (proj2 (mapped_address_no_escape [169; 254; 169; 254] eq_refl)). by vm_compute.
Defined.

Lemma metadata_always_refused_witness :
  is_ok (fst (addressPolicy_check (addressPolicy.mk true)
                (URL.mk "http" "metadata" "http://metadata/") example_internet quiet)) = false.
Proof.
  apply (metadata_always_refused (addressPolicy.mk true)
    (URL.mk "http" "metadata" "http://metadata/") example_internet quiet
    [[169; 254; 169; 254]] [169; 254; 169; 254]).
  - by vm_compute.
  - by left.
  - by vm_compute.
Defined.
