(* ===== verification/Llm.v ===== *)
(** * The model client ([src/pkg/llm/client.go])

    Chat completions in the OpenAI wire format: the request that is printed,
    the response that is decoded, and one call to the provider. *)
From S2P Require Import Prelude GoStrings Json Net.
Local Open Scope go_scope.
Local Open Scope Z_scope.

Definition DefaultBaseURL : string := "https://api.openai.com/v1".

Definition RoleSystem : string := "system".
Definition RoleUser : string := "user".
Definition RoleAssistant : string := "assistant".
Definition RoleTool : string := "tool".

Module FunctionCall.
Record t := mk { Name : string; Arguments_ : string }.
#[global] Instance eta_t : Eta t := λ f, mk (Name f) (Arguments_ f).
End FunctionCall.

Module ToolCall.
Record t := mk { ID : string; Type_ : string; Function_ : FunctionCall.t }.
#[global] Instance eta_t : Eta t := λ c, mk (ID c) (Type_ c) (Function_ c).
End ToolCall.

Module Message.
Record t := mk {
  Role : string;
  Content : string;
  ToolCalls : list ToolCall.t;
  ToolCallID : string
}.
#[global] Instance eta_t : Eta t := λ m, mk (Role m) (Content m) (ToolCalls m) (ToolCallID m).
End Message.

(** [Parameters] is a JSON Schema, a [map\[string\]any]. *)
Module FunctionSchema.
Record t := mk { Name : string; Description : string; Parameters : doc }.
End FunctionSchema.

Module ToolDefinition.
Record t := mk { Type_ : string; Function_ : FunctionSchema.t }.
End ToolDefinition.

Module Request.
Record t := mk {
  Model : string;
  Messages : list Message.t;
  Tools : list ToolDefinition.t
}.
End Request.

Module Usage.
Record t := mk { PromptTokens : Z; CompletionTokens : Z; TotalTokens : Z }.
#[global] Instance eta_t : Eta t := λ u, mk (PromptTokens u) (CompletionTokens u) (TotalTokens u).
End Usage.

Module Choice.
Record t := mk { Message_ : Message.t; FinishReason : string }.
#[global] Instance eta_t : Eta t := λ c, mk (Message_ c) (FinishReason c).
End Choice.

Module Response.
Record t := mk { Choices : list Choice.t; Usage_ : Usage.t }.
End Response.

(** ** The request on the wire

    [omitempty] leaves out empty strings and slices. *)
Definition omit_str (name s : string) : list (string * doc) :=
  if decide (s = EmptyString) then [] else [(name, DStr s)].
Definition omit_list (name : string) (l : list doc) : list (string * doc) :=
  match l with [] => [] | _ => [(name, DArr l)] end.

Definition tool_call_doc (c : ToolCall.t) : doc :=
  DObj [("id", DStr (ToolCall.ID c)); ("type", DStr (ToolCall.Type_ c));
        ("function", DObj [("name", DStr (FunctionCall.Name (ToolCall.Function_ c)));
                           ("arguments", DStr (FunctionCall.Arguments_ (ToolCall.Function_ c)))])].
Definition message_doc (m : Message.t) : doc :=
  DObj ([("role", DStr (Message.Role m))] ++ omit_str "content" (Message.Content m) ++
        omit_list "tool_calls" (tool_call_doc <$> Message.ToolCalls m) ++
        omit_str "tool_call_id" (Message.ToolCallID m)).
Definition definition_doc (d : ToolDefinition.t) : doc :=
  let f := ToolDefinition.Function_ d in
  DObj [("type", DStr (ToolDefinition.Type_ d));
        ("function", DObj [("name", DStr (FunctionSchema.Name f));
                           ("description", DStr (FunctionSchema.Description f));
                           ("parameters", FunctionSchema.Parameters f)])].
Definition request_doc (r : Request.t) : doc :=
  DObj ([("model", DStr (Request.Model r));
         ("messages", DArr (message_doc <$> Request.Messages r))] ++
        omit_list "tools" (definition_doc <$> Request.Tools r)).

(** ** The response *)
Section decode.
Local Open Scope stdpp.

Definition set_function : string → json → FunctionCall.t → option FunctionCall.t :=
  set_struct (λ ms f,
    name ← get_field set_string (FunctionCall.Name f) "name" ms;
    arguments ← get_field set_string (FunctionCall.Arguments_ f) "arguments" ms;
    Some (FunctionCall.mk name arguments)).
Definition zero_function : FunctionCall.t := FunctionCall.mk EmptyString EmptyString.

Definition set_tool_call : string → json → ToolCall.t → option ToolCall.t :=
  set_struct (λ ms c,
    id ← get_field set_string (ToolCall.ID c) "id" ms;
    type ← get_field set_string (ToolCall.Type_ c) "type" ms;
    function ← get_field set_function (ToolCall.Function_ c) "function" ms;
    Some (ToolCall.mk id type function)).
Definition zero_tool_call : ToolCall.t := ToolCall.mk EmptyString EmptyString zero_function.

Definition set_message : string → json → Message.t → option Message.t :=
  set_struct (λ ms m,
    role ← get_field set_string (Message.Role m) "role" ms;
    content ← get_field set_string (Message.Content m) "content" ms;
    calls ← get_field (set_list set_tool_call zero_tool_call) (Message.ToolCalls m)
              "tool_calls" ms;
    id ← get_field set_string (Message.ToolCallID m) "tool_call_id" ms;
    Some (Message.mk role content calls id)).
Definition zero_message : Message.t := Message.mk EmptyString EmptyString [] EmptyString.

Definition set_choice : string → json → Choice.t → option Choice.t :=
  set_struct (λ ms c,
    message ← get_field set_message (Choice.Message_ c) "message" ms;
    reason ← get_field set_string (Choice.FinishReason c) "finish_reason" ms;
    Some (Choice.mk message reason)).
Definition zero_choice : Choice.t := Choice.mk zero_message EmptyString.

Definition set_usage : string → json → Usage.t → option Usage.t :=
  set_struct (λ ms u,
    prompt ← get_field set_int (Usage.PromptTokens u) "prompt_tokens" ms;
    completion ← get_field set_int (Usage.CompletionTokens u) "completion_tokens" ms;
    total ← get_field set_int (Usage.TotalTokens u) "total_tokens" ms;
    Some (Usage.mk prompt completion total)).

End decode.

Definition decode_response (s : string) : result Response.t :=
  ms ←? unmarshal s;
  choices ←? field (set_list set_choice zero_choice) [] "choices" ms;
  usage ←? field set_usage (Usage.mk 0 0 0) "usage" ms;
  Ok (Response.mk choices usage).

(** ** The client *)
Module Client.
Record t := mk { baseURL : string; apiKey : string }.
End Client.

Definition New (baseURL apiKey : string) : Client.t :=
  let baseURL := if decide (baseURL = EmptyString) then DefaultBaseURL else baseURL in
  Client.mk (TrimSuffix baseURL "/") apiKey.

Definition client_header (c : Client.t) : list (string * string) :=
  [("Content-Type", "application/json")] ++
  (if decide (Client.apiKey c = EmptyString) then []
   else [("Authorization", "Bearer " +:+ Client.apiKey c)]).

Definition decode_failure : error → error := Wrapf "could not decode the model response".

Definition Complete `{!NetUrl} (c : Client.t) (request : Request.t) : Http Response.t :=
  httpRequest ←h hret (NewRequest "POST" (Client.baseURL c +:+ "/chat/completions")
                         (Marshal (request_doc request)) (client_header c));
  httpResponse ←h client_Do defaultCheckRedirect httpRequest;
  responseBody ←h hret (read_all (HttpResponse.Body httpResponse));
  if decide (HttpResponse.StatusCode httpResponse ≠ 200) then
    hret (Err (Errorf ("model provider returned " +:+ itoa (HttpResponse.StatusCode httpResponse)
                       +:+ ": " +:+ TrimSpace responseBody)))
  else
    response ←h hmap_err decode_failure (hret (decode_response responseBody));
    match Response.Choices response with
    | [] => hret (Err (Errorf "the model returned no choices"))
    | _ => hret (Ok response)
    end.

(** ** A call to the provider *)
Section calls.
Context `{!NetUrl}.

(** The answer is never without a choice, so that reading the first is safe. *)
Lemma Complete_has_choice c request o l response l' :
  Complete c request o l = (Ok response, l') → ∃ choice rest,
    Response.Choices response = choice :: rest.
Proof.
  unfold Complete, hbind, hret, hmap_err.
  destruct (NewRequest _ _ _ _) as [r|]; [|done].
  destruct (client_Do _ _ _ _) as [[h|] l1]; [|done].
  destruct (read_all _) as [b|]; [|done]. case_decide; [done|].
  destruct (decode_response b) as [d|]; [|done].
  destruct (Response.Choices d) as [|choice rest] eqn:E; [done|].
  intros [= <- <-]. eauto.
Qed.

(** A provider whose answers do not depend on the headers is asked the same
    question whatever the key. *)
Lemma Complete_key_blind base key key' request o :
  header_blind o →
  fst (Complete (New base key) request o quiet) = fst (Complete (New base key') request o quiet).
Proof.
  intros Ho. unfold Complete, New. cbn [Client.baseURL]. unfold NewRequest.
  set (base' := if decide (base = EmptyString) then _ else _).
  destruct (url_Parse _) as [u|]; [|done].
  unfold hbind, hret, hmap_err.
  set (r1 := HttpRequest.mk _ u (client_header (Client.mk _ key)) _).
  set (r2 := HttpRequest.mk _ u (client_header (Client.mk _ key')) _).
  pose proof (client_Do_blind o r1 r2 Ho eq_refl) as Hdo.
  destruct (client_Do _ r1 o quiet) as [r l], (client_Do _ r2 o quiet) as [r' l'].
  simpl in Hdo. subst r'. destruct r as [h|e]; [|done].
  destruct (read_all _); [|done]. case_decide; [done|].
  destruct (decode_response _) as [d|]; [|done]. by destruct (Response.Choices d).
Qed.
End calls.
