(* ===== verification/Tools.v ===== *)
(** * The tool catalogue ([src/pkg/tools/registry.go], [build.go], [memory.go])

    What a tool is, the registry an installation builds, and the two memory
    tools. *)
From S2P Require Import Prelude GoStrings Json Model Database AgentStore MemoryStore.
From S2P Require Import CronSchedule Net Llm.
Local Open Scope go_scope.
Local Open Scope Z_scope.

(** ** Tools and the registry *)
Module ToolEnv.
Record t := mk { RunID : string; AgentID : string; UserID : string }.
End ToolEnv.

(** [Configured] is [None] for a tool that does not implement [Configurable].
    [Execute] meets the network through its [Outside]; whatever the tool sends is
    in the log of the [Http] action it runs. *)
Module Tool.
Record t := mk {
  Name : string;
  Description : string;
  InputSchema : doc;
  Configured : option (string → Db bool);
  Execute : Outside → string → ToolEnv.t → Db string
}.
End Tool.

Definition Available (tool : Tool.t) (userID : string) : Db bool :=
  match Tool.Configured tool with
  | None => ret true
  | Some configured => configured userID
  end.

Definition Registry : Type := gmap string Tool.t.
Definition NewRegistry : Registry := ∅.
Definition Register (tool : Tool.t) (r : Registry) : Registry := <[Tool.Name tool := tool]> r.
Definition Get (r : Registry) (name : string) : option Tool.t := r !! name.

(** [sort.Strings] orders by bytes. *)
Definition Names (r : Registry) : list string := order_by asc_str ((map_to_list r).*1).

Definition definition_of (tool : Tool.t) : ToolDefinition.t :=
  ToolDefinition.mk "function"
    (FunctionSchema.mk (Tool.Name tool) (Tool.Description tool) (Tool.InputSchema tool)).

Definition Definitions (r : Registry) (granted : list string) : list ToolDefinition.t :=
  omap (λ name, definition_of <$> (r !! name)) granted.

Definition ErrNotGranted (name : string) : error :=
  Errorf ("the tool " +:+ quoted name +:+ " is not available to this agent").

(** A property of a schema, by its type and description. *)
Definition property (name type description : string) : string * doc :=
  (name, go_map [("type", DStr type); ("description", DStr description)]).
Definition object_schema (properties : list (string * doc)) (required : list string) : doc :=
  go_map [("type", DStr "object"); ("properties", go_map properties);
          ("required", DArr (DStr <$> required))].

(** ** Memory tools *)
Definition namespaceOrDefault (namespace : string) (env : ToolEnv.t) : string :=
  if decide (TrimSpace namespace = EmptyString) then ToolEnv.AgentID env else namespace.

Definition not_valid_json : error → error := Wrapf "arguments were not valid JSON".

Section memory.
Context {PU : PgUuid} {PJ : PgJsonb}.

Definition decode_memory_write (arguments : string) : result (string * string * string) :=
  ms ←? unmarshal arguments;
  key ←? field set_string EmptyString "key" ms;
  content ←? field set_raw EmptyString "content" ms;
  namespace ←? field set_string EmptyString "namespace" ms;
  Ok (key, content, namespace).

Definition MemoryWrite_Execute (_ : Outside) (arguments : string) (env : ToolEnv.t)
  : Db string :=
  input ← map_err not_valid_json (lift (decode_memory_write arguments));
  let '(key, content, namespace) := input in
  if decide (TrimSpace key = EmptyString) then fail (Errorf "a key is required")
  else if decide (len content = 0%nat) then fail (Errorf "content is required")
  else
    record ← MemoryStore_Write (ToolEnv.UserID env) (ToolEnv.AgentID env)
               (namespaceOrDefault namespace env) key content;
    ret ("Remembered " +:+ quoted (MemoryRecord.Key record) +:+ " in namespace " +:+
         quoted (MemoryRecord.Namespace record) +:+ ".").

Definition decode_memory_read (arguments : string) : result (Z * string * string) :=
  ms ←? unmarshal arguments;
  limit ←? field set_int 0 "limit" ms;
  key ←? field set_string EmptyString "key" ms;
  namespace ←? field set_string EmptyString "namespace" ms;
  Ok (limit, key, namespace).

(** One line of what is read back, in UTC. *)
Definition record_line (r : MemoryRecord.t) : string :=
  format_wall (unix (MemoryRecord.CreatedAt r)) +:+ "Z" +:+ "  " +:+ MemoryRecord.Key r +:+
  ": " +:+ MemoryRecord.Content r +:+ nl.

Definition MemoryRead_Execute (_ : Outside) (arguments : string) (env : ToolEnv.t)
  : Db string :=
  input ← map_err not_valid_json (lift (decode_memory_read arguments));
  let '(limit, key, namespace) := input in
  let limit := if decide (limit < 1) then 10 else limit in
  records ← MemoryStore_Read (ToolEnv.UserID env) (namespaceOrDefault namespace env) key limit;
  if decide (records = []) then ret "No records found."
  else ret (TrimRight (foldr (λ r s, record_line r +:+ s) EmptyString records) newline).

Definition MemoryWrite : Tool.t := {|
  Tool.Name := ToolMemoryWrite;
  Tool.Description :=
    "Remember something for your future runs. Records are kept newest-first under a key, so later runs can compare what changed rather than describing the world afresh.";
  Tool.InputSchema :=
    object_schema
      [property "key" "string"
         "A short label for this record, for example 'sentiment' or 'workout'.";
       ("content", go_map [("description", DStr "The value to remember. May be any JSON value.")]);
       property "namespace" "string" "Optional. Defaults to this agent's own private memory."]
      ["key"; "content"];
  Tool.Configured := None;
  Tool.Execute := MemoryWrite_Execute
|}.

Definition MemoryRead : Tool.t := {|
  Tool.Name := ToolMemoryRead;
  Tool.Description := "Read back what you remembered on earlier runs, newest first.";
  Tool.InputSchema :=
    object_schema
      [property "limit" "integer"
         ("How many records to read. Required, and capped at " +:+ itoa MaxReadLimit +:+ ".");
       property "key" "string" "Optional. Only return records stored under this key.";
       property "namespace" "string" "Optional. Defaults to this agent's own private memory."]
      ["limit"];
  Tool.Configured := None;
  Tool.Execute := MemoryRead_Execute
|}.
End memory.

(** ** The registry *)
Lemma Get_Register tool r : Get (Register tool r) (Tool.Name tool) = Some tool.
Proof. apply lookup_insert_eq. Qed.

Lemma Get_Register_ne tool r name :
  name ≠ Tool.Name tool → Get (Register tool r) name = Get r name.
Proof. intros. by apply lookup_insert_ne. Qed.

(** A registry whose tools are filed under their own names. *)
Definition registry_ok (r : Registry) : Prop :=
  map_Forall (λ name tool, Tool.Name tool = name) r.

Lemma NewRegistry_ok : registry_ok NewRegistry.
Proof. apply map_Forall_empty. Qed.

Lemma Register_ok tool r : registry_ok r → registry_ok (Register tool r).
Proof. intros Hok. by apply map_Forall_insert_2. Qed.

Lemma elem_of_Definitions r granted d :
  d ∈ Definitions r granted ↔
  ∃ name tool, name ∈ granted ∧ Get r name = Some tool ∧ d = definition_of tool.
Proof.
  unfold Definitions. rewrite list_elem_of_omap. split.
  - intros (name & Hin & (tool & Ht & ->)%fmap_Some). eauto.
  - intros (name & tool & Hin & Ht & ->). exists name. split; [done|].
    unfold Get in Ht. cbn beta. rewrite Ht. done.
Qed.

Lemma Names_spec r name : name ∈ Names r ↔ is_Some (Get r name).
Proof.
  unfold Names, Registry in *. rewrite elem_of_order_by, list_elem_of_fmap. split.
  - intros ([n t] & -> & Hin%elem_of_map_to_list). eauto.
  - intros [t Ht]. exists (name, t). by rewrite elem_of_map_to_list.
Qed.

Lemma Names_Register tool r name :
  name ∈ Names (Register tool r) ↔ name = Tool.Name tool ∨ name ∈ Names r.
Proof.
  rewrite !Names_spec. destruct (decide (name = Tool.Name tool)) as [->|Hne].
  - rewrite Get_Register. split; [by left|by eauto].
  - rewrite Get_Register_ne by done. tauto.
Qed.

Lemma Names_NewRegistry name : name ∈ Names NewRegistry ↔ False.
Proof. rewrite Names_spec. split; [|done]. intros [t Ht]. done. Qed.

#[export] Hint Resolve NewRegistry_ok Register_ok : taskd.

(** ** Tools and traces

    What the executor relies on: a tool, whatever it does, leaves the trace
    tables alone. *)
Abbreviation steps_of w := (run_steps (w_db w)).
Definition same_steps : relation Database := λ d d', run_steps d' = run_steps d.
#[export] Instance same_steps_preorder : PreOrder same_steps.
Proof. split; [done|]. intros d1 d2 d3 H1 H2. unfold same_steps in *. by rewrite H2. Qed.

Abbreviation leaves_traces m := (respects same_steps m).
Class QuietTool (tool : Tool.t) : Prop :=
  quiet_tool : ∀ out arguments env, leaves_traces (Tool.Execute tool out arguments env).
Definition quiet_registry (r : Registry) : Prop := map_Forall (λ _ tool, QuietTool tool) r.

Lemma NewRegistry_quiet : quiet_registry NewRegistry.
Proof. apply map_Forall_empty. Qed.
Lemma Register_quiet tool r :
  QuietTool tool → quiet_registry r → quiet_registry (Register tool r).
Proof. intros Ht Hr. by apply map_Forall_insert_2. Qed.

Section quiet.
Context {PU : PgUuid} {PJ : PgJsonb}.

#[export] Instance MemoryRead_quiet : QuietTool MemoryRead.
Proof.
  intros out arguments env. cbn [Tool.Execute MemoryRead].
  unfold MemoryRead_Execute, MemoryStore_Read. respects.
Qed.

#[export] Instance MemoryWrite_quiet : QuietTool MemoryWrite.
Proof.
  intros out arguments env. cbn [Tool.Execute MemoryWrite].
  unfold MemoryWrite_Execute, MemoryStore_Write. respects; (apply respects_statement; [typeclasses eauto|]).
  - intros r d a d' Hi. unfold insert_memory in Hi.
    repeat (apply rbind_Ok in Hi as (? & _ & Hi)).
    repeat case_decide; simplify_eq; done.
  - intros r d [] d' Hp. by apply rbind_Ok in Hp as (u & _ & [= <-]).
Qed.
End quiet.

#[export] Hint Resolve NewRegistry_quiet Register_quiet : taskd.
