(* ===== verification/WebTools.v ===== *)
(** * The tools that reach the network ([src/pkg/tools/http_fetch.go],
      [web_search.go], [delivery.go], [build.go])

    Fetching, searching, Telegram and webhooks, and the registry an installation
    builds from its configuration. *)
From S2P Require Import Prelude GoStrings Json Model Database AgentStore MemoryStore Net Llm.
From S2P Require Import Tools Telegram.
From Stdlib Require Import Ascii.
Local Open Scope go_scope.
Local Open Scope Z_scope.

(** ** Data *)
Module WebSearch.
Record t := mk { baseURL : string; apiKey : string }.
End WebSearch.

Module SearchResult.
Record t := mk { Title : string; URL : string; Description : string }.
End SearchResult.

Module Config.
Record t := mk {
  AllowPrivateAddresses : bool;
  SearchAPIKey : string;
  SearchBaseURL : string;
  TelegramBaseURL : string
}.
End Config.

Section web.
Context `{!NetUrl}.

(** ** [http_fetch] *)
Definition maxFetchBytes : nat := Z.to_nat (100 * 1024).

Definition decode_fetch (arguments : string) : result string :=
  ms ←? unmarshal arguments; field set_string EmptyString "url" ms.

Definition parse_target (url : string) : result URL.t :=
  match url_Parse url with
  | Some u => Ok u
  | None => Err (Wrapf "could not parse the url" (Errorf ("parse " +:+ quoted url)))
  end.

Definition HTTPFetch_run (policy : addressPolicy.t) (arguments : string) : Http string :=
  url ←h hmap_err not_valid_json (hret (decode_fetch arguments));
  if decide (url = EmptyString) then hret (Err (Errorf "a url is required"))
  else
    target ←h hret (parse_target url);
    _ ←h addressPolicy_check policy target;
    request ←h hret (NewRequest "GET" (URL.String_ target) EmptyString [("User-Agent", "Taskd")]);
    response ←h client_Do (policyCheckRedirect policy) request;
    body ←h hret (read_all (read_limited maxFetchBytes (HttpResponse.Body response)));
    hret (Ok ("HTTP " +:+ itoa (HttpResponse.StatusCode response) +:+ nl +:+ nl +:+ body)).

(** ** [send_webhook] *)
Definition decode_webhook (arguments : string) : result (string * string) :=
  ms ←? unmarshal arguments;
  url ←? field set_string EmptyString "url" ms;
  payload ←? field set_raw EmptyString "payload" ms;
  Ok (url, payload).

Definition SendWebhook_run (policy : addressPolicy.t) (arguments : string) : Http string :=
  input ←h hmap_err not_valid_json (hret (decode_webhook arguments));
  let '(url, payload) := input in
  if decide (url = EmptyString) then hret (Err (Errorf "a url is required"))
  else
    let payload := if decide (len payload = 0%nat) then "{}" else payload in
    target ←h hret (parse_target url);
    _ ←h addressPolicy_check policy target;
    request ←h hret (NewRequest "POST" (URL.String_ target) payload
                       [("Content-Type", "application/json")]);
    response ←h client_Do (policyCheckRedirect policy) request;
    let code := HttpResponse.StatusCode response in
    if decide (400 ≤ code) then
      let body := fst (read_limited (Z.to_nat 1024) (HttpResponse.Body response)) in
      hret (Err (Errorf ("the webhook returned " +:+ itoa code +:+ ": " +:+ TrimSpace body)))
    else hret (Ok ("Posted successfully (HTTP " +:+ itoa code +:+ ").")).

(** ** [web_search] *)
Definition DefaultSearchBaseURL : string := "https://api.search.brave.com/res/v1".
Definition maxSearchResults : Z := 10.

Definition NewWebSearch (baseURL apiKey : string) : WebSearch.t :=
  let baseURL := if decide (baseURL = EmptyString) then DefaultSearchBaseURL else baseURL in
  WebSearch.mk (TrimSuffix baseURL "/") apiKey.

Definition set_result : string → json → SearchResult.t → option SearchResult.t :=
  set_struct (λ ms r,
    title ← get_field set_string (SearchResult.Title r) "title" ms;
    url ← get_field set_string (SearchResult.URL r) "url" ms;
    description ← get_field set_string (SearchResult.Description r) "description" ms;
    Some (SearchResult.mk title url description))%stdpp.
Definition zero_result : SearchResult.t := SearchResult.mk EmptyString EmptyString EmptyString.

Definition decode_search (arguments : string) : result (string * Z) :=
  ms ←? unmarshal arguments;
  query ←? field set_string EmptyString "query" ms;
  count ←? field set_int 0 "count" ms;
  Ok (query, count).

Definition decode_results (body : string) : result (list SearchResult.t) :=
  ms ←? unmarshal body;
  field (set_struct (λ web results,
           get_field (set_list set_result zero_result) results "results" web)) [] "web" ms.

(** [url.QueryEscape]. *)
Definition hex_upper (n : nat) : ascii :=
  byte_of (if decide (n < 10)%nat then 48 + n else 55 + n)%nat.
Definition query_byte (c : ascii) : string :=
  let n := code c in
  if bool_decide (48 ≤ n ≤ 57 ∨ 65 ≤ n ≤ 90 ∨ 97 ≤ n ≤ 122)%nat ||
     bool_decide (n = 45 ∨ n = 46 ∨ n = 95 ∨ n = 126)%nat then str1 c
  else if is_byte 32 c then "+"
  else "%" +:+ String (hex_upper (n / 16)) (str1 (hex_upper (n mod 16))).
Fixpoint QueryEscape (s : string) : string :=
  match s with
  | EmptyString => EmptyString
  | String c s' => query_byte c +:+ QueryEscape s'
  end.

(** The listing of the first [count] results, numbered from [i + 1]. *)
Fixpoint search_lines (i count : Z) (results : list SearchResult.t) : string :=
  match results with
  | [] => EmptyString
  | r :: rest =>
      if decide (count ≤ i) then EmptyString
      else itoa (i + 1) +:+ ". " +:+ SearchResult.Title r +:+ nl +:+ "   " +:+
           SearchResult.URL r +:+ nl +:+ "   " +:+ SearchResult.Description r +:+ nl +:+
           search_lines (i + 1) count rest
  end.

Definition search_count (count : Z) : Z :=
  if decide (count < 1 ∨ maxSearchResults < count) then maxSearchResults else count.

Definition WebSearch_run (s : WebSearch.t) (arguments : string) : Http string :=
  input ←h hmap_err not_valid_json (hret (decode_search arguments));
  let '(query, count) := input in
  if decide (TrimSpace query = EmptyString) then hret (Err (Errorf "a query is required"))
  else
    let count := search_count count in
    request ←h hret (NewRequest "GET"
      (WebSearch.baseURL s +:+ "/web/search?q=" +:+ QueryEscape query +:+ "&count=" +:+ itoa count)
      EmptyString
      [("Accept", "application/json"); ("X-Subscription-Token", WebSearch.apiKey s)]);
    response ←h client_Do defaultCheckRedirect request;
    body ←h hret (read_all (read_limited (Z.to_nat (512 * 1024)) (HttpResponse.Body response)));
    if decide (HttpResponse.StatusCode response ≠ 200) then
      hret (Err (Errorf ("the search provider returned " +:+
                         itoa (HttpResponse.StatusCode response) +:+ ": " +:+ TrimSpace body)))
    else
      results ←h hmap_err (Wrapf "could not decode the search response")
                   (hret (decode_results body));
      if decide (length results = 0%nat) then hret (Ok "No results found.")
      else hret (Ok (TrimRight (search_lines 0 count results) newline)).

(** ** [send_telegram] *)
Definition DefaultTelegramBaseURL : string := "https://api.telegram.org".

Definition decode_telegram (arguments : string) : result string :=
  ms ←? unmarshal arguments; field set_string EmptyString "text" ms.

Definition telegram_body (chatID text : string) : string :=
  Marshal (go_map [("chat_id", DStr chatID); ("text", DStr text)]).
Definition telegram_request (baseURL token chatID text : string) : result HttpRequest.t :=
  NewRequest "POST" (baseURL +:+ "/bot" +:+ token +:+ "/sendMessage")
    (telegram_body chatID text) [("Content-Type", "application/json")].

(** The chunks in order, up to the first that fails. *)
Fixpoint send_chunks (baseURL token chatID : string) (chunks : list string) : Http unit :=
  match chunks with
  | [] => hret (Ok tt)
  | chunk :: rest =>
      request ←h hret (telegram_request baseURL token chatID chunk);
      response ←h client_Do defaultCheckRedirect request;
      let responseBody := fst (read_limited (Z.to_nat 4096) (HttpResponse.Body response)) in
      if decide (HttpResponse.StatusCode response ≠ 200) then
        hret (Err (Errorf ("telegram returned " +:+ itoa (HttpResponse.StatusCode response) +:+
                           ": " +:+ TrimSpace responseBody)))
      else send_chunks baseURL token chatID rest
  end.

Definition sent_message (chunks : list string) : string :=
  if decide (length chunks = 1%nat) then "Message sent."
  else "Message sent in " +:+ itoa (Z.of_nat (length chunks)) +:+ " parts.".

(** What the tool needs of the settings store: a user's token and chat. *)
Definition TelegramSettings := string → Db (option (string * string)).

Definition NewSendTelegram (baseURL : string) : string :=
  TrimSuffix (if decide (baseURL = EmptyString) then DefaultTelegramBaseURL else baseURL) "/".

Definition SendTelegram_Execute (baseURL : string) (settings : TelegramSettings)
    (out : Outside) (arguments : string) (env : ToolEnv.t) : Db string :=
  text ← map_err not_valid_json (lift (decode_telegram arguments));
  if decide (TrimSpace text = EmptyString) then fail (Errorf "text is required")
  else
    delivery ← settings (ToolEnv.UserID env);
    match delivery with
    | None => fail (Errorf "Telegram is not configured: set a bot token and chat id in settings")
    | Some (token, chatID) =>
        let chunks := splitForTelegram text in
        lift (fst (send_chunks baseURL token chatID chunks out quiet)) ;;
        ret (sent_message chunks)
    end.

Definition SendTelegram_Configured (settings : TelegramSettings) (userID : string) : Db bool :=
  delivery ← settings userID;
  ret (bool_decide (is_Some delivery)).

(** ** The tools *)
Definition of_http (run : string → Http string) (out : Outside) (arguments : string)
    (_ : ToolEnv.t) : Db string := lift (fst (run arguments out quiet)).

Definition HTTPFetch (policy : addressPolicy.t) : Tool.t := {|
  Tool.Name := ToolHTTPFetch;
  Tool.Description :=
    "Fetch the contents of a URL over HTTP or HTTPS and return the response body as text.";
  Tool.InputSchema :=
    object_schema [property "url" "string" "The absolute http:// or https:// URL to fetch."]
      ["url"];
  Tool.Configured := None;
  Tool.Execute := of_http (HTTPFetch_run policy)
|}.

Definition SendWebhook (policy : addressPolicy.t) : Tool.t := {|
  Tool.Name := ToolSendWebhook;
  Tool.Description :=
    "POST a JSON payload to a URL. Use this to deliver a result to Discord, ntfy, Home Assistant or any other service that accepts a webhook.";
  Tool.InputSchema :=
    object_schema
      [property "url" "string" "The absolute https:// URL to post to.";
       ("payload", go_map [("description", DStr "The JSON body to send.")])]
      ["url"; "payload"];
  Tool.Configured := None;
  Tool.Execute := of_http (SendWebhook_run policy)
|}.

Definition WebSearch_tool (s : WebSearch.t) : Tool.t := {|
  Tool.Name := ToolWebSearch;
  Tool.Description :=
    "Search the web and return the top results with their titles, URLs and descriptions.";
  Tool.InputSchema :=
    object_schema
      [property "query" "string" "What to search for.";
       property "count" "integer"
         ("How many results to return, at most " +:+ itoa maxSearchResults +:+ ".")]
      ["query"];
  Tool.Configured := None;
  Tool.Execute := of_http (WebSearch_run s)
|}.

Definition SendTelegram (baseURL : string) (settings : TelegramSettings) : Tool.t := {|
  Tool.Name := ToolSendTelegram;
  Tool.Description :=
    "Send a message to the user's Telegram. Use this to deliver your result to them.";
  Tool.InputSchema := object_schema [property "text" "string" "The message to send. Plain text."]
    ["text"];
  Tool.Configured := Some (SendTelegram_Configured settings);
  Tool.Execute := SendTelegram_Execute (NewSendTelegram baseURL) settings
|}.

(** ** The installation's registry

    [getenv] gives the empty string for a variable that is not set. *)
Definition ConfigFromEnv (getenv : string → string) : Config.t := {|
  Config.AllowPrivateAddresses := bool_decide (getenv "TASKD_ALLOW_PRIVATE_FETCH" = "true");
  Config.SearchAPIKey := getenv "TASKD_SEARCH_API_KEY";
  Config.SearchBaseURL := getenv "TASKD_SEARCH_BASE_URL";
  Config.TelegramBaseURL := getenv "TASKD_TELEGRAM_BASE_URL"
|}.

(** [pool] says whether there is a database, [settings] is [None] where nil. *)
Definition BuildRegistry {PU : PgUuid} {PJ : PgJsonb} (pool : bool)
    (settings : option TelegramSettings) (config : Config.t) : Registry :=
  let policy := addressPolicy.mk (Config.AllowPrivateAddresses config) in
  let registry := Register (SendWebhook policy) (Register (HTTPFetch policy) NewRegistry) in
  let registry := if pool then Register MemoryWrite (Register MemoryRead registry)
                  else registry in
  let registry :=
    if decide (Config.SearchAPIKey config = EmptyString) then registry
    else Register (WebSearch_tool (NewWebSearch (Config.SearchBaseURL config)
                                     (Config.SearchAPIKey config))) registry in
  match settings with
  | None => registry
  | Some settings => Register (SendTelegram (Config.TelegramBaseURL config) settings) registry
  end.
End web.

(** ** What the tools send *)
Section sending.
Context `{!NetUrl}.

(** A request to a target that passed the policy, and its redirects. *)
Lemma policed_client `{!NetUrlLaws} p s target method body header req o l1 r l2 :
  url_Parse s = Some target →
  addressPolicy_check p target o quiet = (Ok tt, l1) →
  NewRequest method (URL.String_ target) body header = Ok req →
  client_Do (policyCheckRedirect p) req o l1 = (r, l2) →
  all_cleared p o l2 ∧ (length (sent l2) ≤ 5)%nat.
Proof.
  intros Hs Hc Hreq. apply addressPolicy_check_spec in Hc as (Hsent & _ & Hok).
  destruct (Hok eq_refl) as [Hlooked Hcl]. simpl in *.
  unfold NewRequest in Hreq. destruct (url_Parse (URL.String_ target)) as [u'|] eqn:Hu; [|done].
  injection Hreq as <-. destruct (url_String_parses s target u' Hs Hu) as [Hscheme Hhost].
  unfold client_Do, hmap_err.
  destruct (follow _ _ _ _ _ _ _) as [r' l'] eqn:Hf. intros Hr.
  assert (l2 = l') as -> by (by destruct r'; simplify_eq).
  rewrite <- Hsent in Hf.
  eapply (follow_cleared p); [| | | |exact Hf]; rewrite ?Hsent, ?Hlooked; simpl; try lia.
  - intros i q. by rewrite Hsent.
  - unfold cleared in *. by rewrite Hscheme, Hhost, <- Hlooked.
Qed.

Lemma checked_clears p target o r l :
  addressPolicy_check p target o quiet = (r, l) →
  all_cleared p o l ∧ (length (sent l) ≤ 5)%nat.
Proof.
  intros Hc. apply addressPolicy_check_spec in Hc as (Hsent & _ & _). rewrite Hsent.
  split; [|simpl; lia]. intros i q. by rewrite Hsent.
Qed.

Lemma nothing_sent p o : all_cleared p o quiet ∧ (length (sent quiet) ≤ 5)%nat.
Proof. split; [done|simpl; lia]. Qed.

(** ** Telegram *)

(** The body of a message reads back: whatever characters the chat or the chunk
    contain, Telegram decodes exactly them, but for bytes that are not UTF-8. *)
Lemma telegram_body_reads chatID text :
  (ms ←? unmarshal (telegram_body chatID text);
   chat ←? field set_string EmptyString "chat_id" ms;
   text ←? field set_string EmptyString "text" ms;
   Ok (chat, text)) = Ok (to_valid chatID, to_valid text).
Proof.
  assert (Hbody : telegram_body chatID text =
    "{" +:+ (member_text ("chat_id", chatID) +:+ "," +:+ member_text ("text", text)) +:+ "}")
    by reflexivity.
  destruct (parse_two "chat_id" chatID "text" text) as (raw1 & raw2 & Hp).
  rewrite Hbody. unfold unmarshal. rewrite Hp. reflexivity.
Qed.

(** Answers that do not redirect. *)
Definition plain_answers (o : Outside) : Prop := ∀ n r response,
  round_trip o n r = Ok response → HttpResponse.Location response = None.

Lemma plain_Do check o req l :
  plain_answers o →
  snd (client_Do check req o l) = mkLog (sent l ++ [req]) (looked_up l) ∧
  (is_ok (fst (client_Do check req o l)) = true →
   fst (client_Do check req o l) = round_trip o (length (sent l)) req).
Proof.
  intros Ho. unfold client_Do, hmap_err.
  change (follow check (S maxRequests) req [] req) with
    (hbind (send req) (λ response,
       match redirect_of req req response with
       | None => hret (Ok response)
       | Some next =>
           next ←h hret next;
           _ ←h check (HttpRequest.Target next) ([] ++ [req]);
           follow check maxRequests req ([] ++ [req]) next
       end)).
  unfold hbind, send. destruct (round_trip o (length (sent l)) req) as [r|e] eqn:E.
  - unfold redirect_of. by rewrite (Ho _ _ _ E).
  - split; [done|by intros].
Qed.

(** A message is posted chunk by chunk in the order of the text, one request
    for each; the tool reports success only when every chunk was accepted, and
    after a failure nothing more is sent. *)
Lemma telegram_sends_in_order baseURL token chatID chunks o u r l :
  plain_answers o → url_Parse (baseURL +:+ "/bot" +:+ token +:+ "/sendMessage") = Some u →
  send_chunks baseURL token chatID chunks o quiet = (r, l) →
  let post := λ chunk, HttpRequest.mk "POST" u [("Content-Type", "application/json")]
                         (telegram_body chatID chunk) in
  ∃ k, (k ≤ length chunks)%nat ∧ sent l = post <$> take k chunks ∧
    (r = Ok tt → k = length chunks ∧ ∀ i chunk, chunks !! i = Some chunk →
       ∃ response, round_trip o i (post chunk) = Ok response ∧
                   HttpResponse.StatusCode response = 200).
Proof.
  intros Ho Hu Hr post. 
  assert (Hgen : ∀ l0, send_chunks baseURL token chatID chunks o l0 = (r, l) →
    ∃ k, (k ≤ length chunks)%nat ∧ sent l = sent l0 ++ (post <$> take k chunks) ∧
      (r = Ok tt → k = length chunks ∧ ∀ i chunk, chunks !! i = Some chunk →
         ∃ response, round_trip o (length (sent l0) + i) (post chunk) = Ok response ∧
                     HttpResponse.StatusCode response = 200)); [|exact (Hgen quiet Hr)].
  clear Hr. induction chunks as [|chunk rest IH]; intros l0.
  { intros [= <- <-]. exists 0%nat. split_and!; [done|by rewrite app_nil_r|done]. }
  simpl. unfold telegram_request, NewRequest. rewrite Hu. unfold hbind, hret. fold (post chunk).
  destruct (plain_Do defaultCheckRedirect o (post chunk) l0 Ho) as [Hlog Hans].
  destruct (client_Do _ _ _ _) as [[response|e] l1]; simpl in Hlog, Hans; subst l1.
  2: { intros [= <- <-]. exists 1%nat. simpl. split_and!; [lia|done|done]. }
  case_decide as Hcode.
  { intros [= <- <-]. exists 1%nat. simpl. split_and!; [lia|done|done]. }
  intros (k & Hk & Hsent & Hok)%IH. exists (S k). simpl in *.
  split_and!; [lia|by rewrite Hsent, <- app_assoc|]. intros [-> Hall]%Hok.
  split; [done|]. intros [|i] c Hc; simpl in Hc.
  - simplify_eq. exists response. rewrite Nat.add_0_r. split; [by symmetry; apply Hans|].
    done.
  - destruct (Hall i c Hc) as (resp & Hresp & Hs). exists resp. split; [|done].
    rewrite length_app in Hresp. simpl in Hresp. rewrite <- Hresp. f_equal. lia.
Qed.
End sending.

(** ** The registry *)
Section registry.
Context `{!NetUrl} {PU : PgUuid} {PJ : PgJsonb}.

(** An installation offers exactly the tools it can run: fetching and webhooks
    always, memory with a database, search with a key, Telegram with settings;
    and every one is filed under its own name, which the catalogue knows. *)
Lemma BuildRegistry_offers pool settings config name :
  let r := BuildRegistry pool settings config in
  (name ∈ Names r ↔
   name = ToolHTTPFetch ∨ name = ToolSendWebhook ∨
   (pool = true ∧ (name = ToolMemoryRead ∨ name = ToolMemoryWrite)) ∨
   (Config.SearchAPIKey config ≠ EmptyString ∧ name = ToolWebSearch) ∨
   (is_Some settings ∧ name = ToolSendTelegram)) ∧
  registry_ok r ∧ (name ∈ Names r → Agent.knownTool name = true).
Proof.
  intros r. assert (Hin : name ∈ Names r ↔
   name = ToolHTTPFetch ∨ name = ToolSendWebhook ∨
   (pool = true ∧ (name = ToolMemoryRead ∨ name = ToolMemoryWrite)) ∨
   (Config.SearchAPIKey config ≠ EmptyString ∧ name = ToolWebSearch) ∨
   (is_Some settings ∧ name = ToolSendTelegram)).
  { subst r. unfold BuildRegistry.
    pose proof (is_Some_None (A := TelegramSettings)).
    destruct settings as [settings|]; destruct (decide _) as [He|He]; destruct pool;
      rewrite ?Names_Register, Names_NewRegistry; cbn [Tool.Name HTTPFetch SendWebhook
        MemoryRead MemoryWrite WebSearch_tool SendTelegram];
      intuition (auto; try discriminate). }
  split; [exact Hin|split].
  - subst r. unfold BuildRegistry. destruct settings; repeat case_match; auto 10 with taskd.
  - rewrite Hin. intros [->|[->|[[_ [->| ->]]|[[_ ->]|[_ ->]]]]]; reflexivity.
Qed.

(** ** Quiet tools

    No tool touches a trace, as long as reading the settings does not. *)
Definition quiet_settings (settings : TelegramSettings) : Prop :=
  ∀ userID, leaves_traces (settings userID).

#[export] Instance HTTPFetch_quiet p : QuietTool (HTTPFetch p).
Proof. intros out arguments env. apply respects_lift, _. Qed.
#[export] Instance SendWebhook_quiet p : QuietTool (SendWebhook p).
Proof. intros out arguments env. apply respects_lift, _. Qed.
#[export] Instance WebSearch_quiet s : QuietTool (WebSearch_tool s).
Proof. intros out arguments env. apply respects_lift, _. Qed.
Lemma SendTelegram_quiet base settings :
  quiet_settings settings → QuietTool (SendTelegram base settings).
Proof.
  intros Hs out arguments env. cbn [Tool.Execute SendTelegram]. unfold SendTelegram_Execute.
  respects. apply Hs.
Qed.

Lemma BuildRegistry_quiet pool settings config :
  (∀ s, settings = Some s → quiet_settings s) →
  quiet_registry (BuildRegistry pool settings config).
Proof.
  intros Hs. unfold BuildRegistry.
  destruct settings; repeat case_match;
    repeat (apply Register_quiet; [by apply _ || by apply SendTelegram_quiet, Hs|]);
    apply NewRegistry_quiet.
Qed.
End registry.

(** ** Witnesses *)
Definition fetch_example : string :=
  Marshal (DObj [("url", DStr "http://example.com/a")]).


Definition accepting : Outside := {|
  round_trip := λ n _, Ok (HttpResponse.mk (if decide (n = 2)%nat then 500 else 200) None
                             ("ok", None));
  LookupIP := λ _ _, None
|}.
Definition telegram_url : URL.t :=
  URL.mk "http" "telegram" "http://telegram/botT/sendMessage".

Lemma telegram_sends_in_order_witness :
  let out := @send_chunks example_url "http://telegram" "T" "42" ["a"; "b"; "c"; "d"]
               accepting quiet in
  ∃ k, (k ≤ 4)%nat ∧
    sent (snd out) = (λ chunk, HttpRequest.mk "POST" telegram_url
                                 [("Content-Type", "application/json")]
                                 (telegram_body "42" chunk)) <$> take k ["a"; "b"; "c"; "d"].
Proof.
  intros out.
  destruct (@telegram_sends_in_order example_url "http://telegram" "T" "42" ["a"; "b"; "c"; "d"]
    accepting telegram_url (fst out) (snd out)) as (k & Hk & Hs & _).
  - intros n r response. simpl. intros [= <-]. reflexivity.
  - vm_compute. reflexivity.
  - apply surjective_pairing.
  - exists k. split; [exact Hk|exact Hs].
Defined.
