(* ===== verification/Executor.v ===== *)
(** * The agent loop ([src/pkg/executor/executor.go])

    A run: the conversation it starts from, the model calls and tool calls within
    the agent's budgets, and the trace that is written as it goes. *)
From S2P Require Import Prelude GoStrings Json Model Database AgentStore RunStore StepStore.
From S2P Require Import MemoryStore Secretbox Accounts Net Llm Tools.
Local Open Scope go_scope.
Local Open Scope Z_scope.

(** [worker.Result]. *)
Module Outcome.
Record t := mk {
  Output : string;
  PromptTokens : Z;
  CompletionTokens : Z;
  BudgetExceeded : bool
}.
#[global] Instance eta_t : Eta t := λ r,
  mk (Output r) (PromptTokens r) (CompletionTokens r) (BudgetExceeded r).
End Outcome.
Definition no_outcome : Outcome.t := Outcome.mk EmptyString 0 0 false.

(** [secrets] is [None] where the executor has no secret store. *)
Module Executor.
Record t := mk {
  secrets : option Sealer.t;
  registry : Registry;
  fallbackAPIKey : string
}.
End Executor.

(** What one run meets: the clock's readings, the first for the deadline and one
    for every turn of the loop; the provider, for each model call; and the network,
    for the tool call recorded at each index. *)
Record Surroundings := mkSurroundings {
  now : nat → Time;
  provider : nat → Outside;
  network : nat → Outside
}.

Definition stoppedByBudget (result : Outcome.t) (reason : string) : Outcome.t :=
  let result := result <| Outcome.BudgetExceeded := true |> in
  if decide (Outcome.Output result = EmptyString)
  then result <| Outcome.Output := reason |> else result.

Definition time_limit : string := "the run exceeded its time limit".
Definition token_limit : string := "the run exceeded its token limit".
Definition step_limit : string := "the run exceeded its step limit".

Fixpoint renderPrompt_loop (i : nat) (messages : list Message.t) : string :=
  match messages with
  | [] => EmptyString
  | m :: rest =>
      (if decide (0 < i)%nat then nl +:+ nl else EmptyString) +:+
      ToUpper (Message.Role m) +:+ ":" +:+ nl +:+ Message.Content m +:+
      renderPrompt_loop (S i) rest
  end.
Definition renderPrompt (messages : list Message.t) : string := renderPrompt_loop 0 messages.

Definition plain_message (role content : string) : Message.t :=
  Message.mk role content [] EmptyString.

Definition zero_step : Step.t :=
  Step.mk EmptyString 0 EmptyString EmptyString EmptyString EmptyString EmptyString EmptyString
    0 0 0.

Section executor.
Context {PU : PgUuid} {G : Gcm} {NU : NetUrl} {PM : PgMessages}.

Definition credentialFor (e : Executor.t) (agent : Agent.t) : Db string :=
  match Executor.secrets e with
  | None => ret (Executor.fallbackAPIKey e)
  | Some sealer =>
      value ← try (SecretStore_Reveal sealer OwnerUserID (Agent.SecretName agent));
      match value with
      | Ok value => ret value
      | Err err =>
          if errors_Is err ErrNotFound then
            if decide (Executor.fallbackAPIKey e ≠ EmptyString)
            then ret (Executor.fallbackAPIKey e)
            else fail (Errorf ("no credential named " +:+ quoted (Agent.SecretName agent) +:+
                               " is stored"))
          else fail err
      end
  end.

Definition previous_outputs (previous : list string) : string :=
  "Output of your previous runs, most recent first:" +:+ nl +:+ nl +:+
  Join previous (nl +:+ nl +:+ "---" +:+ nl +:+ nl).

Definition buildInitialMessages (agent : Agent.t) : Db (list Message.t) :=
  let messages :=
    if decide (Agent.SystemPrompt agent = EmptyString) then []
    else [plain_message RoleSystem (Agent.SystemPrompt agent)] in
  messages ←
    (if decide (Agent.ContextMode agent = ContextLastN ∧ 0 < Agent.ContextRuns agent) then
       previous ← RunStore_RecentOutputs OwnerUserID (Agent.ID agent) (Agent.ContextRuns agent);
       ret (if decide (length previous = 0%nat) then messages
            else messages ++ [plain_message RoleUser (previous_outputs previous)])
     else ret messages);
  ret (messages ++ [plain_message RoleUser (Agent.UserPrompt agent)]).

Definition runTool (e : Executor.t) (agent : Agent.t) (call : ToolCall.t) (env : ToolEnv.t)
    (out : Outside) : Db string :=
  let name := FunctionCall.Name (ToolCall.Function_ call) in
  if negb (Agent.HasTool agent name) then fail (ErrNotGranted name)
  else
    match Get (Executor.registry e) name with
    | None => fail (ErrNotGranted name)
    | Some tool =>
        let arguments :=
          let given := FunctionCall.Arguments_ (ToolCall.Function_ call) in
          if decide (len (TrimSpace given) = 0%nat) then "{}" else given in
        if json_Valid arguments then Tool.Execute tool out arguments env
        else fail (Errorf "the arguments were not valid JSON")
    end.

(** The trace step of a tool call and the content handed back to the model. *)
Definition tool_step (call : ToolCall.t) (outcome : result string) : Step.t * string :=
  let step := (((zero_step <| Step.Kind := StepToolCall |>)
                <| Step.ToolName := FunctionCall.Name (ToolCall.Function_ call) |>)
               <| Step.Arguments_ := FunctionCall.Arguments_ (ToolCall.Function_ call) |>) in
  match outcome with
  | Err toolErr =>
      (step <| Step.Error := error_text toolErr |>, "Error: " +:+ error_text toolErr)
  | Ok content => (step <| Step.Result := content |>, content)
  end.

(** The calls of one model answer, in order. *)
Fixpoint run_calls (e : Executor.t) (agent : Agent.t) (env : ToolEnv.t) (s : Surroundings)
    (calls : list ToolCall.t) (messages : list Message.t) (stepIndex : nat)
  : Db (list Message.t * nat) :=
  match calls with
  | [] => ret (messages, stepIndex)
  | call :: rest =>
      outcome ← try (runTool e agent call env (network s stepIndex));
      let '(step, content) := tool_step call outcome in
      StepStore_Record (ToolEnv.RunID env) (Z.of_nat stepIndex) step ;;
      run_calls e agent env s rest
        (messages ++ [Message.mk RoleTool content [] (ToolCall.ID call)]) (S stepIndex)
  end.

Definition model_step (choice : Choice.t) (usage : Usage.t) : Step.t :=
  (((zero_step <| Step.Kind := StepModelCall |>)
    <| Step.Content := Message.Content (Choice.Message_ choice) |>)
   <| Step.PromptTokens := Usage.PromptTokens usage |>)
  <| Step.CompletionTokens := Usage.CompletionTokens usage |>.

Definition count_tokens (result : Outcome.t) (usage : Usage.t) : Outcome.t :=
  (result <| Outcome.PromptTokens := int64 (Outcome.PromptTokens result +
                                            Usage.PromptTokens usage) |>)
  <| Outcome.CompletionTokens := int64 (Outcome.CompletionTokens result +
                                        Usage.CompletionTokens usage) |>.

Definition tokens_used (result : Outcome.t) : Z :=
  int64 (Outcome.PromptTokens result + Outcome.CompletionTokens result).

(** [turns] counts the turns up to the agent's [MaxSteps], [step] those taken. An
    answer always has a choice ([Complete_has_choice]), so the source's index is
    in range. *)
Fixpoint agent_loop (e : Executor.t) (agent : Agent.t) (client : Client.t) (env : ToolEnv.t)
    (s : Surroundings) (deadline : Time) (turns step : nat) (messages : list Message.t)
    (stepIndex : nat) (result : Outcome.t) : Db Outcome.t :=
  match turns with
  | O => ret (stoppedByBudget result step_limit)
  | S turns =>
      if time_After (now s (S step)) deadline then ret (stoppedByBudget result time_limit)
      else if decide (Agent.MaxTokens agent < tokens_used result)
      then ret (stoppedByBudget result token_limit)
      else
        response ← lift (fst (Complete client
          (Request.mk (Agent.Model agent) messages
             (Definitions (Executor.registry e) (Agent.granted agent)))
          (provider s step) quiet));
        match Response.Choices response with
        | [] => fail (Errorf "index out of range")
        | choice :: _ =>
            let usage := Response.Usage_ response in
            let result := count_tokens result usage in
            StepStore_Record (ToolEnv.RunID env) (Z.of_nat stepIndex) (model_step choice usage) ;;
            let message := Choice.Message_ choice in
            if decide (length (Message.ToolCalls message) = 0%nat)
            then ret (result <| Outcome.Output := Message.Content message |>)
            else
              next ← run_calls e agent env s (Message.ToolCalls message) (messages ++ [message])
                       (S stepIndex);
              let '(messages, stepIndex) := next in
              agent_loop e agent client env s deadline turns (S step) messages stepIndex result
        end
  end.

Definition could_not_load : error → error := Wrapf "could not load the agent".

Definition Execute (e : Executor.t) (s : Surroundings) (runID agentID : string)
  : Db Outcome.t :=
  agent ← map_err could_not_load (AgentStore_Get OwnerUserID agentID);
  messages ← buildInitialMessages agent;
  RunStore_SetRenderedPrompt runID (renderPrompt messages) ;;
  apiKey ← credentialFor e agent;
  let client := New (Agent.BaseURL agent) apiKey in
  let deadline := time_Add (now s 0) (int64 (Agent.MaxDurationSeconds agent * Second)) in
  agent_loop e agent client (ToolEnv.mk runID agentID OwnerUserID) s deadline
    (Z.to_nat (Agent.MaxSteps agent)) 0 messages 0 no_outcome.
End executor.

(** ** The trace a run leaves

    The specification of the loop: each turn is a model call made within the token
    budget, then the tool calls it asked for, numbered on; a turn may be cut short
    by an error. [turns] bounds the turns, [p] and [c] are the tokens counted
    before, [p'] and [c'] after. *)
Section trace.
Context {PU : PgUuid} {G : Gcm} {NU : NetUrl} {PM : PgMessages}.

Definition int4_range (z : Z) : Prop := - 2 ^ 31 ≤ z < 2 ^ 31.
Definition row_of (runID : string) (i : nat) (kind : string) (row : StepRow.t) : Prop :=
  uuid_in runID = Some (StepRow.run_id row) ∧ StepRow.step_index row = Z.of_nat i ∧
  StepRow.kind row = kind.
Definition model_row (runID : string) (i : nat) (row : StepRow.t) : Prop :=
  row_of runID i StepModelCall row ∧
  int4_range (StepRow.prompt_tokens row) ∧ int4_range (StepRow.completion_tokens row).
Definition usable (e : Executor.t) (agent : Agent.t) (name : string) : Prop :=
  Agent.HasTool agent name = true ∧ is_Some (Get (Executor.registry e) name).
Definition tool_row (e : Executor.t) (agent : Agent.t) (runID : string) (i : nat)
    (row : StepRow.t) : Prop :=
  row_of runID i StepToolCall row ∧
  StepRow.prompt_tokens row = 0 ∧ StepRow.completion_tokens row = 0 ∧
  (StepRow.error row = EmptyString → usable e agent (StepRow.tool_name row)).

Inductive tool_trace (e : Executor.t) (agent : Agent.t) (runID : string)
  : nat → list StepRow.t → Prop :=
| tools_end i : tool_trace e agent runID i []
| tools_call i row rest :
    tool_row e agent runID i row → tool_trace e agent runID (S i) rest →
    tool_trace e agent runID i (row :: rest).

Inductive run_trace (e : Executor.t) (agent : Agent.t) (runID : string)
  : nat → nat → Z → Z → list StepRow.t → Z → Z → Prop :=
| trace_end turns i p c : run_trace e agent runID turns i p c [] p c
| trace_turn turns i p c row calls rest p' c' :
    int64 (p + c) ≤ Agent.MaxTokens agent →
    model_row runID i row →
    tool_trace e agent runID (S i) calls →
    run_trace e agent runID turns (S i + length calls)
      (int64 (p + StepRow.prompt_tokens row)) (int64 (c + StepRow.completion_tokens row))
      rest p' c' →
    run_trace e agent runID (S turns) i p c (row :: calls ++ rest) p' c'.

Lemma insert_step_int4 runID index step r d x d' :
  insert_step runID index step r d = Ok (x, d') →
  int4_range (Step.PromptTokens step) ∧ int4_range (Step.CompletionTokens step).
Proof.
  unfold insert_step. intros (run & _ & Hi)%rbind_Ok.
  apply rbind_Ok in Hi as (i & _ & Hi).
  apply rbind_Ok in Hi as (? & [_ ?]%int4_arg_Ok & Hi).
  by apply rbind_Ok in Hi as (? & [_ ?]%int4_arg_Ok & _).
Qed.

(** Recording a step adds its row, or fails and adds nothing. *)
Lemma Record_cases runID index step w r w' :
  StepStore_Record runID index step w = (r, w') →
  (∃ run id t, r = Ok tt ∧ uuid_in runID = Some run ∧
     int4_range (Step.PromptTokens step) ∧ int4_range (Step.CompletionTokens step) ∧
     run_steps (w_db w') = run_steps (w_db w) ++ [new_step_row id run index step t]) ∨
  (∃ e, r = Err e ∧ w_db w' = w_db w).
Proof.
  destruct r as [[]|e]; intros Hs.
  - left. apply statement_Ok in Hs as (r & _ & _ & Hs).
    pose proof (insert_step_int4 _ _ _ _ _ _ _ Hs) as [Hp Hc].
    apply insert_step_Ok in Hs as (run & Hrun & _ & _ & Hd).
    exists run, (r_uuid r), (r_now r). rewrite Hd. done.
  - right. exists e. split; [done|]. unfold StepStore_Record, statement in Hs.
    destruct w as [d [|r rest]]; simpl in *; [by simplify_eq|].
    destruct (r_fault r); [by simplify_eq|].
    destruct (insert_step _ _ _ _ _) as [[[] d']|e']; by simplify_eq.
Qed.

Lemma runTool_quiet e agent call env out :
  quiet_registry (Executor.registry e) → leaves_traces (runTool e agent call env out).
Proof.
  intros Hq. unfold leaves_traces, runTool. destruct (negb _); [by intros w|].
  destruct (Get _ _) as [tool|] eqn:Hg; [|by intros w].
  destruct (json_Valid _); [|by intros w]. by eapply Hq.
Qed.

(** Only a tool that was granted and is registered has an effect or a result. *)
Lemma runTool_refuses e agent call env out w :
  ¬ usable e agent (FunctionCall.Name (ToolCall.Function_ call)) →
  runTool e agent call env out w =
    (Err (ErrNotGranted (FunctionCall.Name (ToolCall.Function_ call))), w).
Proof.
  intros Hu. unfold runTool. destruct (Agent.HasTool agent _) eqn:Hh; [|done]. simpl.
  destruct (Get _ _) as [tool|] eqn:Hg; [|done]. destruct Hu. split; [done|]. by rewrite Hg.
Qed.

Lemma tool_step_row e agent env out call w outcome w' id run i t :
  runTool e agent call env out w = (outcome, w') → uuid_in (ToolEnv.RunID env) = Some run →
  tool_row e agent (ToolEnv.RunID env) i
    (new_step_row id run (Z.of_nat i) (fst (tool_step call outcome)) t).
Proof.
  intros Hrun Hu. unfold tool_row, row_of. rewrite Hu.
  destruct outcome as [content|err]; simpl; (split_and!; [done..|]); intros He.
  - destruct (decide (usable e agent (FunctionCall.Name (ToolCall.Function_ call)))) as [|Hn];
      [done|]. by rewrite runTool_refuses in Hrun.
  - destruct (decide (usable e agent (FunctionCall.Name (ToolCall.Function_ call)))) as [|Hn];
      [done|]. rewrite runTool_refuses in Hrun by done. by simplify_eq.
Qed.

(** ** The loop implements the specification *)
Lemma runTool_steps e agent call env out w r w' :
  quiet_registry (Executor.registry e) → runTool e agent call env out w = (r, w') →
  steps_of w' = steps_of w.
Proof. intros Hq Hr. pose proof (runTool_quiet e agent call env out Hq w) as Hs. by rewrite Hr in Hs. Qed.

Lemma run_calls_trace e agent env s calls messages i w r w' :
  quiet_registry (Executor.registry e) →
  run_calls e agent env s calls messages i w = (r, w') →
  ∃ rows, steps_of w' = steps_of w ++ rows ∧ tool_trace e agent (ToolEnv.RunID env) i rows ∧
    (∀ m j, r = Ok (m, j) → j = (i + length rows)%nat).
Proof.
  intros Hq. revert messages i w. induction calls as [|call rest IH]; intros messages i w; simpl.
  { intros [= <- <-]. exists []. rewrite app_nil_r.
    split_and!; [done|constructor|]. intros m j [= _ ->]. simpl. lia. }
  unfold bind, try. destruct (runTool _ _ _ _ _ w) as [outcome w1] eqn:Ht.
  pose proof (runTool_steps _ _ _ _ _ _ _ _ Hq Ht) as Hs1.
  pose proof (tool_step_row e agent env (network s i) call w outcome w1) as Hrow.
  destruct (tool_step call outcome) as [step content].
  destruct (StepStore_Record _ _ step w1) as [rr w2] eqn:Hrec.
  apply Record_cases in Hrec as [(run & id & t & -> & Hu & _ & _ & Hs2)|(err & -> & Hs2)].
  - intros (rows & Hs & Htr & Hj)%IH. exists (new_step_row id run (Z.of_nat i) step t :: rows).
    split_and!; [by rewrite Hs, Hs2, Hs1, <- app_assoc| |].
    + constructor; [by apply (Hrow id run i t)|done].
    + intros m j Hok. rewrite (Hj m j Hok). simpl. lia.
  - intros [= <- <-]. exists []. rewrite Hs2, Hs1, app_nil_r.
    split_and!; [done|constructor|done].
Qed.

Lemma stoppedByBudget_tokens result reason :
  Outcome.PromptTokens (stoppedByBudget result reason) = Outcome.PromptTokens result ∧
  Outcome.CompletionTokens (stoppedByBudget result reason) = Outcome.CompletionTokens result.
Proof. unfold stoppedByBudget. by case_decide. Qed.

(** Rows a computation added, as the specification allows them. *)
Definition traced (e : Executor.t) (agent : Agent.t) (runID : string) (turns i : nat)
    (before : Outcome.t) (w : World) (r : result Outcome.t) (w' : World) : Prop :=
  ∃ rows p c, steps_of w' = steps_of w ++ rows ∧
    run_trace e agent runID turns i (Outcome.PromptTokens before)
      (Outcome.CompletionTokens before) rows p c ∧
    (∀ out, r = Ok out → Outcome.PromptTokens out = p ∧ Outcome.CompletionTokens out = c).

Lemma traced_nothing e agent runID turns i result w r w' :
  steps_of w' = steps_of w →
  (∀ out, r = Ok out → Outcome.PromptTokens out = Outcome.PromptTokens result ∧
                       Outcome.CompletionTokens out = Outcome.CompletionTokens result) →
  traced e agent runID turns i result w r w'.
Proof.
  intros Hs Hr. exists [], (Outcome.PromptTokens result), (Outcome.CompletionTokens result).
  rewrite app_nil_r. split_and!; [done|constructor|done].
Qed.

Lemma agent_loop_traced e agent client env s deadline turns step messages i result w r w' :
  quiet_registry (Executor.registry e) →
  agent_loop e agent client env s deadline turns step messages i result w = (r, w') →
  traced e agent (ToolEnv.RunID env) turns i result w r w'.
Proof.
  intros Hq. revert step messages i result w.
  induction turns as [|turns IH]; intros step messages i result w; simpl.
  { intros [= <- <-]. apply traced_nothing; [done|]. intros out [= <-].
    apply stoppedByBudget_tokens. }
  destruct (time_After _ _).
  { intros [= <- <-]. apply traced_nothing; [done|]. intros out [= <-].
    apply stoppedByBudget_tokens. }
  case_decide as Htok.
  { intros [= <- <-]. apply traced_nothing; [done|]. intros out [= <-].
    apply stoppedByBudget_tokens. }
  unfold bind at 1, lift. destruct (fst (Complete _ _ _ _)) as [response|err];
    [|intros [= <- <-]; by apply traced_nothing].
  destruct (Response.Choices response) as [|choice others];
    [intros [= <- <-]; by apply traced_nothing|].
  set (usage := Response.Usage_ response). unfold bind at 1.
  destruct (StepStore_Record _ _ _ w) as [rr w1] eqn:Hrec.
  apply Record_cases in Hrec as [(run & id & t & -> & Hu & Hp & Hc & Hs1)|(err & -> & Hs1)].
  2: { intros [= <- <-]. apply traced_nothing; [by rewrite Hs1|done]. }
  set (row := new_step_row id run (Z.of_nat i) (model_step choice usage) t) in *.
  assert (Hturn : ∀ calls w2 r2 w3,
    steps_of w2 = steps_of w1 ++ calls → tool_trace e agent (ToolEnv.RunID env) (S i) calls →
    traced e agent (ToolEnv.RunID env) turns (S i + length calls) (count_tokens result usage)
      w2 r2 w3 →
    traced e agent (ToolEnv.RunID env) (S turns) i result w r2 w3).
  { intros calls w2 r2 w3 Hs2 Hcalls (rows & p & c & Hs3 & Htr & Hout).
    exists (row :: calls ++ rows), p, c. split_and!; [|by constructor; [unfold tokens_used in Htok; lia|done..]|done].
    by rewrite Hs3, Hs2, Hs1, <- !app_assoc. }
  case_decide as Hcalls.
  { intros [= <- <-]. apply (Hturn [] w1); [by rewrite app_nil_r|constructor|].
    apply traced_nothing; [done|]. by intros out [= <-]. }
  unfold bind. destruct (run_calls _ _ _ _ _ _ _ w1) as [next w2] eqn:Hrun.
  destruct (run_calls_trace _ _ _ _ _ _ _ _ _ _ Hq Hrun) as (calls & Hs2 & Htr & Hj).
  destruct next as [[messages' j]|err].
  - rewrite (Hj _ _ eq_refl). intros Hloop%IH. by apply (Hturn calls w2).
  - intros [= <- <-]. apply (Hturn calls w2); [done..|]. by apply traced_nothing.
Qed.
End trace.

(** ** What the specification allows *)
Section spec.
Context {PU : PgUuid} {G : Gcm} {NU : NetUrl} {PM : PgMessages}.
Context (e : Executor.t) (agent : Agent.t) (runID : string).

Definition is_model_call (row : StepRow.t) : Prop := StepRow.kind row = StepModelCall.
#[export] Instance is_model_call_dec row : Decision (is_model_call row).
Proof. unfold is_model_call. apply _. Defined.
Definition row_tokens (row : StepRow.t) : Z :=
  StepRow.prompt_tokens row + StepRow.completion_tokens row.
Definition sum_of (f : StepRow.t → Z) (rows : list StepRow.t) : Z :=
  foldr (λ row acc, f row + acc) 0 rows.

Lemma sum_of_cons f row rows : sum_of f (row :: rows) = f row + sum_of f rows.
Proof. done. Qed.

Lemma sum_of_app f rows1 rows2 : sum_of f (rows1 ++ rows2) = sum_of f rows1 + sum_of f rows2.
Proof. induction rows1 as [|row rows1 IH]; [done|]. simpl. rewrite IH. lia. Qed.

Lemma tool_trace_facts i rows :
  tool_trace e agent runID i rows →
  StepRow.step_index <$> rows = Z.of_nat <$> seq i (length rows) ∧
  Forall (λ row, ¬ is_model_call row ∧ StepRow.prompt_tokens row = 0 ∧
                 StepRow.completion_tokens row = 0 ∧
                 uuid_in runID = Some (StepRow.run_id row) ∧
                 (StepRow.error row = EmptyString → usable e agent (StepRow.tool_name row))) rows.
Proof.
  induction 1 as [|i row rest [(Hu & Hi & Hk) (Hp & Hc & He)] _ [IHi IHall]]; [done|].
  split; [cbn; by rewrite Hi, IHi|]. constructor; [|done].
  unfold is_model_call. rewrite Hk. done.
Qed.

Lemma tool_trace_sums i rows :
  tool_trace e agent runID i rows →
  sum_of StepRow.prompt_tokens rows = 0 ∧ sum_of StepRow.completion_tokens rows = 0 ∧
  sum_of row_tokens rows = 0 ∧ count_where is_model_call rows = 0%nat.
Proof.
  induction 1 as [|i row rest [(_ & _ & Hk) (Hp & Hc & _)] _ (IH1 & IH2 & IH3 & IH4)]; [done|].
  rewrite !sum_of_cons. unfold row_tokens at 1. rewrite Hp, Hc, IH1, IH2, IH3.
  split_and!; try done.
  unfold count_where in *. rewrite filter_cons_False; [done|]. unfold is_model_call. by rewrite Hk.
Qed.

Lemma run_trace_facts turns i p c rows p' c' :
  run_trace e agent runID turns i p c rows p' c' →
  StepRow.step_index <$> rows = Z.of_nat <$> seq i (length rows) ∧
  (count_where is_model_call rows ≤ turns)%nat ∧
  Forall (λ row, uuid_in runID = Some (StepRow.run_id row) ∧
    (is_model_call row ∨ (StepRow.error row = EmptyString →
                          usable e agent (StepRow.tool_name row)))) rows.
Proof.
  induction 1 as [|turns i p c row calls rest p' c' _ [(Hu & Hi & Hk) _] Hcalls _ (IH1 & IH2 & IH3)].
  { split_and!; [done|simpl; unfold count_where; simpl; lia|done]. }
  destruct (tool_trace_facts _ _ Hcalls) as [Hidx Hall].
  destruct (tool_trace_sums _ _ Hcalls) as (_ & _ & _ & Hcount). split_and!.
  - cbn. rewrite Hi, fmap_app, Hidx, IH1, length_app, seq_app, fmap_app. done.
  - unfold count_where in *. rewrite filter_cons_True by done. rewrite filter_app.
    simpl. rewrite length_app. lia.
  - constructor; [by split; [done|left]|]. apply Forall_app. split; [|done].
    eapply Forall_impl; [exact Hall|]. simpl. intros r (_ & _ & _ & Hr & Hus). auto.
Qed.

(** The counters stay far from the width of an [int] over [k] turns. *)
Definition counted (k : nat) (z : Z) : Prop := - (Z.of_nat k * 2 ^ 31) ≤ z ≤ Z.of_nat k * 2 ^ 31.

Lemma int64_counted k z : (k ≤ 2 * Z.to_nat 1000)%nat → counted k z → int64 z = z.
Proof.
  unfold counted, int64. intros Hk Hz. assert (Z.of_nat k ≤ 2000) by lia.
  rewrite Z.mod_small; lia.
Qed.

Lemma run_trace_tokens turns i p c rows p' c' k :
  run_trace e agent runID turns i p c rows p' c' →
  (k + turns ≤ Z.to_nat 1000)%nat → counted k p → counted k c →
  p' = p + sum_of StepRow.prompt_tokens rows ∧
  c' = c + sum_of StepRow.completion_tokens rows ∧
  ∀ pre row post, rows = pre ++ row :: post → is_model_call row →
    p + c + sum_of row_tokens pre ≤ Agent.MaxTokens agent.
Proof.
  intros Htr. revert k.
  induction Htr as [|turns i p c row calls rest p' c' Hbudget [_ [Hrp Hrc]] Hcalls _ IH];
    intros k Hk Hp Hc.
  { simpl. split_and!; [lia|lia|]. intros [|??]; done. }
  destruct (tool_trace_sums _ _ Hcalls) as (Hsp & Hsc & Hst & _).
  destruct (tool_trace_facts _ _ Hcalls) as [_ Hall].
  unfold int4_range in *.
  assert (counted (S k) (p + StepRow.prompt_tokens row)) as Hp' by (unfold counted in *; lia).
  assert (counted (S k) (c + StepRow.completion_tokens row)) as Hc' by (unfold counted in *; lia).
  assert (counted (k + k) (p + c)) as Hpc by (unfold counted in *; lia).
  rewrite (int64_counted (S k)) in IH by (done || lia).
  rewrite (int64_counted (S k) (c + _)) in IH by (done || lia).
  rewrite (int64_counted (k + k)) in Hbudget by (done || lia).
  destruct (IH (S k)) as (-> & -> & Hbefore); [lia|done|done|]. clear IH.
  rewrite !sum_of_cons, !sum_of_app. split_and!; [lia|lia|]. intros pre q post Hsplit Hq.
  destruct pre as [|r pre]; simpl in Hsplit; injection Hsplit as <- Hsplit; [simpl; lia|].
  apply app_eq_inv in Hsplit as [(k' & -> & Hrest)|(k' & -> & Hrest)].
  - destruct k' as [|q' k']; simpl in Hrest.
    + pose proof (Hbefore [] q post (eq_sym Hrest) Hq) as Hb. rewrite app_nil_r in Hst.
      rewrite sum_of_cons, Hst. simpl in Hb. unfold row_tokens. lia.
    + injection Hrest as <- _. rewrite Forall_forall in Hall.
      destruct (Hall q) as [Hn _]; [|done]. apply elem_of_app. right. by left.
  - rewrite sum_of_cons, sum_of_app, Hst. unfold row_tokens at 1.
    specialize (Hbefore k' q post Hrest Hq). lia.
Qed.
End spec.

(** ** A whole run *)
Section execute.
Context {PU : PgUuid} {G : Gcm} {NU : NetUrl} {PM : PgMessages}.

Lemma query_steps {A} (f : Database → result A) w : steps_of (snd (query f w)) = steps_of w.
Proof. by rewrite query_db. Qed.

Lemma AgentStore_Get_db userID id w : w_db (snd (AgentStore_Get userID id w)) = w_db w.
Proof.
  unfold AgentStore_Get, bind, map_err.
  match goal with |- context[query ?f w] => pose proof (query_db f w) as Hq end.
  by destruct (query _ w) as [[row|err] w'].
Qed.

Lemma buildInitialMessages_db agent w : w_db (snd (buildInitialMessages agent w)) = w_db w.
Proof.
  unfold buildInitialMessages, bind. case_decide; [|done].
  unfold RunStore_RecentOutputs, bind, ret.
  match goal with |- context[query ?f w] => pose proof (query_db f w) as Hq end.
  by destruct (query _ w) as [[row|err] w'].
Qed.

Lemma credentialFor_db e agent w : w_db (snd (credentialFor e agent w)) = w_db w.
Proof.
  unfold credentialFor. destruct (Executor.secrets e) as [sealer|]; [|done].
  unfold bind, try, SecretStore_Reveal, bind, map_err.
  match goal with |- context[query ?f w] => pose proof (query_db f w) as Hq end.
  destruct (query _ w) as [[row|err] w']; simpl in *.
  - destruct (Open _ _ _) as [v|err]; [done|]. repeat case_match; done.
  - repeat case_match; done.
Qed.

Lemma SetRenderedPrompt_steps runID prompt w :
  steps_of (snd (RunStore_SetRenderedPrompt runID prompt w)) = steps_of w.
Proof.
  unfold RunStore_SetRenderedPrompt. destruct (statement _ w) as [r w'] eqn:Hs.
  apply statement_effect in Hs as [Hs|(rp & a & Hs)]; simpl; [by rewrite Hs|].
  unfold update_run in Hs. apply rbind_Ok in Hs as (u & _ & [= _ Hs]). by rewrite <- Hs.
Qed.

(** Everything a run writes to the trace table is a trace of its agent, and what
    it reports is what the trace adds up to. *)
Lemma Execute_traced e s runID agentID w r w' :
  quiet_registry (Executor.registry e) → Execute e s runID agentID w = (r, w') →
  match fst (AgentStore_Get OwnerUserID agentID w) with
  | Err _ => steps_of w' = steps_of w ∧ is_ok r = false
  | Ok agent => traced e agent runID (Z.to_nat (Agent.MaxSteps agent)) 0 no_outcome w r w'
  end.
Proof.
  intros Hq. unfold Execute, bind at 1, map_err.
  pose proof (AgentStore_Get_db OwnerUserID agentID w) as Hget.
  destruct (AgentStore_Get _ _ w) as [[agent|err] w1]; simpl in *.
  2: { intros [= <- <-]. rewrite Hget. done. }
  unfold bind at 1. pose proof (buildInitialMessages_db agent w1) as Hbuild.
  destruct (buildInitialMessages agent w1) as [[messages|err] w2]; simpl in Hbuild.
  2: { intros [= <- <-]. apply traced_nothing; [by rewrite Hbuild, Hget|done]. }
  unfold bind at 1. pose proof (SetRenderedPrompt_steps runID (renderPrompt messages) w2) as Hset.
  destruct (RunStore_SetRenderedPrompt _ _ w2) as [[[]|err] w3]; simpl in Hset.
  2: { intros [= <- <-]. apply traced_nothing; [by rewrite Hset, Hbuild, Hget|done]. }
  unfold bind. pose proof (credentialFor_db e agent w3) as Hcred.
  destruct (credentialFor e agent w3) as [[key|err] w4]; simpl in Hcred.
  2: { intros [= <- <-]. apply traced_nothing; [by rewrite Hcred, Hset, Hbuild, Hget|done]. }
  intros (rows & p & c & Hs & Htr & Hout)%agent_loop_traced; [|exact Hq].
  exists rows, p, c. split; [by rewrite Hs, Hcred, Hset, Hbuild, Hget|by split].
Qed.

(** C1: a run, however it ends, appends to the trace: consecutive steps numbered
    from 0, all of this run, at most the agent's [MaxSteps] of them model calls;
    and a tool call recorded without an error is of a tool the agent was granted
    and the installation has. *)
Theorem executor_trace e s runID agentID agent w r w' :
  quiet_registry (Executor.registry e) →
  fst (AgentStore_Get OwnerUserID agentID w) = Ok agent →
  Execute e s runID agentID w = (r, w') →
  ∃ rows, run_steps (w_db w') = run_steps (w_db w) ++ rows ∧
    StepRow.step_index <$> rows = Z.of_nat <$> seq 0 (length rows) ∧
    Z.of_nat (count_where is_model_call rows) ≤ Z.max 0 (Agent.MaxSteps agent) ∧
    Forall (λ row, uuid_in runID = Some (StepRow.run_id row) ∧
      (StepRow.kind row = StepModelCall ∨
       (StepRow.error row = EmptyString →
        Agent.HasTool agent (StepRow.tool_name row) = true ∧
        is_Some (Get (Executor.registry e) (StepRow.tool_name row))))) rows.
Proof.
  intros Hq Ha Hr%Execute_traced; [|done]. rewrite Ha in Hr.
  destruct Hr as (rows & p & c & Hs & Htr & _). exists rows.
  apply run_trace_facts in Htr as (Hi & Hn & Hall). split_and!; [done|done|lia|done].
Qed.

(** The tokens of a run. *)
Lemma Execute_tokens e s runID agentID agent w r w' :
  quiet_registry (Executor.registry e) →
  fst (AgentStore_Get OwnerUserID agentID w) = Ok agent →
  Agent.MaxSteps agent ≤ CeilingMaxSteps →
  Execute e s runID agentID w = (r, w') →
  ∃ rows, run_steps (w_db w') = run_steps (w_db w) ++ rows ∧
    (∀ before row after, rows = before ++ row :: after → StepRow.kind row = StepModelCall →
       sum_of row_tokens before ≤ Agent.MaxTokens agent) ∧
    (∀ out, r = Ok out →
       Outcome.PromptTokens out = sum_of StepRow.prompt_tokens rows ∧
       Outcome.CompletionTokens out = sum_of StepRow.completion_tokens rows).
Proof.
  intros Hq Ha Hmax Hr%Execute_traced; [|done]. rewrite Ha in Hr.
  destruct Hr as (rows & p & c & Hs & Htr & Hout). exists rows.
  apply (run_trace_tokens _ _ _ _ _ _ _ _ _ _ 0) in Htr as (Hp & Hc & Hbudget);
    [|unfold CeilingMaxSteps in Hmax; lia|unfold counted; simpl; lia..].
  simpl in *. split_and!; [done| |].
  - intros before row after Hsplit Hk. exact (Hbudget before row after Hsplit Hk).
  - intros out Hok. destruct (Hout out Hok). lia.
Qed.

(** C2: with [MaxSteps] within its ceiling, every model call of a run starts while
    the tokens of the trace so far are within the agent's budget, and what the
    run reports as used is the sum over its trace. *)
Theorem executor_token_budget e s runID agentID agent w r w' :
  quiet_registry (Executor.registry e) →
  fst (AgentStore_Get OwnerUserID agentID w) = Ok agent →
  Agent.MaxSteps agent ≤ CeilingMaxSteps →
  Execute e s runID agentID w = (r, w') →
  ∃ rows, run_steps (w_db w') = run_steps (w_db w) ++ rows ∧
    (∀ before row after, rows = before ++ row :: after → StepRow.kind row = StepModelCall →
       sum_of row_tokens before ≤ Agent.MaxTokens agent) ∧
    (∀ out, r = Ok out →
       Outcome.PromptTokens out = sum_of StepRow.prompt_tokens rows ∧
       Outcome.CompletionTokens out = sum_of StepRow.completion_tokens rows).
Proof. apply Execute_tokens. Qed.

(** ** What a stopped run says *)
Lemma stoppedByBudget_output result reason :
  Outcome.Output result = EmptyString →
  Outcome.Output (stoppedByBudget result reason) = reason.
Proof. intros Ho. unfold stoppedByBudget. simpl. by rewrite Ho. Qed.

Lemma agent_loop_output e agent client env s deadline turns step messages i result w out w' :
  Outcome.Output result = EmptyString → Outcome.BudgetExceeded result = false →
  agent_loop e agent client env s deadline turns step messages i result w = (Ok out, w') →
  Outcome.BudgetExceeded out = true →
  Outcome.Output out ∈ [time_limit; token_limit; step_limit].
Proof.
  revert step messages i result w.
  induction turns as [|turns IH]; intros step messages i result w Ho Hb; simpl.
  { intros [= <- _] _. rewrite stoppedByBudget_output by done. set_solver. }
  destruct (time_After _ _).
  { intros [= <- _] _. rewrite stoppedByBudget_output by done. set_solver. }
  case_decide.
  { intros [= <- _] _. rewrite stoppedByBudget_output by done. set_solver. }
  intros (response & w1 & _ & Hk)%bind_Ok Hx.
  destruct (Response.Choices response) as [|choice others]; [done|].
  apply bind_Ok in Hk as (? & w2 & _ & Hk). case_decide.
  { injection Hk as <- _. simpl in Hx. congruence. }
  apply bind_Ok in Hk as ([messages' j] & w3 & _ & Hk).
  by eapply IH; [| |exact Hk|exact Hx].
Qed.

(** The output of a run that its budget stopped is always the name of the
    limit, whatever the model said before. *)
Lemma stopped_run_reports_limit e s runID agentID w out w' :
  Execute e s runID agentID w = (Ok out, w') → Outcome.BudgetExceeded out = true →
  Outcome.Output out ∈ [time_limit; token_limit; step_limit].
Proof.
  intros (agent & w1 & _ & Hk)%bind_Ok. apply bind_Ok in Hk as (messages & w2 & _ & Hk).
  apply bind_Ok in Hk as (? & w3 & _ & Hk). apply bind_Ok in Hk as (key & w4 & _ & Hk).
  intros Hb. by eapply agent_loop_output; [| |exact Hk|exact Hb].
Qed.

(** ** Every call is answered *)

(** After a turn the conversation holds one tool message for every call the
    model made, in the order of the calls and under their identifiers. *)
Lemma every_call_answered e agent env s calls messages i w messages' j w' :
  run_calls e agent env s calls messages i w = (Ok (messages', j), w') →
  ∃ replies, messages' = messages ++ replies ∧ j = (i + length calls)%nat ∧
    Message.ToolCallID <$> replies = ToolCall.ID <$> calls ∧
    Forall (λ m, Message.Role m = RoleTool ∧ Message.ToolCalls m = []) replies.
Proof.
  revert messages i w. induction calls as [|call rest IH]; intros messages i w; simpl.
  { intros [= <- <- _]. exists []. rewrite app_nil_r. split_and!; [done|lia|done|done]. }
  intros (outcome & w1 & _ & Hk)%bind_Ok. destruct (tool_step call outcome) as [step content].
  apply bind_Ok in Hk as (? & w2 & _ & Hk). apply IH in Hk as (replies & -> & -> & Hids & Hall).
  exists (Message.mk RoleTool content [] (ToolCall.ID call) :: replies).
  split_and!; [by rewrite <- app_assoc|lia|cbn; by rewrite Hids|by constructor].
Qed.

(** ** The credential stays out of what is kept *)
Definition agree_but_for_key (e1 e2 : Executor.t) : Prop :=
  Executor.registry e1 = Executor.registry e2 ∧
  ∀ agent w, match credentialFor e1 agent w, credentialFor e2 agent w with
             | (Ok _, w1), (Ok _, w2) => w1 = w2
             | (Err a, w1), (Err b, w2) => a = b ∧ w1 = w2
             | _, _ => False
             end.

Lemma run_calls_registry e1 e2 agent env s calls messages i w :
  Executor.registry e1 = Executor.registry e2 →
  run_calls e1 agent env s calls messages i w = run_calls e2 agent env s calls messages i w.
Proof.
  intros He. revert messages i w. induction calls as [|call rest IH]; intros messages i w; [done|].
  simpl. unfold bind, try, runTool. rewrite He.
  destruct (_ w) as [outcome w1]. destruct (tool_step call outcome) as [step content].
  destruct (StepStore_Record _ _ _ w1) as [[[]|err] w2]; [apply IH|done].
Qed.

Lemma agent_loop_key_blind e1 e2 agent key1 key2 env s deadline turns step messages i result w :
  Executor.registry e1 = Executor.registry e2 → (∀ n, header_blind (provider s n)) →
  agent_loop e1 agent (New (Agent.BaseURL agent) key1) env s deadline turns step messages i
    result w =
  agent_loop e2 agent (New (Agent.BaseURL agent) key2) env s deadline turns step messages i
    result w.
Proof.
  intros He Hs. revert step messages i result w.
  induction turns as [|turns IH]; intros step messages i result w; [done|].
  simpl. destruct (time_After _ _); [done|]. case_decide; [done|].
  unfold bind, lift. rewrite He, (Complete_key_blind _ key1 key2) by done.
  destruct (fst (Complete _ _ _ _)) as [response|err]; [|done].
  destruct (Response.Choices response) as [|choice others]; [done|].
  destruct (StepStore_Record _ _ _ w) as [[[]|err] w1]; [|done]. case_decide; [done|].
  rewrite (run_calls_registry e1 e2) by done.
  destruct (run_calls _ _ _ _ _ _ _ w1) as [[[messages' j]|err] w2]; [apply IH|done].
Qed.

End execute.

(** ** A closed run

    The model first asks for [memory_read], which it was granted, and for
    [shell], which does not exist, then answers. *)
Module Example.
#[local] Existing Instance example_uuid.
#[local] Existing Instance example_jsonb.
#[local] Existing Instance example_url.
#[local] Existing Instance example_gcm.
#[export] Instance messages : PgMessages := λ code, "SQLSTATE " +:+ code.

Definition row : AgentRow.t :=
  ((example_agent_row 1) <| AgentRow.base_url := "http://model/v1" |>)
  <| AgentRow.tools := Some [ToolMemoryRead] |>.
Definition run_row : RunRow.t :=
  new_run_row (example_id 5) OwnerUserID (example_id 1) None TriggerManual RunPending 0 0.
Definition db : Database :=
  (example_database <| agents := [row] |>) <| runs := [run_row] |>.
Definition agent : Agent.t := scanAgent row.

Definition call (id name arguments : string) : ToolCall.t :=
  ToolCall.mk id "function" (FunctionCall.mk name arguments).
Definition calls : list ToolCall.t :=
  [call "c1" ToolMemoryRead EmptyString; call "c2" "shell" "{}"].
Definition says (content : string) (calls : list ToolCall.t) (prompt completion : Z) : string :=
  Marshal (DObj [("choices", DArr [DObj [("message",
                    message_doc (Message.mk RoleAssistant content calls EmptyString))]]);
                 ("usage", DObj [("prompt_tokens", DInt prompt);
                                 ("completion_tokens", DInt completion)])]).
Definition answers (n : nat) : Outside := {|
  round_trip := λ _ _, Ok (HttpResponse.mk 200 None
    (if decide (n = 0%nat) then says EmptyString calls 100 20 else says "done" [] 150 5, None));
  LookupIP := λ _ _, None
|}.
Definition world : World :=
  mkWorld db [answer 0 1; answer 0 1; answer 0 1; answer 0 1; answer 0 2; answer 0 3; answer 0 4;
              answer 0 6; answer 0 7].
Definition turn_world : World := mkWorld db [answer 0 1; answer 0 2; answer 0 3].
Definition surroundings (late : Time) : Surroundings :=
  mkSurroundings (λ k, if decide (k = 0%nat) then 0 else late) answers (λ _, example_internet).
Definition executor (key : string) : Executor.t :=
  Executor.mk None (Register MemoryRead NewRegistry) key.

Lemma memory_read_quiet key : quiet_registry (Executor.registry (executor key)).
Proof. apply Register_quiet; [apply MemoryRead_quiet|apply NewRegistry_quiet]. Qed.

Definition final (late : Time) : result Outcome.t * World :=
  Execute (executor "key") (surroundings late) (example_id 5) (example_id 1) world.
End Example.

Lemma executor_trace_witness :
  ∃ rows, run_steps (w_db (snd (Example.final 0))) = [] ++ rows ∧
    StepRow.step_index <$> rows = [0; 1; 2; 3].
Proof.
  destruct (@executor_trace example_uuid example_gcm example_url Example.messages
    (Example.executor "key") (Example.surroundings 0) (example_id 5) (example_id 1) Example.agent
    Example.world (fst (Example.final 0)) (snd (Example.final 0))
    (Example.memory_read_quiet "key"))
    as (rows & Hs & Hi & _).
  - vm_compute. reflexivity.
  - unfold Example.final. apply surjective_pairing.
  - exists rows. split; [exact Hs|]. rewrite Hi.
    assert (length rows = 4%nat) as ->; [|reflexivity].
    apply (f_equal length) in Hs. rewrite length_app in Hs.
    vm_compute in Hs. symmetry. exact Hs.
Defined.

Lemma executor_token_budget_witness :
  ∃ rows, run_steps (w_db (snd (Example.final 0))) = [] ++ rows ∧
    ∀ out, fst (Example.final 0) = Ok out →
      Outcome.PromptTokens out = sum_of StepRow.prompt_tokens rows.
Proof.
  destruct (@executor_token_budget example_uuid example_gcm example_url Example.messages
    (Example.executor "key") (Example.surroundings 0) (example_id 5) (example_id 1) Example.agent
    Example.world (fst (Example.final 0)) (snd (Example.final 0))
    (Example.memory_read_quiet "key"))
    as (rows & Hs & _ & Hout).
  - vm_compute. reflexivity.
  - vm_compute. congruence.
  - unfold Example.final. apply surjective_pairing.
  - exists rows. split; [exact Hs|]. intros out Hok. exact (proj1 (Hout out Hok)).
Defined.

Lemma stopped_run_reports_limit_witness :
  fst (Example.final (601 * Second)) = Ok (Outcome.mk time_limit 0 0 true) ∧
  time_limit ∈ [time_limit; token_limit; step_limit].
Proof.
  assert (Hf : fst (Example.final (601 * Second)) = Ok (Outcome.mk time_limit 0 0 true))
    by (vm_compute; reflexivity).
  split; [exact Hf|].
  apply (@stopped_run_reports_limit example_uuid example_gcm example_url Example.messages
    (Example.executor "key") (Example.surroundings (601 * Second)) (example_id 5) (example_id 1)
    Example.world (Outcome.mk time_limit 0 0 true) (snd (Example.final (601 * Second))));
    [|reflexivity].
  unfold Example.final in *. rewrite <- Hf. apply surjective_pairing.
Defined.

Lemma every_call_answered_witness :
  let out := @run_calls example_uuid Example.messages (Example.executor "key") Example.agent
    (ToolEnv.mk (example_id 5) (example_id 1) OwnerUserID) (Example.surroundings 0)
    Example.calls [] 1 Example.turn_world in
  ∃ replies, fst out = Ok (replies, 3%nat) ∧ Message.ToolCallID <$> replies = ["c1"; "c2"].
Proof.
  intros out. assert (Hok : is_ok (fst out) = true) by (vm_compute; reflexivity).
  destruct (fst out) as [[messages' j]|err] eqn:E.
  - assert (Hout : out = (Ok (messages', j), snd out)) by (rewrite <- E; apply surjective_pairing).
    destruct (@every_call_answered example_uuid Example.messages (Example.executor "key")
      Example.agent (ToolEnv.mk (example_id 5) (example_id 1) OwnerUserID)
      (Example.surroundings 0) Example.calls [] 1 Example.turn_world messages' j (snd out) Hout)
      as (replies & -> & -> & Hids & _).
    exists replies. split; [reflexivity|exact Hids].
  - discriminate.
Defined.

