(* ===== verification/Worker.v ===== *)
(** * The worker ([src/pkg/worker/worker.go])

    The bounded queue, the goroutines that execute what is in it, shutting down,
    and what a run reports to the coordinator.  The handlers of [SubmitRun] and the
    goroutines interleave: a state is what they share and where each of them is, and
    a step is one of them up to its next shared access. *)
From S2P Require Import Prelude GoStrings Model Database Coordinator Executor.
Local Open Scope go_scope.

Definition workerPoolSize : nat := 5.
Definition runQueueSize : nat := 5.

(** Where a goroutine of the pool is: in the outer [select], executing from it, in
    the draining loop, executing from that, or returned. *)
Inductive goroutine :=
| Waiting
| Executing (run : RunRequest.t)
| Draining
| DrainExecuting (run : RunRequest.t)
| Returned.
#[export] Instance RunRequest_eq_dec : EqDecision RunRequest.t.
Proof. solve_decision. Defined.
#[export] Instance goroutine_eq_dec : EqDecision goroutine.
Proof. solve_decision. Defined.

(** [submits] are the handlers past the draining check, [answered] the answers
    given and [finished] the runs whose execution returned. *)
Module WorkerServer.
Record t := mk {
  runQueue : list RunRequest.t;
  draining : bool;
  cancelled : bool;
  pool : list goroutine;
  submits : list RunRequest.t;
  answered : list (RunRequest.t * bool);
  finished : list RunRequest.t
}.
#[global] Instance eta_t : Eta t := λ w,
  mk (runQueue w) (draining w) (cancelled w) (pool w) (submits w) (answered w) (finished w).
End WorkerServer.
Import WorkerServer.
Abbreviation Worker := WorkerServer.t.

Definition NewServerWithExecutor : Worker := WorkerServer.mk [] false false [] [] [] [].
Definition startWorkerPool (numWorkers : nat) (w : Worker) : Worker :=
  w <| pool ::= (λ gs, gs ++ replicate numWorkers Waiting) |>.
(** A new server whose [Start] has begun. *)
Definition NewServer : Worker := startWorkerPool workerPoolSize NewServerWithExecutor.

(** ** [SubmitRun]

    Its answer, given whether the worker drains and whether the queue has room. *)
Module RunResponse.
Record t := mk { RunId : string; Accepted : bool; Message : string }.
End RunResponse.

Definition SubmitRun (drains room : bool) (req : RunRequest.t) : RunResponse.t :=
  let answer := RunResponse.mk (RunRequest.RunId req) in
  if drains then answer false "worker is shutting down"
  else if room then answer true "accepted"
  else answer false "worker is at capacity".

Definition has_room (w : Worker) : bool := bool_decide (length (runQueue w) < runQueueSize)%nat.
Definition answer (w : Worker) (req : RunRequest.t) (drains : bool) : Worker :=
  w <| answered := answered w ++ [(req, RunResponse.Accepted (SubmitRun drains (has_room w) req))] |>.

(** The handler reads the flag, then tries the channel. *)
Inductive submit_step : Worker → Worker → Prop :=
| submit_refused w req :
    draining w = true → submit_step w (answer w req true)
| submit_checked w req :
    draining w = false → submit_step w (w <| submits := submits w ++ [req] |>)
| submit_enqueued w req before after :
    submits w = before ++ req :: after → has_room w = true →
    submit_step w ((answer (w <| submits := before ++ after |>) req false)
                     <| runQueue := runQueue w ++ [req] |>)
| submit_full w req before after :
    submits w = before ++ req :: after → has_room w = false →
    submit_step w (answer (w <| submits := before ++ after |>) req false).

(** ** The pool ([worker]) *)
Definition set_goroutine (i : nat) (g : goroutine) (w : Worker) : Worker :=
  w <| pool := <[i := g]> (pool w) |>.

Inductive pool_step : Worker → Worker → Prop :=
| pool_take w i run rest :
    pool w !! i = Some Waiting → runQueue w = run :: rest →
    pool_step w (set_goroutine i (Executing run) (w <| runQueue := rest |>))
| pool_finish w i run :
    pool w !! i = Some (Executing run) →
    pool_step w (set_goroutine i Waiting (w <| finished := finished w ++ [run] |>))
| pool_done w i :
    pool w !! i = Some Waiting → cancelled w = true →
    pool_step w (set_goroutine i Draining w)
| pool_drain_take w i run rest :
    pool w !! i = Some Draining → runQueue w = run :: rest →
    pool_step w (set_goroutine i (DrainExecuting run) (w <| runQueue := rest |>))
| pool_drain_finish w i run :
    pool w !! i = Some (DrainExecuting run) →
    pool_step w (set_goroutine i Draining (w <| finished := finished w ++ [run] |>))
| pool_return w i :
    pool w !! i = Some Draining → runQueue w = [] →
    pool_step w (set_goroutine i Returned w).

(** ** [Stop]: the flag first, then the context *)
Inductive stop_step : Worker → Worker → Prop :=
| stop_draining w : draining w = false → stop_step w (w <| draining := true |>)
| stop_cancel w :
    draining w = true → cancelled w = false → stop_step w (w <| cancelled := true |>).

Inductive step (w w' : Worker) : Prop :=
| step_submit : submit_step w w' → step w w'
| step_pool : pool_step w w' → step w w'
| step_stop : stop_step w w' → step w w'.

Definition reachable : Worker → Prop := rtc step NewServer.

(** [w.wg.Wait()] returns. *)
Definition stopped (w : Worker) : Prop := Forall (λ g, g = Returned) (pool w).

Definition executing (w : Worker) : list RunRequest.t :=
  omap (λ g, match g with Executing r | DrainExecuting r => Some r | _ => None end) (pool w).
Definition accepted (w : Worker) : list RunRequest.t :=
  (filter (λ p, p.2 = true) (answered w)).*1.

(** ** Reports ([executeRun])

    The requests [reportStatus] sends for a run: [RUNNING] before the executor is
    called, and one outcome after it returns. *)
Definition running_report (run : RunRequest.t) : UpdateRunStatusRequest.t :=
  UpdateRunStatusRequest.mk (RunRequest.RunId run) RUNNING EmptyString EmptyString 0 0.

Definition outcome_report `{!PgMessages} (run : RunRequest.t) (outcome : result Outcome.t)
  : UpdateRunStatusRequest.t :=
  match outcome with
  | Err err =>
      UpdateRunStatusRequest.mk (RunRequest.RunId run) FAILED EmptyString (error_text err) 0 0
  | Ok out =>
      UpdateRunStatusRequest.mk (RunRequest.RunId run)
        (if Outcome.BudgetExceeded out then BUDGET_EXCEEDED else SUCCEEDED)
        (Outcome.Output out) EmptyString
        (int32 (Outcome.PromptTokens out)) (int32 (Outcome.CompletionTokens out))
  end.

(** [time.Ticker] ticks until the first heartbeat that fails: how many are sent,
    given how each would end. *)
Fixpoint periodicHeartbeat (sends : list bool) : nat :=
  match sends with
  | [] => 0
  | ok :: rest => if ok then S (periodicHeartbeat rest) else 1
  end.

(** The address a heartbeat carries. *)
Definition heartbeat_address (getenv : string → string) (serverPort listener : string) : string :=
  if decide (getenv "WORKER_ADDRESS" = EmptyString) then listener
  else getenv "WORKER_ADDRESS" +:+ serverPort.

(** ** Conservation *)
Definition run_of (g : goroutine) : list RunRequest.t :=
  match g with Executing r | DrainExecuting r => [r] | _ => [] end.

Lemma executing_app l : 
  omap (λ g, match g with Executing r | DrainExecuting r => Some r | _ => None end) l = l ≫= run_of.
Proof. induction l as [|g l IH]; [done|]. rewrite bind_cons, <- IH. by destruct g. Qed.

Lemma executing_set w w1 i old g :
  pool w !! i = Some old → pool w1 = pool w →
  run_of old ++ executing (set_goroutine i g w1) ≡ₚ run_of g ++ executing w.
Proof.
  intros Hold Hp. unfold executing, set_goroutine. simpl. rewrite !executing_app, Hp.
  rewrite insert_take_drop by (by eapply lookup_lt_Some).
  rewrite <- (take_drop_middle (pool w) i old Hold) at 3.
  rewrite !bind_app, !bind_cons. solve_Permutation.
Qed.

(** What holds whatever the interleaving. *)
Record worker_ok (w : Worker) : Prop := {
  ok_queue : (length (runQueue w) ≤ runQueueSize)%nat;
  ok_pool : length (pool w) = workerPoolSize;
  ok_conserved : accepted w ≡ₚ runQueue w ++ executing w ++ finished w;
  ok_cancelled : cancelled w = true → draining w = true;
  ok_draining : ∀ g, g ∈ pool w → match g with Waiting | Executing _ => True | _ => cancelled w = true end
}.

Lemma accepted_answer w req drains :
  accepted (answer w req drains) =
  accepted w ++ (if RunResponse.Accepted (SubmitRun drains (has_room w) req) then [req] else []).
Proof.
  unfold accepted, answer. simpl. rewrite filter_app, fmap_app. f_equal.
  by destruct (RunResponse.Accepted _).
Qed.

(** The run a handler enqueues is accepted. *)
Lemma accepted_enqueued w req before after :
  has_room w = true →
  accepted ((answer (w <| submits := before ++ after |>) req false)
              <| runQueue := runQueue w ++ [req] |>) = accepted w ++ [req].
Proof.
  intros Hroom. transitivity (accepted (answer (w <| submits := before ++ after |>) req false));
    [done|]. rewrite accepted_answer.
  change (has_room (w <| submits := _ |>)) with (has_room w). by rewrite Hroom.
Qed.

Lemma worker_ok_initial : worker_ok NewServer.
Proof.
  split; try done; [simpl; lia|].
  intros g Hg. change (g ∈ replicate workerPoolSize Waiting) in Hg. by apply elem_of_replicate in Hg as [-> _].
Qed.

Lemma submit_step_ok w w' : worker_ok w → submit_step w w' → worker_ok w'.
Proof.
  intros [Hq Hp Hc Hcd Hd] Hs. destruct Hs as [w req Hdr|w req|w req before after Hsub Hroom|
    w req before after Hsub Hroom]; split; try done.
  - rewrite accepted_answer. simpl. by rewrite app_nil_r.
  - simpl. rewrite length_app. unfold has_room in Hroom. apply bool_decide_eq_true in Hroom. simpl.
    lia.
  - rewrite accepted_enqueued by done. change (executing _) with (executing w). simpl.
    rewrite Hc. solve_Permutation.
  - rewrite accepted_answer. change (has_room (w <| submits := _ |>)) with (has_room w).
    rewrite Hroom. simpl. by rewrite app_nil_r.
Qed.

(** Replacing a goroutine, whatever else of the state a pool step changes. *)
Lemma set_goroutine_ok w w1 i old g :
  worker_ok w → pool w !! i = Some old → pool w1 = pool w →
  draining w1 = draining w → cancelled w1 = cancelled w → answered w1 = answered w →
  (length (runQueue w1) ≤ length (runQueue w))%nat →
  runQueue w1 ++ run_of g ++ finished w1 ≡ₚ runQueue w ++ run_of old ++ finished w →
  match g with Waiting | Executing _ => True | _ => cancelled w = true end →
  worker_ok (set_goroutine i g w1).
Proof.
  intros [Hq Hp Hc Hcd Hd] Hi Hp1 Hdr Hca Han Hlen Hperm Hg.
  pose proof (executing_set w w1 i old g Hi Hp1) as Hexec.
  set (ex := executing (set_goroutine i g w1)) in *. split; simpl.
  - lia.
  - by rewrite length_insert, Hp1.
  - unfold accepted. simpl. rewrite Han. fold (accepted w). rewrite Hc. fold ex.
    apply (Permutation_app_inv_l (run_of old)).
    transitivity (executing w ++ (runQueue w ++ run_of old ++ finished w)); [solve_Permutation|].
    rewrite <- Hperm. transitivity ((run_of g ++ executing w) ++ runQueue w1 ++ finished w1);
      [solve_Permutation|]. rewrite <- Hexec. solve_Permutation.
  - by rewrite Hca, Hdr.
  - intros g' Hg'. rewrite Hca, Hp1 in *. apply list_elem_of_lookup in Hg' as [k Hk].
    apply list_lookup_insert_Some in Hk as [(-> & <- & _)|[_ Hk]]; [done|].
    apply Hd. by eapply list_elem_of_lookup_2.
Qed.

Lemma pool_step_ok w w' : worker_ok w → pool_step w w' → worker_ok w'.
Proof.
  intros Hok Hs. pose proof (ok_draining w Hok) as Hd.
  destruct Hs as [w i run rest Hi Hr|w i run Hi|w i Hi Hca|w i run rest Hi Hr|w i run Hi|w i Hi Hr];
    (eapply set_goroutine_ok; [exact Hok|exact Hi|done..| | |]); simpl; rewrite ?Hr; simpl;
    try (by simpl; lia); try solve_Permutation; try done.
  - apply (Hd Draining). by eapply list_elem_of_lookup_2.
  - apply (Hd (DrainExecuting run)). by eapply list_elem_of_lookup_2.
  - apply (Hd Draining). by eapply list_elem_of_lookup_2.
Qed.

Lemma step_ok w w' : worker_ok w → step w w' → worker_ok w'.
Proof.
  intros Hok [Hs|Hs|Hs]; [by eapply submit_step_ok|by eapply pool_step_ok|].
  destruct Hok as [Hq Hp Hc Hcd Hd]. destruct Hs; split; try done.
  intros g Hg. by destruct g.
Qed.

Lemma reachable_worker_ok w : reachable w → worker_ok w.
Proof.
  intros Hr. assert (Hgen : ∀ w0, worker_ok w0 → rtc step w0 w → worker_ok w); [|apply (Hgen _ worker_ok_initial Hr)].
  intros w0 Hok Hrtc. induction Hrtc; eauto using step_ok.
Qed.

(** ** What the worker promises *)
Lemma length_executing w : (length (executing w) ≤ length (pool w))%nat.
Proof.
  unfold executing. rewrite executing_app. induction (pool w) as [|g l IH]; [done|].
  rewrite bind_cons, length_app. destruct g; simpl; lia.
Qed.

(** C27: at every moment the worker holds at most five queued runs and five executing
    ones, and every run it answered "accepted" for is exactly one of queued,
    executing or finished. *)
Theorem worker_conserves_runs w :
  reachable w →
  (length (runQueue w) ≤ 5)%nat ∧ (length (executing w) ≤ 5)%nat ∧
  accepted w ≡ₚ runQueue w ++ executing w ++ finished w.
Proof.
  intros [Hq Hp Hc _ _]%reachable_worker_ok. pose proof (length_executing w) as He.
  rewrite Hp in He. done.
Qed.

(** *** Shutting down *)
Definition weight (g : goroutine) : nat :=
  match g with
  | Executing _ => 3 | Waiting | DrainExecuting _ => 2 | Draining => 1 | Returned => 0
  end.
Definition weights (l : list goroutine) : nat := sum_list_with weight l.
Definition work_left (w : Worker) : nat := 4 * length (runQueue w) + weights (pool w).

Lemma weights_set i old g l :
  l !! i = Some old → weights (<[i := g]> l) + weight old = weights l + weight g.
Proof.
  intros Hi. unfold weights. rewrite insert_take_drop by (by eapply lookup_lt_Some).
  rewrite <- (take_drop_middle l i old Hi) at 3. rewrite !sum_list_with_app. simpl. lia.
Qed.

Lemma pool_step_work w w' : pool_step w w' → work_left w' < work_left w.
Proof.
  unfold work_left. intros Hs.
  destruct Hs as [w i run rest Hi Hr|w i run Hi|w i Hi Hca|w i run rest Hi Hr|w i run Hi|w i Hi Hr];
    simpl; rewrite ?Hr;
    match goal with |- context[<[i := ?g]> _] => pose proof (weights_set i _ g _ Hi) end;
    simpl in *; lia.
Qed.

Lemma weights_bound l : weights l ≤ 3 * length l.
Proof. induction l as [|g l IH]; [done|]. unfold weights in *. destruct g; simpl in *; lia. Qed.

Lemma stuck_stopped w : cancelled w = true → (∀ w', ¬ pool_step w w') → stopped w.
Proof.
  intros Hca Hno. apply Forall_forall. intros g [i Hi]%list_elem_of_lookup. destruct g; [..|done].
  - by edestruct Hno; eapply pool_done.
  - by edestruct Hno; eapply pool_finish.
  - destruct (runQueue w) eqn:Hq; edestruct Hno; [by eapply pool_return|by eapply pool_drain_take].
  - by edestruct Hno; eapply pool_drain_finish.
Qed.

Lemma pool_step_cancelled w w' : pool_step w w' → cancelled w' = cancelled w.
Proof. by intros []. Qed.


(** A history in which nothing is accepted once the context is cancelled. *)
Definition orderly (w w' : Worker) : Prop :=
  step w w' ∧ (cancelled w = true → accepted w' = accepted w).

Definition nothing_behind (w : Worker) : Prop := Returned ∈ pool w → runQueue w = [].

Lemma set_returned w i g :
  g ≠ Returned → Returned ∈ pool (set_goroutine i g w) → Returned ∈ pool w.
Proof.
  intros Hg [k Hk]%list_elem_of_lookup.
  apply list_lookup_insert_Some in Hk as [(_ & -> & _)|[_ Hk]]; [done|].
  by eapply list_elem_of_lookup_2.
Qed.

Lemma orderly_nothing_behind w w' :
  worker_ok w → nothing_behind w → orderly w w' → nothing_behind w'.
Proof.
  intros Hok Hnb [[Hs|Hs|Hs] Hacc] Hret.
  - destruct Hs as [| |w req before after Hsub Hroom|]; try by apply Hnb.
    destruct Hok as [_ _ _ _ Hd]. specialize (Hacc (Hd _ Hret)).
    rewrite accepted_enqueued in Hacc by done.
    apply (f_equal length) in Hacc. rewrite length_app in Hacc. simpl in Hacc. lia.
  - destruct Hs as [w i run rest Hi Hr|w i run Hi|w i Hi Hca|w i run rest Hi Hr|w i run Hi|w i Hi Hr];
      try (apply set_returned in Hret; [|done]; specialize (Hnb Hret); simpl; congruence). done.
  - destruct Hs; by apply Hnb.
Qed.


(** *** The race

    A handler that read the flag before [Stop] set it may still send to the
    channel after the pool is gone. *)
Definition returning (w : Worker) (n : nat) : Worker :=
  foldl (λ w i, set_goroutine i Returned (set_goroutine i Draining w)) w (seq 0 n).

Lemma returning_steps w n :
  cancelled w = true → runQueue w = [] → pool w = replicate workerPoolSize Waiting →
  (n ≤ workerPoolSize)%nat → rtc orderly w (returning w n).
Proof.
  intros Hca Hq Hp Hn.
  assert (Hgen : rtc orderly w (returning w n) ∧ cancelled (returning w n) = true ∧
    runQueue (returning w n) = [] ∧
    pool (returning w n) = replicate n Returned ++ replicate (workerPoolSize - n) Waiting);
    [|by destruct Hgen].
  induction n as [|n IH]; [by rewrite Nat.sub_0_r|].
  destruct IH as (Hrtc & Hca' & Hq' & Hp'); [lia|]. unfold returning in *.
  rewrite seq_S, foldl_app. simpl. set (w1 := foldl _ w (seq 0 n)) in *.
  assert (Hi : pool w1 !! n = Some Waiting).
  { rewrite Hp', lookup_app_r by (rewrite length_replicate; lia). rewrite length_replicate.
    apply lookup_replicate. split; [done|lia]. }
  assert (Hlt : (n < length (pool w1))%nat) by (by eapply lookup_lt_Some).
  split_and!; [|done|done|].
  - etrans; [exact Hrtc|].
    eapply rtc_l; [split; [apply step_pool, (pool_done w1 n)|]; done|].
    apply rtc_once. split; [|done]. apply step_pool, pool_return; [|done].
    by apply list_lookup_insert_eq.
  - cbn [pool set_goroutine set_field]. rewrite list_insert_insert_eq, Hp'.
    replace (workerPoolSize - n)%nat with (S (workerPoolSize - S n)) by lia.
    rewrite insert_app_r_alt by (rewrite length_replicate; lia). rewrite length_replicate.
    rewrite Nat.sub_diag.
    change (replicate n Returned ++ Returned :: replicate (workerPoolSize - S n) Waiting =
            replicate (S n) Returned ++ replicate (workerPoolSize - S n) Waiting).
    by rewrite cons_middle, app_assoc, <- replicate_S_end.
Qed.

Lemma stopped_forever w w' : stopped w → rtc step w w' → stopped w' ∧ finished w' = finished w.
Proof.
  intros Hst Hr. induction Hr as [|w w1 w2 Hs _ IH]; [done|].
  assert (stopped w1 ∧ finished w1 = finished w) as [Hst1 <-]; [|by apply IH].
  destruct Hs as [Hs|Hs|Hs]; [by destruct Hs| |by destruct Hs].
  unfold stopped in Hst. rewrite Forall_forall in Hst.
  destruct Hs as [w i run rest Hi Hr|w i run Hi|w i Hi Hca|w i run rest Hi Hr|w i run Hi|w i Hi Hr];
    apply list_elem_of_lookup_2, Hst in Hi; discriminate.
Qed.

(** [Stop] can abandon a run it accepted: when a handler has read the flag just
    before it is set, the worker answers "accepted" after its pool has returned, and
    from then on the run is never executed. *)
Lemma stop_races_submit :
  ∃ w run, reachable w ∧ stopped w ∧ run ∈ accepted w ∧
    ∀ w', rtc step w w' → ¬ run ∈ finished w'.
Proof.
  set (run := RunRequest.mk "r" "a").
  set (w1 := NewServer <| submits := [run] |>).
  set (w2 := (w1 <| draining := true |>) <| cancelled := true |>).
  set (w3 := WorkerServer.mk [] true true (replicate workerPoolSize Returned) [run] [] []).
  assert (Hw3 : returning w2 workerPoolSize = w3) by (vm_compute; reflexivity).
  set (w4 := ((answer (w3 <| submits := [] |>) run false) <| runQueue := [run] |>)).
  assert (Hst : stopped w4) by (by repeat constructor).
  exists w4, run. split_and!; [|done|by left|].
  - eapply rtc_l; [apply step_submit, (submit_checked NewServer run); done|].
    eapply rtc_l; [apply step_stop, (stop_draining w1); done|].
    eapply rtc_l; [apply step_stop, (stop_cancel (w1 <| draining := true |>)); done|].
    trans w3.
    { rewrite <- Hw3. eapply rtc_subrel; [|apply (returning_steps w2 workerPoolSize); done].
      by intros ?? []. }
    apply rtc_once, step_submit, (submit_enqueued w3 run [] []); done.
  - intros w' Hr. destruct (stopped_forever w4 w' Hst Hr) as [_ ->]. by apply not_elem_of_nil.
Qed.

(** ** Witnesses *)
Lemma worker_conserves_runs_witness :
  let run := RunRequest.mk "r" "a" in
  let w := (answer (NewServer <| submits := [] |>) run false) <| runQueue := [run] |> in
  reachable w ∧ accepted w ≡ₚ runQueue w ++ executing w ++ finished w.
Proof.
  intros run w.
  assert (Hr : reachable w).
  { eapply rtc_l; [apply step_submit, (submit_checked NewServer run); reflexivity|].
    apply rtc_once, step_submit.
    exact (submit_enqueued (NewServer <| submits := [run] |>) run [] [] eq_refl eq_refl). }
  split; [exact Hr|]. apply (worker_conserves_runs w Hr).
Defined.

Definition cancelled_worker : Worker := (NewServer <| draining := true |>) <| cancelled := true |>.
Lemma cancelled_worker_reachable : reachable cancelled_worker.
Proof.
  eapply rtc_l; [apply step_stop, (stop_draining NewServer); reflexivity|].
  apply rtc_once, step_stop, (stop_cancel (NewServer <| draining := true |>)); reflexivity.
Qed.


