(* ===== verification/RunExecution.v ===== *)
(** * A run from hand-over to verdict ([executeRun] of [src/pkg/worker/worker.go])

    The worker reports [RUNNING], lets the executor run the agent and reports the
    outcome; the coordinator writes what it is told. A report that fails is logged
    and forgotten. *)
From S2P Require Import Prelude GoStrings Model Database AgentStore RunStore Secretbox Net Tools.
From S2P Require Import Coordinator Executor Worker.
Local Open Scope go_scope.
Local Open Scope Z_scope.

Section run.
Context {PU : PgUuid} {G : Gcm} {NU : NetUrl} {PM : PgMessages}.

(** [reportStatus]: whether the report arrived. [at_] is the coordinator's clock
    when it does. *)
Definition reportStatus (at_ : Time) (req : UpdateRunStatusRequest.t) : Db bool :=
  delivered ← try (UpdateRunStatus at_ req); ret (is_ok delivered).

(** The renewals that reach the coordinator, by its clock; a failed one is logged. *)
Fixpoint renewLeasePeriodically (runID : string) (ticks : list Time) : Db unit :=
  match ticks with
  | [] => ret tt
  | now :: rest => _ ← try (RenewLease now runID); renewLeasePeriodically runID rest
  end.

(** The interface [Executor]: what performs a run, by its identifier and its agent's;
    [noopExecutor] completes at once. *)
Definition RunExecutor := string → string → Db Outcome.t.
Definition noopExecutor : RunExecutor := λ _ _, ret no_outcome.

(** The executor's result, and whether the coordinator learnt of it.  The renewals
    run beside the executor, which neither reads nor writes a lease: they are
    placed after it, which makes no difference (Renewals.v). *)
Definition executeRun (executor : RunExecutor) (started finished : Time)
    (ticks : list Time) (run : RunRequest.t) : Db (result Outcome.t * bool) :=
  _ ← reportStatus started (running_report run);
  outcome ← try (executor (RunRequest.RunId run) (RunRequest.AgentId run));
  _ ← renewLeasePeriodically (RunRequest.RunId run) ticks;
  delivered ← reportStatus finished (outcome_report run outcome);
  ret (outcome, delivered).

Definition verdict (outcome : result Outcome.t) : string :=
  match outcome with
  | Err _ => RunFailed
  | Ok out => if Outcome.BudgetExceeded out then RunBudgetExceeded else RunSucceeded
  end.

(** ** Reports, renewals and traces *)
Lemma outcome_report_status run outcome :
  outcome_status (UpdateRunStatusRequest.Status (outcome_report run outcome)) =
  Some (verdict outcome).
Proof. destruct outcome as [out|err]; [|done]. simpl. by destruct (Outcome.BudgetExceeded out). Qed.

Lemma outcome_report_run run outcome :
  UpdateRunStatusRequest.RunId (outcome_report run outcome) = RunRequest.RunId run.
Proof. by destruct outcome. Qed.

Lemma UpdateRunStatus_quiet at_ req : leaves_traces (UpdateRunStatus at_ req).
Proof.
  unfold UpdateRunStatus, recordAgentOutcome.
  destruct (UpdateRunStatusRequest.Status req); respects;
    (apply respects_statement; [typeclasses eauto|]); intros r d [] d' Hs;
    first [by apply rbind_Ok in Hs as (i & _ & [= <-])
          |unfold agent_outcome in Hs; apply rbind_Ok in Hs as (i & _ & Hs); case_match;
           [by injection Hs as <-
           |apply rbind_Ok in Hs as (d1 & Hc & [= <-]); unfold count_failure in Hc;
            case_decide; [done|by injection Hc as <-]]].
Qed.

Lemma renewals_quiet runID ticks : leaves_traces (renewLeasePeriodically runID ticks).
Proof.
  induction ticks as [|now rest IH]; simpl; [respects|].
  apply respects_bind; [typeclasses eauto| |by intros].
  unfold RenewLease. respects. apply respects_statement; [typeclasses eauto|].
  intros r d n d' Hs. unfold renew_lease in Hs. by apply rbind_Ok in Hs as (i & _ & [= _ <-]).
Qed.

(** Reporting that a run has started leaves the agents alone. *)
Lemma running_report_agents at_ run :
  respects same_agents (reportStatus at_ (running_report run)).
Proof.
  unfold reportStatus, UpdateRunStatus, running_report. simpl. respects.
  apply respects_statement; [typeclasses eauto|].
  intros r d [] d' Hs. by apply rbind_Ok in Hs as (i & _ & [= <-]).
Qed.

Lemma reportStatus_cases at_ req w b w' :
  reportStatus at_ req w = (Ok b, w') →
  steps_of w' = steps_of w ∧
  (b = true → UpdateRunStatus at_ req w = (Ok true, w')).
Proof.
  unfold reportStatus, bind, try. pose proof (UpdateRunStatus_quiet at_ req w) as Hq.
  destruct (UpdateRunStatus at_ req w) as [[b'|err] w1] eqn:E; intros [= <- <-]; split;
    try exact Hq; try done.
  intros _. do 2 f_equal. unfold UpdateRunStatus in E.
  destruct (UpdateRunStatusRequest.Status req); try done;
    repeat (apply bind_Ok in E as (? & ? & _ & E)); by apply ret_Ok in E as [-> _].
Qed.

Lemma AgentStore_Get_capped userID id w agent cap :
  Forall (λ a, AgentRow.max_steps a ≤ cap) (agents (w_db w)) →
  fst (AgentStore_Get userID id w) = Ok agent → Agent.MaxSteps agent ≤ cap.
Proof.
  intros Hall Hget. destruct (AgentStore_Get userID id w) as [r w1] eqn:E. simpl in Hget.
  subst r. apply bind_Ok in E as (row & w2 & Hrow%map_err_Ok & [-> _]%ret_Ok).
  apply statement_Ok in Hrow as (rep & _ & _ & Hq).
  apply rbind_Ok in Hq as (x & Hq & [= -> _]).
  apply rbind_Ok in Hq as (i & _ & (u & _ & Hf)%rbind_Ok).
  destruct (first_where _ _) as [row'|] eqn:Hfirst; [|done]. injection Hf as ->.
  unfold first_where in Hfirst. apply head_Some_elem_of, list_elem_of_filter in Hfirst as [_ Hin].
  rewrite Forall_forall in Hall. exact (Hall _ Hin).
Qed.

(** What the executor adds to the trace is what it reports. *)
Lemma Execute_counts e s runID agentID w r w' :
  quiet_registry (Executor.registry e) →
  Forall (λ a, AgentRow.max_steps a ≤ CeilingMaxSteps) (agents (w_db w)) →
  Execute e s runID agentID w = (r, w') →
  ∃ rows, steps_of w' = steps_of w ++ rows ∧
    ∀ out, r = Ok out →
      Outcome.PromptTokens out = sum_of StepRow.prompt_tokens rows ∧
      Outcome.CompletionTokens out = sum_of StepRow.completion_tokens rows.
Proof.
  intros Hq Hcap Hex. destruct (fst (AgentStore_Get OwnerUserID agentID w)) as [agent|err] eqn:Hget.
  - pose proof (AgentStore_Get_capped _ _ _ _ _ Hcap Hget) as Hmax.
    destruct (Execute_tokens _ _ _ _ _ _ _ _ Hq Hget Hmax Hex) as (rows & Hs & _ & Hout). eauto.
  - apply Execute_traced in Hex; [|done]. rewrite Hget in Hex. destruct Hex as [Hs Hr].
    exists []. rewrite app_nil_r. split; [done|]. intros out ->. done.
Qed.

(** Whatever the surroundings, the placeholder's outcome is the empty success. *)
Lemma noop_outcome started finished ticks run w outcome b w' :
  executeRun noopExecutor started finished ticks run w = (Ok (outcome, b), w') →
  outcome = Ok no_outcome ∧ verdict outcome = RunSucceeded.
Proof.
  intros (b0 & w1 & _ & H)%bind_Ok. apply bind_Ok in H as (res & w2 & [= <- <-] & H).
  apply bind_Ok in H as (u & w3 & _ & H). by apply bind_Ok in H as (d & w4 & _ & [[= -> _] _]%ret_Ok).
Qed.

(** The row of a run whose outcome was reported at [now]. *)
Definition settled_row (now : Time) (outcome : result Outcome.t) (rows : list StepRow.t)
    (r : RunRow.t) : Prop :=
  RunRow.status r = verdict outcome ∧ RunRow.finished_at r = Some (timestamptz now) ∧
  RunRow.lease_expires_at r = None ∧
  match outcome with
  | Err err => RunRow.error r = error_text err ∧ RunRow.output r = EmptyString
  | Ok out =>
      RunRow.error r = EmptyString ∧ RunRow.output r = Outcome.Output out ∧
      RunRow.prompt_tokens r = int32 (sum_of StepRow.prompt_tokens rows) ∧
      RunRow.completion_tokens r = int32 (sum_of StepRow.completion_tokens rows)
  end.

(** A run whose outcome reaches the coordinator is settled: its row has the
    verdict, the instant it finished, no lease, and the output with the token
    counts of the steps the run added to the trace, or the error that ended it. *)
Lemma run_settles e s started finished ticks run i w outcome w' :
  quiet_registry (Executor.registry e) →
  Forall (λ a, AgentRow.max_steps a ≤ CeilingMaxSteps) (agents (w_db w)) →
  uuid_in (RunRequest.RunId run) = Some i →
  executeRun (Execute e s) started finished ticks run w = (Ok (outcome, true), w') →
  ∃ rows, run_steps (w_db w') = run_steps (w_db w) ++ rows ∧
    ∀ r, r ∈ runs (w_db w') → RunRow.id r = i → settled_row finished outcome rows r.
Proof.
  intros Hq Hcap Hid (b0 & w1 & Hstart & Hk)%bind_Ok.
  pose proof (running_report_agents started run w) as Hag. rewrite Hstart in Hag. simpl in Hag.
  apply reportStatus_cases in Hstart as [Hs1 _].
  apply bind_Ok in Hk as (res & w2 & Hex & Hk). unfold try in Hex.
  destruct (Execute _ _ _ _ w1) as [r0 w2'] eqn:Hexec. injection Hex as <- <-.
  apply bind_Ok in Hk as ([] & w3 & Hren & Hk).
  pose proof (renewals_quiet (RunRequest.RunId run) ticks w2') as Hs3. rewrite Hren in Hs3.
  apply bind_Ok in Hk as (b & w4 & Hrep & [[= -> <-] ->]%ret_Ok).
  rewrite <- Hag in Hcap. destruct (Execute_counts _ _ _ _ _ _ _ Hq Hcap Hexec) as (rows & Hs2 & Hout).
  apply reportStatus_cases in Hrep as [Hs4 Hrep]. specialize (Hrep eq_refl).
  exists rows. split.
  { change (steps_of w4 = steps_of w ++ rows). rewrite Hs4. etrans; [exact Hs3|]. by rewrite Hs2, Hs1. }
  pose proof (report_settles finished (outcome_report run r0) w3 i) as Hset.
  rewrite outcome_report_run, outcome_report_status in Hset.
  destruct (Hset Hid _ Hrep) as [Hruns _].
  rewrite Hruns. intros r (r1 & _ & [[_ ->]|[Hne ->]])%elem_of_update_where Hr; [|done].
  unfold settled_row. destruct r0 as [out|err]; simpl; split_and!; try done;
    destruct (Hout out eq_refl) as [Hp Hc]; by rewrite ?Hp, ?Hc.
Qed.
End run.

(** ** The closed run of [Executor.Example], reported *)
Module Reported.
#[local] Existing Instance example_uuid.
#[local] Existing Instance example_gcm.
#[local] Existing Instance example_url.
#[local] Existing Instance Example.messages.
Definition run : RunRequest.t := RunRequest.mk (example_id 5) (example_id 1).
Definition world : World := mkWorld Example.db (Database.answer 0 <$> seq 1 15).
Definition final : result (result Outcome.t * bool) * World :=
  executeRun (Execute (Example.executor "key") (Example.surroundings 0)) 0 (3 * Second) [Second] run world.
End Reported.

Lemma run_settles_witness :
  ∃ outcome rows, fst Reported.final = Ok (outcome, true) ∧
    run_steps (w_db (snd Reported.final)) = [] ++ rows ∧
    ∀ r, r ∈ runs (w_db (snd Reported.final)) → RunRow.id r = example_id 5 →
      @settled_row Example.messages (3 * Second) outcome rows r ∧ RunRow.prompt_tokens r = 250.
Proof.
  assert (Hok : match fst Reported.final with Ok (Ok _, true) => true | _ => false end = true)
    by (vm_compute; reflexivity).
  destruct (fst Reported.final) as [[outcome b]|err] eqn:Hfst; [|discriminate Hok].
  destruct b; [|destruct outcome; discriminate Hok].
  destruct (@run_settles example_uuid example_gcm example_url Example.messages
    (Example.executor "key") (Example.surroundings 0) 0 (3 * Second) [Second] Reported.run
    (example_id 5) Reported.world outcome (snd Reported.final))
    as (rows & Hs & Hrows).
  - exact (Example.memory_read_quiet "key").
  - apply Forall_forall. intros a. vm_compute. intros Ha.
    repeat (inversion Ha as [|? ? ? Ha']; subst; clear Ha; [discriminate|rename Ha' into Ha]).
    inversion Ha.
  - vm_compute. reflexivity.
  - rewrite <- Hfst. unfold Reported.final. apply surjective_pairing.
  - exists outcome, rows. split; [reflexivity|]. split; [exact Hs|]. intros r Hr Hid.
    split; [exact (Hrows r Hr Hid)|].
    assert (Hall : forallb (λ r, RunRow.prompt_tokens r =? 250) (runs (w_db (snd Reported.final)))
      = true) by (vm_compute; reflexivity).
    apply Z.eqb_eq. rewrite forallb_forall in Hall. apply Hall. by apply list_elem_of_In.
Defined.
