(* ===== verification/Notifier.v ===== *)
(** * The notifier ([src/pkg/notifier/notifier.go])

    The scan that tells the owner, once, about an agent that keeps failing: which
    agents it picks, the message, its delivery over Telegram, and the mark that
    keeps it from being repeated. *)
From S2P Require Import Prelude GoStrings Model Database Coordinator Secretbox Accounts.
From S2P Require Import Json Net WebTools.
Local Open Scope go_scope.
Local Open Scope Z_scope.

Definition FailureThreshold : Z := 3.

Module Notifier.
Record t := mk { settings : option Sealer.t; baseURL : string }.
End Notifier.

(** [settings] holds what [SettingsStore] is built with. *)
Definition NewNotifier (settings : option Sealer.t) (telegramBaseURL : string) : Notifier.t :=
  Notifier.mk settings
    (TrimSuffix (if decide (telegramBaseURL = EmptyString) then "https://api.telegram.org"
                 else telegramBaseURL) "/").

Module failingAgent.
Record t := mk { id : string; userID : string; name : string; failures : Z; lastErr : string }.
End failingAgent.

(** ** The query *)
Definition alerts_enabled (d : Database) (userID : string) : Prop :=
  Exists (λ u, UserRow.id u = userID ∧ UserRow.failure_alerts_enabled u = true) (users d).

Definition is_failing (d : Database) (a : AgentRow.t) : Prop :=
  alerts_enabled d (AgentRow.user_id a) ∧ FailureThreshold ≤ AgentRow.consecutive_failures a ∧
  AgentRow.failure_notified_at a = None.
#[export] Instance alerts_enabled_dec d u : Decision (alerts_enabled d u).
Proof. unfold alerts_enabled. apply _. Defined.
#[export] Instance is_failing_dec d a : Decision (is_failing d a).
Proof. unfold is_failing. apply _. Defined.

(** The error of the run of the agent that failed last. *)
Definition last_error (d : Database) (agentID : string) : string :=
  default EmptyString (RunRow.error <$> head (order_by (desc_nulls_last RunRow.finished_at)
    (filter (λ r, RunRow.agent_id r = agentID ∧ RunRow.status r = RunFailed) (runs d)))).

Definition scan_failing (d : Database) (a : AgentRow.t) : failingAgent.t :=
  failingAgent.mk (AgentRow.id a) (AgentRow.user_id a) (AgentRow.name a)
    (AgentRow.consecutive_failures a) (last_error d (AgentRow.id a)).

Definition failing_agents (d : Database) : list failingAgent.t :=
  scan_failing d <$> filter (is_failing d) (agents d).

(** ** The message and its delivery *)
Definition alert_message (agent : failingAgent.t) : string :=
  "Taskd: " +:+ quoted (failingAgent.name agent) +:+ " has failed " +:+
  itoa (failingAgent.failures agent) +:+ " times in a row and is not producing results." +:+
  (if decide (failingAgent.lastErr agent = EmptyString) then EmptyString
   else nl +:+ nl +:+ "Last error: " +:+ failingAgent.lastErr agent).

Definition mark_notified (id : string) (now : Time) (_ : Reply) (d : Database)
    `{!PgUuid} : result (unit * Database) :=
  i ←? uuid_arg id;
  Ok (tt, d <| agents := update_where (λ a, AgentRow.id a = i)
                 (λ a, a <| AgentRow.failure_notified_at := Some (timestamptz now) |>)
                 (agents d) |>).

Section notifier.
Context {PU : PgUuid} {G : Gcm} {NU : NetUrl}.
Implicit Types (n : Notifier.t) (agent : failingAgent.t) (w : World).

(** One request; the answer's status decides. *)
Definition post_alert (baseURL token chatID message : string) : Http unit :=
  request ←h hret (telegram_request baseURL token chatID message);
  response ←h client_Do defaultCheckRedirect request;
  if decide (HttpResponse.StatusCode response ≠ 200) then
    hret (Err (Errorf ("telegram returned " +:+ itoa (HttpResponse.StatusCode response))))
  else hret (Ok tt).

(** [out] is the network while this alert is sent. *)
Definition notifier_send n (out : Outside) (userID message : string) : Db unit :=
  delivery ← TelegramDelivery (Notifier.settings n) userID;
  match delivery with
  | None => fail (Errorf "no notification channel is configured")
  | Some (token, chatID) =>
      lift (fst (post_alert (Notifier.baseURL n) token chatID message out quiet))
  end.

(** ** [RunOnce]: how many agents were reported, and the error that ended it *)
Fixpoint report_all n (outs : nat → Outside) (now : Time) (failing : list failingAgent.t)
    (reported : nat) : Db (nat * option error) :=
  match failing with
  | [] => ret (reported, None)
  | agent :: rest =>
      sent ← try (notifier_send n (outs 0%nat) (failingAgent.userID agent) (alert_message agent));
      match sent with
      | Err _ => report_all n (λ k, outs (S k)) now rest reported
      | Ok _ =>
          marked ← try (statement (λ r d, mark_notified (failingAgent.id agent) now r d));
          match marked with
          | Err err => ret (reported, Some err)
          | Ok _ => report_all n (λ k, outs (S k)) now rest (S reported)
          end
      end
  end.

Definition Notifier_RunOnce n (outs : nat → Outside) (now : Time) : Db (nat * option error) :=
  failing ← try (query (λ d, Ok (failing_agents d)));
  match failing with
  | Err err => ret (0%nat, Some err)
  | Ok failing => report_all n outs now failing 0
  end.

(** ** What a scan amounts to *)

(** The delivery address a database holds for a user. *)
Definition delivery_in (sealer : option Sealer.t) (userID : string) (d : Database)
  : option (string * string) :=
  match user_row userID d, token_in sealer userID d with
  | Ok row, Ok token =>
      if decide (token = EmptyString ∨ UserRow.telegram_chat_id row = EmptyString) then None
      else Some (token, UserRow.telegram_chat_id row)
  | _, _ => None
  end.

Definition delivers n (d : Database) (out : Outside) agent : bool :=
  match delivery_in (Notifier.settings n) (failingAgent.userID agent) d with
  | None => false
  | Some (token, chatID) =>
      is_ok (fst (post_alert (Notifier.baseURL n) token chatID (alert_message agent) out quiet))
  end.

(** The agents whose alert gets through. *)
Fixpoint told n (d : Database) (outs : nat → Outside) (failing : list failingAgent.t)
  : list string :=
  match failing with
  | [] => []
  | agent :: rest =>
      (if delivers n d (outs 0%nat) agent then [failingAgent.id agent] else []) ++
      told n d (λ k, outs (S k)) rest
  end.

Definition mark_all (now : Time) (ids : list string) (d : Database) : Database :=
  d <| agents := update_where (λ a, AgentRow.id a ∈ ids)
         (λ a, a <| AgentRow.failure_notified_at := Some (timestamptz now) |>) (agents d) |>.

Lemma calm_query {A} (f : Database → result A) w k :
  calm w (S k) → fst (query f w) = f (w_db w) ∧ w_db (snd (query f w)) = w_db w ∧
                 calm (snd (query f w)) k.
Proof.
  intros Hc. destruct w as [d [|r rest]]; destruct Hc as [Hl Hf]; simpl in *; [lia|].
  apply Forall_cons in Hf as [Hr Hf]. rewrite query_answered by done. simpl.
  split_and!; [done|done|split; [simpl; lia|done]].
Qed.

Lemma calm_TelegramToken sealer userID w k :
  calm w (S k) → ∃ w1, TelegramToken sealer userID w = (token_in sealer userID (w_db w), w1) ∧
                       w_db w1 = w_db w ∧ calm w1 k.
Proof.
  intros Hc. destruct w as [d replies]. destruct sealer as [sealer|].
  - destruct Hc as [Hl Hf]. destruct replies as [|r rest]; simpl in *; [lia|].
    apply Forall_cons in Hf as [Hr Hf]. exists (mkWorld d rest). split_and!; [|done|].
    + apply (TelegramToken_answered (Some sealer) userID d [r] rest); [done|by constructor].
    + split; simpl; [lia|done].
  - exists (mkWorld d replies). split_and!; [done|done|]. eapply calm_le; [exact Hc|lia].
Qed.

Lemma calm_TelegramDelivery sealer userID w k :
  calm w (3 + k) → ∃ w1, TelegramDelivery sealer userID w =
                           (Ok (delivery_in sealer userID (w_db w)), w1) ∧
                         w_db w1 = w_db w ∧ calm w1 k.
Proof.
  intros Hc. unfold TelegramDelivery, SettingsStore_Get, delivery_in, bind, try, map_err.
  destruct (calm_query (user_row userID) w (2 + k) Hc) as (Hq & Hd & Hc1).
  destruct (query (user_row userID) w) as [res w1]. simpl in *. subst res.
  destruct (user_row userID (w_db w)) as [row|e]; simpl.
  2: { exists w1. split_and!; [done|done|]. eapply calm_le; [exact Hc1|lia]. }
  destruct (calm_TelegramToken sealer userID w1 (S k) Hc1) as (w2 & -> & Hd2 & Hc2).
  rewrite Hd. destruct (token_in sealer userID (w_db w)) as [token|e] eqn:Ht; simpl.
  2: { exists w2. split_and!; [done|congruence|]. eapply calm_le; [exact Hc2|lia]. }
  destruct (calm_TelegramToken sealer userID w2 k Hc2) as (w3 & -> & Hd3 & Hc3).
  rewrite Hd2, Hd, Ht. exists w3. split_and!; [by case_decide|congruence|done].
Qed.

Lemma calm_notifier_send n out agent w k :
  calm w (3 + k) → ∃ r w1,
    notifier_send n out (failingAgent.userID agent) (alert_message agent) w = (r, w1) ∧
    is_ok r = delivers n (w_db w) out agent ∧ w_db w1 = w_db w ∧ calm w1 k.
Proof.
  intros Hc. unfold notifier_send, bind, delivers.
  destruct (calm_TelegramDelivery (Notifier.settings n) (failingAgent.userID agent) w k Hc)
    as (w1 & -> & Hd & Hc1).
  destruct (delivery_in _ _ _) as [[token chatID]|]; do 2 eexists; done.
Qed.

Lemma told_same n d d' outs failing :
  users d' = users d → secrets d' = secrets d → told n d' outs failing = told n d outs failing.
Proof.
  intros Hu Hs. revert outs. induction failing as [|agent rest IH]; intros outs; [done|].
  simpl. rewrite IH. do 2 f_equal. unfold delivers, delivery_in, user_row, token_in.
  by rewrite Hu, Hs.
Qed.

Lemma mark_all_nil now d : mark_all now [] d = d.
Proof.
  unfold mark_all. rewrite update_where_none; [by destruct d|].
  apply Forall_forall. intros a _ Ha. by apply not_elem_of_nil in Ha.
Qed.

Lemma mark_all_cons now id ids d :
  mark_all now ids (mark_all now [id] d) = mark_all now (id :: ids) d.
Proof.
  unfold mark_all. destruct d. cbn. f_equal. unfold update_where.
  rewrite <- list_fmap_compose. apply list_fmap_ext. intros _ a _. cbv beta delta [compose].
  destruct (decide (AgentRow.id a ∈ [id])) as [Hi|Hi].
  - rewrite (decide_True (P := AgentRow.id a ∈ id :: ids)); [by case_decide|].
    apply list_elem_of_singleton in Hi as ->. by left.
  - apply decide_ext. rewrite list_elem_of_singleton in Hi. rewrite elem_of_cons. tauto.
Qed.

Lemma report_all_calm n outs now failing reported w :
  calm w (4 * length failing) →
  Forall (λ agent, uuid_in (failingAgent.id agent) = Some (failingAgent.id agent)) failing →
  let ids := told n (w_db w) outs failing in
  ∃ w', report_all n outs now failing reported w = (Ok ((reported + length ids)%nat, None), w') ∧
        w_db w' = mark_all now ids (w_db w).
Proof.
  simpl. revert outs reported w.
  induction failing as [|agent rest IH]; intros outs reported w Hc Hn.
  { exists w. simpl. rewrite Nat.add_0_r, mark_all_nil. done. }
  apply Forall_cons in Hn as [Hid Hn]. simpl.
  assert (Hc3 : calm w (3 + S (4 * length rest))) by (eapply calm_le; [exact Hc|simpl; lia]).
  destruct (calm_notifier_send n (outs 0%nat) agent w _ Hc3) as (r & w1 & Hs & Hr & Hd & Hc1).
  unfold bind at 1, try at 1. rewrite Hs. rewrite <- Hr. destruct r as [[]|e]; simpl.
  2: { destruct (IH (λ k, outs (S k)) reported w1) as (w' & -> & Hw'); [|done|].
       - eapply calm_le; [exact Hc1|lia].
       - exists w'. by rewrite Hw', Hd. }
  destruct w1 as [d1 [|rep replies]]; [destruct Hc1; simpl in *; lia|].
  destruct Hc1 as [Hl [Hf Hfs]%Forall_cons]. simpl in Hl, Hd. subst d1.
  unfold bind, try. rewrite statement_answered by done.
  unfold mark_notified, uuid_arg. rewrite Hid. cbn [rbind of_option w_db].
  match goal with |- context[mkWorld ?d replies] =>
    assert (Hd1 : d = mark_all now [failingAgent.id agent] (w_db w)) end.
  { unfold mark_all. destruct (w_db w). cbn. f_equal. apply list_fmap_ext. intros _ a _.
    apply decide_ext. by rewrite list_elem_of_singleton. }
  rewrite Hd1. clear Hd1.
  destruct (IH (λ k, outs (S k)) (S reported)
              (mkWorld (mark_all now [failingAgent.id agent] (w_db w)) replies))
    as (w' & -> & Hw'); [split; [simpl; lia|done]|done|].
  cbn [w_db] in *. rewrite (told_same n (w_db w) (mark_all _ _ _)) in * by done.
  exists w'. rewrite Hw', mark_all_cons, Nat.add_succ_r. done.
Qed.

(** Only what is marked stops being failing. *)
Lemma failing_agents_mark now ids d :
  failing_agents (mark_all now ids d) =
  filter (λ agent, failingAgent.id agent ∉ ids) (failing_agents d).
Proof.
  unfold failing_agents.
  assert (Hscan : ∀ l, Forall (λ a, AgentRow.id a ∉ ids) l →
    scan_failing (mark_all now ids d) <$> l = scan_failing d <$> l) by done.
  assert (Hl : ∀ l,
    filter (is_failing (mark_all now ids d))
      (update_where (λ a, AgentRow.id a ∈ ids)
         (λ a, a <| AgentRow.failure_notified_at := Some (timestamptz now) |>) l) =
    filter (λ a, AgentRow.id a ∉ ids) (filter (is_failing d) l)).
  { induction l as [|a l IH]; [done|]. rewrite update_where_cons.
    destruct (decide (AgentRow.id a ∈ ids)) as [Hin|Hin].
    - rewrite filter_cons_False by (by intros (_ & _ & Hnone)). rewrite IH.
      rewrite (filter_cons (is_failing d)). case_decide; [|done].
      by rewrite filter_cons_False by auto.
    - rewrite !filter_cons. change (is_failing (mark_all now ids d) a) with (is_failing d a).
      rewrite (decide_ext (is_failing (mark_all now ids d) a) (is_failing d a)) by done.
      case_decide; [|done]. rewrite filter_cons_True by done. by rewrite IH. }
  unfold mark_all at 2. cbn [agents set_field]. 
  etrans; [apply f_equal, Hl|]. clear Hl. 
  generalize (filter (is_failing d) (agents d)) as l. intros l.
  induction l as [|a l IH]; [done|]. rewrite filter_cons, fmap_cons, filter_cons.
  change (failingAgent.id (scan_failing d a)) with (AgentRow.id a).
  case_decide; simpl; [|exact IH]. f_equal. exact IH.
Qed.


(** The query hands the program the agents in the order of the table. *)
Lemma failing_agents_normal d :
  Forall (λ a, uuid_in (AgentRow.id a) = Some (AgentRow.id a)) (agents d) →
  Forall (λ agent, uuid_in (failingAgent.id agent) = Some (failingAgent.id agent))
         (failing_agents d).
Proof.
  intros Hn. unfold failing_agents. apply Forall_fmap, Forall_forall.
  intros a [_ Ha]%list_elem_of_filter. rewrite Forall_forall in Hn. exact (Hn a Ha).
Qed.

(** C38: when the database answers, a scan reports every agent that reached three
    failures in a row and was not reported yet, counts and marks exactly those
    whose alert was delivered, and changes nothing else; the next scan finds
    precisely the ones whose delivery failed, so an alert is neither repeated nor
    lost. *)
Theorem notifier_reports_once n outs now w :
  let failing := failing_agents (w_db w) in
  Forall (λ a, uuid_in (AgentRow.id a) = Some (AgentRow.id a)) (agents (w_db w)) →
  calm w (1 + 4 * length failing) →
  let ids := told n (w_db w) outs failing in
  ∃ w', Notifier_RunOnce n outs now w = (Ok (length ids, None), w') ∧
    w_db w' = mark_all now ids (w_db w) ∧
    failing_agents (w_db w') = filter (λ agent, failingAgent.id agent ∉ ids) failing.
Proof.
  intros failing Hn Hc ids. unfold Notifier_RunOnce, bind, try.
  destruct (calm_query (λ d, Ok (failing_agents d)) w _ Hc) as (Hq & Hd & Hc1).
  destruct (query _ w) as [res w1]. simpl in Hq, Hd, Hc1. subst res.
  destruct (report_all_calm n outs now failing 0 w1) as (w' & Hr & Hw').
  - exact Hc1.
  - by apply failing_agents_normal.
  - rewrite Hd in *. exists w'. split_and!; [exact Hr|exact Hw'|].
    rewrite Hw'. apply failing_agents_mark.
Qed.
End notifier.

(** ** A closed scan

    Two agents keep failing; the first alert is refused, the second delivered. *)
Module Alerts.
#[local] Existing Instance example_uuid.
#[local] Existing Instance example_gcm.
Definition failing_row (n : nat) : AgentRow.t :=
  (example_agent_row n) <| AgentRow.consecutive_failures := 3 |>.
Definition database : Database :=
  telegram_database <| agents := [failing_row 1; failing_row 2; example_agent_row 3] |>.
#[export] Instance parse : NetUrl := λ s, Some (URL.mk "https" "telegram" s).
Definition answers (code : Z) : Outside := {|
  round_trip := λ _ _, Ok (HttpResponse.mk code None (EmptyString, None));
  LookupIP := λ _ _, None
|}.
Definition notifier : Notifier.t := NewNotifier (Some example_sealer) "http://telegram/".
Definition network (k : nat) : Outside := answers (if decide (k = 0%nat) then 502 else 200).
Definition world : World := mkWorld database (answer 0 <$> seq 1 9).
End Alerts.

Lemma notifier_reports_once_witness :
  let final := @Notifier_RunOnce example_uuid example_gcm Alerts.parse Alerts.notifier
                 Alerts.network Second Alerts.world in
  fst final = Ok (1%nat, None) ∧
  failingAgent.id <$> failing_agents (w_db (snd final)) = [example_id 1].
Proof.
  destruct (@notifier_reports_once example_uuid example_gcm Alerts.parse Alerts.notifier
    Alerts.network Second Alerts.world) as (w' & Hr & _ & Hf).
  - apply Forall_forall. intros a Ha. change (agents (w_db Alerts.world)) with
      [Alerts.failing_row 1; Alerts.failing_row 2; example_agent_row 3] in Ha.
    rewrite !elem_of_cons in Ha. by destruct Ha as [->|[->|[->|Ha%not_elem_of_nil]]].
  - split; [vm_compute; lia|repeat constructor].
  - intros final. subst final. rewrite Hr. split.
    + vm_compute. reflexivity.
    + cbn [snd]. rewrite Hf. vm_compute. reflexivity.
Defined.
