(* ===== verification/Overview.v ===== *)
(** * The home screen ([src/pkg/store/overview.go])

    Every agent of a user with its schedule and its most recent run, in three
    queries stitched together in memory. *)
From S2P Require Import Prelude GoStrings Model Database AgentStore RunStore.
Local Open Scope go_scope.
Local Open Scope Z_scope.

Module AgentOverview.
Record t := mk { Agent_ : Agent.t; Schedule_ : option Schedule.t; LastRun : option Run.t }.
End AgentOverview.

(** [DISTINCT ON (k)]: of the rows that agree on [k], the first. *)
Fixpoint distinct_on {R K} `{EqDecision K} (k : R → K) (t : list R) : list R :=
  match t with
  | [] => []
  | r :: rest => r :: filter (λ r', k r' ≠ k r) (distinct_on k rest)
  end.

(** [byAgent[key(x)] = x] for each row in turn: a later one replaces an earlier. *)
Definition by_key {T} (key : T → string) (l : list T) : gmap string T :=
  list_to_map (reverse ((λ x, (key x, x)) <$> l)).

Definition by_agent : relation RunRow.t := λ a b,
  str_le (RunRow.agent_id a) (RunRow.agent_id b).
#[export] Instance by_agent_dec : RelDecision by_agent.
Proof. intros a b. apply str_le_dec. Defined.
#[export] Instance by_agent_total : Total by_agent.
Proof. intros a b. apply str_le_total. Qed.
#[export] Instance by_agent_trans : Transitive by_agent.
Proof. intros a b c. apply str_le_trans. Qed.

Section overview.
Context {PU : PgUuid}.

Definition schedulesByAgent (userID : string) : Db (gmap string Schedule.t) :=
  rows ← query (λ d, u ←? uuid_arg userID;
                     Ok (filter (λ s, ScheduleRow.user_id s = u) (schedules d)));
  ret (by_key Schedule.AgentID (scanSchedule <$> rows)).

Definition last_run_rows (u : string) (d : Database) : list RunRow.t :=
  distinct_on RunRow.agent_id
    (order_by (then_by by_agent newest_run) (filter (λ r, RunRow.user_id r = u) (runs d))).

Definition lastRunByAgent (userID : string) : Db (gmap string Run.t) :=
  rows ← query (λ d, u ←? uuid_arg userID; Ok (last_run_rows u d));
  ret (by_key Run.AgentID (scanRun <$> rows)).

Definition ListOverview (userID : string) : Db (list AgentOverview.t) :=
  agents ← AgentStore_List userID;
  schedules ← schedulesByAgent userID;
  lastRuns ← lastRunByAgent userID;
  ret ((λ agent, AgentOverview.mk agent (schedules !! Agent.ID agent)
                   (lastRuns !! Agent.ID agent)) <$> agents).

(** ** Rows by key *)
Lemma elem_of_by_key {T} (key : T → string) l k x :
  NoDup (key <$> l) → by_key key l !! k = Some x ↔ x ∈ l ∧ key x = k.
Proof.
  intros Hnd. unfold by_key. rewrite <- elem_of_list_to_map.
  - rewrite elem_of_reverse, list_elem_of_fmap.
    split; [by intros (y & [= -> ->] & Hy)|]. intros [Hx <-]. by exists x.
  - by rewrite reverse_Permutation, <- list_fmap_compose.
Qed.

Lemma distinct_on_NoDup {R K} `{EqDecision K} (k : R → K) t : NoDup (k <$> distinct_on k t).
Proof.
  induction t as [|r t IH]; simpl; [constructor|]. constructor.
  - rewrite list_elem_of_fmap. by intros (r' & Heq & [Hne _]%list_elem_of_filter).
  - eapply sublist_NoDup; [exact IH|]. apply fmap_sublist, sublist_filter.
Qed.

Lemma elem_of_distinct_on {R K} `{EqDecision K} (k : R → K) t r :
  r ∈ distinct_on k t ↔ first_where (λ r', k r' = k r) t = Some r.
Proof.
  unfold first_where. induction t as [|r0 t IH]; simpl; [split; [by intros ?%not_elem_of_nil|done]|].
  rewrite elem_of_cons, list_elem_of_filter, IH. rewrite filter_cons. case_decide as Heq; simpl.
  - split; [by intros [->|[? _]]|]. intros [= ->]. by left.
  - split; [|by right]. by intros [->|[_ ?]].
Qed.

Lemma sorted_first {R} (O : relation R) (P : R → Prop) `{∀ r, Decision (P r)} t r :
  StronglySorted O t → first_where P t = Some r → ∀ r', r' ∈ t → P r' → r' = r ∨ O r r'.
Proof.
  unfold first_where. intros Hs. induction Hs as [|r0 t Hs IH Hall]; [done|].
  rewrite filter_cons. case_decide; simpl.
  - intros [= ->] r' [->|Hin]%elem_of_cons _; [by left|]. right.
    rewrite Forall_forall in Hall. by apply Hall.
  - intros Hf r' [->|Hin]%elem_of_cons HP; [done|]. by apply IH.
Qed.

(** The most recent run of an agent, whatever the other agents ran. *)
Lemma last_run_rows_spec u d r :
  r ∈ last_run_rows u d →
  r ∈ runs d ∧ RunRow.user_id r = u ∧
  ∀ r', r' ∈ runs d → RunRow.user_id r' = u → RunRow.agent_id r' = RunRow.agent_id r →
        newest_run r r'.
Proof.
  unfold last_run_rows. rewrite elem_of_distinct_on. intros Hfirst.
  pose proof (first_where_Some _ _ _ Hfirst) as [Hin _].
  rewrite elem_of_order_by in Hin. apply list_elem_of_filter in Hin as [Hu Hin].
  split_and!; [done|done|]. intros r' Hin' Hu' Ha.
  destruct (sorted_first (then_by by_agent newest_run) _ _ _ (order_by_sorted _ _) Hfirst r')
    as [->|[_ Hn]].
  - rewrite elem_of_order_by. by apply list_elem_of_filter.
  - done.
  - unfold then_by, desc. split; [lia|intros _; lia].
  - apply Hn. unfold by_agent. rewrite Ha. by destruct (str_le_total (RunRow.agent_id r) (RunRow.agent_id r)).
Qed.

Lemma last_run_rows_some u d r :
  r ∈ runs d → RunRow.user_id r = u →
  ∃ last, last ∈ last_run_rows u d ∧ RunRow.agent_id last = RunRow.agent_id r.
Proof.
  intros Hin Hu. unfold last_run_rows. set (t := order_by _ _).
  assert (Hex : Exists (λ r', RunRow.agent_id r' = RunRow.agent_id r) t).
  { apply Exists_exists. exists r. split; [|done]. unfold t. rewrite elem_of_order_by.
    by apply list_elem_of_filter. }
  rewrite <- first_where_is_Some in Hex. destruct Hex as [last Hlast]. exists last.
  pose proof (first_where_Some _ _ _ Hlast) as [_ Ha]. split; [|done].
  rewrite elem_of_distinct_on, Ha. exact Hlast.
Qed.

(** The row shown for an agent: nothing before its first run, then the newest. *)
Definition last_of (d : Database) (u agentID : string) (last : option Run.t) : Prop :=
  match last with
  | None => Forall (λ r, ¬ (RunRow.agent_id r = agentID ∧ RunRow.user_id r = u)) (runs d)
  | Some run => ∃ r, run = scanRun r ∧ r ∈ runs d ∧ RunRow.agent_id r = agentID ∧
      RunRow.user_id r = u ∧
      ∀ r', r' ∈ runs d → RunRow.agent_id r' = agentID → RunRow.user_id r' = u → newest_run r r'
  end.

Lemma lastRunByAgent_spec userID w byAgent w' :
  lastRunByAgent userID w = (Ok byAgent, w') →
  w_db w' = w_db w ∧ ∃ u, uuid_in userID = Some u ∧
    ∀ agentID, last_of (w_db w) u agentID (byAgent !! agentID).
Proof.
  intros (rows & w1 & (r0 & _ & _ & Hq & Hd)%query_Ok & [-> ->]%ret_Ok)%bind_Ok.
  split; [done|]. apply rbind_Ok in Hq as (u & Hu & [= <-]). apply of_option_Ok in Hu.
  exists u. split; [done|]. intros agentID.
  assert (Hnd : NoDup (Run.AgentID <$> (scanRun <$> last_run_rows u (w_db w)))).
  { rewrite <- list_fmap_compose. apply distinct_on_NoDup. }
  destruct (by_key _ _ !! agentID) as [run|] eqn:Hl; simpl.
  - apply (elem_of_by_key _ _ _ _ Hnd) in Hl as [(r & -> & Hr)%list_elem_of_fmap Ha].
    apply last_run_rows_spec in Hr as (Hin & Hus & Hnew). exists r. split_and!; try done.
    intros r' Hr' Ha' Hu'. apply Hnew; [done|done|]. by rewrite Ha'.
  - apply Forall_forall. intros r Hr [Ha Hus].
    destruct (last_run_rows_some u (w_db w) r Hr Hus) as (last & Hlast & Hag).
    assert (Hsome : by_key Run.AgentID (scanRun <$> last_run_rows u (w_db w)) !! agentID =
                    Some (scanRun last)); [|congruence].
    apply elem_of_by_key; [done|]. split; [by apply list_elem_of_fmap_2|]. simpl. congruence.
Qed.

Lemma schedulesByAgent_spec userID w byAgent w' :
  NoDup (ScheduleRow.agent_id <$> schedules (w_db w)) →
  schedulesByAgent userID w = (Ok byAgent, w') →
  w_db w' = w_db w ∧ ∃ u, uuid_in userID = Some u ∧
    ∀ agentID, byAgent !! agentID = scanSchedule <$>
      first_where (λ s, ScheduleRow.agent_id s = agentID ∧ ScheduleRow.user_id s = u)
                  (schedules (w_db w)).
Proof.
  intros Hnd (rows & w1 & (r0 & _ & _ & Hq & Hd)%query_Ok & [-> ->]%ret_Ok)%bind_Ok.
  split; [done|]. apply rbind_Ok in Hq as (u & Hu & [= <-]). apply of_option_Ok in Hu.
  exists u. split; [done|]. intros agentID. set (t := filter _ (schedules (w_db w))).
  assert (Hk : NoDup (Schedule.AgentID <$> (scanSchedule <$> t))).
  { rewrite <- list_fmap_compose. eapply sublist_NoDup; [exact Hnd|].
    apply fmap_sublist, sublist_filter. }
  destruct (first_where _ _) as [s|] eqn:Hf; simpl.
  - apply first_where_Some in Hf as (Hin & Ha & Hus). apply elem_of_by_key; [done|].
    split; [|done]. apply list_elem_of_fmap_2. by apply list_elem_of_filter.
  - rewrite first_where_None, Forall_forall in Hf.
    destruct (by_key _ _ !! agentID) as [x|] eqn:Hl; [|done].
    apply (elem_of_by_key _ _ _ _ Hk) in Hl as [(s & -> & [Hus Hs]%list_elem_of_filter)
      %list_elem_of_fmap Ha]. by destruct (Hf s Hs).
Qed.

(** The home screen shows every agent of the user once, in the order of the agent
    list, with the schedule that its own page shows and, once it has run, a run
    that no other run of the agent is newer than. *)
Lemma ListOverview_shows_newest userID w rows w' :
  NoDup (ScheduleRow.agent_id <$> schedules (w_db w)) →
  ListOverview userID w = (Ok rows, w') →
  w_db w' = w_db w ∧ ∃ u, uuid_in userID = Some u ∧
    AgentOverview.Agent_ <$> rows = scanAgent <$>
      order_by (desc AgentRow.created_at) (filter (λ a, AgentRow.user_id a = u) (agents (w_db w))) ∧
    Forall (λ row,
      AgentOverview.Schedule_ row = scanSchedule <$>
        first_where (λ s, ScheduleRow.agent_id s = Agent.ID (AgentOverview.Agent_ row) ∧
                          ScheduleRow.user_id s = u) (schedules (w_db w)) ∧
      last_of (w_db w) u (Agent.ID (AgentOverview.Agent_ row)) (AgentOverview.LastRun row)) rows.
Proof.
  intros Hnd (agents & w1 & Hl & Hk)%bind_Ok.
  apply bind_Ok in Hl as (arows & w1' & (r0 & _ & _ & Hq & Hd1)%query_Ok & [-> ->]%ret_Ok).
  apply rbind_Ok in Hq as (u & Hu & [= <-]). apply of_option_Ok in Hu.
  apply bind_Ok in Hk as (scheds & w2 & Hs & Hk).
  apply schedulesByAgent_spec in Hs as (Hd2 & u' & Hu' & Hs); [|by rewrite Hd1].
  apply bind_Ok in Hk as (lasts & w3 & Hr & [-> ->]%ret_Ok).
  apply lastRunByAgent_spec in Hr as (Hd3 & u'' & Hu'' & Hr).
  assert (u' = u) as -> by congruence. assert (u'' = u) as -> by congruence.
  rewrite Hd2, Hd1 in *. split; [congruence|]. exists u. split; [done|]. split.
  - by rewrite <- list_fmap_compose, list_fmap_id.
  - apply Forall_fmap, Forall_forall. intros agent _. simpl. split; [|apply Hr].
    by rewrite Hs.
Qed.
End overview.

(** ** A closed home screen *)
Definition overview_database : Database :=
  let run n at_ := (new_run_row (example_id n) OwnerUserID (example_id 1) None TriggerManual
                      RunSucceeded at_ 0) in
  example_database <| agents := [example_agent_row 1; example_agent_row 2] |>
                   <| runs := [run 5%nat 1000; run 6%nat 3000; run 7%nat 2000] |>.

Lemma ListOverview_shows_newest_witness :
  let shown := @ListOverview example_uuid OwnerUserID
                 (mkWorld overview_database (replicate 3 (answer 0 1))) in
  ∃ rows, fst shown = Ok rows ∧
    (λ row, Run.ID <$> AgentOverview.LastRun row) <$> rows = [Some (example_id 6); None] ∧
    w_db (snd shown) = overview_database.
Proof.
  intros shown. assert (Hok : is_ok (fst shown) = true) by (vm_compute; reflexivity).
  destruct (fst shown) as [rows|e] eqn:E; [|discriminate].
  exists rows. split; [reflexivity|]. split.
  - assert (Hv : match fst shown with
                 | Ok rows => (λ row, Run.ID <$> AgentOverview.LastRun row) <$> rows
                 | Err _ => [] end = [Some (example_id 6); None]) by (vm_compute; reflexivity).
    rewrite E in Hv. exact Hv.
  - apply (@ListOverview_shows_newest example_uuid OwnerUserID
      (mkWorld overview_database (replicate 3 (answer 0 1))) rows (snd shown)).
    + apply (bool_decide_unpack _). vm_compute. exact I.
    + rewrite <- E. apply surjective_pairing.
Defined.
