(* ===== verification/Migrate.v ===== *)
(** * The migrations ([src/pkg/db/migrate.go])

    Applying the embedded files that are not recorded yet, each with its record in
    one transaction.  What a file's SQL does to the schema is the server's: it is a
    parameter. *)
From S2P Require Import Prelude GoStrings Model.
Local Open Scope go_scope.

Section migrate.
Context {Schema : Type} (execute_sql : string → Schema → result Schema).

(** The schema, the table [schema_migrations], and whether each statement still to
    come fails for a reason outside the model. *)
Record Conn := mkConn {
  schema : Schema; versions : list string; faults : list (option string)
}.
#[local] Instance eta_Conn : Eta Conn := λ c, mkConn (schema c) (versions c) (faults c).
Implicit Types (c : Conn) (name body : string).

Definition Exec {A} (f : Conn → result (A * Conn)) (c : Conn) : result A * Conn :=
  match faults c with
  | [] => (Err (Errorf "conn closed"), c)
  | Some msg :: rest => (Err (Errorf msg), c <| faults := rest |>)
  | None :: rest =>
      match f (c <| faults := rest |>) with
      | Ok (a, c') => (Ok a, c')
      | Err e => (Err e, c <| faults := rest |>)
      end
  end.

Definition no_effect (c : Conn) : result (unit * Conn) := Ok (tt, c).

(** The statements of a migration's transaction. *)
Definition run_body (body : string) (c : Conn) : result (unit * Conn) :=
  s ←? execute_sql body (schema c); Ok (tt, c <| schema := s |>).
Definition insert_version (name : string) (c : Conn) : result (unit * Conn) :=
  if decide (name ∈ versions c) then Err (Errorf "duplicate key value")
  else Ok (tt, c <| versions := versions c ++ [name] |>).

(** [Rollback]: its own statement may fail, the transaction is undone either way. *)
Definition rolled_back (before : Conn) (c : Conn) : Conn :=
  snd (Exec no_effect (before <| faults := faults c |>)).

Definition migration_failed (name : string) (e : error) : error :=
  Wrapf ("migration " +:+ name +:+ " failed") e.

Definition apply_one (name body : string) (c : Conn) : result unit * Conn :=
  match Exec no_effect c with
  | (Err e, c1) => (Err e, c1)
  | (Ok _, c1) =>
      match Exec (run_body body) c1 with
      | (Err e, c2) => (Err (migration_failed name e), rolled_back c1 c2)
      | (Ok _, c2) =>
          match Exec (insert_version name) c2 with
          | (Err e, c3) => (Err e, rolled_back c1 c3)
          | (Ok _, c3) =>
              match Exec no_effect c3 with
              | (Err e, c4) => (Err e, c1 <| faults := faults c4 |>)
              | (Ok _, c4) => (Ok tt, c4)
              end
          end
      end
  end.

(** [files] is the embedded directory: names and contents. *)
Definition migration_names (files : list (string * string)) : list string :=
  order_by asc_str (filter (λ name, HasSuffix name ".sql" = true) files.*1).

Definition ReadFile (files : list (string * string)) (name : string) : result string :=
  of_option (Errorf ("open migrations/" +:+ name +:+ ": file does not exist"))
    (snd <$> first_where (λ f, f.1 = name) files).

Fixpoint apply_all (files : list (string * string)) (applied names : list string) (c : Conn)
  : result unit * Conn :=
  match names with
  | [] => (Ok tt, c)
  | name :: rest =>
      if decide (name ∈ applied) then apply_all files applied rest c
      else
        match ReadFile files name with
        | Err e => (Err e, c)
        | Ok body =>
            match apply_one name body c with
            | (Err e, c') => (Err e, c')
            | (Ok _, c') => apply_all files applied rest c'
            end
        end
  end.

(** The lock, the table, the versions, the files; the unlock is deferred.  The lock
    keeps other services out until then, so nothing else moves meanwhile. *)
Definition unlocked {A} (res : result A * Conn) : result A * Conn :=
  (fst res, snd (Exec no_effect (snd res))).

Definition Migrate (files : list (string * string)) (c : Conn) : result unit * Conn :=
  match Exec no_effect c with
  | (Err e, c1) => (Err e, c1)
  | (Ok _, c1) =>
      unlocked
        match Exec no_effect c1 with
        | (Err e, c2) => (Err e, c2)
        | (Ok _, c2) =>
            match Exec (λ c, Ok (versions c, c)) c2 with
            | (Err e, c3) => (Err e, c3)
            | (Ok applied, c3) => apply_all files applied (migration_names files) c3
            end
        end
  end.

(** ** What a run of the migrations amounts to *)
Definition pending_migrations (files : list (string * string)) (c : Conn) : list string :=
  filter (λ name, name ∉ versions c) (migration_names files).

(** The files one after the other. *)
Fixpoint run_files (files : list (string * string)) (names : list string) (s : Schema)
  : result Schema :=
  match names with
  | [] => Ok s
  | name :: rest => body ←? ReadFile files name; s' ←? execute_sql body s; run_files files rest s'
  end.

(** The tables of a connection. *)
Definition same_tables (c c' : Conn) : Prop := schema c' = schema c ∧ versions c' = versions c.

Lemma Exec_cases {A} (f : Conn → result (A * Conn)) c r c' :
  Exec f c = (r, c') →
  (is_ok r = false ∧ same_tables c c') ∨
  ∃ a rest, r = Ok a ∧ faults c = None :: rest ∧ f (c <| faults := rest |>) = Ok (a, c').
Proof.
  unfold Exec. destruct (faults c) as [|[msg|] rest]; [by intros [= <- <-]; left..|].
  destruct (f _) as [[a c1]|e] eqn:E; intros [= <- <-]; [right|by left]. by exists a, rest.
Qed.

Lemma Exec_no_effect c r c' : Exec no_effect c = (r, c') → same_tables c c'.
Proof. intros [[_ ?]|(a & rest & _ & _ & [= _ <-])]%Exec_cases; done. Qed.

Lemma rolled_back_tables before c : same_tables before (rolled_back before c).
Proof.
  unfold rolled_back. destruct (Exec _ _) as [r c'] eqn:E. by apply Exec_no_effect in E.
Qed.

Lemma apply_one_cases name body c r c' :
  apply_one name body c = (r, c') →
  (is_ok r = false ∧ same_tables c c') ∨
  (r = Ok tt ∧ execute_sql body (schema c) = Ok (schema c') ∧
   versions c' = versions c ++ [name]).
Proof.
  unfold apply_one. destruct (Exec no_effect c) as [r1 c1] eqn:E1.
  apply Exec_no_effect in E1 as [Hs1 Hv1]. unfold same_tables. rewrite <- Hs1, <- Hv1.
  destruct r1 as [[]|e]; [|by intros [= <- <-]; left].
  destruct (Exec (run_body body) c1) as [r2 c2] eqn:E2.
  destruct r2 as [[]|e]; [|intros [= <- <-]; left; split; [done|apply rolled_back_tables]].
  apply Exec_cases in E2 as [[[=] _]|(a2 & rest2 & _ & _ & (s & Hs & [= _ <-])%rbind_Ok)].
  destruct (Exec (insert_version name) _) as [r3 c3] eqn:E3.
  destruct r3 as [[]|e]; [|intros [= <- <-]; left; split; [done|apply rolled_back_tables]].
  apply Exec_cases in E3 as [[[=] _]|(a3 & rest3 & _ & _ & Hins)].
  unfold insert_version in Hins. case_decide; [done|]. injection Hins as _ <-.
  destruct (Exec no_effect _) as [r4 c4] eqn:E4. apply Exec_no_effect in E4 as [Hs4 Hv4].
  destruct r4 as [[]|e]; intros [= <- <-]; [right|by left]. by rewrite Hs4, Hv4.
Qed.

Lemma apply_all_prefix files applied names c r c' :
  apply_all files applied names c = (r, c') →
  let pending := filter (λ name, name ∉ applied) names in
  ∃ k, (k ≤ length pending)%nat ∧ versions c' = versions c ++ take k pending ∧
    run_files files (take k pending) (schema c) = Ok (schema c') ∧
    (r = Ok tt → k = length pending).
Proof.
  simpl. revert c. induction names as [|name names IH]; intros c; simpl.
  { intros [= <- <-]. exists 0%nat. by rewrite app_nil_r. }
  assert (Hstop : ∀ c' r, same_tables c c' → is_ok r = false → ∃ k,
    (k ≤ length (filter (λ name, name ∉ applied) (name :: names)))%nat ∧
    versions c' = versions c ++ take k (filter (λ name, name ∉ applied) (name :: names)) ∧
    run_files files (take k (filter (λ name, name ∉ applied) (name :: names))) (schema c) =
      Ok (schema c') ∧
    (r = Ok tt → k = length (filter (λ name, name ∉ applied) (name :: names)))).
  { intros c1 r1 [Hs Hv] Hr. exists 0%nat. rewrite app_nil_r. simpl. rewrite Hs.
    split_and!; [lia|done|done|by intros ->]. }
  case_decide as Hin.
  - rewrite filter_cons_False by auto. apply IH.
  - destruct (ReadFile files name) as [body|e] eqn:Hread; [|intros [= <- <-]; by apply Hstop].
    destruct (apply_one name body c) as [r1 c1] eqn:E1.
    apply apply_one_cases in E1 as [[Hr1 Hsame]|(-> & Hs1 & Hv1)].
    + destruct r1 as [[]|e]; [done|]. intros [= <- <-]. by apply Hstop.
    + intros (k & Hk & Hv & Hs & Hr)%IH. clear Hstop. rewrite filter_cons_True by done.
      exists (S k). simpl. rewrite Hread. simpl. rewrite Hs1. simpl.
      split_and!; [lia|by rewrite Hv, Hv1, <- app_assoc|done|]. intros ->%Hr. done.
Qed.

Lemma Migrate_prefix files c r c' :
  Migrate files c = (r, c') →
  ∃ k, (k ≤ length (pending_migrations files c))%nat ∧
    versions c' = versions c ++ take k (pending_migrations files c) ∧
    run_files files (take k (pending_migrations files c)) (schema c) = Ok (schema c') ∧
    (r = Ok tt → k = length (pending_migrations files c)).
Proof.
  unfold Migrate, pending_migrations.
  assert (Hnone : ∀ (r : result unit) c1, is_ok r = false → same_tables c c1 → ∃ k,
    (k ≤ length (filter (λ name, name ∉ versions c) (migration_names files)))%nat ∧
    versions c1 = versions c ++
      take k (filter (λ name, name ∉ versions c) (migration_names files)) ∧
    run_files files (take k (filter (λ name, name ∉ versions c) (migration_names files)))
      (schema c) = Ok (schema c1) ∧
    (r = Ok tt → k = length (filter (λ name, name ∉ versions c) (migration_names files)))).
  { intros r1 c1 Hr [Hs Hv]. exists 0%nat. rewrite app_nil_r. simpl. rewrite Hs.
    split_and!; [lia|done|done|by intros ->]. }
  destruct (Exec no_effect c) as [r1 c1] eqn:E1. apply Exec_no_effect in E1 as [Hs1 Hv1].
  destruct r1 as [[]|e]; [|intros [= <- <-]; by apply Hnone].
  destruct (Exec no_effect c1) as [r2 c2] eqn:E2. apply Exec_no_effect in E2 as [Hs2 Hv2].
  unfold unlocked. destruct r2 as [[]|e].
  2: { intros [= <- <-]. apply Hnone; [done|]. simpl.
       destruct (Exec no_effect c2) as [r5 c5] eqn:E5. apply Exec_no_effect in E5 as [Hs5 Hv5].
       split; simpl; congruence. }
  destruct (Exec _ c2) as [r3 c3] eqn:E3.
  apply Exec_cases in E3 as [[Hr3 [Hs3 Hv3]]|(applied & rest & -> & _ & [= <- <-])].
  - destruct r3 as [applied|e]; [done|]. intros [= <- <-]. apply Hnone; [done|]. simpl.
    destruct (Exec no_effect c3) as [r5 c5] eqn:E5. apply Exec_no_effect in E5 as [Hs5 Hv5].
    split; simpl; congruence.
  - destruct (apply_all _ _ _ _) as [r4 c4] eqn:E4. apply apply_all_prefix in E4 as Hall.
    destruct Hall as (k & Hk & Hv & Hrun & Hr). simpl in *. intros [= <- <-].
    destruct (Exec no_effect c4) as [r5 c5] eqn:E5. apply Exec_no_effect in E5 as [Hs5 Hv5].
    simpl. rewrite Hv2, Hv1, Hs2, Hs1 in *. exists k. split_and!; [done|congruence| |done].
    by rewrite Hs5.
Qed.

Lemma filter_not_taken (before names : list string) k :
  NoDup names →
  filter (λ name, name ∉ before ++ take k (filter (λ name, name ∉ before) names)) names =
  drop k (filter (λ name, name ∉ before) names).
Proof.
  intros Hnd. set (l := filter (λ name, name ∉ before) names).
  assert (Hl : NoDup l) by (eapply sublist_NoDup; [exact Hnd|apply sublist_filter]).
  assert (Hf : filter (λ name, name ∉ before ++ take k l) names =
               filter (λ name, name ∉ take k l) l).
  { generalize (take k l) as taken. intros taken. unfold l. clear.
    rewrite list_filter_filter. apply list_filter_iff. intros x.
    rewrite not_elem_of_app. tauto. }
  rewrite Hf. trans (filter (λ name, name ∉ take k l) (take k l ++ drop k l));
    [by rewrite take_drop|]. rewrite filter_app.
  rewrite <- (take_drop k l) in Hl. apply NoDup_app in Hl as (_ & Hdisj & _).
  rewrite (proj2 (filter_nil_iff _ _)) by (apply Forall_forall; auto). simpl.
  assert (Hall : ∀ kept : list string, (∀ x, x ∈ kept → x ∉ take k l) →
    filter (λ name, name ∉ take k l) kept = kept).
  { induction kept as [|x kept IH]; intros Hk; [done|].
    rewrite filter_cons_True by (apply Hk; by left). f_equal. apply IH.
    intros y Hy. apply Hk. by right. }
  apply Hall. intros x Hx Ht. by apply (Hdisj x).
Qed.

(** C39: however a start-up ends, the migrations it applied are the first ones that
    were pending, in the order of their names, each recorded together with its
    effect on the schema; what is pending afterwards is the rest, for the next
    start, and it is nothing when the start-up succeeded. *)
Theorem migrations_apply_once files c r c' :
  NoDup files.*1 → Migrate files c = (r, c') →
  ∃ k, versions c' = versions c ++ take k (pending_migrations files c) ∧
    run_files files (take k (pending_migrations files c)) (schema c) = Ok (schema c') ∧
    pending_migrations files c' = drop k (pending_migrations files c) ∧
    (r = Ok tt → pending_migrations files c' = []).
Proof.
  intros Hnd (k & Hk & Hv & Hs & Hr)%Migrate_prefix. exists k.
  assert (Hrest : pending_migrations files c' = drop k (pending_migrations files c)).
  { unfold pending_migrations at 1. rewrite Hv. apply filter_not_taken.
    unfold migration_names. rewrite order_by_Permutation.
    eapply sublist_NoDup; [exact Hnd|apply sublist_filter]. }
  split_and!; [done|done|done|]. intros ->%Hr. by rewrite Hrest, drop_all.
Qed.
End migrate.

(** ** A closed start-up

    The third file's SQL is refused: the first two stay, the next start resumes. *)
Definition example_sql (body : string) (s : list string) : result (list string) :=
  if decide (body = "bad") then Err (Errorf "syntax error") else Ok (s ++ [body]).
Definition example_files : list (string * string) :=
  [("0003.sql", "bad"); ("0001.sql", "a"); ("README", "no"); ("0002.sql", "b")].
Definition example_conn : Conn (Schema := list string) := mkConn [] [] (replicate 20 None).

Lemma migrations_apply_once_witness :
  let final := snd (Migrate example_sql example_files example_conn) in
  versions final = ["0001.sql"; "0002.sql"] ∧ schema final = ["a"; "b"] ∧
  ∃ k, pending_migrations example_files final = drop k ["0001.sql"; "0002.sql"; "0003.sql"].
Proof.
  intros final. split; [vm_compute; reflexivity|]. split; [vm_compute; reflexivity|].
  destruct (migrations_apply_once example_sql example_files example_conn
    (fst (Migrate example_sql example_files example_conn)) final) as (k & _ & _ & Hp & _).
  - apply (bool_decide_unpack _). vm_compute. exact I.
  - apply surjective_pairing.
  - exists k. exact Hp.
Defined.
