(* ===== verification/Timestamps.v ===== *)
(** * Timestamps in JSON ([time.Time.UnmarshalJSON])

    [time.Parse] with the layout [2006-01-02T15:04:05Z07:00]: the digits each field
    takes, the ranges it is checked against, fractions after the seconds. *)
From S2P Require Import Prelude GoStrings CronSchedule Json.
From Stdlib Require Import Ascii.
Local Open Scope Z_scope.

Definition digit_value (c : ascii) : option Z :=
  if is_digit c then Some (Z.of_nat (code c) - 48) else None.

(** [getnum]: two digits, or one where the field is not fixed to two. *)
Definition getnum (fixed : bool) (s : string) : option (Z * string) :=
  (match s with
   | EmptyString => None
   | String a s1 =>
       x ← digit_value a;
       match s1 with
       | String b s2 =>
           match digit_value b with
           | Some y => Some (10 * x + y, s2)
           | None => if fixed then None else Some (x, s1)
           end
       | EmptyString => if fixed then None else Some (x, s1)
       end
   end)%stdpp.

Definition in_range (lo hi z : Z) : option unit :=
  if decide (lo ≤ z ≤ hi) then Some tt else None.
Definition skip_char (c : ascii) (s : string) : option string :=
  match s with
  | String d rest => if decide (d = c) then Some rest else None
  | EmptyString => None
  end.

Definition is_leap (y : Z) : bool :=
  bool_decide (y mod 4 = 0 ∧ (y mod 100 ≠ 0 ∨ y mod 400 = 0)).
Definition days_in (y m : Z) : Z :=
  if decide (m = 2) then if is_leap y then 29 else 28
  else if decide (m = 4 ∨ m = 6 ∨ m = 9 ∨ m = 11) then 30 else 31.

(** [parseNanoseconds]: at most nine digits count. *)
Definition nanoseconds (digits : string) : option Z :=
  (let kept := str_take 9 digits in
   n ← digits_N 0 kept;
   Some (Z.of_N n * 10 ^ (9 - Z.of_nat (len kept))))%stdpp.

(** A fraction, introduced by a period or a comma and followed by a digit. *)
Definition fraction (s : string) : option (Z * string) :=
  match s with
  | String c rest =>
      let '(digits, rest') := span_digits rest in
      if decide ((c = byte_of 46 ∨ c = byte_of 44) ∧ digits ≠ EmptyString)
      then (n ← nanoseconds digits; Some (n, rest'))%stdpp
      else Some (0, s)
  | EmptyString => Some (0, s)
  end.

(** The offset in seconds: [Z], or a sign, hours and minutes. *)
Definition zone (s : string) : option (Z * string) :=
  match s with
  | String c rest =>
      if decide (c = byte_of 90) then Some (0, rest)
      else
        (sign ← (if decide (c = byte_of 43) then Some 1
                 else if decide (c = byte_of 45) then Some (-1) else None);
         '(h, s1) ← getnum true rest;
         s2 ← skip_char (byte_of 58) s1;
         '(m, s3) ← getnum true s2;
         _ ← in_range 0 24 h; _ ← in_range 0 60 m;
         Some (sign * (h * 60 + m) * 60, s3))%stdpp
  | EmptyString => None
  end.

Definition parse_RFC3339 (s : string) : option Time :=
  ('(y1, s) ← getnum true s; '(y2, s) ← getnum true s;
   let y := 100 * y1 + y2 in
   s ← skip_char (byte_of 45) s;
   '(m, s) ← getnum true s; _ ← in_range 1 12 m;
   s ← skip_char (byte_of 45) s;
   '(d, s) ← getnum true s;
   s ← skip_char (byte_of 84) s;
   '(hh, s) ← getnum false s; _ ← in_range 0 23 hh;
   s ← skip_char (byte_of 58) s;
   '(mm, s) ← getnum true s; _ ← in_range 0 59 mm;
   s ← skip_char (byte_of 58) s;
   '(ss, s) ← getnum true s; _ ← in_range 0 59 ss;
   '(ns, s) ← fraction s;
   '(offset, s) ← zone s;
   _ ← in_range 1 (days_in y m) d;
   if decide (s = EmptyString)
   then Some (((days_of_civil (y, m, d) * 86400 + hh * 3600 + mm * 60 + ss) - offset) * Second
              + ns)
   else None)%stdpp.

(** It reads the raw bytes between the quotes, escapes and all. *)
Definition set_time (raw : string) (v : json) (old : Time) : option Time :=
  match v with
  | JNull => Some old
  | JStr _ => parse_RFC3339 (str_take (len raw - 2) (str_drop 1 raw))
  | _ => None
  end.
Definition set_time_ptr (raw : string) (v : json) (old : option Time) : option (option Time) :=
  match v with
  | JNull => Some None
  | _ => (t ← set_time raw v (default zero_time old); Some (Some t))%stdpp
  end.

(** What [Format] shows of a wall clock, read back as UTC. *)
Lemma parse_examples :
  parse_RFC3339 "2025-06-01T00:00:00Z" = Some (reference_second * Second) ∧
  parse_RFC3339 "2025-06-01T02:00:00.5+02:00" = Some (reference_second * Second + 500000000) ∧
  parse_RFC3339 "2025-02-29T00:00:00Z" = None ∧ parse_RFC3339 "2025-06-01" = None.
Proof. vm_compute. done. Qed.
