(* ===== verification/Api.v ===== *)
(** * The REST API: requests, responses and handlers ([src/pkg/scheduler/])

    [api_agents.go], [api_schedules.go], [api_inbox.go] and [api_auth.go], one
    definition for each handler.  A response carries the value given to
    [writeJSON], not its text. *)
From S2P Require Import Prelude GoStrings Json Model Database AgentStore RunStore StepStore.
From S2P Require Import MemoryStore CronSchedule Timestamps Secretbox Accounts Overview.
From S2P Require Import Net Llm Tools WebTools.
Local Open Scope go_scope.
Local Open Scope Z_scope.

(** ** Requests and responses

    [Segments] are the path's segments, unescaped; [Cookie] is the value of the
    first session cookie, [Body] what reading the body gives. *)
Module ApiRequest.
Record t := mk {
  Method : string;
  Segments : list string;
  Cookie : option string;
  Body : string * option error
}.
Definition Path (r : t) : string := "/" +:+ Join (Segments r) "/".
End ApiRequest.

Inductive payload :=
| PNone
| PError (message : string)
| PStatus (status : string)
| PSignedIn (signed_in : bool)
| PAgents (agents : list AgentOverview.t)
| PAgent (agent : Agent.t)
| PTools (tools : list (string * string))
| PModels (models : list ModelEndpoint.t)
| PMemory (records : list MemoryRecord.t)
| PSecrets (secrets : list Secret.t)
| PSecret (secret : Secret.t)
| PSchedule (schedule : Schedule.t)
| PFireTimes (fire_times : list Time)
| PRuns (runs : list Run.t)
| PRun (run : Run.t)
| PSteps (steps : list Step.t)
| PInbox (items : list InboxItem.t) (unread_count : nat)
| PSettings (settings : Settings.t)
| PFile (path : string)
| PRedirect (path : string).

Module ApiResponse.
Record t := mk { Status : Z; Payload : payload; SetCookie : option (string * Z) }.
End ApiResponse.

(** What a handler is served with: the server's fields and environment, and what
    this request meets of the clock, the network and the random source. *)
Module SchedulerServer.
Record t := mk {
  registry : Registry;
  sealer : Sealer.t;
  toolConfig : Config.t;
  getenv : string → string;
  bundle : string → bool
}.
End SchedulerServer.
Record Moment := mkMoment { clock : nat → Time; outside : Outside; rand : Random }.

Definition Handler := World → ApiResponse.t * World.
Definition respond (r : ApiResponse.t) : Handler := λ w, (r, w).
Definition writeJSON (status : Z) (p : payload) : ApiResponse.t := ApiResponse.mk status p None.
Definition writeError (status : Z) (message : string) : ApiResponse.t :=
  writeJSON status (PError message).
Definition no_content : ApiResponse.t := writeJSON 204 PNone.

(** [if err != nil] with the response [f] gives for the error. *)
Definition attempt {A} (f : error → ApiResponse.t) (m : Db A) (k : A → Handler) : Handler := λ w,
  match m w with
  | (Ok a, w') => k a w'
  | (Err e, w') => (f e, w')
  end.
Notation "x ←[ f ] m ; k" := (attempt f m (λ x, k))
  (at level 20, f at level 99, m at level 100, k at level 200, right associativity) : go_scope.
Notation "'do' [ f ] m ; k" := (attempt f m (λ _, k))
  (at level 20, f at level 99, m at level 100, k at level 200, right associativity) : go_scope.

(** ** Bodies *)
Definition members := list (string * (string * json)).
Definition decodeBody {A} (r : ApiRequest.t) (fields : members → option A) : result A :=
  body ←? read_all (ApiRequest.Body r);
  ms ←? unmarshal body;
  of_option type_error (fields ms).

Definition agent_fields (a : Agent.t) (ms : members) : option Agent.t :=
  (ID ← get_field set_string (Agent.ID a) "id" ms;
   Name ← get_field set_string (Agent.Name a) "name" ms;
   Description ← get_field set_string (Agent.Description a) "description" ms;
   Model ← get_field set_string (Agent.Model a) "model" ms;
   BaseURL ← get_field set_string (Agent.BaseURL a) "base_url" ms;
   SystemPrompt ← get_field set_string (Agent.SystemPrompt a) "system_prompt" ms;
   UserPrompt ← get_field set_string (Agent.UserPrompt a) "user_prompt" ms;
   Tools ← get_field (set_slice set_string EmptyString) (Agent.Tools a) "tools" ms;
   MaxSteps ← get_field set_int (Agent.MaxSteps a) "max_steps" ms;
   MaxTokens ← get_field set_int (Agent.MaxTokens a) "max_tokens" ms;
   MaxDurationSeconds ←
     get_field set_int (Agent.MaxDurationSeconds a) "max_duration_seconds" ms;
   SecretName ← get_field set_string (Agent.SecretName a) "secret_name" ms;
   ContextMode ← get_field set_string (Agent.ContextMode a) "context_mode" ms;
   ContextRuns ← get_field set_int (Agent.ContextRuns a) "context_runs" ms;
   Enabled ← get_field set_bool (Agent.Enabled a) "enabled" ms;
   CreatedAt ← get_field set_time (Agent.CreatedAt a) "created_at" ms;
   UpdatedAt ← get_field set_time (Agent.UpdatedAt a) "updated_at" ms;
   Some {| Agent.ID := ID; Agent.Name := Name; Agent.Description := Description;
           Agent.Model := Model; Agent.BaseURL := BaseURL; Agent.SystemPrompt := SystemPrompt;
           Agent.UserPrompt := UserPrompt; Agent.Tools := Tools; Agent.MaxSteps := MaxSteps;
           Agent.MaxTokens := MaxTokens; Agent.MaxDurationSeconds := MaxDurationSeconds;
           Agent.SecretName := SecretName; Agent.ContextMode := ContextMode;
           Agent.ContextRuns := ContextRuns; Agent.Enabled := Enabled;
           Agent.CreatedAt := CreatedAt; Agent.UpdatedAt := UpdatedAt |})%stdpp.

(** [&model.Agent{Enabled: true}]. *)
Definition new_agent : Agent.t :=
  {| Agent.ID := ""; Agent.Name := ""; Agent.Description := ""; Agent.Model := "";
     Agent.BaseURL := ""; Agent.SystemPrompt := ""; Agent.UserPrompt := ""; Agent.Tools := None;
     Agent.MaxSteps := 0; Agent.MaxTokens := 0; Agent.MaxDurationSeconds := 0;
     Agent.SecretName := ""; Agent.ContextMode := ""; Agent.ContextRuns := 0;
     Agent.Enabled := true; Agent.CreatedAt := zero_time; Agent.UpdatedAt := zero_time |}.

Definition schedule_fields (s : Schedule.t) (ms : members) : option Schedule.t :=
  (ID ← get_field set_string (Schedule.ID s) "id" ms;
   AgentID ← get_field set_string (Schedule.AgentID s) "agent_id" ms;
   CronExpression ← get_field set_string (Schedule.CronExpression s) "cron_expression" ms;
   Timezone ← get_field set_string (Schedule.Timezone s) "timezone" ms;
   Enabled ← get_field set_bool (Schedule.Enabled s) "enabled" ms;
   NextFireAt ← get_field set_time_ptr (Schedule.NextFireAt s) "next_fire_at" ms;
   LastFiredAt ← get_field set_time_ptr (Schedule.LastFiredAt s) "last_fired_at" ms;
   CreatedAt ← get_field set_time (Schedule.CreatedAt s) "created_at" ms;
   UpdatedAt ← get_field set_time (Schedule.UpdatedAt s) "updated_at" ms;
   Some (Schedule.mk ID AgentID CronExpression Timezone Enabled NextFireAt LastFiredAt CreatedAt
           UpdatedAt))%stdpp.
Definition new_schedule : Schedule.t :=
  Schedule.mk "" "" "" "" true None None zero_time zero_time.

Definition set_provider : string → json → CustomProvider.t → option CustomProvider.t :=
  set_struct (λ ms p,
    (Name ← get_field set_string (CustomProvider.Name p) "name" ms;
     BaseURL ← get_field set_string (CustomProvider.BaseURL p) "base_url" ms;
     SecretName ← get_field set_string (CustomProvider.SecretName p) "secret_name" ms;
     Models ← get_field (set_list set_string EmptyString) (CustomProvider.Models p) "models" ms;
     Some (CustomProvider.mk Name BaseURL SecretName Models))%stdpp).
Definition settings_fields (s : Settings.t) (ms : members) : option Settings.t :=
  (TelegramChatID ← get_field set_string (Settings.TelegramChatID s) "telegram_chat_id" ms;
   TelegramConfigured ← get_field set_bool (Settings.TelegramConfigured s)
                          "telegram_configured" ms;
   FailureAlertsEnabled ← get_field set_bool (Settings.FailureAlertsEnabled s)
                            "failure_alerts_enabled" ms;
   CustomProviders ← get_field (set_list set_provider (CustomProvider.mk "" "" "" []))
                       (Settings.CustomProviders s) "custom_providers" ms;
   Some (Settings.mk TelegramChatID TelegramConfigured FailureAlertsEnabled CustomProviders))
  %stdpp.

(** The chat of the last update that has one; 0 if none has. *)
Definition set_chat : string → json → Z → option Z :=
  set_struct (λ ms id, get_field (set_struct (λ ms id,
    get_field (set_struct (λ ms id, get_field set_int id "id" ms)) id "chat" ms))
    id "message" ms).
Definition decode_updates (body : string) : result (list Z) :=
  ms ←? unmarshal body; field (set_list set_chat 0) [] "result" ms.
Fixpoint last_chat (chatID : Z) (updates : list Z) : Z :=
  match updates with
  | [] => chatID
  | id :: rest => last_chat (if decide (id ≠ 0) then id else chatID) rest
  end.

Definition defaultRunListLimit : nat := 100.
Definition previewFireCount : nat := 5.
Definition inboxLimit : nat := 100.

(** [for i := 0; i < n; i++], leaving the loop when there is no next time. *)
Fixpoint preview `{!Cron} (n : nat) (spec : Spec) (at_ : Time) : list Time :=
  match n with
  | O => []
  | S n' =>
      let at_ := Next spec at_ EmptyString in
      if time_IsZero at_ then [] else at_ :: preview n' spec at_
  end.

Definition predefined_models : list ModelEndpoint.t :=
  let openai name model := ModelEndpoint.mk name model "https://api.openai.com/v1" "openai_key" in
  let google name model := ModelEndpoint.mk name model
    "https://generativelanguage.googleapis.com/v1beta/openai" "google_key" in
  let anthropic name model := ModelEndpoint.mk name model "https://api.anthropic.com/v1"
    "anthropic_key" in
  [openai "GPT-4o (OpenAI)" "gpt-4o"; openai "GPT-4o Mini (OpenAI)" "gpt-4o-mini";
   openai "GPT-4 Turbo (OpenAI)" "gpt-4-turbo";
   google "Gemini 1.5 Pro (Google)" "gemini-1.5-pro";
   google "Gemini 1.5 Flash (Google)" "gemini-1.5-flash";
   google "Gemini 1.0 Pro (Google)" "gemini-1.0-pro";
   anthropic "Claude Sonnet 5 (Anthropic)" "claude-sonnet-5";
   anthropic "Claude Opus 5 (Anthropic)" "claude-opus-5";
   anthropic "Claude Haiku 4.5 (Anthropic)" "claude-haiku-4-5"].

Definition custom_models (cp : CustomProvider.t) : list ModelEndpoint.t :=
  (λ m, ModelEndpoint.mk (m +:+ " (" +:+ CustomProvider.Name cp +:+ ")") m
          (CustomProvider.BaseURL cp) (CustomProvider.SecretName cp)) <$> CustomProvider.Models cp.

Definition available_models (secrets : list Secret.t) (settings : Settings.t)
  : list ModelEndpoint.t :=
  filter (λ pre, ModelEndpoint.SecretName pre ∈ Secret.Name <$> secrets) predefined_models ++
  (Settings.CustomProviders settings ≫= custom_models).

(** ** Handlers

    [id] is the path's wildcard. *)
Section handlers.
Context {PU : PgUuid} {G : Gcm} {B : Bcrypt} {CO : PgCollation} {CR : Cron} {NU : NetUrl}.
Context {PM : PgMessages}.
Context (s : SchedulerServer.t).
Implicit Types (r : ApiRequest.t) (m : Moment) (id : string).
Abbreviation sealer := (SchedulerServer.sealer s).

(** [writeError(w, status, err.Error())] and [writeStoreError]. *)
Definition error_status (status : Z) (err : error) : ApiResponse.t :=
  writeError status (error_text err).
Definition badRequest : error → ApiResponse.t := error_status 400.
Definition internal : error → ApiResponse.t := error_status 500.
Definition badGateway : error → ApiResponse.t := error_status 502.
Definition writeStoreError (err : error) : ApiResponse.t :=
  if errors_Is err ErrNotFound then writeError 404 "not found" else internal err.

(** *** Agents *)
Definition handleListAgents : Handler :=
  agents ←[internal] ListOverview OwnerUserID;
  respond (writeJSON 200 (PAgents agents)).

Definition validation_request (agent : Agent.t) : Llm.Request.t :=
  Llm.Request.mk (Agent.Model agent) [Message.mk RoleUser "respond with 'ok'" [] EmptyString] [].

Definition model_key (agent : Agent.t) : Db string :=
  if decide (Agent.SecretName agent ≠ EmptyString ∧ Agent.SecretName agent ≠ DefaultSecretName)
  then map_err (λ err, Errorf ("invalid credential " +:+ quoted (Agent.SecretName agent) +:+
                                ": " +:+ error_text err))
         (SecretStore_Reveal sealer OwnerUserID (Agent.SecretName agent))
  else ret (SchedulerServer.getenv s "TASKD_MODEL_API_KEY").

Definition validateAgentModel (out : Outside) (agent : Agent.t) : Db unit :=
  if decide (SchedulerServer.getenv s "TASKD_SKIP_VALIDATION" = "true") then ret tt
  else
    apiKey ← model_key agent;
    map_err (λ err, Errorf ("provider validation failed: " +:+ error_text err))
      (lift (fst (Complete (Llm.New (Agent.BaseURL agent) apiKey) (validation_request agent)
                    out quiet)));;
    ret tt.

(** What a created or patched agent goes through before it is stored. *)
Definition check_agent m (agent : Agent.t) (k : Agent.t → Handler) : Handler :=
  let agent := Agent.ApplyDefaults agent in
  match Agent.Validate agent with
  | Some err => respond (badRequest err)
  | None => do [badRequest] validateAgentModel (outside m) agent; k agent
  end.

Definition handleCreateAgent m r : Handler :=
  agent ←[badRequest] lift (decodeBody r (agent_fields new_agent));
  check_agent m agent (λ agent,
    created ←[internal] AgentStore_Create OwnerUserID agent;
    respond (writeJSON 201 (PAgent created))).

Definition handleGetAgent id : Handler :=
  agent ←[writeStoreError] AgentStore_Get OwnerUserID id;
  respond (writeJSON 200 (PAgent agent)).

Definition handleUpdateAgent m r id : Handler :=
  agent ←[writeStoreError] AgentStore_Get OwnerUserID id;
  agent ←[badRequest] lift (decodeBody r (agent_fields agent));
  check_agent m agent (λ agent,
    updated ←[writeStoreError] AgentStore_Update OwnerUserID id agent;
    respond (writeJSON 200 (PAgent updated))).

Definition handleDeleteAgent id : Handler :=
  do [writeStoreError] AgentStore_Delete OwnerUserID id; respond no_content.

Fixpoint tool_summaries (names : list string) : Db (list (string * string)) :=
  match names with
  | [] => ret []
  | name :: rest =>
      match Tools.Get (SchedulerServer.registry s) name with
      | None => tool_summaries rest
      | Some tool =>
          available ← try (Available tool OwnerUserID);
          summaries ← tool_summaries rest;
          ret (match available with
               | Ok true => (Tool.Name tool, Tool.Description tool) :: summaries
               | _ => summaries
               end)
      end
  end.
Definition handleListTools : Handler :=
  summaries ←[internal] tool_summaries (Names (SchedulerServer.registry s));
  respond (writeJSON 200 (PTools summaries)).

Definition handleListModels : Handler :=
  settings ←[internal] SettingsStore_Get (Some sealer) OwnerUserID;
  secrets ←[internal] SecretStore_List OwnerUserID;
  respond (writeJSON 200 (PModels (available_models secrets settings))).

Definition handleListMemory id : Handler :=
  do [writeStoreError] AgentStore_Get OwnerUserID id;
  records ←[internal] MemoryStore_ListByAgent OwnerUserID id MaxRecordsPerNamespace;
  respond (writeJSON 200 (PMemory records)).

Definition handleDeleteMemory id : Handler :=
  do [writeStoreError] MemoryStore_Delete OwnerUserID id; respond no_content.

(** *** Schedules and runs *)
Definition handleSetSchedule m r id : Handler :=
  do [writeStoreError] AgentStore_Get OwnerUserID id;
  requested ←[badRequest] lift (decodeBody r (schedule_fields new_schedule));
  spec ←[badRequest] lift (Parse (Schedule.CronExpression requested) (Schedule.Timezone requested));
  let nextFireAt := Next spec (clock m 1) EmptyString in
  if time_IsZero nextFireAt
  then respond (writeError 400 "schedule has no upcoming fire time")
  else
    stored ←[internal] ScheduleStore_Upsert OwnerUserID id requested nextFireAt EmptyString;
    respond (writeJSON 200 (PSchedule stored)).

Definition handleGetSchedule id : Handler :=
  stored ←[writeStoreError] ScheduleStore_GetByAgent OwnerUserID id;
  respond (writeJSON 200 (PSchedule stored)).

Definition handleDeleteSchedule id : Handler :=
  do [writeStoreError] ScheduleStore_DeleteByAgent OwnerUserID id; respond no_content.

Definition handlePreviewSchedule m r : Handler :=
  requested ←[badRequest] lift (decodeBody r (λ ms,
    (expression ← get_field set_string EmptyString "cron_expression" ms;
     timezone ← get_field set_string EmptyString "timezone" ms;
     Some (expression, timezone))%stdpp));
  spec ←[badRequest] lift (Parse requested.1 requested.2);
  respond (writeJSON 200 (PFireTimes (preview previewFireCount spec (clock m 1)))).

Definition handleListRuns id : Handler :=
  do [writeStoreError] AgentStore_Get OwnerUserID id;
  runs ←[internal] RunStore_ListByAgent OwnerUserID id defaultRunListLimit;
  respond (writeJSON 200 (PRuns runs)).

Definition handleTriggerRun m id : Handler :=
  agent ←[writeStoreError] AgentStore_Get OwnerUserID id;
  run ←[internal] RunStore_Create OwnerUserID (Agent.ID agent) None TriggerManual RunPending
                    (clock m 1);
  respond (writeJSON 201 (PRun run)).

Definition handleGetRun id : Handler :=
  run ←[writeStoreError] RunStore_Get OwnerUserID id; respond (writeJSON 200 (PRun run)).

Definition handleListRunSteps id : Handler :=
  do [writeStoreError] RunStore_Get OwnerUserID id;
  steps ←[internal] StepStore_ListByRun OwnerUserID id;
  respond (writeJSON 200 (PSteps steps)).

(** *** Inbox and settings *)
Definition handleInbox : Handler :=
  inbox ←[internal] RunStore_Inbox OwnerUserID inboxLimit;
  respond (writeJSON 200 (PInbox inbox.1 inbox.2)).

Definition handleMarkRead m id : Handler :=
  do [writeStoreError] RunStore_MarkRead OwnerUserID id (clock m 1); respond no_content.

Definition handleGetSettings : Handler :=
  settings ←[internal] SettingsStore_Get (Some sealer) OwnerUserID;
  respond (writeJSON 200 (PSettings settings)).

Definition update_settings (settings : Settings.t) : Handler :=
  updated ←[internal] SettingsStore_Update (Some sealer) OwnerUserID settings;
  respond (writeJSON 200 (PSettings updated)).

Definition handleUpdateSettings r : Handler :=
  settings ←[internal] SettingsStore_Get (Some sealer) OwnerUserID;
  settings ←[badRequest] lift (decodeBody r (settings_fields settings));
  update_settings settings.

Definition telegramBaseURL : string :=
  let configured := Config.TelegramBaseURL (SchedulerServer.toolConfig s) in
  if decide (configured ≠ EmptyString) then TrimSuffix configured "/"
  else "https://api.telegram.org".

(** [http.Get] and the body, at most a mebibyte of it. *)
Definition get_updates (token : string) : Http (Z * string) :=
  request ←h hret (NewRequest "GET" (telegramBaseURL +:+ "/bot" +:+ token +:+ "/getUpdates")
                     EmptyString []);
  response ←h client_Do defaultCheckRedirect request;
  body ←h hret (read_all (read_limited (Z.to_nat (2 ^ 20)) (HttpResponse.Body response)));
  hret (Ok (HttpResponse.StatusCode response, body)).

Definition handleDetectChat m : Handler :=
  token ←[internal] TelegramToken (Some sealer) OwnerUserID;
  if decide (token = EmptyString) then
    respond (writeError 400 "store a bot token first, then send /start to your bot")
  else
    answer ←[badGateway] lift (fst (get_updates token (outside m) quiet));
    if decide (answer.1 ≠ 200) then
      respond (writeError 502 ("telegram returned " +:+ itoa answer.1 +:+ ": " +:+
                               TrimSpace answer.2))
    else
      updates ←[λ _, writeError 502 "could not decode the Telegram response"]
        lift (decode_updates answer.2);
      let chatID := last_chat 0 updates in
      if decide (chatID = 0) then
        respond (writeError 404 "no messages found: send /start to your bot, then try again")
      else
        settings ←[internal] SettingsStore_Get (Some sealer) OwnerUserID;
        update_settings (Settings.mk (itoa chatID) (Settings.TelegramConfigured settings)
          (Settings.FailureAlertsEnabled settings) (Settings.CustomProviders settings)).

(** *** Signing in, and credentials *)
Definition set_cookie (value : string) (maxAge : Z) (r : ApiResponse.t) : ApiResponse.t :=
  ApiResponse.mk (ApiResponse.Status r) (ApiResponse.Payload r) (Some (value, maxAge)).

Definition handleLogin m r : Handler :=
  password ←[badRequest] lift (decodeBody r (get_field set_string EmptyString "password"));
  ok ←[internal] CheckPassword OwnerUserID password;
  if negb ok then respond (writeError 401 "incorrect password")
  else
    token ←[internal] CreateSession (rand m) OwnerUserID (clock m 1);
    respond (set_cookie token (SessionLifetime / Second) (writeJSON 200 (PSignedIn true))).

Definition handleLogout r : Handler := λ w,
  let w' := match ApiRequest.Cookie r with
            | Some token => snd (DeleteSession token w)
            | None => w
            end in
  (set_cookie EmptyString (-1) (writeJSON 200 (PSignedIn false)), w').

Definition handleSession m r : Handler := λ w,
  match ApiRequest.Cookie r with
  | None => (writeJSON 200 (PSignedIn false), w)
  | Some token =>
      let (user, w') := UserForSession token (clock m 1) w in
      (writeJSON 200 (PSignedIn (is_ok user)), w')
  end.

Definition handleListSecrets : Handler :=
  secrets ←[internal] SecretStore_List OwnerUserID;
  respond (writeJSON 200 (PSecrets secrets)).

Definition handlePutSecret m r name : Handler :=
  value ←[badRequest] lift (decodeBody r (get_field set_string EmptyString "value"));
  if decide (TrimSpace value = EmptyString) then
    respond (writeError 400 "a value is required")
  else
    secret ←[internal] SecretStore_Put (rand m) sealer OwnerUserID name value;
    respond (writeJSON 200 (PSecret secret)).

Definition handleDeleteSecret name : Handler :=
  do [writeStoreError] SecretStore_Delete OwnerUserID name; respond no_content.

(** *** Health, and the dashboard's files ([dashboard.go])

    [bundle] knows the embedded names. *)
Definition handleHealth : Handler :=
  do [λ err, writeError 503 (error_text err)] statement (λ _ d, Ok (tt, d));
  respond (writeJSON 200 (PStatus "ok")).

Definition exists_ (path : string) : bool :=
  let name := TrimPrefix path "/" in
  bool_decide (name = EmptyString) || SchedulerServer.bundle s name.
Definition dashboard r : Handler :=
  let path := ApiRequest.Path r in
  respond (writeJSON 200 (PFile (if exists_ path then path else "/"))).

(** ** Routes *)
Definition registerMemoryRoutes : list (string * (Moment → ApiRequest.t → string → Handler)) :=
  [("GET /api/agents/{id}/memory", λ _ _ id, handleListMemory id);
   ("DELETE /api/memory/{id}", λ _ _ id, handleDeleteMemory id)].
Definition registerAgentRoutes : list (string * (Moment → ApiRequest.t → string → Handler)) :=
  [("GET /api/agents", λ _ _ _, handleListAgents);
   ("POST /api/agents", λ m r _, handleCreateAgent m r);
   ("GET /api/agents/{id}", λ _ _ id, handleGetAgent id);
   ("PATCH /api/agents/{id}", λ m r id, handleUpdateAgent m r id);
   ("DELETE /api/agents/{id}", λ _ _ id, handleDeleteAgent id);
   ("GET /api/tools", λ _ _ _, handleListTools);
   ("GET /api/models", λ _ _ _, handleListModels)] ++ registerMemoryRoutes.
Definition registerScheduleRoutes : list (string * (Moment → ApiRequest.t → string → Handler)) :=
  [("PUT /api/agents/{id}/schedule", λ m r id, handleSetSchedule m r id);
   ("GET /api/agents/{id}/schedule", λ _ _ id, handleGetSchedule id);
   ("DELETE /api/agents/{id}/schedule", λ _ _ id, handleDeleteSchedule id);
   ("POST /api/schedules/preview", λ m r _, handlePreviewSchedule m r);
   ("GET /api/agents/{id}/runs", λ _ _ id, handleListRuns id);
   ("POST /api/agents/{id}/runs", λ m _ id, handleTriggerRun m id);
   ("GET /api/runs/{id}", λ _ _ id, handleGetRun id);
   ("GET /api/runs/{id}/steps", λ _ _ id, handleListRunSteps id)].
Definition registerAuthRoutes : list (string * (Moment → ApiRequest.t → string → Handler)) :=
  [("POST /api/login", λ m r _, handleLogin m r);
   ("POST /api/logout", λ _ r _, handleLogout r);
   ("GET /api/session", λ m r _, handleSession m r)].
Definition registerSecretRoutes : list (string * (Moment → ApiRequest.t → string → Handler)) :=
  [("GET /api/secrets", λ _ _ _, handleListSecrets);
   ("PUT /api/secrets/{name}", λ m r name, handlePutSecret m r name);
   ("DELETE /api/secrets/{name}", λ _ _ name, handleDeleteSecret name)].
Definition registerInboxRoutes : list (string * (Moment → ApiRequest.t → string → Handler)) :=
  [("GET /api/inbox", λ _ _ _, handleInbox);
   ("POST /api/runs/{id}/read", λ m _ id, handleMarkRead m id);
   ("GET /api/settings", λ _ _ _, handleGetSettings);
   ("PUT /api/settings", λ _ r _, handleUpdateSettings r);
   ("POST /api/telegram/detect-chat", λ m _ _, handleDetectChat m)].
Definition routes : list (string * (Moment → ApiRequest.t → string → Handler)) :=
  [("GET /healthz", λ _ _ _, handleHealth)] ++ registerAgentRoutes ++ registerScheduleRoutes ++
  registerAuthRoutes ++ registerSecretRoutes ++ registerInboxRoutes.
End handlers.
