(* ===== verification/ApiServer.v ===== *)
(** * The REST API: routing, the session check, and what a request may do
      ([src/pkg/scheduler/], [dashboard.go])

    The multiplexer over the registered patterns behind [requireSession], and the
    theorems about the server as a whole. *)
From S2P Require Import Prelude GoStrings Json Model Database AgentStore RunStore StepStore.
From S2P Require Import MemoryStore CronSchedule Timestamps Secretbox Accounts Overview.
From S2P Require Import Net Llm Tools WebTools RunLifecycle Api.
From Stdlib Require Import Ascii.
Local Open Scope go_scope.
Local Open Scope Z_scope.

(** ** The multiplexer ([http.ServeMux])

    A pattern is a method and a path; a segment in braces is a wildcard. *)
Definition is_wildcard (segment : string) : bool := HasPrefix segment "{".
Fixpoint match_segments (pattern segments : list string) : option string :=
  match pattern, segments with
  | [], [] => Some EmptyString
  | p :: pattern', s :: segments' =>
      if is_wildcard p then
        if decide (s = EmptyString) then None
        else match match_segments pattern' segments' with Some _ => Some s | None => None end
      else if decide (p = s) then match_segments pattern' segments' else None
  | _, _ => None
  end.

Definition space_byte : ascii := byte_of 32.
Definition slash_byte : ascii := byte_of 47.
Definition match_pattern (pattern : string) (r : ApiRequest.t) : option string :=
  match Split pattern space_byte with
  | [method; path] =>
      if decide (ApiRequest.Method r = method ∨ ApiRequest.Method r = "HEAD" ∧ method = "GET")
      then match_segments (tail (Split path slash_byte)) (ApiRequest.Segments r)
      else None
  | _ => None
  end.

(** No two registered patterns match the same request, so the first match is the
    most specific one. *)
Fixpoint find_route {H} (table : list (string * H)) (r : ApiRequest.t) : option (H * string) :=
  match table with
  | [] => None
  | (pattern, h) :: rest =>
      match match_pattern pattern r with
      | Some id => Some (h, id)
      | None => find_route rest r
      end
  end.

(** [cleanPath] on the segments: the mux redirects a path that it changes. *)
Fixpoint clean_loop (kept segments : list string) : list string :=
  match segments with
  | [] => reverse kept
  | segment :: rest =>
      if decide (segment = EmptyString ∨ segment = ".") then clean_loop kept rest
      else if decide (segment = "..") then clean_loop (tail kept) rest
      else clean_loop (segment :: kept) rest
  end.
Definition cleanPath (segments : list string) : list string :=
  let np := clean_loop [] segments in
  if decide (np = []) then [EmptyString]
  else if decide (last segments = Some EmptyString) then np ++ [EmptyString] else np.

Definition isPublicPath (path : string) : bool :=
  if decide (path = "/healthz") then true
  else if decide (path = "/api/login") then true
  else if decide (path = "/api/session") then true
  else negb (HasPrefix path "/api/").

Section server.
Context {PU : PgUuid} {G : Gcm} {B : Bcrypt} {CO : PgCollation} {CR : Cron} {NU : NetUrl}.
Context {PM : PgMessages}.
Implicit Types (s : SchedulerServer.t) (r : ApiRequest.t) (m : Moment) (w : World).

(** Everything no pattern takes goes to the dashboard's pattern [/]. *)
Definition mux s m r : Handler :=
  let segments := ApiRequest.Segments r in
  if decide (ApiRequest.Method r ≠ "CONNECT" ∧ cleanPath segments ≠ segments)
  then respond (writeJSON 301 (PRedirect ("/" +:+ Join (cleanPath segments) "/")))
  else
    match find_route (routes s) r with
    | Some (h, id) => h m r id
    | None => dashboard s r
    end.

Definition requireSession m r (next : Handler) : Handler := λ w,
  if isPublicPath (ApiRequest.Path r) then next w
  else
    match ApiRequest.Cookie r with
    | None => (writeError 401 "not signed in", w)
    | Some token =>
        match UserForSession token (clock m 0) w with
        | (Err _, w') => (writeError 401 "not signed in", w')
        | (Ok _, w') => next w'
        end
    end.

Definition serve s m r : Handler := requireSession m r (mux s m r).
End server.

(** ** Handlers and relations on the database *)
Definition hrespects (R : relation Database) (h : Handler) : Prop :=
  ∀ w, R (w_db w) (w_db (snd (h w))).

Section hrespects.
Context (R : relation Database) `{!PreOrder R}.

Lemma hrespects_respond r : hrespects R (respond r).
Proof. by intros w. Qed.

Lemma hrespects_attempt {A} f (m : Db A) (k : A → Handler) :
  respects R m → (∀ a, hrespects R (k a)) → hrespects R (attempt f m k).
Proof.
  intros Hm Hk w. unfold attempt. specialize (Hm w). destruct (m w) as [[a|e] w']; [|done].
  simpl in *. trans (w_db w'); [done|apply Hk].
Qed.

Lemma respects_eq {A} (m : Db A) : respects (=) m → respects R m.
Proof. intros Hm w. by rewrite <- (Hm w). Qed.
End hrespects.

(** The definition a handler is an instance of. *)
Ltac head_of t := lazymatch t with ?f _ => head_of f | _ => t end.

(** A registry whose availability checks only read. *)
Definition checks_read (reg : Registry) : Prop :=
  map_Forall (λ _ tool, ∀ userID, respects (=) (Available tool userID)) reg.

(** ** What the operations of the handlers leave alone *)
Section reads.
Context {PU : PgUuid} {G : Gcm} {B : Bcrypt} {CO : PgCollation} {CR : Cron} {NU : NetUrl}.
Context {PM : PgMessages}.
Context (R : relation Database) `{!PreOrder R}.

Lemma TelegramToken_reads sealer userID : respects R (TelegramToken sealer userID).
Proof. unfold TelegramToken, SecretStore_Reveal. destruct sealer; respects. Qed.
Lemma SettingsStore_Get_reads sealer userID : respects R (SettingsStore_Get sealer userID).
Proof. unfold SettingsStore_Get, TelegramToken, SecretStore_Reveal. destruct sealer; respects. Qed.
Lemma UserForSession_reads token now : respects R (UserForSession token now).
Proof. unfold UserForSession. respects. Qed.
Lemma CheckPassword_reads userID password : respects R (CheckPassword userID password).
Proof. unfold CheckPassword, password_of. respects. Qed.
Lemma ListOverview_reads userID : respects R (ListOverview userID).
Proof. unfold ListOverview, AgentStore_List, schedulesByAgent, lastRunByAgent. respects. Qed.
Lemma AgentStore_Get_reads userID id : respects R (AgentStore_Get userID id).
Proof. unfold AgentStore_Get. respects. Qed.
Lemma RunStore_Get_reads userID id : respects R (RunStore_Get userID id).
Proof. unfold RunStore_Get. respects. Qed.
Lemma SecretStore_List_reads userID : respects R (SecretStore_List userID).
Proof. unfold SecretStore_List. respects. Qed.

Lemma validateAgentModel_reads s out agent : respects R (validateAgentModel s out agent).
Proof. unfold validateAgentModel, model_key, SecretStore_Reveal. respects. Qed.

Lemma tool_summaries_reads s names :
  checks_read (SchedulerServer.registry s) → respects R (tool_summaries s names).
Proof.
  intros Hreg. induction names as [|name rest IH]; simpl; [respects|].
  destruct (Tools.Get _ name) as [tool|] eqn:Ht; [|exact IH].
  apply respects_bind; [typeclasses eauto| |].
  - apply respects_try. apply respects_eq; [typeclasses eauto|]. exact (Hreg name tool Ht OwnerUserID).
  - intros a. apply respects_bind; [typeclasses eauto|exact IH|]. intros. respects.
Qed.
End reads.

#[export] Hint Resolve TelegramToken_reads SettingsStore_Get_reads UserForSession_reads
  CheckPassword_reads ListOverview_reads AgentStore_Get_reads RunStore_Get_reads
  SecretStore_List_reads validateAgentModel_reads tool_summaries_reads : taskd.

(** ** Agents that are stored are valid *)
Definition agents_valid (d : Database) : Prop :=
  Forall (λ row, valid_agent (scanAgent row)) (agents d).
Definition stored_well (d : Database) : Prop := wf_database d ∧ agents_valid d.

Lemma same_agents_valid d d' : same_agents d d' → agents_valid d → agents_valid d'.
Proof. unfold agents_valid. by intros ->. Qed.

(** An operation that keeps the constraints and does not touch the agents. *)
Lemma keeps_stored_well {A} (m : Db A) :
  keeps wf_database m → respects same_agents m → keeps stored_well m.
Proof.
  intros Hwf Hsame w [Hw Hv]. split; [by apply Hwf|].
  by apply (same_agents_valid (w_db w)), Hv.
Qed.

(** Validity is a matter of the settings. *)
Lemma same_settings_valid a a' : same_settings a a' → valid_agent a → valid_agent a'.
Proof. intros Hs []. rewrite Hs. by split. Qed.

Lemma valid_set_columns a row :
  valid_agent a → valid_agent (scanAgent (set_agent_columns a row)).
Proof. apply same_settings_valid, same_settings_scan. Qed.

Section stored_well.
Context {PU : PgUuid} {G : Gcm} {B : Bcrypt} {CO : PgCollation} {CR : Cron} {NU : NetUrl}.
Context {PM : PgMessages}.

Lemma AgentStore_Create_stored_well userID a :
  valid_agent a → keeps stored_well (AgentStore_Create userID a).
Proof.
  intros Ha w [Hw Hv]. split; [by apply AgentStore_Create_wf|]. clear Hw. revert w Hv.
  change (keeps agents_valid (AgentStore_Create userID a)). unfold AgentStore_Create. respects.
  apply respects_statement; [typeclasses eauto|].
  intros r d row d' (u & _ & -> & _ & _ & ->)%insert_agent_Ok Hv.
  apply Forall_app. split; [exact Hv|]. constructor; [by apply valid_set_columns|constructor].
Qed.

Lemma AgentStore_Update_stored_well userID id a :
  valid_agent a → keeps stored_well (AgentStore_Update userID id a).
Proof.
  intros Ha w [Hw Hv]. split; [by apply AgentStore_Update_wf|]. clear Hw. revert w Hv.
  change (keeps agents_valid (AgentStore_Update userID id a)). unfold AgentStore_Update. respects.
  apply respects_statement; [typeclasses eauto|]. unfold update_agent.
  intros r d row d' (_ & _ & H)%rbind_Ok Hv. apply rbind_Ok in H as (i & _ & H).
  apply rbind_Ok in H as (u & _ & H). apply rbind_Ok in H as (row0 & _ & [= _ <-]).
  apply Forall_update_where; [exact Hv|]. intros row1 _ _.
  exact (valid_set_columns a _ Ha).
Qed.

Lemma AgentStore_Delete_stored_well userID id : keeps stored_well (AgentStore_Delete userID id).
Proof.
  intros w [Hw Hv]. split; [by apply AgentStore_Delete_wf|]. clear Hw. revert w Hv.
  change (keeps agents_valid (AgentStore_Delete userID id)). unfold AgentStore_Delete. respects.
  apply respects_statement; [typeclasses eauto|]. unfold delete_agent.
  intros r d n d' (i & _ & H)%rbind_Ok Hv. apply rbind_Ok in H as (u & _ & [= _ <-]).
  unfold agents_valid, delete_agents. simpl. by apply Forall_delete_where.
Qed.

(** The other operations that write. *)
Ltac by_statements :=
  respects; (apply respects_statement; [typeclasses eauto|]);
  intros rep d x d' Hs;
  try solve [intros Hd; eauto with taskd
            |unfold upsert_schedule, delete_schedule, insert_run, mark_read, delete_memory,
               delete_secret, put_secret, update_user, insert_session in Hs; by inv_statement Hs].
Ltac writes := apply keeps_stored_well; by_statements.

Lemma ScheduleStore_Upsert_stored_well userID id sch t wall :
  keeps stored_well (ScheduleStore_Upsert userID id sch t wall).
Proof. unfold ScheduleStore_Upsert. writes. Qed.
Lemma ScheduleStore_DeleteByAgent_stored_well userID id :
  keeps stored_well (ScheduleStore_DeleteByAgent userID id).
Proof. unfold ScheduleStore_DeleteByAgent. writes. Qed.
Lemma RunStore_Create_stored_well userID id sch trig st t :
  keeps stored_well (RunStore_Create userID id sch trig st t).
Proof. unfold RunStore_Create. writes. Qed.
Lemma RunStore_MarkRead_stored_well userID id t : keeps stored_well (RunStore_MarkRead userID id t).
Proof. unfold RunStore_MarkRead. writes. Qed.
Lemma MemoryStore_Delete_stored_well userID id : keeps stored_well (MemoryStore_Delete userID id).
Proof.
  apply keeps_stored_well; [apply MemoryStore_Delete_wf|]. unfold MemoryStore_Delete. by_statements.
Qed.
Lemma SecretStore_Delete_stored_well userID name :
  keeps stored_well (SecretStore_Delete userID name).
Proof. unfold SecretStore_Delete. writes. Qed.
Lemma SecretStore_Put_stored_well rand sealer userID name v :
  keeps stored_well (SecretStore_Put rand sealer userID name v).
Proof. unfold SecretStore_Put. writes. Qed.
Lemma CreateSession_stored_well rand userID t : keeps stored_well (CreateSession rand userID t).
Proof. unfold CreateSession. writes. Qed.
Lemma DeleteSession_stored_well token : keeps stored_well (DeleteSession token).
Proof.
  unfold DeleteSession. writes. injection Hs as _ <-. intros Hd.
  by apply wf_delete_session.
Qed.
Lemma SettingsStore_Update_stored_well sealer userID st :
  keeps stored_well (SettingsStore_Update sealer userID st).
Proof.
  unfold SettingsStore_Update. apply respects_bind; [typeclasses eauto| |].
  - writes. intros Hd. by eapply wf_update_user; [|exact Hs|].
  - intros _. apply SettingsStore_Get_reads. typeclasses eauto.
Qed.
End stored_well.

#[export] Hint Resolve AgentStore_Delete_stored_well ScheduleStore_Upsert_stored_well
  ScheduleStore_DeleteByAgent_stored_well RunStore_Create_stored_well
  RunStore_MarkRead_stored_well MemoryStore_Delete_stored_well SecretStore_Delete_stored_well
  SecretStore_Put_stored_well CreateSession_stored_well DeleteSession_stored_well
  SettingsStore_Update_stored_well : taskd.

(** ** A request keeps what is stored in order *)
Section keeps.
Context {PU : PgUuid} {G : Gcm} {B : Bcrypt} {CO : PgCollation} {CR : Cron} {NU : NetUrl}.
Context {PM : PgMessages}.
Context (s : SchedulerServer.t) (Hreg : checks_read (SchedulerServer.registry s)).
Implicit Types (r : ApiRequest.t) (m : Moment) (w : World).

Definition keeps_in_order (h : Handler) : Prop := hrespects (keeping stored_well) h.

(** An operation of the handlers keeps them, by its own lemma. *)
Ltac in_order :=
  repeat first
    [ progress intros
    | apply hrespects_attempt; [typeclasses eauto| |]
    | apply hrespects_respond; typeclasses eauto
    | solve [auto with taskd]
    | solve [auto with taskd typeclass_instances]
    | progress respects ].

Lemma check_agent_in_order m agent k :
  (∀ a, valid_agent a → keeps_in_order (k a)) → keeps_in_order (check_agent s m agent k).
Proof.
  intros Hk. unfold check_agent. destruct (Agent.Validate _) eqn:Hv; [in_order|].
  apply hrespects_attempt; [typeclasses eauto|apply validateAgentModel_reads; typeclasses eauto|].
  intros _. apply Hk. by apply Validate_accepts.
Qed.

Lemma handleCreateAgent_in_order m r : keeps_in_order (handleCreateAgent s m r).
Proof.
  unfold handleCreateAgent. in_order. apply check_agent_in_order. intros a0 Ha.
  apply hrespects_attempt; [typeclasses eauto|by apply AgentStore_Create_stored_well|]. in_order.
Qed.

Lemma handleUpdateAgent_in_order m r id : keeps_in_order (handleUpdateAgent s m r id).
Proof.
  unfold handleUpdateAgent. in_order. apply check_agent_in_order. intros a1 Ha.
  apply hrespects_attempt; [typeclasses eauto|by apply AgentStore_Update_stored_well|]. in_order.
Qed.

Lemma update_settings_in_order st : keeps_in_order (update_settings s st).
Proof. unfold update_settings. in_order. Qed.

Lemma handleDetectChat_in_order m : keeps_in_order (handleDetectChat s m).
Proof.
  unfold handleDetectChat, update_settings. in_order.
Qed.

Lemma handleLogout_in_order r : keeps_in_order (handleLogout r).
Proof.
  intros w. unfold handleLogout. simpl. destruct (ApiRequest.Cookie r) as [token|]; [|done].
  apply DeleteSession_stored_well.
Qed.

Lemma handleSession_in_order m r : keeps_in_order (handleSession m r).
Proof.
  intros w. unfold handleSession. destruct (ApiRequest.Cookie r) as [token|]; [|done].
  pose proof (UserForSession_reads (=) token (clock m 1) w) as Hw.
  destruct (UserForSession token _ w) as [user w']. simpl in *. by rewrite Hw.
Qed.

Lemma routes_in_order :
  Forall (λ route, ∀ m r id, keeps_in_order (route.2 m r id)) (routes s).
Proof.
  unfold routes, registerAgentRoutes, registerMemoryRoutes, registerScheduleRoutes,
    registerAuthRoutes, registerSecretRoutes, registerInboxRoutes. simpl.
  repeat (apply Forall_cons; split; [intros m r id|]); [..|apply Forall_nil; exact I]; simpl;
    auto using handleCreateAgent_in_order, handleUpdateAgent_in_order, handleDetectChat_in_order,
      handleLogout_in_order, handleSession_in_order.
  all: lazymatch goal with |- keeps_in_order ?h => let f := head_of h in unfold f end.
  all: in_order.
  apply respects_statement; [typeclasses eauto|]. by intros r0 d [] d' [= <-].
Qed.

Lemma find_route_elem {H} (table : list (string * H)) r h id :
  find_route table r = Some (h, id) →
  ∃ pattern, (pattern, h) ∈ table ∧ match_pattern pattern r = Some id.
Proof.
  induction table as [|[pattern h0] rest IH]; simpl; [done|].
  destruct (match_pattern pattern r) as [id0|] eqn:Hm.
  - intros [= -> ->]. exists pattern. split; [by left|done].
  - intros (p & Hin & Hp)%IH. exists p. split; [by right|done].
Qed.

Lemma mux_in_order m r : keeps_in_order (mux s m r).
Proof.
  unfold mux. case_decide; [in_order|]. destruct (find_route _ _) as [[h id]|] eqn:Hf.
  - apply find_route_elem in Hf as (pattern & Hin & _). pose proof routes_in_order as Hall.
    rewrite Forall_forall in Hall. exact (Hall _ Hin m r id).
  - unfold dashboard. in_order.
Qed.

(** C34: whatever requests the API serves, the database keeps its constraints and
    every agent in it is one that [Validate] accepts. *)
Theorem api_keeps_agents_valid m r : hrespects (keeping stored_well) (serve s m r).
Proof.
  intros w. unfold serve, requireSession. destruct (isPublicPath _); [apply mux_in_order|].
  destruct (ApiRequest.Cookie r) as [token|]; [|done].
  pose proof (UserForSession_reads (=) token (clock m 0) w) as Hw.
  destruct (UserForSession token _ w) as [[user|e] w']; simpl in *; rewrite Hw; [|done].
  apply mux_in_order.
Qed.
End keeps.

(** ** The session check *)
Definition public_patterns : list string := ["GET /healthz"; "POST /api/login"; "GET /api/session"].

Fixpoint has_slash (s : string) : bool :=
  match s with
  | EmptyString => false
  | String c s' => bool_decide (c = slash_byte) || has_slash s'
  end.
Lemma has_slash_app s t : has_slash (s +:+ t) = has_slash s || has_slash t.
Proof. induction s as [|c s IH]; [done|]. rewrite append_cons. simpl. by rewrite IH, orb_assoc. Qed.

(** What the patterns of the closed routes require of a path: [api], then a literal
    segment that is neither [login] nor [session]. *)
Definition closed_pattern (pattern : string) : bool :=
  match Split pattern space_byte with
  | [_; path] =>
      match tail (Split path slash_byte) with
      | p1 :: p2 :: _ =>
          bool_decide (p1 = "api") && negb (is_wildcard p2) &&
          bool_decide (p2 ≠ "login" ∧ p2 ≠ "session")
      | _ => false
      end
  | _ => false
  end.

Lemma Join_second_segment second third word :
  has_slash word = false → Join (second :: third) "/" = word → second = word.
Proof.
  intros Hw. destruct third as [|x third]; [done|].
  change (Join (second :: x :: third) "/") with (second +:+ "/" +:+ Join (x :: third) "/").
  intros <-. rewrite !has_slash_app in Hw. simpl in Hw. by rewrite orb_true_r in Hw.
Qed.

Lemma api_path_closed second third :
  second ≠ "login" → second ≠ "session" →
  isPublicPath ("/" +:+ Join ("api" :: second :: third) "/") = false.
Proof.
  intros Hl Hs. change (Join ("api" :: second :: third) "/") with
    ("api/" +:+ Join (second :: third) "/").
  unfold isPublicPath. case_decide as H1; [discriminate H1|].
  case_decide as H2.
  { injection H2 as H2. by apply Join_second_segment in H2. }
  case_decide as H3; [|reflexivity].
  injection H3 as H3. by apply Join_second_segment in H3.
Qed.

Lemma closed_pattern_not_public pattern r id :
  closed_pattern pattern = true → match_pattern pattern r = Some id →
  isPublicPath (ApiRequest.Path r) = false.
Proof.
  unfold closed_pattern, match_pattern, ApiRequest.Path.
  destruct (Split pattern space_byte) as [|method [|path [|??]]]; try done.
  destruct (tail (Split path slash_byte)) as [|p1 [|p2 rest]]; try done.
  intros [[Hp1 Hp2]%andb_true_iff Hne]%andb_true_iff. apply bool_decide_eq_true in Hp1, Hne.
  subst p1. apply negb_true_iff in Hp2. case_decide; [|done].
  destruct (ApiRequest.Segments r) as [|s1 [|s2 third]]; simpl; try done.
  - by case_decide.
  - case_decide; [|done]. subst s1. rewrite Hp2. case_decide; [|done]. subst s2.
    intros _. apply api_path_closed; tauto.
Qed.

Section closed.
Context {PU : PgUuid} {G : Gcm} {B : Bcrypt} {CO : PgCollation} {CR : Cron} {NU : NetUrl}.
Context {PM : PgMessages}.
Implicit Types (s : SchedulerServer.t) (r : ApiRequest.t) (m : Moment) (w : World).

(** Every route but three is closed. *)
Lemma open_routes s :
  Forall (λ route, closed_pattern route.1 = true ∨
    route.2 ∈ [λ _ _ _, handleHealth; λ m r _, handleLogin m r; λ m r _, handleSession m r])
    (routes s).
Proof.
  unfold routes, registerAgentRoutes, registerMemoryRoutes, registerScheduleRoutes,
    registerAuthRoutes, registerSecretRoutes, registerInboxRoutes. simpl.
  repeat (apply Forall_cons; split); [..|by apply Forall_nil]. all: cbn [fst snd].
  all: first [left; vm_compute; reflexivity|right; set_solver].
Qed.

Definition live (token : string) (now : Time) (d : Database) : Prop :=
  Exists (λ row, SessionRow.id row = token ∧ timestamptz now < SessionRow.expires_at row)
         (sessions d).
Definition signed_in m r (d : Database) : Prop :=
  match ApiRequest.Cookie r with Some token => live token (clock m 0) d | None => False end.

(** Responses that tell nothing of what is stored. *)
Definition tells_nothing (p : payload) : Prop :=
  match p with
  | PError _ | PStatus _ | PSignedIn _ | PFile _ | PRedirect _ => True
  | _ => False
  end.

(** Signing in with the owner's password adds a session, and nothing else happens. *)
Definition signs_in r (d d' : Database) : Prop :=
  ∃ password row session,
    decodeBody r (get_field set_string EmptyString "password") = Ok password ∧
    user_row OwnerUserID d = Ok row ∧ UserRow.password_hash row ≠ EmptyString ∧
    CompareHashAndPassword (UserRow.password_hash row) password = true ∧
    d' = with_sessions d (sessions d ++ [session]).

Lemma UserForSession_Ok token now w u w' :
  UserForSession token now w = (Ok u, w') → w_db w' = w_db w ∧ live token now (w_db w).
Proof.
  intros (row & w1 & (r & _ & _ & Hq & Hd)%map_err_Ok%query_Ok & [_ ->]%ret_Ok)%bind_Ok.
  split; [done|]. apply of_option_Ok, first_where_Some in Hq as [Hin Hrow].
  apply Exists_exists. eauto.
Qed.

Lemma CheckPassword_true password w w' :
  CheckPassword OwnerUserID password w = (Ok true, w') →
  w_db w' = w_db w ∧ ∃ row, user_row OwnerUserID (w_db w) = Ok row ∧
    UserRow.password_hash row ≠ EmptyString ∧
    CompareHashAndPassword (UserRow.password_hash row) password = true.
Proof.
  intros (hash & w1 & Hp & Hk)%bind_Ok.
  apply bind_Ok in Hp as (row & w2 & (r & _ & _ & Hq & Hd)%map_err_Ok%query_Ok & [-> ->]%ret_Ok).
  case_decide; [apply ret_Ok in Hk as [[=] _]|]. apply ret_Ok in Hk as [Hc ->].
  split; [done|]. exists row. by rewrite Hc.
Qed.

Lemma CreateSession_effect rand now w res w' :
  CreateSession rand OwnerUserID now w = (res, w') →
  w_db w' = w_db w ∨ ∃ session, w_db w' = with_sessions (w_db w) (sessions (w_db w) ++ [session]).
Proof.
  unfold CreateSession, bind, lift. destruct (rand 0%nat 32%nat) as [raw|e];
    [|intros [= _ <-]; by left].
  destruct (statement _ w) as [r1 w1] eqn:Hs. apply statement_effect in Hs.
  assert (Hw : w_db w1 = w_db w ∨ ∃ session,
            w_db w1 = with_sessions (w_db w) (sessions (w_db w) ++ [session])).
  { destruct Hs as [?|(r & x & Hi)]; [by left|right]. unfold insert_session in Hi.
    apply rbind_Ok in Hi as (u & _ & Hi). case_decide; [done|]. case_decide; [done|].
    injection Hi as _ <-. eauto. }
  by destruct r1; intros [= _ <-].
Qed.

Lemma handleLogin_effect m r w resp w' :
  handleLogin m r w = (resp, w') →
  tells_nothing (ApiResponse.Payload resp) ∧ (w_db w' = w_db w ∨ signs_in r (w_db w) (w_db w')).
Proof.
  unfold handleLogin, attempt, lift.
  destruct (decodeBody r _) as [password|e] eqn:Hdec; [|intros [= <- <-]; split; [done|by left]].
  pose proof (CheckPassword_reads (=) OwnerUserID password w) as Hsame.
  destruct (CheckPassword _ _ w) as [[ok|e] w1] eqn:Hc; simpl in Hsame;
    [|intros [= <- <-]; split; [done|by left]].
  destruct ok; simpl; [|intros [= <- <-]; split; [done|by left]].
  apply CheckPassword_true in Hc as (Hd1 & row & Hrow & Hne & Hcmp).
  destruct (CreateSession _ _ _ w1) as [r2 w2] eqn:Hs. apply CreateSession_effect in Hs.
  rewrite Hd1 in Hs. intros Hresp.
  assert (Hend : tells_nothing (ApiResponse.Payload resp) ∧ w' = w2)
    by (destruct r2; injection Hresp as <- <-; done).
  destruct Hend as [? ->]. split; [done|]. destruct Hs as [?|[session Hs]]; [by left|right].
  by exists password, row, session.
Qed.

(** The public part of the API. *)
Lemma mux_public s m r w resp w' :
  isPublicPath (ApiRequest.Path r) = true → mux s m r w = (resp, w') →
  tells_nothing (ApiResponse.Payload resp) ∧ (w_db w' = w_db w ∨ signs_in r (w_db w) (w_db w')).
Proof.
  intros Hpub. unfold mux. case_decide; [intros [= <- <-]; split; [done|by left]|].
  destruct (find_route _ _) as [[h id]|] eqn:Hf; [|intros [= <- <-]; split; [done|by left]].
  apply find_route_elem in Hf as (pattern & Hin & Hm).
  pose proof (open_routes s) as Hopen. rewrite Forall_forall in Hopen.
  destruct (Hopen _ Hin) as [Hclosed|Hh]; simpl in *.
  { pose proof (closed_pattern_not_public _ _ _ Hclosed Hm). congruence. }
  rewrite !elem_of_cons in Hh. destruct Hh as [->|[->|[->|Hh%not_elem_of_nil]]]; [..|done].
  - unfold handleHealth, attempt.
    destruct (statement _ w) as [res w1] eqn:Hs. apply statement_effect in Hs.
    assert (Hd : w_db w1 = w_db w) by (destruct Hs as [?|(? & ? & [= _ ?])]; congruence).
    destruct res; intros [= <- <-]; (split; [done|by left]).
  - apply handleLogin_effect.
  - unfold handleSession. destruct (ApiRequest.Cookie r) as [token|];
      [|intros [= <- <-]; split; [done|by left]].
    pose proof (UserForSession_reads (=) token (clock m 1) w) as Hsame.
    destruct (UserForSession _ _ w) as [user w1]. intros [= <- <-]. split; [done|by left].
Qed.

(** C32: without a live session the API is closed: a request for anything but the
    dashboard's files, the health check, signing in and the sign-in state is
    answered 401, no response tells anything of what is stored, and the only
    effect a request can have is a new session for whoever knows the password. *)
Theorem closed_without_session s m r w resp w' :
  ¬ signed_in m r (w_db w) → serve s m r w = (resp, w') →
  tells_nothing (ApiResponse.Payload resp) ∧
  (w_db w' = w_db w ∨ signs_in r (w_db w) (w_db w')) ∧
  (isPublicPath (ApiRequest.Path r) = false →
     resp = writeError 401 "not signed in" ∧ w_db w' = w_db w).
Proof.
  intros Hno. unfold serve, requireSession.
  destruct (isPublicPath _) eqn:Hpub.
  { intros Hs. destruct (mux_public _ _ _ _ _ _ Hpub Hs). done. }
  intros Hs. assert (Hend : resp = writeError 401 "not signed in" ∧ w_db w' = w_db w).
  { unfold signed_in in Hno. destruct (ApiRequest.Cookie r) as [token|].
    - pose proof (UserForSession_reads (=) token (clock m 0) w) as Hsame.
      destruct (UserForSession _ _ w) as [[u|e] w1] eqn:Hu.
      + by apply UserForSession_Ok in Hu as [_ Hlive].
      + by injection Hs as <- <-.
    - by injection Hs as <- <-. }
  destruct Hend as [-> Hd]. split_and!; [done|by left|done].
Qed.
End closed.

(** ** The installation's registry only reads *)
Lemma Register_checks_read tool reg :
  (∀ userID, respects (=) (Available tool userID)) → checks_read reg →
  checks_read (Register tool reg).
Proof. intros Ht Hr. by apply map_Forall_insert_2. Qed.

Lemma BuildRegistry_checks_read `{!PgUuid, !PgJsonb, !Gcm, !NetUrl} pool sealer config :
  checks_read (BuildRegistry pool (Some (TelegramDelivery sealer)) config).
Proof.
  assert (Hnone : ∀ tool, Tool.Configured tool = None →
    ∀ userID, respects (=) (Available tool userID)).
  { intros tool Ht userID. unfold Available. rewrite Ht. by intros w. }
  unfold BuildRegistry. apply Register_checks_read.
  { intros userID. unfold Available. cbn [Tool.Configured SendTelegram].
    unfold SendTelegram_Configured. apply respects_bind; [typeclasses eauto| |by intros a w].
    apply TelegramDelivery_reads. typeclasses eauto. }
  repeat case_match; repeat (apply Register_checks_read; [by apply Hnone|]);
    apply map_Forall_empty.
Qed.

(** ** Closed requests *)
Module Served.
#[local] Existing Instance example_uuid.
#[local] Existing Instance example_jsonb.
#[local] Existing Instance example_gcm.
#[local] Existing Instance example_url.
#[local] Existing Instance example_bcrypt.
#[local] Existing Instance example_collation.
#[local] Existing Instance example_cron.
#[export] Instance messages : PgMessages := λ code, "SQLSTATE " +:+ code.

Definition getenv (name : string) : string :=
  if decide (name = "TASKD_SKIP_VALIDATION") then "true" else EmptyString.
Definition server : SchedulerServer.t :=
  SchedulerServer.mk (BuildRegistry true (Some (TelegramDelivery (Some example_sealer)))
                        (ConfigFromEnv getenv))
    example_sealer (ConfigFromEnv getenv) getenv (λ name, bool_decide (name = "app.js")).
Definition moment : Moment := mkMoment (λ _, 10 * Second) example_internet example_random.
Definition database : Database :=
  with_sessions example_database [SessionRow.mk "token" OwnerUserID (20 * Second)].
Definition world : World := mkWorld database (answer 0 <$> seq 2 9).
Definition request (method : string) (segments : list string) (cookie : option string)
    (body : list (string * doc)) : ApiRequest.t :=
  ApiRequest.mk method segments cookie (Marshal (DObj body), None).
Definition answered (r : ApiRequest.t) : ApiResponse.t * World := serve server moment r world.
Definition create : ApiRequest.t :=
  request "POST" ["api"; "agents"] (Some "token") [("name", DStr "mail"); ("model", DStr "gpt")].
Definition patch : ApiRequest.t :=
  request "PATCH" ["api"; "agents"; example_id 1] (Some "token") [("name", DStr "renamed")].
Definition plan (path : list string) : ApiRequest.t :=
  request "PUT" path (Some "token")
    [("cron_expression", DStr "@hourly"); ("timezone", DStr "Europe/Berlin")].
End Served.

Lemma api_keeps_agents_valid_witness :
  let served := Served.answered Served.create in
  ApiResponse.Status (fst served) = 201 ∧ length (agents (w_db (snd served))) = 2%nat ∧
  stored_well (w_db (snd served)).
Proof.
  intros served. split; [vm_compute; reflexivity|]. split; [vm_compute; reflexivity|].
  apply (@api_keeps_agents_valid example_uuid example_gcm example_bcrypt example_collation
    example_cron example_url Served.messages Served.server
    (@BuildRegistry_checks_read example_uuid example_jsonb example_gcm example_url true
      (Some example_sealer) _) Served.moment Served.create Served.world).
  split.
  - wf_concrete.
  - constructor; [|constructor]. apply Validate_accepts. vm_compute. reflexivity.
Defined.

Lemma closed_without_session_witness :
  let served := Served.answered
    (Served.request "DELETE" ["api"; "agents"; example_id 1] (Some "stolen") []) in
  fst served = writeError 401 "not signed in" ∧ w_db (snd served) = Served.database.
Proof.
  intros served.
  destruct (@closed_without_session example_uuid example_gcm example_bcrypt example_collation
    example_cron example_url Served.messages Served.server Served.moment
    (Served.request "DELETE" ["api"; "agents"; example_id 1] (Some "stolen") []) Served.world
    (fst served) (snd served)) as (_ & _ & Hclosed).
  - intros Hlive. apply Exists_exists in Hlive as (row & Hin & Hid & _).
    apply list_elem_of_singleton in Hin as ->. discriminate Hid.
  - unfold served, Served.answered. apply surjective_pairing.
  - apply Hclosed. vm_compute. reflexivity.
Defined.
