(* ===== verification/ApiChanges.v ===== *)
(** * What the API's changes do ([src/pkg/scheduler/])

    Patching an agent, and the schedule that is saved being the one previewed. *)
From S2P Require Import Prelude GoStrings Json Model Database AgentStore RunStore.
From S2P Require Import CronSchedule Secretbox Accounts Net Llm Tools WebTools Api ApiServer.
Local Open Scope go_scope.
Local Open Scope Z_scope.

Lemma attempt_cases {A} f (m : Db A) (k : A → Handler) w resp w' :
  attempt f m k w = (resp, w') →
  (∃ a w1, m w = (Ok a, w1) ∧ k a w1 = (resp, w')) ∨ ∃ e, m w = (Err e, w') ∧ resp = f e.
Proof.
  unfold attempt. destruct (m w) as [[a|e] w1]; intros H; [left; eauto|right].
  injection H as <- <-. eauto.
Qed.

(** A handler that answers with success went on after the attempt. *)
Lemma attempt_success {A} f (m : Db A) (k : A → Handler) w resp w' :
  (∀ e, ApiResponse.Status (f e) ≠ ApiResponse.Status resp) →
  attempt f m k w = (resp, w') → ∃ a w1, m w = (Ok a, w1) ∧ k a w1 = (resp, w').
Proof. intros Hf [?|(e & _ & ->)]%attempt_cases; [done|]. by destruct (Hf e). Qed.

(** ** Bodies decoded over a value *)
Lemma get_field_omitted {A} (set : string → json → A → option A) old name ms :
  field_members name ms = [] → get_field set old name ms = Some old.
Proof. unfold get_field. by intros ->. Qed.

(** [new] is [old] with the members of a body decoded over it: a field that has no
    member keeps its value. *)
Record patches (ms : members) (old new : Agent.t) : Prop := {
  p_name : field_members "name" ms = [] → Agent.Name new = Agent.Name old;
  p_description : field_members "description" ms = [] → Agent.Description new = Agent.Description old;
  p_model : field_members "model" ms = [] → Agent.Model new = Agent.Model old;
  p_base_url : field_members "base_url" ms = [] → Agent.BaseURL new = Agent.BaseURL old;
  p_system : field_members "system_prompt" ms = [] →
    Agent.SystemPrompt new = Agent.SystemPrompt old;
  p_user : field_members "user_prompt" ms = [] → Agent.UserPrompt new = Agent.UserPrompt old;
  p_tools : field_members "tools" ms = [] → Agent.Tools new = Agent.Tools old;
  p_steps : field_members "max_steps" ms = [] → Agent.MaxSteps new = Agent.MaxSteps old;
  p_tokens : field_members "max_tokens" ms = [] → Agent.MaxTokens new = Agent.MaxTokens old;
  p_duration : field_members "max_duration_seconds" ms = [] →
    Agent.MaxDurationSeconds new = Agent.MaxDurationSeconds old;
  p_secret : field_members "secret_name" ms = [] → Agent.SecretName new = Agent.SecretName old;
  p_context : field_members "context_mode" ms = [] → Agent.ContextMode new = Agent.ContextMode old;
  p_runs : field_members "context_runs" ms = [] → Agent.ContextRuns new = Agent.ContextRuns old;
  p_enabled : field_members "enabled" ms = [] → Agent.Enabled new = Agent.Enabled old
}.

Lemma agent_fields_patches ms old new : agent_fields old ms = Some new → patches ms old new.
Proof.
  unfold agent_fields. intros H.
  repeat (apply bind_Some in H as (? & ? & H)). injection H as <-.
  split; simpl; intros Hno; match goal with H : get_field _ _ _ _ = Some ?x |- ?x = _ =>
    rewrite get_field_omitted in H by done; by injection H as <- end.
Qed.

Lemma lift_Ok {A} (res : result A) w a w' : lift res w = (Ok a, w') → res = Ok a ∧ w' = w.
Proof. unfold lift. by intros [= -> <-]. Qed.

Section changes.
Context {PU : PgUuid} {G : Gcm} {B : Bcrypt} {CO : PgCollation} {CR : Cron} {NU : NetUrl}.
Context {PM : PgMessages}.
Implicit Types (s : SchedulerServer.t) (r : ApiRequest.t) (m : Moment) (w : World) (id : string).

Lemma decodeBody_Ok {A} r (fields : members → option A) a :
  decodeBody r fields = Ok a →
  ∃ body ms, read_all (ApiRequest.Body r) = Ok body ∧ unmarshal body = Ok ms ∧ fields ms = Some a.
Proof.
  intros (body & Hb & (ms & Hm & Hf)%rbind_Ok)%rbind_Ok. apply of_option_Ok in Hf. eauto.
Qed.

Lemma AgentStore_Get_Ok userID id w a w' :
  AgentStore_Get userID id w = (Ok a, w') →
  w_db w' = w_db w ∧ ∃ i u row, uuid_in id = Some i ∧ uuid_in userID = Some u ∧
    a = scanAgent row ∧ row ∈ agents (w_db w) ∧ AgentRow.id row = i ∧ AgentRow.user_id row = u.
Proof.
  intros (row & w1 & (r & _ & _ & Hq & Hd)%map_err_Ok%query_Ok & [-> ->]%ret_Ok)%bind_Ok.
  split; [done|]. apply rbind_Ok in Hq as (i & Hi%of_option_Ok & Hq).
  apply rbind_Ok in Hq as (u & Hu%of_option_Ok & Hq%of_option_Ok).
  apply first_where_Some in Hq as (Hin & Hid & Hus). exists i, u, row. done.
Qed.

Lemma AgentStore_Update_Ok userID id a w shown w' i u :
  uuid_in id = Some i → uuid_in userID = Some u →
  AgentStore_Update userID id a w = (Ok shown, w') →
  same_settings a shown ∧ Agent.ID shown = i ∧ ∃ at_,
    w_db w' = ((w_db w) <| agents :=
      update_where (λ row, AgentRow.id row = i ∧ AgentRow.user_id row = u)
        (λ row, set_agent_columns a (row <| AgentRow.updated_at := at_ |>)) (agents (w_db w)) |>).
Proof.
  intros Hi Hu (row' & w5 & (rep & _ & _ & Hs)%map_err_Ok%statement_Ok & [-> ->]%ret_Ok)%bind_Ok.
  unfold update_agent in Hs. apply rbind_Ok in Hs as ([] & _ & Hs).
  unfold uuid_arg in Hs. rewrite Hi, Hu in Hs.
  apply rbind_Ok in Hs as (i' & [= <-] & Hs). apply rbind_Ok in Hs as (u' & [= <-] & Hs).
  apply rbind_Ok in Hs as (row0 & Hrow0%of_option_Ok & [= <- <-]).
  apply first_where_Some in Hrow0 as (_ & Hid0 & _).
  split; [apply same_settings_scan|]. split; [exact Hid0|].
  by exists (timestamptz (r_now rep)).
Qed.

Lemma check_agent_success s m agent k w resp w' :
  ApiResponse.Status resp = 200 → check_agent s m agent k w = (resp, w') →
  ∃ w1, w_db w1 = w_db w ∧ valid_agent (Agent.ApplyDefaults agent) ∧
    k (Agent.ApplyDefaults agent) w1 = (resp, w').
Proof.
  intros Hok. unfold check_agent. destruct (Agent.Validate _) eqn:Hv.
  { intros [= <- _]. discriminate Hok. }
  intros Hk. pose proof (validateAgentModel_reads (=) s (outside m) (Agent.ApplyDefaults agent) w)
    as Hsame.
  apply attempt_success in Hk as ([] & w1 & Hval & Hk); [|by rewrite Hok].
  rewrite Hval in Hsame. exists w1. split_and!; [done|by apply Validate_accepts|done].
Qed.

Lemma writeStoreError_status e : ApiResponse.Status (writeStoreError e) ≠ 200.
Proof. unfold writeStoreError. by destruct (errors_Is _ _). Qed.

(** C36: a patch that succeeds stores the agent with the members of the body decoded
    over the stored values, so what the body omits is kept; the result is valid,
    it is what the response shows, and no other row of any table changes. *)
Theorem patch_keeps_omitted s m r id w resp w' :
  handleUpdateAgent s m r id w = (resp, w') → ApiResponse.Status resp = 200 →
  ∃ i u row body ms new at_,
    uuid_in id = Some i ∧ uuid_in OwnerUserID = Some u ∧ row ∈ agents (w_db w) ∧
    AgentRow.id row = i ∧ AgentRow.user_id row = u ∧
    read_all (ApiRequest.Body r) = Ok body ∧ unmarshal body = Ok ms ∧
    patches ms (scanAgent row) new ∧ valid_agent (Agent.ApplyDefaults new) ∧
    let store row := set_agent_columns (Agent.ApplyDefaults new)
                       (row <| AgentRow.updated_at := at_ |>) in
    w_db w' = ((w_db w) <| agents := update_where (λ a, AgentRow.id a = i ∧ AgentRow.user_id a = u)
                                     store (agents (w_db w)) |>) ∧
    ∃ shown, ApiResponse.Payload resp = PAgent shown ∧
      same_settings (Agent.ApplyDefaults new) shown ∧ Agent.ID shown = i.
Proof.
  intros Hh Hok. unfold handleUpdateAgent in Hh.
  apply attempt_success in Hh as (old & w1 & Hget & Hh);
    [|intros e; rewrite Hok; apply writeStoreError_status].
  apply AgentStore_Get_Ok in Hget as (Hd1 & i & u & row & Hi & Hu & -> & Hin & Hid & Hus).
  apply attempt_success in Hh as (new & w2 & Hdec & Hh); [|intros e; by rewrite Hok].
  apply lift_Ok in Hdec as [Hdec ->]. apply decodeBody_Ok in Hdec as (body & ms & Hb & Hm & Hf).
  apply check_agent_success in Hh as (w3 & Hd3 & Hv & Hh); [|done].
  apply attempt_success in Hh as (shown & w4 & Hupd & Hh);
    [|intros e; rewrite Hok; apply writeStoreError_status].
  injection Hh as <- <-.
  apply (AgentStore_Update_Ok _ _ _ _ _ _ _ _ Hi Hu) in Hupd as (Hset & Hid' & at_ & Hdb).
  rewrite Hd3, Hd1 in Hdb.
  exists i, u, row, body, ms, new, at_.
  apply agent_fields_patches in Hf. repeat (split; [assumption|]).
  by exists shown.
Qed.

(** ** Schedules *)
Lemma preview_increasing `{!CronLaws} n spec at_ :
  StronglySorted Z.lt (preview n spec at_) ∧ Forall (λ t, at_ < t) (preview n spec at_).
Proof.
  revert at_. induction n as [|n IH]; intros at_; simpl; [by repeat constructor|].
  destruct (Next_gt spec at_ EmptyString) as [Hz|Hgt].
  { rewrite Hz. simpl. by repeat constructor. }
  case_match; [by repeat constructor|]. destruct (IH (Next spec at_ EmptyString)) as [Hs Hf].
  split; constructor; try done. eapply Forall_impl; [exact Hf|]. simpl. lia.
Qed.

Lemma preview_length n spec at_ : (length (preview n spec at_) ≤ n)%nat.
Proof.
  revert at_. induction n as [|n IH]; intros at_; simpl; [lia|].
  case_match; simpl; [lia|]. specialize (IH (Next spec at_ EmptyString)). lia.
Qed.

(** The two handlers read the same fields of the same body. *)
Lemma schedule_fields_read ms requested :
  schedule_fields new_schedule ms = Some requested →
  get_field set_string EmptyString "cron_expression" ms = Some (Schedule.CronExpression requested) ∧
  get_field set_string EmptyString "timezone" ms = Some (Schedule.Timezone requested).
Proof.
  unfold schedule_fields. intros H. repeat (apply bind_Some in H as (? & ? & H)).
  by injection H as <-.
Qed.

Lemma upsert_next_fire userID id requested t wall w stored w' :
  ScheduleStore_Upsert userID id requested t wall w = (Ok stored, w') →
  Schedule.NextFireAt stored = Some (timestamptz t).
Proof.
  intros (row & w1 & (r & _ & _ & Hs)%map_err_Ok%statement_Ok & [-> _]%ret_Ok)%bind_Ok.
  unfold upsert_schedule in Hs. apply rbind_Ok in Hs as (u & _ & Hs).
  apply rbind_Ok in Hs as (a & _ & Hs). destruct (first_where _ _).
  - by injection Hs as <- _.
  - case_decide; [done|]. case_decide; [done|]. by injection Hs as <- _.
Qed.

(** Fire times that lie ahead of [now], in order, at most [n] of them. *)
Definition upcoming (n : nat) (now : Time) (times : list Time) : Prop :=
  (length times ≤ n)%nat ∧ StronglySorted Z.lt times ∧ Forall (λ t, now < t) times.

(** C37: what is saved is what was previewed: a preview lists at most five times, each
    later than the one before and than now; saving the same body at the same
    instant stores the first of them as the next time the schedule fires, so no
    schedule fires retroactively. *)
Theorem schedule_saved_as_previewed `{!CronLaws} m r id w w1 times w2 resp w3 :
  handlePreviewSchedule m r w = (writeJSON 200 (PFireTimes times), w1) →
  handleSetSchedule m r id w2 = (resp, w3) → ApiResponse.Status resp = 200 →
  upcoming 5 (clock m 1) times ∧
  ∃ first rest stored, times = first :: rest ∧ resp = writeJSON 200 (PSchedule stored) ∧
    Schedule.NextFireAt stored = Some first.
Proof.
  intros Hp Hset Hok. unfold handlePreviewSchedule in Hp.
  apply attempt_success in Hp as ([expression timezone] & v1 & Hdec & Hp); [|done].
  apply lift_Ok in Hdec as [Hdec ->]. apply decodeBody_Ok in Hdec as (body & ms & Hb & Hm & Hf).
  apply bind_Some in Hf as (e & He & Hf). apply bind_Some in Hf as (tz & Htz & [= -> ->]).
  apply attempt_success in Hp as (spec & v2 & Hparse & Hp); [|done].
  apply lift_Ok in Hparse as [Hparse ->]. simpl in Hparse.
  assert (Htimes : times = preview previewFireCount spec (clock m 1))
    by (unfold respond, writeJSON in Hp; congruence).
  subst times. clear Hp.
  unfold handleSetSchedule in Hset.
  apply attempt_success in Hset as (agent & x1 & _ & Hset);
    [|intros err; rewrite Hok; apply writeStoreError_status].
  apply attempt_success in Hset as (requested & x2 & Hdec & Hset); [|intros err; by rewrite Hok].
  apply lift_Ok in Hdec as [Hdec ->]. apply decodeBody_Ok in Hdec as (body' & ms' & Hb' & Hm' & Hf).
  assert (ms' = ms) as -> by congruence. apply schedule_fields_read in Hf as [He' Htz'].
  assert (Schedule.CronExpression requested = expression) as Hce by congruence.
  assert (Schedule.Timezone requested = timezone) as Hct by congruence.
  rewrite Hce, Hct in Hset.
  apply attempt_success in Hset as (spec' & x3 & Hparse' & Hset); [|intros err; by rewrite Hok].
  apply lift_Ok in Hparse' as [Hparse' ->]. assert (spec' = spec) as -> by congruence.
  destruct (time_IsZero (Next spec (clock m 1) EmptyString)) eqn:Hz.
  { injection Hset as <- _. discriminate Hok. }
  apply attempt_success in Hset as (stored & x4 & Hup & Hset); [|intros err; by rewrite Hok].
  injection Hset as <- _. apply upsert_next_fire in Hup.
  rewrite Second_timestamptz in Hup by apply Next_second.
  pose proof (preview_increasing previewFireCount spec (clock m 1)) as [Hs Hfut].
  split; [split_and!; [apply (preview_length 5)|exact Hs|exact Hfut]|].
  unfold previewFireCount. cbn [preview]. rewrite Hz. do 3 eexists. done.
Qed.
End changes.

(** ** Closed requests *)
Lemma patch_keeps_omitted_witness :
  let served := @handleUpdateAgent example_uuid example_gcm example_url Served.messages
    Served.server Served.moment Served.patch (example_id 1) Served.world in
  ApiResponse.Status (fst served) = 200 ∧
  ∃ row body ms new, row ∈ agents Served.database ∧ unmarshal body = Ok ms ∧
    patches ms (scanAgent row) new ∧ valid_agent (Agent.ApplyDefaults new) ∧
    ∃ shown, ApiResponse.Payload (fst served) = PAgent shown ∧ Agent.ID shown = example_id 1.
Proof.
  intros served. assert (Hok : ApiResponse.Status (fst served) = 200) by (vm_compute; reflexivity).
  split; [exact Hok|].
  destruct (@patch_keeps_omitted example_uuid example_gcm example_url Served.messages
    Served.server Served.moment Served.patch (example_id 1) Served.world (fst served) (snd served))
    as (i & u & row & body & ms & new & at_ & Hi & _ & Hrow & _ & _ & _ & Hm & Hp & Hv & _ &
        shown & Hshown & _ & Hid).
  - unfold served. apply surjective_pairing.
  - exact Hok.
  - exists row, body, ms, new. repeat (split; [assumption|]). exists shown.
    split; [exact Hshown|]. rewrite Hid. vm_compute in Hi. injection Hi as <-. reflexivity.
Defined.

(** Berlin's clock is two hours ahead; the previewed hours are whole ones. *)
Lemma schedule_saved_as_previewed_witness :
  let previewed := @handlePreviewSchedule example_cron Served.messages Served.moment
    (Served.plan ["api"; "schedules"; "preview"]) Served.world in
  let saved := @handleSetSchedule example_uuid example_cron Served.messages Served.moment
    (Served.plan ["api"; "schedules"; "preview"]) (example_id 1) Served.world in
  ∃ times first rest, fst previewed = writeJSON 200 (PFireTimes times) ∧
    ApiResponse.Status (fst saved) = 200 ∧ (length times ≤ 5)%nat ∧ times = first :: rest ∧
    first = 3600 * Second.
Proof.
  intros previewed saved.
  assert (Hok : ApiResponse.Status (fst saved) = 200) by (vm_compute; reflexivity).
  set (times := [3600 * Second; 7200 * Second; 10800 * Second; 14400 * Second; 18000 * Second]).
  assert (Hp : fst previewed = writeJSON 200 (PFireTimes times)) by (vm_compute; reflexivity).
  destruct (@schedule_saved_as_previewed example_uuid example_cron Served.messages
    example_cron_laws Served.moment (Served.plan ["api"; "schedules"; "preview"]) (example_id 1)
    Served.world (snd previewed) times Served.world (fst saved) (snd saved))
    as ((Hlen & _ & _) & first & rest & stored & Htimes & _).
  - rewrite <- Hp. unfold previewed. apply surjective_pairing.
  - unfold saved. apply surjective_pairing.
  - exact Hok.
  - exists times, first, rest. repeat (split; [assumption|]). by injection Htimes as <- _.
Defined.

(** A slice is decoded over the elements it had: a provider that names no secret
    takes the one of the provider that stood at its index. *)
Lemma settings_merge_by_index :
  let old := CustomProvider.mk "A" "https://a/v1" "key_a" ["m"] in
  let body := Marshal (DObj [("custom_providers", DArr [DObj
    [("name", DStr "B"); ("base_url", DStr "https://b/v1")]])]) in
  (ms ←? unmarshal body; of_option type_error (settings_fields (Settings.mk "" false true [old]) ms))
  = Ok (Settings.mk "" false true [CustomProvider.mk "B" "https://b/v1" "key_a" ["m"]]).
Proof. vm_compute. reflexivity. Qed.
