(* ===== verification/Leases.v ===== *)
(** * Keeping a run alive ([renewLeasePeriodically] of [src/pkg/worker/worker.go]
      against [src/pkg/reaper/reaper.go])

    A worker renews the lease of the run it executes at every tick; the reaper
    scans whenever it likes.  How many ticks may be lost, and what happens when
    they stop. *)
From S2P Require Import Prelude GoStrings Model Database Coordinator.
Local Open Scope go_scope.
Local Open Scope Z_scope.

(** Three ticks in a row may be lost. *)
Definition lost_allowed : nat := 3.

Section leases.
Context {PU : PgUuid}.
Context (runID i : string) (Hi : uuid_in runID = Some i).

(** The instant of the last renewal that was answered (the claim, at first), the
    ticks lost since, and the world. *)
Record Lease := mkLease { renewed : Time; lost : nat; world : World }.

(** Until the next tick at most one interval passes. *)
Definition before_next_tick (l : Lease) (at_ : Time) : Prop :=
  renewed l ≤ at_ ≤ renewed l + (Z.of_nat (lost l) + 1) * RenewalInterval.

Inductive lease_step : Lease → Lease → Prop :=
| tick_renewed l at_ b w' :
    before_next_tick l at_ → RenewLease at_ runID (world l) = (Ok b, w') →
    lease_step l (mkLease at_ 0 w')
| tick_lost l at_ e w' :
    (lost l < lost_allowed)%nat → RenewLease at_ runID (world l) = (Err e, w') →
    lease_step l (mkLease (renewed l) (S (lost l)) w')
| reaper_scan l at_ res w' :
    before_next_tick l at_ → Reaper_RunOnce at_ (world l) = (res, w') →
    lease_step l (mkLease (renewed l) (lost l) w').

(** The run is executing under a lease granted at [t]. *)
Definition leased (t : Time) (w : World) : Prop :=
  ∃ r, r ∈ runs (w_db w) ∧ RunRow.id r = i ∧ RunRow.status r = RunRunning ∧
       RunRow.lease_expires_at r = Some (timestamptz (t + LeaseTTL)).

Lemma RenewLease_effect at_ w res w' t :
  RenewLease at_ runID w = (res, w') → leased t w →
  match res with Ok _ => leased at_ w' | Err _ => leased t w' end.
Proof.
  unfold RenewLease, bind. destruct (statement _ w) as [[n|e] w1] eqn:Hs.
  - intros [= <- <-] (r & Hr & Hid & Hst & _). apply statement_Ok in Hs as (rep & _ & _ & Hs).
    unfold renew_lease, uuid_arg in Hs. rewrite Hi in Hs. simpl in Hs. injection Hs as _ Hd.
    exists (extend_lease at_ r). split; [|done]. rewrite <- Hd. simpl. apply elem_of_update_where. eauto 10.
  - intros [= <- <-] Hl. apply statement_effect in Hs as Heff.
    destruct w as [d [|rep rest]]; unfold statement in Hs; simpl in Hs; [by simplify_eq|].
    destruct (r_fault rep); [by simplify_eq|].
    destruct (renew_lease runID at_ rep d) as [[n d']|e']; by simplify_eq.
Qed.

Lemma scan_spares at_ w res w' t :
  at_ ≤ t + LeaseTTL → Reaper_RunOnce at_ w = (res, w') → leased t w → leased t w'.
Proof.
  intros Hat Hs (r & Hr & Hid & Hst & Hl). apply statement_effect in Hs as [Hd|(rep & n & Hs)].
  - exists r. by rewrite Hd.
  - unfold reap in Hs. apply rbind_Ok in Hs as (d1 & _ & [= _ Hd]). exists r. rewrite <- Hd. simpl.
    split; [|done]. apply elem_of_update_where. exists r. split; [done|]. right.
    split; [|done]. unfold expired. rewrite Hl. intros [_ Hlt].
    apply (timestamptz_mono at_) in Hat. lia.
Qed.

Lemma lease_step_leased l l' :
  (lost l ≤ lost_allowed)%nat → leased (renewed l) (world l) → lease_step l l' →
  (lost l' ≤ lost_allowed)%nat ∧ leased (renewed l') (world l').
Proof.
  intros Hn Hl Hs. destruct Hs as [l at_ b w' Hat Hr|l at_ e w' Hlt Hr|l at_ res w' Hat Hr]; simpl.
  - split; [lia|]. exact (RenewLease_effect _ _ _ _ _ Hr Hl).
  - split; [lia|]. exact (RenewLease_effect _ _ _ _ _ Hr Hl).
  - split; [done|]. eapply scan_spares; [|exact Hr|exact Hl].
    unfold before_next_tick, lost_allowed, LeaseTTL, RenewalInterval in *. nia.
Qed.

(** C40: a run stays alive exactly as long as its worker renews: while ticks come at
    the renewal interval and no more than three in a row are lost, no scan of the
    reaper touches it; and once they stop, the first scan more than sixty seconds
    after the last renewal fails it. *)
Theorem renewals_keep_run_alive t0 w0 l :
  leased t0 w0 → rtc lease_step (mkLease t0 0 w0) l →
  leased (renewed l) (world l) ∧
  ∀ now n w', renewed l + LeaseTTL + Microsecond ≤ now →
    Reaper_RunOnce now (world l) = (Ok n, w') →
    ∃ r, r ∈ runs (w_db w') ∧ RunRow.id r = i ∧ RunRow.status r = RunFailed ∧
         RunRow.error r = lostWorkerMessage.
Proof.
  intros Hl Hsteps.
  assert (Hgen : ∀ a, (lost a ≤ lost_allowed)%nat → leased (renewed a) (world a) →
    rtc lease_step a l → leased (renewed l) (world l)).
  { intros a Ha Hla Hrtc. clear Hsteps. induction Hrtc as [a|a b c Hab _ IH]; [done|].
    destruct (lease_step_leased _ _ Ha Hla Hab). by apply IH. }
  assert (Hend : leased (renewed l) (world l)) by (eapply Hgen, Hsteps; [simpl; lia|done]).
  split; [exact Hend|]. intros now n w' Hnow (rep & _ & _ & Hr)%statement_Ok.
  unfold reap in Hr. apply rbind_Ok in Hr as (d1 & _ & [= _ Hd]).
  destruct Hend as (r & Hin & Hid & Hst & Hle). exists (abandon now r). split; [|done].
  rewrite <- Hd. simpl. apply elem_of_update_where. exists r. split; [done|]. left.
  split; [|done]. split; [done|]. rewrite Hle. revert Hnow. clear. unfold LeaseTTL. tlia.
Qed.
End leases.

(** ** A closed run

    Claimed at 0; the first renewal is lost, the second arrives, then the worker is
    gone. *)
Lemma renewals_keep_run_alive_witness :
  let w0 := mkWorld (running_database (LeaseTTL)) (mkReply (Some "timeout") 0 EmptyString :: quiet 4) in
  let w1 := snd (@RenewLease example_uuid (15 * Second) (example_id 5) w0) in
  let w2 := snd (@RenewLease example_uuid (30 * Second) (example_id 5) w1) in
  ∃ r n, fst (Reaper_RunOnce (91 * Second) w2) = Ok n ∧
    r ∈ runs (w_db (snd (Reaper_RunOnce (91 * Second) w2))) ∧ RunRow.status r = RunFailed.
Proof.
  intros w0 w1 w2.
  destruct (@renewals_keep_run_alive example_uuid (example_id 5) (example_id 5) eq_refl 0 w0
    (mkLease (30 * Second) 0 w2)) as [_ Hdead].
  - exists (example_run_row 5 RunRunning (Some LeaseTTL)). split; [left|]. done.
  - eapply rtc_l.
    { eapply (tick_lost _ (mkLease 0 0 w0) (15 * Second) (Errorf "timeout") w1); [|vm_compute; reflexivity].
      unfold lost_allowed. simpl. lia. }
    eapply rtc_l; [|apply rtc_refl].
    eapply (tick_renewed _ (mkLease 0 1 w1) (30 * Second) true w2); [|vm_compute; reflexivity].
    unfold before_next_tick. simpl. vm_compute. split; discriminate.
  - destruct (Hdead (91 * Second) 1%nat (snd (Reaper_RunOnce (91 * Second) w2)))
      as (r & Hr & _ & Hst & _).
    + vm_compute. discriminate.
    + vm_compute. reflexivity.
    + exists r, 1%nat. split; [vm_compute; reflexivity|]. split; [exact Hr|exact Hst].
Defined.
