(* ===== verification/Tick.v ===== *)
(** * One turn of the coordinator ([tick] of [src/pkg/coordinator/coordinator.go])

    Schedules become runs, due runs are offered to workers, abandoned runs are
    failed and failing agents reported, in that order; each part logs its error and
    lets the others go on.  What the four amount to together. *)
From S2P Require Import Prelude GoStrings Model Database RunStore CronSchedule Materializer.
From S2P Require Import WorkerPool Coordinator Secretbox Accounts Json Net WebTools Notifier.
Import Pool.
Local Open Scope go_scope.
Local Open Scope Z_scope.

Section tick.
Context {PU : PgUuid} {CR : Cron} {G : Gcm} {NU : NetUrl}.
Implicit Types (submit : RunRequest.t → workerInfo.t → result bool) (w : World).

(** The parts that only read the clock and log what they did. *)
Definition materializeSchedules (locked : list string) (now : Time) w : World :=
  snd (Materializer_RunOnce locked now w).
Definition reapExpiredRuns (now : Time) w : World := snd (Reaper_RunOnce now w).
Definition reportFailingAgents (n : Notifier.t) (outs : nat → Outside) (now : Time) w : World :=
  snd (Notifier_RunOnce n outs now w).

(** What a turn meets: the rows other transactions hold, the readings of the clock,
    one per part, and the network of the alerts. *)
Record Turn := mkTurn {
  locked_schedules : list string;
  locked_runs : list string;
  clock : nat → Time;
  outs : nat → Outside
}.

(** The runs accepted on the way, the pool and the world after the turn. *)
Definition tick (n : Notifier.t) submit (t : Turn) (p : Pool.t) w
  : list string * Pool.t * World :=
  let w1 := materializeSchedules (locked_schedules t) (clock t 0) w in
  let '(accepted, p', w2) := dispatchPendingRuns submit (locked_runs t) (clock t 1) p w1 in
  let w3 := reapExpiredRuns (clock t 2) w2 in
  (accepted, p', reportFailingAgents n (outs t) (clock t 3) w3).

(** ** A pool with somebody free *)
Definition takes_all submit (p : Pool.t) : Prop :=
  ∃ k v, WorkerPool p !! k = Some v ∧ ∀ run, submit run v = Ok true.

(** The index stays below its wrap for [n] offers. *)
Definition index_room (n : nat) (p : Pool.t) : Prop :=
  0 ≤ roundRobinIndex p ∧
  roundRobinIndex p + Z.of_nat n * Z.of_nat (length (WorkerPoolKeys p)) < 2 ^ 32.

Lemma offer_taken submit run p n :
  pool_ok p → index_room (S n) p → takes_all submit p →
  ∃ offered p', offerRunToWorker (submit run) p = (Ok true, offered, p') ∧
    pool_ok p' ∧ index_room n p' ∧ takes_all submit p'.
Proof.
  intros Hok [Hpos Hroom] (k & v & Hk & Htake).
  assert (Hne : WorkerPoolKeys p ≠ []).
  { intros Hnil. pose proof (proj2 (pool_ok_elem p k Hok) (ex_intro _ v Hk)) as Hin.
    rewrite Hnil in Hin. by apply not_elem_of_nil in Hin. }
  assert (Hnw : no_wrap p) by (split; [done|nia]).
  unfold offerRunToWorker. rewrite decide_False by (by rewrite length_zero_iff_nil).
  pose proof (offer_attempts_offers (submit run) p _ 0 Hok Hnw eq_refl) as Hatt.
  rewrite advanced_by_0 in Hatt by done. change (workers_from 0 p) with (workers p) in Hatt.
  pose proof (offers_spec (submit run) (workers p)) as Hs.
  destruct (offers (submit run) (workers p)) as [b offered]. rewrite Hatt.
  destruct Hs as (Hpre%prefix_length & Hb & _ & _).
  assert (b = true) as ->.
  { apply Hb, Exists_exists. exists v. split; [|done]. rewrite workers_Permutation by done.
    apply list_elem_of_fmap. exists (k, v). by rewrite elem_of_map_to_list. }
  exists offered. eexists. split; [done|]. split; [done|]. split; [|by exists k, v].
  rewrite workers_Permutation, length_fmap in Hpre by done.
  assert (Hlen : length (WorkerPoolKeys p) = length (map_to_list (WorkerPool p))).
  { unfold pool_ok in Hok. rewrite Hok. unfold map_keys. by rewrite length_fmap. }
  unfold index_room, advanced_by. simpl. rewrite u32_small by nia. nia.
Qed.

Lemma dispatch_loop_taken submit now rows ab p w accepted ab' p' w' :
  pool_ok p → index_room (length rows) p → takes_all submit p →
  dispatch_loop submit now rows ab p w = (accepted, ab', p', w') →
  accepted = RunRequest.RunId <$> rows.
Proof.
  revert ab p w accepted. induction rows as [|run rows IH]; intros ab p w accepted Hok Hr Ht H;
    simpl in H; [by simplify_eq|].
  destruct (offer_taken submit run p _ Hok Hr Ht) as (offered & p1 & Ho & Hok1 & Hr1 & Ht1).
  rewrite Ho in H. destruct (tx_exec ab _ w) as [res w1].
  destruct (dispatch_loop _ _ _ _ p1 w1) as [[[acc ab1] p2] w2] eqn:Hl. simplify_eq.
  by rewrite (IH _ _ _ _ Hok1 Hr1 Ht1 Hl).
Qed.

Lemma dispatch_taken submit locked now p w accepted p' w' :
  pool_ok p → index_room dispatchBatchSize p → takes_all submit p → calm w 53 →
  dispatchPendingRuns submit locked now p w = (accepted, p', w') →
  accepted = RunRow.id <$> pending_rows locked now (w_db w).
Proof.
  intros Hok Hr Ht Hc. unfold dispatchPendingRuns, tx_begin.
  destruct w as [d [|r1 [|r2 rest]]]; [destruct Hc; simpl in *; lia..|].
  destruct Hc as [_ [H1 [H2 _]%Forall_cons]%Forall_cons].
  rewrite statement_answered, query_answered by done. cbn [w_db].
  destruct (dispatch_loop _ _ _ _ _ _) as [[[acc ab] p1] w3] eqn:Hl.
  apply dispatch_loop_taken in Hl as ->; [|done| |done].
  - rewrite <- list_fmap_compose. destruct (tx_commit ab w3) as [[]]; by intros [= <- _ _].
  - destruct Hr as [Hpos Hroom]. split; [done|]. rewrite length_fmap.
    assert (length (pending_rows locked now d) ≤ dispatchBatchSize)%nat
      by (unfold pending_rows; rewrite length_take; apply Nat.le_min_l).
    nia.
Qed.

(** ** The last two parts leave fresh work alone *)
Definition same_runs : relation Database := λ d d', runs d' = runs d.
#[local] Instance same_runs_preorder : PreOrder same_runs.
Proof. split; [done|]. intros d1 d2 d3 H1 H2. unfold same_runs in *. by rewrite H2. Qed.

(** The alerts write nothing but that an agent was reported. *)
Lemma report_all_respects (R : relation Database) `{!PreOrder R} n os now failing k :
  (∀ id now, respects R (statement (λ r d, mark_notified id now r d))) →
  respects R (report_all n os now failing k).
Proof.
  intros Hmark. revert os k. induction failing as [|agent rest IH]; intros os k; simpl; [respects|].
  apply respects_bind; [typeclasses eauto| |].
  - unfold notifier_send. apply respects_try, respects_bind; [typeclasses eauto| |].
    + apply TelegramDelivery_reads. typeclasses eauto.
    + intros [[token chatID]|]; respects.
  - intros [[]|e]; [|apply IH].
    apply respects_bind; [typeclasses eauto|apply respects_try, Hmark|].
    intros [[]|e]; [apply IH|respects].
Qed.

Lemma reportFailingAgents_respects (R : relation Database) `{!PreOrder R} n os now w :
  (∀ id now, respects R (statement (λ r d, mark_notified id now r d))) →
  R (w_db w) (w_db (reportFailingAgents n os now w)).
Proof.
  intros Hmark. assert (Hr : respects R (Notifier_RunOnce n os now)); [|exact (Hr w)].
  unfold Notifier_RunOnce. apply respects_bind; [typeclasses eauto|respects|].
  intros [failing|e]; [by apply report_all_respects|respects].
Qed.

Lemma reportFailingAgents_runs n os now w :
  runs (w_db (reportFailingAgents n os now w)) = runs (w_db w).
Proof.
  apply (reportFailingAgents_respects same_runs). intros id at_.
  apply respects_statement; [typeclasses eauto|]. by intros r d a d' (i & _ & [= _ <-])%rbind_Ok.
Qed.

Lemma reportFailingAgents_wf n os now w :
  wf_database (w_db w) → wf_database (w_db (reportFailingAgents n os now w)).
Proof.
  apply (reportFailingAgents_respects (keeping wf_database)). intros id at_.
  apply respects_statement; [typeclasses eauto|].
  intros r d a d' (i & _ & [= _ <-])%rbind_Ok Hd. by apply wf_update_agents.
Qed.

Lemma reapExpiredRuns_runs now w :
  runs (w_db (reapExpiredRuns now w)) = runs (w_db w) ∨
  runs (w_db (reapExpiredRuns now w)) = update_where (expired now) (abandon now) (runs (w_db w)).
Proof.
  unfold reapExpiredRuns. destruct (Reaper_RunOnce now w) as [res w'] eqn:H. cbn [snd].
  apply statement_effect in H as [->|(r & n & H)]; [by left|right].
  unfold reap in H. apply rbind_Ok in H as (d & _ & [= _ <-]). done.
Qed.

(** A run of the table that is not expired is still there after the turn's end. *)
Lemma turn_end_keeps n os now now' w r :
  r ∈ runs (w_db w) → ¬ expired now r →
  r ∈ runs (w_db (reportFailingAgents n os now' (reapExpiredRuns now w))).
Proof.
  intros Hr He. rewrite reportFailingAgents_runs.
  destruct (reapExpiredRuns_runs now w) as [-> | ->]; [done|].
  apply elem_of_update_where. eauto.
Qed.

(** And nothing becomes pending. *)
Lemma turn_end_pending n os now now' w r :
  r ∈ runs (w_db (reportFailingAgents n os now' (reapExpiredRuns now w))) →
  RunRow.status r = RunPending → r ∈ runs (w_db w).
Proof.
  rewrite reportFailingAgents_runs.
  destruct (reapExpiredRuns_runs now w) as [-> | ->]; [done|].
  by intros (r0 & Hr & [[_ ->]|[_ ->]])%elem_of_update_where.
Qed.

(** ** What is due gets executed *)
Lemma run_for_due locked d now s r :
  is_due d locked now s → run_for now s r →
  RunRow.scheduled_for r ≤ timestamptz now ∧
  (RunRow.status r = RunMissed ∨ RunRow.status r = RunPending).
Proof.
  intros Hdue%is_due_le (spec & fireAt & next & missed & id & created & _ & Hr & ->).
  apply resolveFireTimes_catch_up in Hr as [Hc _].
  apply catch_up_spec in Hc as (_ & Hle & _); [|exact Hdue].
  split; [by apply timestamptz_mono|]. destruct missed; [by left|by right].
Qed.

(** The middle of the turn: everything due is claimed. *)
Lemma dispatch_leaves_nothing_due submit locked now p w accepted p' w' :
  Forall normal_run (runs (w_db w)) → calm w 53 →
  pool_ok p → index_room dispatchBatchSize p → takes_all submit p →
  (length (filter (is_pending locked now) (runs (w_db w))) ≤ dispatchBatchSize)%nat →
  dispatchPendingRuns submit locked now p w = (accepted, p', w') →
  w_db w' = claim_all now accepted (w_db w) ∧
  (∀ id, id ∈ accepted → ∃ r, r ∈ runs (w_db w) ∧ RunRow.id r = id ∧ is_pending locked now r) ∧
  ∀ r, r ∈ runs (w_db w) → is_pending locked now r → RunRow.id r ∈ accepted.
Proof.
  intros Hn Hc Hok Hroom Ht Hlen H.
  pose proof (dispatch_effect _ _ _ _ _ _ _ _ Hn H) as (_ & _ & _ & Hdb).
  apply dispatch_taken in H as ->; [|done..]. split; [by apply Hdb|]. split.
  - intros id (r & -> & [Hp Hr]%pending_rows_elem)%list_elem_of_fmap. eauto.
  - intros r Hr Hp. by apply list_elem_of_fmap_2, pending_rows_all.
Qed.

Lemma claim_all_elem now ids d r :
  r ∈ runs (claim_all now ids d) ↔
  ∃ r0, r0 ∈ runs d ∧
    ((RunRow.id r0 ∈ ids ∧ r = claim now r0) ∨ ((RunRow.id r0 ∉ ids) ∧ r = r0)).
Proof. apply elem_of_update_where. Qed.

Lemma claim_all_pending locked now ids d r :
  (∀ r, r ∈ runs d → is_pending locked now r → RunRow.id r ∈ ids) →
  r ∈ runs (claim_all now ids d) → ¬ is_pending locked now r.
Proof.
  intros Hall (r0 & Hr0 & [[_ ->]|[Hid ->]])%claim_all_elem Hp; [by destruct Hp|eauto].
Qed.

(** The run of a due schedule, after dispatch. *)
Lemma new_run_dispatched now ids locked d r :
  NoDup (RunRow.id <$> runs d) → r ∈ runs d →
  (∀ id, id ∈ ids → ∃ r, r ∈ runs d ∧ RunRow.id r = id ∧ is_pending locked now r) →
  (∀ r, r ∈ runs d → is_pending locked now r → RunRow.id r ∈ ids) →
  RunRow.scheduled_for r ≤ timestamptz now → RunRow.id r ∉ locked →
  RunRow.status r = RunMissed ∨ RunRow.status r = RunPending →
  (RunRow.status r = RunMissed ∧ r ∈ runs (claim_all now ids d)) ∨
  (RunRow.id r ∈ ids ∧ claim now r ∈ runs (claim_all now ids d)).
Proof.
  intros Hnd Hr Hids Hall Hat Hlock [Hst|Hst]; [left|right].
  - split; [done|]. apply claim_all_elem. exists r. split; [done|]. right. split; [|done].
    intros (r0 & Hr0 & Heq & Hp & _)%Hids.
    rewrite (NoDup_key_inj RunRow.id _ r0 r Hnd Hr0 Hr Heq), Hst in Hp. discriminate.
  - assert (Hin : RunRow.id r ∈ ids) by (apply Hall; [done|by split_and!]).
    split; [done|]. apply claim_all_elem. eauto 10.
Qed.

(** A turn keeps the database's constraints. *)
Lemma tick_wf n submit t p w :
  wf_database (w_db w) →
  Forall normal_run (runs (w_db (materializeSchedules (locked_schedules t) (clock t 0) w))) →
  wf_database (w_db (snd (tick n submit t p w))).
Proof.
  intros Hwf Hn. unfold tick.
  pose proof (Materializer_RunOnce_wf (locked_schedules t) (clock t 0) w Hwf) as Hwf1.
  destruct (dispatchPendingRuns _ _ _ _ _) as [[acc p1] w2] eqn:Hd. simpl.
  apply reportFailingAgents_wf, (Reaper_RunOnce_wf (clock t 2) w2).
  apply dispatch_effect in Hd as (_ & _ & [-> | ->] & _); [done| |done]. by apply wf_with_runs.
Qed.

(** C6: a turn of a coordinator with a free worker leaves nothing waiting: every run
    that is due when it dispatches has been handed to a worker, and every due
    schedule of an enabled agent that parses has its run, recorded as missed or
    accepted by a worker and running under a fresh lease; neither the reaper nor a
    failure of the alerts, both of which come after, undoes that. *)
Theorem tick_runs_what_is_due n submit t p w k w1 accepted p' w' :
  let now := clock t 1 in
  wf_database (w_db w) → Forall normal_schedule (schedules (w_db w)) →
  (∀ id, id ∈ locked_runs t → run_exists (w_db w) id) →
  clock t 0 ≤ now → clock t 2 ≤ now + LeaseTTL →
  pool_ok p → index_room dispatchBatchSize p → takes_all submit p →
  Materializer_RunOnce (locked_schedules t) (clock t 0) w = (Ok k, w1) →
  Forall normal_run (runs (w_db w1)) → calm w1 53 →
  (length (filter (is_pending (locked_runs t) now) (runs (w_db w1))) ≤ dispatchBatchSize)%nat →
  tick n submit t p w = (accepted, p', w') →
  Forall (λ r, ¬ is_pending (locked_runs t) now r) (runs (w_db w')) ∧
  ∀ s, s ∈ due_rows (locked_schedules t) (clock t 0) (w_db w) → parses s →
    ∃ r, run_for (clock t 0) s r ∧
      ((RunRow.status r = RunMissed ∧ r ∈ runs (w_db w')) ∨
       (RunRow.id r ∈ accepted ∧ claim now r ∈ runs (w_db w'))).
Proof.
  intros now Hwf Hs Hlock H01 H12 Hok Hroom Ht Hm Hn Hc Hlen. unfold tick, materializeSchedules.
  rewrite Hm. cbn [snd]. fold now.
  destruct (dispatchPendingRuns _ _ now p w1) as [[acc p1] w2] eqn:Hd. intros [= <- <- <-].
  apply dispatch_leaves_nothing_due in Hd as (Hdb & Hids & Hall); [|done..].
  assert (Hwf1 : wf_database (w_db w1)).
  { pose proof (Materializer_RunOnce_wf (locked_schedules t) (clock t 0) w Hwf) as H.
    by rewrite Hm in H. }
  apply RunOnce_Ok in Hm as (new & Hr1 & _ & Hf & _ & _); [|done..]. split.
  - apply Forall_forall. intros r Hr Hp.
    eapply turn_end_pending in Hr; [|apply Hp]. rewrite Hdb in Hr.
    by eapply claim_all_pending.
  - intros s Hdue Hp.
    assert (Hin : s ∈ filter parses (due_rows (locked_schedules t) (clock t 0) (w_db w)))
      by by apply list_elem_of_filter.
    apply list_elem_of_lookup in Hin as [i Hi].
    destruct (Forall2_lookup_l _ _ _ _ _ Hf Hi) as (r & Hr%list_elem_of_lookup_2 & Hfor).
    rewrite due_rows_perm in Hdue. apply list_elem_of_filter in Hdue as [Hdue _].
    destruct (run_for_due _ _ _ _ _ Hdue Hfor) as [Hat Hst].
    pose proof (wf_runs_pk _ Hwf1) as Hnd. 
    assert (Hrun : r ∈ runs (w_db w1)) by (rewrite Hr1; apply elem_of_app; by right).
    exists r. split; [done|].
    destruct (new_run_dispatched now acc (locked_runs t) (w_db w1) r) as [[Hmiss Hin]|[? Hin]];
      try done.
    + pose proof (timestamptz_mono _ _ H01). lia.
    + intros Hl%Hlock. rewrite Hr1, fmap_app in Hnd. apply NoDup_app in Hnd as (_ & Hnd & _).
      apply (Hnd _ Hl). by apply list_elem_of_fmap_2.
    + left. split; [done|]. rewrite <- Hdb in Hin. apply turn_end_keeps; [done|].
      intros [He _]. by rewrite Hmiss in He.
    + right. split; [done|]. rewrite <- Hdb in Hin. apply turn_end_keeps; [done|].
      intros [_ He]. simpl in He. apply (timestamptz_mono (clock t 2)) in H12.
      unfold time_Add in He. lia.
Qed.
End tick.

(** ** A closed turn

    An hourly schedule came due a minute ago; its agent's run is started by the
    worker that is asked first. *)
Module OneTurn.
#[local] Existing Instance example_uuid.
#[local] Existing Instance example_cron.
#[local] Existing Instance example_gcm.
#[local] Existing Instance Alerts.parse.
Definition turn : Turn := mkTurn [] [] (λ k, Hour + Minute + Z.of_nat k * Second) Alerts.network.
Definition world : World := mkWorld scheduled_database (example_replies 80).
Definition final : list string * Pool.t * World :=
  tick Alerts.notifier accepts turn (example_pool 0) world.
End OneTurn.

Lemma tick_runs_what_is_due_witness :
  let d := w_db (snd OneTurn.final) in
  fst (fst OneTurn.final) = [example_id 10] ∧
  Forall (λ r, ¬ is_pending [] (clock OneTurn.turn 1) r) (runs d) ∧
  ∃ r, @run_for example_cron (Hour + Minute) example_schedule_row r.
Proof.
  intros d. split; [vm_compute; reflexivity|].
  set (scan := @Materializer_RunOnce example_uuid example_cron [] (Hour + Minute) OneTurn.world).
  destruct (@tick_runs_what_is_due example_uuid example_cron example_gcm Alerts.parse
    Alerts.notifier accepts OneTurn.turn (example_pool 0) OneTurn.world
    1%nat (snd scan) (fst (fst OneTurn.final)) (snd (fst OneTurn.final)) (snd OneTurn.final))
    as [Hnone Hall].
  - apply wf_scheduled_database.
  - apply (bool_decide_unpack _). vm_compute. exact I.
  - intros id Hid. by apply not_elem_of_nil in Hid.
  - vm_compute. discriminate.
  - vm_compute. discriminate.
  - apply example_pool_ok.
  - split; vm_compute; [discriminate|reflexivity].
  - exists 1, (example_worker "a"). split; [vm_compute; reflexivity|done].
  - vm_compute. reflexivity.
  - apply (bool_decide_unpack _). vm_compute. exact I.
  - split; [vm_compute; lia|]. apply (bool_decide_unpack _). vm_compute. exact I.
  - vm_compute. lia.
  - vm_compute. reflexivity.
  - split; [exact Hnone|].
    destruct (Hall example_schedule_row) as (r & Hr & _).
    + vm_compute. left.
    + vm_compute. reflexivity.
    + exists r. exact Hr.
Defined.
