(* ===== verification/Startup.v ===== *)
(** * Starting the services ([src/cmd/], [src/pkg/common/], [src/pkg/health/], and
      the [Start] methods of the scheduler and the coordinator)

    What each service needs before it serves: a database that answers within five
    attempts, the migrations, the master key, and for the scheduler a password.
    Whether a port can be opened is a parameter, as is whether the database is
    reachable at an attempt. *)
From S2P Require Import Prelude GoStrings Model Database Secretbox Accounts Migrate.
From S2P Require Import Net Tools WebTools Executor Notifier Api.
Local Open Scope go_scope.
Local Open Scope Z_scope.

(** ** The database connection ([common.go]) *)
Definition required_env (getenv : string → string) : list string :=
  filter (λ name, getenv name = EmptyString) ["POSTGRES_USER"; "POSTGRES_PASSWORD"; "POSTGRES_DB"].

(** [log.Fatalf] ends the program: an error. *)
Definition GetDBConnectionString (getenv : string → string) : result string :=
  let missingEnvVars := required_env getenv in
  let dbHost := if decide (getenv "POSTGRES_HOST" = EmptyString) then "localhost"
                else getenv "POSTGRES_HOST" in
  if decide (missingEnvVars ≠ []) then
    Err (Errorf ("The following required environment variables are not set: " +:+
                 Join missingEnvVars ", "))
  else Ok ("postgres://" +:+ getenv "POSTGRES_USER" +:+ ":" +:+ getenv "POSTGRES_PASSWORD" +:+
           "@" +:+ dbHost +:+ ":5432/" +:+ getenv "POSTGRES_DB").

Definition connect_retries : nat := 5.

(** The attempts still allowed, the last error, and how each attempt ends: the
    result and the attempts made. *)
Fixpoint connect_loop (connect : nat → result unit) (left retryCount : nat) (err : result unit)
  : result unit * nat :=
  match left with
  | O => (err, retryCount)
  | S left' =>
      match connect retryCount with
      | Ok _ => (Ok tt, S retryCount)
      | Err e => connect_loop connect left' (S retryCount) (Err e)
      end
  end.

Definition ConnectToDatabase (connect : nat → result unit) : result unit * nat :=
  connect_loop connect connect_retries 0 (Ok tt).

Lemma connect_loop_Ok connect left k err r n :
  (0 < left)%nat → connect_loop connect left k err = (r, n) →
  (n ≤ k + left)%nat ∧ (r = Ok tt ↔ ∃ i, (k ≤ i < k + left)%nat ∧ is_ok (connect i) = true).
Proof.
  revert k err. induction left as [|left IH]; intros k err Hl H; [lia|]. simpl in H.
  destruct (connect k) as [[]|e] eqn:Hk.
  { injection H as <- <-. split; [lia|]. split; [|done]. intros _. exists k.
    rewrite Hk. split; [lia|done]. }
  destruct left as [|left].
  - simpl in H. injection H as <- <-. split; [lia|]. split; [done|].
    intros (i & Hi & Hok). replace i with k in Hok by lia. by rewrite Hk in Hok.
  - apply IH in H as [Hn Hr]; [|lia]. split; [lia|]. rewrite Hr.
    split; intros (i & Hi & Hok); exists i; (split; [|done]); [lia|].
    destruct (decide (i = k)) as [->|]; [by rewrite Hk in Hok|lia].
Qed.

(** The database is reached exactly when one of the first five attempts works. *)
Lemma ConnectToDatabase_spec connect :
  (snd (ConnectToDatabase connect) ≤ 5)%nat ∧
  (fst (ConnectToDatabase connect) = Ok tt ↔ ∃ i, (i < 5)%nat ∧ is_ok (connect i) = true).
Proof.
  destruct (ConnectToDatabase connect) as [r n] eqn:H.
  apply connect_loop_Ok in H as [Hn Hr]; [|unfold connect_retries; lia]. simpl in *.
  split; [done|]. rewrite Hr. unfold connect_retries.
  split; intros (i & Hi & Hok); exists i; (split; [lia|done]).
Qed.

(** ** Probes ([health.go])

    A check that is nil counts as healthy. *)
Definition Check : Type := option (result unit).

Definition probe `{!PgMessages} (check : Check) : Z * list (string * string) :=
  match check with
  | Some (Err err) => (503, [("status", "unavailable"); ("reason", error_text err)])
  | _ => (200, [("status", "ok")])
  end.

Record HealthServer := mkHealthServer { live : Check; ready : Check }.

(** [listen] is whether the address can be opened. *)
Definition health_Serve (listen : result unit) (live ready : Check) : result HealthServer :=
  _ ←? listen; Ok (mkHealthServer live ready).

Definition health_handle `{!PgMessages} (s : HealthServer) (path : string)
  : option (Z * list (string * string)) :=
  if decide (path = "/healthz") then Some (probe (live s))
  else if decide (path = "/readyz") then Some (probe (ready s))
  else None.

(** What a worker serves ([Start] of [worker.go]). *)
Definition worker_health (listen : result unit) (draining : bool) : result HealthServer :=
  health_Serve listen (Some (Ok tt))
    (Some (if draining then Err (Errorf "draining") else Ok tt)).

(** A draining worker is alive and not ready. *)
Lemma draining_worker_alive `{!PgMessages} draining s :
  worker_health (Ok tt) draining = Ok s →
  (fst <$> health_handle s "/healthz") = Some 200 ∧
  (fst <$> health_handle s "/readyz") = Some (if draining then 503 else 200).
Proof. intros [= <-]. by destruct draining. Qed.

(** ** The scheduler ([Start] of [scheduler.go], up to serving) *)
Section start.
Context {Schema : Type} (execute_sql : string → Schema → result Schema).
Context {PU : PgUuid} {PJ : PgJsonb} {G : Gcm} {B : Bcrypt} {NU : NetUrl}.
Implicit Types (getenv : string → string) (w : World).

(** The password part: the owner's password is set from the environment when there
    is none yet, and without any the server does not start. *)
Definition require_password getenv : Db unit :=
  (if decide (getenv "TASKD_PASSWORD" ≠ EmptyString)
   then EnsurePassword OwnerUserID (getenv "TASKD_PASSWORD") else ret tt) ;;
  hasPassword ← HasPassword OwnerUserID;
  if hasPassword : bool then ret tt
  else fail (Errorf "no password is set: start once with TASKD_PASSWORD to set one").

Definition new_scheduler getenv (bundle : string → bool) (sealer : Sealer.t) : SchedulerServer.t :=
  let config := ConfigFromEnv getenv in
  SchedulerServer.mk (BuildRegistry true (Some (TelegramDelivery (Some sealer))) config)
    sealer config getenv bundle.

(** [c] is the schema the migrations work on, [w] the tables once they are there. *)
Definition Scheduler_Start (files : list (string * string)) (connect : nat → result unit) getenv
    (bundle : string → bool) (c : Conn (Schema := Schema)) w
  : result SchedulerServer.t * Conn (Schema := Schema) * World :=
  match fst (ConnectToDatabase connect) with
  | Err err => (Err err, c, w)
  | Ok _ =>
      match Migrate execute_sql files c with
      | (Err err, c') => (Err err, c', w)
      | (Ok _, c') =>
          match NewFromEnv (getenv MasterKeyEnvVar) with
          | Err err => (Err err, c', w)
          | Ok sealer =>
              match require_password getenv w with
              | (Err err, w') => (Err err, c', w')
              | (Ok _, w') => (Ok (new_scheduler getenv bundle sealer), c', w')
              end
          end
      end
  end.

(** ** The coordinator ([Start] of [coordinator.go]) and the worker ([main.go])

    What their loops are run with. *)
Definition Coordinator_Start (listen_grpc listen_health : result unit) (connect : nat → result unit)
    getenv (healthAddress : string) (ping : Check) : result (Notifier.t * option HealthServer) :=
  _ ←? map_error (Wrapf "gRPC server start failed") listen_grpc;
  _ ←? fst (ConnectToDatabase connect);
  sealer ←? NewFromEnv (getenv MasterKeyEnvVar);
  let notifier := NewNotifier (Some sealer) (getenv "TASKD_TELEGRAM_BASE_URL") in
  if decide (healthAddress = EmptyString) then Ok (notifier, None)
  else
    server ←? map_error (Wrapf "health server start failed") (health_Serve listen_health ping ping);
    Ok (notifier, Some server).

Definition worker_main (connect : nat → result unit) getenv : result Executor.t :=
  _ ←? GetDBConnectionString getenv;
  _ ←? fst (ConnectToDatabase connect);
  sealer ←? NewFromEnv (getenv MasterKeyEnvVar);
  Ok (Executor.mk (Some sealer)
        (BuildRegistry true (Some (TelegramDelivery (Some sealer))) (ConfigFromEnv getenv))
        (getenv "TASKD_MODEL_API_KEY")).

(** ** A scheduler that serves is closed *)
Definition owner_has_password (d : Database) : Prop :=
  ∃ u row, uuid_in OwnerUserID = Some u ∧
    first_where (λ x, UserRow.id x = u) (users d) = Some row ∧
    UserRow.password_hash row ≠ EmptyString.

Lemma HasPassword_Ok w w' :
  HasPassword OwnerUserID w = (Ok true, w') → owner_has_password (w_db w') ∧ w_db w' = w_db w.
Proof.
  intros (h & w1 & (u & row & Hu & Hrow & -> & Hdb)%password_of_Ok & [Hb ->]%ret_Ok)%bind_Ok.
  symmetry in Hb. apply bool_decide_eq_true in Hb. rewrite <- Hdb in Hrow.
  split; [by exists u, row|done].
Qed.

(** Only the first password is ever written. *)
Lemma EnsurePassword_first userID p w w' :
  EnsurePassword userID p w = (Ok tt, w') →
  w_db w' = w_db w ∨
  ∃ u row, uuid_in userID = Some u ∧
    first_where (λ x, UserRow.id x = u) (users (w_db w)) = Some row ∧
    UserRow.password_hash row = EmptyString.
Proof.
  intros (h & w1 & (u & row & Hu & Hrow & -> & Hdb)%password_of_Ok & H)%bind_Ok.
  case_decide as Hh; [apply ret_Ok in H as [_ ->]; by left|right].
  exists u, row. split_and!; [done|done|].
  destruct (decide (UserRow.password_hash row = EmptyString)); [done|by destruct Hh].
Qed.

Lemma require_password_Ok getenv w w' :
  require_password getenv w = (Ok tt, w') →
  owner_has_password (w_db w') ∧
  (w_db w' = w_db w ∨
   ¬ owner_has_password (w_db w) ∧ getenv "TASKD_PASSWORD" ≠ EmptyString).
Proof.
  intros ([] & w1 & Hset & H)%bind_Ok.
  apply bind_Ok in H as (b & w2 & Hp & H). destruct b; [|by unfold fail in H].
  apply ret_Ok in H as [_ ->]. apply HasPassword_Ok in Hp as [Hown Hdb]. split; [done|].
  rewrite Hdb.
  case_decide as Henv; [|apply ret_Ok in Hset as [_ ->]; by left].
  apply EnsurePassword_first in Hset as [?|(u & row & Hu & Hrow & Hempty)]; [by left|right].
  split; [|done]. intros (u' & row' & Hu' & Hrow' & Hne). by simplify_eq.
Qed.

End start.

(** ** A first boot

    The database answers at the third attempt; the password comes from the
    environment. *)
Module FirstBoot.
#[local] Existing Instance example_uuid.
#[local] Existing Instance example_jsonb.
#[local] Existing Instance example_gcm.
#[local] Existing Instance example_bcrypt.
#[local] Existing Instance Alerts.parse.
Definition getenv (name : string) : string :=
  if decide (name = MasterKeyEnvVar) then "MDEyMzQ1Njc4OWFiY2RlZjAxMjM0NTY3ODlhYmNkZWY="
  else if decide (name = "TASKD_PASSWORD") then "secret" else EmptyString.
Definition connect (attempt : nat) : result unit :=
  if decide (attempt = 2%nat) then Ok tt else Err (Errorf "connection refused").
Definition files : list (string * string) := [("0001.sql", "a"); ("0002.sql", "b")].
Definition booted : result SchedulerServer.t * Conn (Schema := list string) * World :=
  Scheduler_Start example_sql files connect getenv (λ _, false) example_conn
    (mkWorld empty_database (replicate 5 (answer 0 1))).
End FirstBoot.

Lemma triple_eta {A B C} (p : A * B * C) : p = (fst (fst p), snd (fst p), snd p).
Proof. by destruct p as [[a b] c]. Qed.

