(* ===== verification/JsonFuel.v ===== *)
(** * The JSON reader is total

    Every part of a document takes at least a byte, so the fuel [parse_json] and
    [json_string] give their readers never decides what they answer. *)
From S2P Require Import Prelude GoStrings Json.
From Stdlib Require Import Ascii.
Local Open Scope go_scope.

(** ** What is left is shorter *)
Lemma len_skip_space s : len (skip_space s) ≤ len s.
Proof. induction s as [|c s IH]; simpl; [lia|]. destruct (_ : bool); simpl; lia. Qed.

Lemma expect_len n s rest : expect n s = Some rest → len rest < len s.
Proof. destruct s as [|c s]; simpl; [done|]. case_match; intros [= <-]; lia. Qed.

Lemma hex4_len s r rest : hex4 s = Some (r, rest) → len rest < len s.
Proof.
  destruct s as [|a [|b [|c [|d s]]]]; try done. unfold hex4.
  intros H. simplify_option_eq. lia.
Qed.

Lemma utf8_len_pos s n : utf8_len s = Some n → 1 ≤ n.
Proof.
  unfold utf8_len. intros H. repeat case_match; simplify_eq; lia.
Qed.

Lemma string_body_len fuel s t k : string_body fuel s = Some (t, k) → len k < len s.
Proof.
  revert s t k. induction fuel as [|fuel IH]; intros s t k H; [done|].
  destruct s as [|c s]; [done|]. cbn [string_body] in H.
  repeat (case_match || simplify_option_eq);
    repeat match goal with
    | H : string_body _ _ = Some _ |- _ => apply IH in H
    | H : hex4 _ = Some _ |- _ => apply hex4_len in H
    | H : utf8_len _ = Some ?n |- _ => apply utf8_len_pos in H
    | H : context[len (str_drop ?n ?s)] |- _ =>
        lazymatch goal with _ : len (str_drop n s) = _ |- _ => fail | _ => pose proof (len_str_drop n s) end
    end; simpl in *; try lia.
Qed.

(** Facts about the sizes at hand, for arithmetic. *)
Ltac sizes :=
  repeat match goal with
  | H : string_body _ _ = Some _ |- _ => apply string_body_len in H
  | H : hex4 _ = Some _ |- _ => apply hex4_len in H
  | H : utf8_len _ = Some _ |- _ => apply utf8_len_pos in H
  | H : expect _ _ = Some _ |- _ => apply expect_len in H
  | |- context[len (str_drop ?n ?s)] =>
      lazymatch goal with _ : len (str_drop n s) = _ |- _ => fail | _ => pose proof (len_str_drop n s) end
  end; simpl in *; lia.

(** The same reader with other fuel, at a call further down. *)
Ltac same_call IH :=
  match goal with
  | |- context[string_body ?n ?x] =>
      is_var n; match goal with |- context[string_body ?m x] => is_var m;
        lazymatch m with n => fail | _ => rewrite (IH x m) by sizes end end
  end.

Lemma string_body_fuel n m s :
  len s < n → len s < m → string_body n s = string_body m s.
Proof.
  revert m s. induction n as [|n IH]; intros m s Hn Hm; [lia|].
  assert (IH' : ∀ x m, len x < n → len x < m → string_body n x = string_body m x) by auto.
  destruct m as [|m]; [lia|]. destruct s as [|c s]; [done|].
  cbn [string_body]. unfold mbind, option_bind.
  repeat first [reflexivity | same_call IH' | case_match; simplify_eq].
Qed.

(** ** Numbers and literals *)
Lemma span_digits_len s d r : span_digits s = (d, r) → len d + len r = len s.
Proof.
  revert d r. induction s as [|c s IH]; intros d r; simpl; [by intros [= <- <-]|].
  destruct (is_digit c); [|by intros [= <- <-]].
  destruct (span_digits s) as [d' r'] eqn:E. intros [= <- <-]. simpl. by rewrite (IH _ _ eq_refl).
Qed.

Lemma digits1_len s d r : digits1 s = Some (d, r) → len r < len s.
Proof.
  unfold digits1. destruct (span_digits s) as [d' r'] eqn:E. apply span_digits_len in E.
  destruct d' as [|c d']; [done|]. intros [= <- <-]. simpl in E. lia.
Qed.

Lemma number_len s raw rest : number s = Some (raw, rest) → len rest < len s.
Proof.
  unfold number. intros H.
  destruct (match s with EmptyString => _ | String _ _ => _ end) as [sign s1] eqn:E.
  assert (Hs : len s1 ≤ len s) by (destruct s; simpl in E; [|case_match]; simplify_eq; simpl; lia).
  clear E. apply bind_Some in H as ([i s2] & Hi & H).
  apply bind_Some in H as ([f s3] & Hf & H). apply bind_Some in H as ([e s4] & He & H).
  injection H as _ <-.
  assert (len s2 < len s1).
  { unfold int_part in Hi. destruct s1; [done|]. case_match; [by simplify_eq; simpl; lia|].
    by apply digits1_len in Hi. }
  assert (len s3 ≤ len s2).
  { unfold frac_part in Hf. repeat (case_match || simplify_option_eq); simpl; try lia.
    apply digits1_len in Heqo. lia. }
  assert (len s4 ≤ len s3); [|lia].
  unfold exp_part in He. repeat (case_match || simplify_option_eq);
    repeat match goal with H : digits1 _ = Some _ |- _ => apply digits1_len in H end; simpl in *; lia.
Qed.

Lemma literal_len word v s j rest :
  word ≠ EmptyString → literal word v s = Some (j, rest) → len rest < len s.
Proof.
  unfold literal. intros Hw H. destruct s as [|c s]; [by destruct word|].
  case_match; [|done]. injection H as _ <-. destruct word as [|w word]; [done|].
  pose proof (len_str_drop (len word) s). simpl. lia.
Qed.

(** ** Documents *)
Definition eats {A} (read : string → option (A * string)) : Prop :=
  ∀ s a rest, read s = Some (a, rest) → len rest < len s.

(** After the opening byte, what a composite reads. *)
Lemma eats_after {A} (read : string → option (A * string)) s s' a rest :
  eats read → read (skip_space s') = Some (a, rest) → len s' < len s → len rest < len s.
Proof. intros Hr H%Hr Hs. pose proof (len_skip_space s'). lia. Qed.

Lemma documents_eat fuel :
  (∀ depth, eats (value fuel depth)) ∧ (∀ depth, eats (members fuel depth)) ∧
  (∀ depth, eats (elements fuel depth)).
Proof.
  induction fuel as [|fuel (IHv & IHm & IHe)]; [by split_and!|].
  split_and!; intros depth s a rest H.
  - destruct s as [|c s]; [done|]. cbn [value] in H. unfold mbind, option_bind in H.
    repeat (case_match; try discriminate); simplify_eq; subst;
      repeat match goal with
      | H : string_body _ _ = Some _ |- _ => apply string_body_len in H
      | H : json_string _ = Some _ |- _ => apply string_body_len in H
      | H : number _ = Some _ |- _ => apply number_len in H
      | H : literal _ _ _ = Some _ |- _ => by apply literal_len in H
      | H : members _ _ (skip_space _) = Some _ |- _ =>
          by eapply eats_after; [apply IHm|exact H|simpl; lia]
      | H : elements _ _ (skip_space _) = Some _ |- _ =>
          by eapply eats_after; [apply IHe|exact H|simpl; lia]
      | H : expect _ (skip_space ?x) = Some _ |- _ =>
          apply expect_len in H; pose proof (len_skip_space x)
      end; simpl in *; lia.
  - cbn [members] in H. apply bind_Some in H as (s1 & H1%expect_len & H).
    apply bind_Some in H as ([key s2] & H2%string_body_len & H).
    apply bind_Some in H as (s3 & H3%expect_len & H).
    apply bind_Some in H as ([v s5] & H5%IHv & H).
    pose proof (len_skip_space s2). pose proof (len_skip_space s3). pose proof (len_skip_space s5).
    destruct (expect 44 _) as [s7|] eqn:E.
    + apply expect_len in E. apply bind_Some in H as ([ms r] & H7 & [= _ <-]).
      assert (len r < len s7 + 1); [|lia].
      apply IHm in H7. pose proof (len_skip_space s7). lia.
    + apply bind_Some in H as (r & Hr%expect_len & [= _ <-]). lia.
  - cbn [elements] in H. apply bind_Some in H as ([v s1] & H1%IHv & H).
    pose proof (len_skip_space s1). destruct (expect 44 _) as [s3|] eqn:E.
    + apply expect_len in E. apply bind_Some in H as ([vs r] & H3%IHe & [= _ <-]).
      pose proof (len_skip_space s3). lia.
    + apply bind_Some in H as (r & Hr%expect_len & [= _ <-]). lia.
Qed.

Lemma value_eats fuel depth s v rest : value fuel depth s = Some (v, rest) → len rest < len s.
Proof. apply documents_eat. Qed.

(** Two amounts of fuel that are enough give the same reading. *)
Lemma documents_fuel n : ∀ m depth s,
  (2 * len s + 1 ≤ n → 2 * len s + 1 ≤ m → value n depth s = value m depth s) ∧
  (2 * len s + 1 ≤ n → 2 * len s + 1 ≤ m → members n depth s = members m depth s) ∧
  (2 * len s + 2 ≤ n → 2 * len s + 2 ≤ m → elements n depth s = elements m depth s).
Proof.
  induction n as [|n IH]; intros m depth s; [split_and!; lia|].
  destruct m as [|m]; [split_and!; lia|]. split_and!; intros Hn Hm.
  - destruct s as [|c s]; [done|]. simpl in Hn, Hm. cbn [value].
    pose proof (len_skip_space s). destruct depth as [|depth]; [done|].
    destruct (IH m depth (skip_space s)) as (_ & Hms & Hes). by rewrite Hms, Hes by lia.
  - cbn [members]. destruct (expect 34 s) as [s1|] eqn:E1; [|done]. cbn [mbind option_bind].
    destruct (json_string s1) as [[key s2]|] eqn:E2; [|done]. cbn [mbind option_bind].
    destruct (expect 58 _) as [s3|] eqn:E3; [|done]. cbn [mbind option_bind].
    apply expect_len in E1, E3. apply string_body_len in E2.
    pose proof (len_skip_space s2). pose proof (len_skip_space s3).
    rewrite (proj1 (IH m depth (skip_space s3))) by lia.
    destruct (value m _ _) as [[v s5]|] eqn:E5; [|done]. cbn [mbind option_bind].
    apply value_eats in E5. pose proof (len_skip_space s5).
    destruct (expect 44 _) as [s7|] eqn:E7; [|done]. apply expect_len in E7.
    pose proof (len_skip_space s7).
    by rewrite (proj1 (proj2 (IH m depth (skip_space s7)))) by lia.
  - cbn [elements]. rewrite (proj1 (IH m depth s)) by lia.
    destruct (value m _ _) as [[v s1]|] eqn:E1; [|done]. cbn [mbind option_bind].
    apply value_eats in E1. pose proof (len_skip_space s1).
    destruct (expect 44 _) as [s3|] eqn:E3; [|done]. apply expect_len in E3.
    pose proof (len_skip_space s3).
    by rewrite (proj2 (proj2 (IH m depth (skip_space s3)))) by lia.
Qed.

(** Reading a document never runs out: with any more fuel than [parse_json] and
    [json_string] give, the readers answer the same, so a text is refused for what
    it says and not for its length; and what they leave over is shorter than what
    they were given. *)
Lemma parse_json_total s :
  (∀ extra depth, value (2 * len s + 2 + extra) depth (skip_space s) =
                  value (2 * len s + 2) depth (skip_space s)) ∧
  (∀ extra, string_body (S (len s) + extra) s = json_string s) ∧
  (∀ depth v rest, value (2 * len s + 2) depth s = Some (v, rest) → len rest < len s).
Proof.
  pose proof (len_skip_space s). split_and!.
  - intros extra depth. apply documents_fuel; lia.
  - intros extra. apply string_body_fuel; lia.
  - intros depth v rest. apply value_eats.
Qed.
