(* ===== verification/PoolInterleaving.v ===== *)
(** * The worker pool under concurrency ([src/pkg/coordinator/coordinator.go])

    Heartbeats, sweeps and dispatchers run at the same time.  [SendHeartbeat] and
    [removeInactiveWorkers] hold [WorkerPoolMutex] throughout, so one of them is at
    work at most; but they change the map first and the slice of its keys after, and
    [getNextWorker] takes only [WorkerPoolKeysMutex]: it can look in between.  A
    state is the pool and where the holder of [WorkerPoolMutex] is; a step is one
    access.  The counter is incremented under a read lock by every dispatcher, so
    here it takes any value at any time. *)
From S2P Require Import Prelude GoStrings Model WorkerPool.
Import Pool.
Local Open Scope go_scope.
Local Open Scope Z_scope.

(** Where the holder of [WorkerPoolMutex] is. *)
Inductive Holder :=
| Free
| Registering (workerID : Z)
| Sweeping (todo : list Z)
| Dropping (workerID : Z) (todo : list Z).

Record Shared := mkShared { pool : Pool.t; holder : Holder }.

Section interleaving.
Context (range : gmap Z workerInfo.t → list Z) (Hrange : range_law range).
Context (dial : string → option error).

Definition insert_worker (id : Z) (w : workerInfo.t) (p : Pool.t) : Pool.t :=
  p <| WorkerPool ::= <[id := w]> |>.

Inductive step : Shared → Shared → Prop :=
| beat_known p id addr w :
    WorkerPool p !! id = Some w →
    step (mkShared p Free) (mkShared (snd (SendHeartbeat range dial id addr p)) Free)
| beat_new p id addr :
    WorkerPool p !! id = None → dial addr = None →
    step (mkShared p Free)
         (mkShared (insert_worker id (workerInfo.mk 0 addr) p) (Registering id))
| beat_keys p id :
    step (mkShared p (Registering id)) (mkShared (rebuild_keys range p) Free)
| sweep_begins p :
    step (mkShared p Free) (mkShared p (Sweeping (range (WorkerPool p))))
| sweep_misses p id w todo :
    WorkerPool p !! id = Some w → workerInfo.heartbeatMisses w ≤ maxHeartbeatMisses p →
    step (mkShared p (Sweeping (id :: todo)))
         (mkShared (sweep_one range id p) (Sweeping todo))
| sweep_drops p id w todo :
    WorkerPool p !! id = Some w → workerInfo.heartbeatMisses w > maxHeartbeatMisses p →
    step (mkShared p (Sweeping (id :: todo)))
         (mkShared (p <| WorkerPool ::= delete id |>) (Dropping id todo))
| sweep_keys p id todo :
    step (mkShared p (Dropping id todo)) (mkShared (rebuild_keys range p) (Sweeping todo))
| sweep_ends p :
    step (mkShared p (Sweeping [])) (mkShared p Free)
| counted p i h :
    step (mkShared p h) (mkShared (p <| roundRobinIndex := i |>) h).

Definition reachable (s : Shared) : Prop := rtc step (mkShared new_pool Free) s.

(** What the slice holds, by who is at work. *)
Definition keys_of (s : Shared) : Prop :=
  match holder s with
  | Free => pool_ok (pool s)
  | Registering id =>
      is_Some (WorkerPool (pool s) !! id) ∧ ¬ id ∈ WorkerPoolKeys (pool s) ∧
      id :: WorkerPoolKeys (pool s) ≡ₚ map_keys (WorkerPool (pool s))
  | Sweeping todo =>
      pool_ok (pool s) ∧ NoDup todo ∧ Forall (λ id, is_Some (WorkerPool (pool s) !! id)) todo
  | Dropping id todo =>
      WorkerPool (pool s) !! id = None ∧
      WorkerPoolKeys (pool s) ≡ₚ id :: map_keys (WorkerPool (pool s)) ∧
      NoDup todo ∧ Forall (λ id, is_Some (WorkerPool (pool s) !! id)) todo
  end.

Lemma pool_ok_counted p i : pool_ok (p <| roundRobinIndex := i |>) ↔ pool_ok p.
Proof. done. Qed.

(** A new key of a map. *)
Lemma map_keys_insert_new m id w :
  m !! id = None → map_keys (<[id := w]> m) ≡ₚ id :: map_keys m.
Proof. intros Hid. unfold map_keys. by rewrite map_to_list_insert. Qed.

Lemma map_keys_delete m id w : m !! id = Some w → id :: map_keys (delete id m) ≡ₚ map_keys m.
Proof.
  intros Hid. rewrite <- (map_keys_insert_new (delete id m) id w) by apply lookup_delete_eq.
  by rewrite insert_delete_id.
Qed.

Lemma initially_keys : keys_of (mkShared new_pool Free).
Proof. unfold keys_of, pool_ok. simpl. unfold map_keys. by rewrite map_to_list_empty. Qed.

Lemma todo_still_there (m : gmap Z workerInfo.t) id todo w :
  ¬ id ∈ todo → Forall (λ j, is_Some (m !! j)) todo →
  Forall (λ j, is_Some (<[id := w]> m !! j)) todo ∧
  Forall (λ j, is_Some (delete id m !! j)) todo.
Proof.
  intros Hid. rewrite !Forall_forall. intros Hall.
  split; intros j Hj; (assert (id ≠ j) by congruence);
    [rewrite lookup_insert_ne by done|rewrite lookup_delete_ne by done]; by apply Hall.
Qed.

Lemma step_keys s s' : step s s' → keys_of s → keys_of s'.
Proof.
  intros Hs Hk. destruct Hs as [p id addr w Hw|p id addr Hw Hd|p id|p|p id w todo Hw Hm|
    p id w todo Hw Hm|p id todo|p|p i h]; unfold keys_of in *; simpl in *.
  - unfold SendHeartbeat. rewrite Hw. unfold pool_ok. simpl. rewrite map_keys_insert by eauto.
    exact Hk.
  - split; [rewrite lookup_insert_eq; eauto|]. split.
    + rewrite (pool_ok_elem p id Hk), Hw. by intros [].
    + rewrite map_keys_insert_new by done. by constructor.
  - apply Hrange.
  - split; [done|]. split; [rewrite Hrange; apply NoDup_map_keys|].
    apply Forall_forall. intros j Hj. rewrite Hrange in Hj. by apply elem_of_map_keys.
  - destruct Hk as (Hok & [Hid Hnd]%NoDup_cons & [_ Hall]%Forall_cons).
    pose proof (sweep_one_ok range Hrange id p Hok) as Hok'. split_and!; [done|done|].
    unfold sweep_one. rewrite Hw, decide_False by lia. by apply todo_still_there.
  - destruct Hk as (Hok & [Hid Hnd]%NoDup_cons & [_ Hall]%Forall_cons).
    split; [apply lookup_delete_eq|]. split; [|split; [done|by eapply todo_still_there]].
    rewrite (map_keys_delete _ _ _ Hw). exact Hok.
  - destruct Hk as (_ & _ & Hnd & Hall). split; [apply Hrange|done].
  - by destruct Hk.
  - exact Hk.
Qed.

Lemma reachable_keys s : reachable s → keys_of s.
Proof.
  intros Hr. assert (Hgen : ∀ a, keys_of a → rtc step a s → keys_of s);
    [|exact (Hgen _ initially_keys Hr)].
  intros a Ha Hrtc. induction Hrtc; eauto using step_keys.
Qed.

(** ** What a dispatcher finds *)

(** Nobody to ask: no workers, more than the counter can tell apart, or the key it
    is at belongs to a worker being dropped. *)
Definition starved (s : Shared) : Prop :=
  WorkerPoolKeys (pool s) = [] ∨ 2 ^ 32 ≤ Z.of_nat (length (WorkerPoolKeys (pool s))) ∨
  ∃ id todo, holder s = Dropping id todo.

Lemma key_registered s k :
  keys_of s → k ∈ WorkerPoolKeys (pool s) →
  is_Some (WorkerPool (pool s) !! k) ∨ ∃ id todo, holder s = Dropping id todo.
Proof.
  unfold keys_of. destruct (holder s) as [|id|todo|id todo]; intros Hk Hin; [left..|right; eauto].
  - by apply (pool_ok_elem _ _ Hk).
  - destruct Hk as (_ & _ & Hk). apply elem_of_map_keys. rewrite <- Hk. by right.
  - destruct Hk as (Hk & _). by apply (pool_ok_elem _ _ Hk).
Qed.

Lemma getNextWorker_found s w p' :
  getNextWorker (pool s) = (Some w, p') → ∃ k, WorkerPool (pool s) !! k = Some w.
Proof.
  unfold getNextWorker. case_decide; [done|]. intros [= Hw _].
  apply bind_Some in Hw as (k & _ & Hw). eauto.
Qed.

Lemma getNextWorker_starved s p' :
  keys_of s → getNextWorker (pool s) = (None, p') → starved s.
Proof.
  intros Hk. unfold getNextWorker. set (keys := WorkerPoolKeys (pool s)).
  case_decide as Hlen; [intros _; left; apply length_zero_iff_nil; subst keys; lia|].
  intros [= Hn _]. destruct (decide (2 ^ 32 ≤ Z.of_nat (length keys))); [right; by left|].
  rewrite u32_small in Hn by lia.
  destruct (lookup_lt_is_Some_2 keys
    (Z.to_nat (roundRobinIndex (pool s) `mod` Z.of_nat (length keys)))) as [k Hkey].
  { pose proof (Z.mod_pos_bound (roundRobinIndex (pool s)) (Z.of_nat (length keys))
      ltac:(lia)). lia. }
  rewrite Hkey in Hn. simpl in Hn. right. right.
  destruct (key_registered s k Hk) as [[w Hw]|?]; [by eapply list_elem_of_lookup_2|congruence|done].
Qed.

Lemma getNextWorker_step s :
  rtc step s (mkShared (snd (getNextWorker (pool s))) (holder s)).
Proof.
  destruct s as [p h]. unfold getNextWorker. simpl. case_decide; [done|].
  apply rtc_once. destruct p. apply counted.
Qed.

(** [offerRunToWorker] with the others at work before every look; [n] attempts are
    left, [asked] are the workers offered the run. *)
Inductive offering (submit : workerInfo.t → result bool)
  : nat → Shared → result bool → list workerInfo.t → Shared → Prop :=
| offering_over s s1 : rtc step s s1 → offering submit 0 s (Ok false) [] s1
| offering_nil n s s1 p' :
    rtc step s s1 → getNextWorker (pool s1) = (None, p') →
    offering submit (S n) s (Err no_workers) [] (mkShared p' (holder s1))
| offering_taken n s s1 w p' :
    rtc step s s1 → getNextWorker (pool s1) = (Some w, p') → submit w = Ok true →
    offering submit (S n) s (Ok true) [w] (mkShared p' (holder s1))
| offering_next n s s1 w p' r asked s' :
    rtc step s s1 → getNextWorker (pool s1) = (Some w, p') → submit w ≠ Ok true →
    offering submit n (mkShared p' (holder s1)) r asked s' →
    offering submit (S n) s r (w :: asked) s'.

(** At some moment in between. *)
Definition meanwhile (s s' : Shared) (P : Shared → Prop) : Prop :=
  ∃ s1, rtc step s s1 ∧ rtc step s1 s' ∧ P s1.
Definition registered (w : workerInfo.t) (s : Shared) : Prop :=
  ∃ k, WorkerPool (pool s) !! k = Some w.

Lemma meanwhile_now s s1 s' P : rtc step s s1 → rtc step s1 s' → P s1 → meanwhile s s' P.
Proof. intros. by exists s1. Qed.

Lemma meanwhile_later s s1 s' P : rtc step s s1 → meanwhile s1 s' P → meanwhile s s' P.
Proof. intros H (s2 & H1 & H2 & HP). exists s2. split_and!; [by etrans|done|done]. Qed.

Lemma offering_steps submit n s r asked s' :
  offering submit n s r asked s' → rtc step s s'.
Proof.
  induction 1 as [s s1 H|n s s1 p' H Hg|n s s1 w p' H Hg _|n s s1 w p' r asked s' H Hg _ _ IH];
    [done|..]; pose proof (getNextWorker_step s1) as Hs; rewrite Hg in Hs; simpl in Hs;
    (etrans; [exact H|]); [done..|by etrans].
Qed.

(** C18: whatever heartbeats, sweeps and other dispatchers do meanwhile, an offer asks
    at most as many workers as there were keys when it began, each of them
    registered when it was asked, and stops at the first that accepts; that nobody
    is available is only ever said when the pool was empty or a sweep was at that
    moment between taking a worker out of the map and rebuilding the keys. *)
Theorem concurrent_offer_sound submit n s r asked s' :
  reachable s → offering submit n s r asked s' →
  keys_of s' ∧ (length asked ≤ n)%nat ∧
  Forall (λ w, meanwhile s s' (registered w)) asked ∧
  match r with
  | Ok true => ∃ before w, asked = before ++ [w] ∧ submit w = Ok true ∧
                           Forall (λ v, submit v ≠ Ok true) before
  | Ok false => length asked = n ∧ Forall (λ v, submit v ≠ Ok true) asked
  | Err e => e = no_workers ∧ meanwhile s s' starved
  end.
Proof.
  intros Hr Ho. split.
  { apply reachable_keys. unfold reachable. etrans; [exact Hr|by eapply offering_steps]. }
  revert Hr. induction Ho as [s s1 H|n s s1 p' H Hg|n s s1 w p' H Hg Hw|
    n s s1 w p' r asked s' H Hg Hw Ho IH]; intros Hr.
  - done.
  - split; [simpl; lia|]. split; [done|]. split; [done|].
    pose proof (getNextWorker_step s1) as Hs. rewrite Hg in Hs.
    eapply meanwhile_now; [exact H|exact Hs|]. eapply getNextWorker_starved; [|exact Hg].
    apply reachable_keys. by unfold reachable in *; etrans.
  - pose proof (getNextWorker_step s1) as Hs. rewrite Hg in Hs.
    split; [simpl; lia|]. split; [|by exists [], w]. apply Forall_singleton.
    eapply meanwhile_now; [exact H|exact Hs|]. by eapply getNextWorker_found.
  - pose proof (getNextWorker_step s1) as Hs. rewrite Hg in Hs. simpl in Hs.
    assert (Hss : rtc step s (mkShared p' (holder s1))) by by etrans.
    destruct IH as (Hlen & Hasked & Hres); [by unfold reachable in *; etrans|].
    split; [simpl; lia|]. split.
    + constructor.
      * eapply meanwhile_now; [exact H| |by eapply getNextWorker_found].
        etrans; [exact Hs|by eapply offering_steps].
      * eapply Forall_impl; [exact Hasked|]. intros v. by apply meanwhile_later.
    + destruct r as [[]|e].
      * destruct Hres as (before & v & -> & Hv & Hb). exists (w :: before), v.
        split_and!; [done|done|by constructor].
      * destruct Hres as [<- Hb]. split; [done|by constructor].
      * destruct Hres as [-> Hst]. split; [done|by eapply meanwhile_later].
Qed.
End interleaving.

(** ** Closed interleavings *)
Definition dials (_ : string) : option error := None.
Definition in_order (m : gmap Z workerInfo.t) : list Z := reverse (map_keys m).
Definition three_workers (m : Z) : Pool.t :=
  Pool.mk {[ 1 := workerInfo.mk m "a"; 2 := example_worker "b"; 3 := example_worker "c" ]}
    [1; 2; 3] defaultMaxMisses 0.

(** A dispatcher that looks while a silent worker is being dropped is told there are
    no workers, although two others would take the run. *)
Lemma drop_window_stops_dispatch :
  let torn := (three_workers 2) <| WorkerPool ::= delete 1 |> in
  rtc (step in_order dials) (mkShared (three_workers 2) Free) (mkShared torn (Dropping 1 [2; 3])) ∧
  (∃ k w, WorkerPool torn !! k = Some w ∧ only "b" w = Ok true) ∧
  fst (offerRunToWorker (only "b") torn) = (Err no_workers, []).
Proof.
  intros torn. split; [|split; [|vm_compute; reflexivity]].
  - eapply rtc_l; [apply sweep_begins|].
    assert (Hk : in_order (WorkerPool (three_workers 2)) = [1; 2; 3]) by (vm_compute; reflexivity).
    rewrite Hk. apply rtc_once. eapply sweep_drops; vm_compute; reflexivity.
  - exists 2, (example_worker "b"). split; vm_compute; reflexivity.
Qed.

Lemma concurrent_offer_sound_witness :
  let p1 := insert_worker 7 (example_worker "a") new_pool in
  let p2 := rebuild_keys map_keys p1 in
  ∃ s', offering map_keys dials (only "a") 1 (mkShared p1 (Registering 7)) (Ok true)
          [example_worker "a"] s' ∧
    Forall (λ w, meanwhile map_keys dials (mkShared p1 (Registering 7)) s' (registered w))
      [example_worker "a"].
Proof.
  intros p1 p2. assert (Ho : offering map_keys dials (only "a") 1 (mkShared p1 (Registering 7))
    (Ok true) [example_worker "a"] (mkShared (snd (getNextWorker p2)) Free)).
  { apply (offering_taken map_keys dials (only "a") 0 _ (mkShared p2 Free)).
    - apply rtc_once, beat_keys.
    - vm_compute. reflexivity.
    - vm_compute. reflexivity. }
  eexists. split; [exact Ho|].
  apply (concurrent_offer_sound map_keys (λ m, reflexivity _) dials (only "a") 1 _ _ _ _) in Ho
    as (_ & _ & Hasked & _); [exact Hasked|].
  apply rtc_once. apply (beat_new map_keys dials new_pool 7 "a"); vm_compute; reflexivity.
Defined.
