(* ===== verification/ApiErrors.v ===== *)
(** * What a refused request leaves behind ([src/pkg/scheduler/])

    Every handler reads first and writes with its last statement, so that an error
    it reports is one before anything was written. *)
From S2P Require Import Prelude GoStrings Json Model Database AgentStore RunStore StepStore.
From S2P Require Import MemoryStore CronSchedule Timestamps Secretbox Accounts Overview.
From S2P Require Import Net Llm Tools WebTools RunLifecycle Api ApiServer.
Local Open Scope go_scope.
Local Open Scope Z_scope.

(** ** Operations that fail without effect *)
Definition atomic {A} (m : Db A) : Prop :=
  ∀ w e w', m w = (Err e, w') → w_db w' = w_db w.

Lemma reads_db {A} (m : Db A) w res w' : respects (=) m → m w = (res, w') → w_db w' = w_db w.
Proof. intros Hm H. specialize (Hm w). by rewrite H in Hm. Qed.

Lemma atomic_reads {A} (m : Db A) : respects (=) m → atomic m.
Proof. intros Hm w e w'. by apply reads_db. Qed.

Lemma atomic_statement {A} (f : Reply → Database → result (A * Database)) :
  atomic (statement f).
Proof.
  intros [d [|r rest]] e w'; unfold statement; simpl; [by intros [= _ <-]|].
  destruct (r_fault r); [by intros [= _ <-]|].
  destruct (f r d) as [[a d']|e']; [done|by intros [= _ <-]].
Qed.

Lemma atomic_map_err {A} g (m : Db A) : atomic m → atomic (map_err g m).
Proof.
  intros Hm w e w'. unfold map_err. destruct (m w) as [[a|e'] w1] eqn:E; [done|].
  intros [= _ <-]. by eapply Hm.
Qed.

Lemma atomic_then_ret {A B} (m : Db A) (g : A → B) : atomic m → atomic (a ← m; ret (g a)).
Proof.
  intros Hm w e w'. unfold bind. destruct (m w) as [[a|e'] w1] eqn:E; [done|].
  intros [= _ <-]. by eapply Hm.
Qed.

Lemma atomic_after_read {A B} (m : Db A) (k : A → Db B) :
  respects (=) m → (∀ a, atomic (k a)) → atomic (bind m k).
Proof.
  intros Hm Hk w e w'. unfold bind. destruct (m w) as [[a|e'] w1] eqn:E.
  - intros H. rewrite <- (reads_db _ _ _ _ Hm E). by eapply Hk.
  - intros [= _ <-]. by apply reads_db in E.
Qed.

(** A command that reports how many rows it touched, and changes nothing when that
    is none. *)
Definition counts_changes (m : Db nat) : Prop :=
  atomic m ∧ ∀ w w', m w = (Ok 0%nat, w') → w_db w' = w_db w.

Lemma counts_statement f :
  (∀ r d d', f r d = Ok (0%nat, d') → d' = d) → counts_changes (statement f).
Proof.
  intros Hf. split; [apply atomic_statement|].
  intros w w' (r & _ & _ & H)%statement_Ok. by apply Hf in H.
Qed.

Lemma counts_map_err g m : counts_changes m → counts_changes (map_err g m).
Proof.
  intros [Ha Hc]. split; [by apply atomic_map_err|].
  intros w w' H. apply map_err_Ok in H. by apply Hc.
Qed.

Lemma atomic_counted {A} (m : Db nat) (none : Db A) (a : A) :
  counts_changes m → respects (=) none →
  atomic (affected ← m; if decide (affected = 0%nat) then none else ret a).
Proof.
  intros [Ha Hc] Hnone w e w'. unfold bind. destruct (m w) as [[n|e'] w1] eqn:E.
  - case_decide as Hn; [|done]. subst n. intros H. rewrite <- (Hc _ _ E).
    by apply (reads_db none) in H.
  - intros [= _ <-]. by eapply Ha.
Qed.

(** ** The stores' commands *)
Section commands.
Context {PU : PgUuid} {G : Gcm} {B : Bcrypt} {CO : PgCollation} {CR : Cron}.

Ltac counted :=
  apply counts_map_err, counts_statement; intros r d d' Hs;
  unfold delete_agent, delete_schedule, mark_read, delete_memory in Hs;
  repeat (apply rbind_Ok in Hs as (? & _ & Hs)); injection Hs; clear Hs;
  intros <- Hn; apply count_where_0 in Hn.

Lemma counts_delete_agent userID id g :
  counts_changes (map_err g (statement (delete_agent userID id))).
Proof. counted. by apply delete_agents_none. Qed.
Lemma counts_delete_schedule userID id g :
  counts_changes (map_err g (statement (delete_schedule userID id))).
Proof. counted. by apply delete_schedules_none. Qed.
Lemma counts_mark_read userID id now g :
  counts_changes (map_err g (statement (mark_read userID id now))).
Proof. counted. rewrite update_where_none by done. by destruct d. Qed.
Lemma counts_delete_memory userID id g :
  counts_changes (map_err g (statement (delete_memory userID id))).
Proof. counted. rewrite delete_where_none by done. by destruct d. Qed.
Lemma counts_delete_secret userID name :
  counts_changes (statement (delete_secret userID name)).
Proof.
  apply counts_statement. intros r d d' (u & _ & [= Hn <-])%rbind_Ok. apply count_where_0 in Hn.
  rewrite delete_where_none by done. by destruct d.
Qed.

Lemma AgentStore_Create_atomic u a : atomic (AgentStore_Create u a).
Proof. apply atomic_then_ret, atomic_map_err, atomic_statement. Qed.
Lemma AgentStore_Update_atomic u i a : atomic (AgentStore_Update u i a).
Proof. apply atomic_then_ret, atomic_map_err, atomic_statement. Qed.
Lemma ScheduleStore_Upsert_atomic u a s t wall : atomic (ScheduleStore_Upsert u a s t wall).
Proof. apply atomic_then_ret, atomic_map_err, atomic_statement. Qed.
Lemma RunStore_Create_atomic u a s tr st t : atomic (RunStore_Create u a s tr st t).
Proof. apply atomic_then_ret, atomic_map_err, atomic_statement. Qed.
Lemma SecretStore_Put_atomic rand sealer u n v : atomic (SecretStore_Put rand sealer u n v).
Proof.
  apply atomic_after_read; [apply respects_lift; typeclasses eauto|]. intros sealed.
  apply atomic_then_ret, atomic_map_err, atomic_statement.
Qed.
Lemma CreateSession_atomic rand u t : atomic (CreateSession rand u t).
Proof.
  apply atomic_after_read; [apply respects_lift; typeclasses eauto|]. intros raw.
  apply (atomic_then_ret _ (λ _, base64url raw)), atomic_statement.
Qed.
Lemma AgentStore_Delete_atomic u i : atomic (AgentStore_Delete u i).
Proof. apply atomic_counted; [apply counts_delete_agent|respects]. Qed.
Lemma ScheduleStore_DeleteByAgent_atomic u i : atomic (ScheduleStore_DeleteByAgent u i).
Proof. apply atomic_counted; [apply counts_delete_schedule|respects]. Qed.
Lemma RunStore_MarkRead_atomic u i t : atomic (RunStore_MarkRead u i t).
Proof. apply atomic_counted; [apply counts_mark_read|respects]. Qed.
Lemma MemoryStore_Delete_atomic u i : atomic (MemoryStore_Delete u i).
Proof. apply atomic_counted; [apply counts_delete_memory|respects]. Qed.
Lemma SecretStore_Delete_atomic u n : atomic (SecretStore_Delete u n).
Proof. apply atomic_counted; [apply counts_delete_secret|respects]. Qed.
End commands.

#[export] Hint Resolve AgentStore_Create_atomic AgentStore_Update_atomic
  ScheduleStore_Upsert_atomic RunStore_Create_atomic SecretStore_Put_atomic CreateSession_atomic
  AgentStore_Delete_atomic ScheduleStore_DeleteByAgent_atomic RunStore_MarkRead_atomic
  MemoryStore_Delete_atomic SecretStore_Delete_atomic atomic_statement : taskd.

(** ** Handlers *)
Section refusals.
Context {PU : PgUuid} {G : Gcm} {B : Bcrypt} {CO : PgCollation} {CR : Cron} {NU : NetUrl}.
Context {PM : PgMessages}.
Context (s : SchedulerServer.t) (Hreg : checks_read (SchedulerServer.registry s)).
Implicit Types (r : ApiRequest.t) (m : Moment) (w : World).

(** The settings were stored and could not be read back. *)
Definition settings_saved (d d' : Database) : Prop :=
  ∃ u settings, uuid_in OwnerUserID = Some u ∧
    d' = with_users d (update_where (λ x, UserRow.id x = u) (set_settings settings) (users d)).

Definition unsaved (resp : ApiResponse.t) (d d' : Database) : Prop :=
  400 ≤ ApiResponse.Status resp →
  d' = d ∨ (ApiResponse.Status resp = 500 ∧ settings_saved d d').

Definition refuses (h : Handler) : Prop :=
  ∀ w, unsaved (fst (h w)) (w_db w) (w_db (snd (h w))).

Lemma refuses_reads (h : Handler) : hrespects (=) h → refuses h.
Proof. intros Hh w _. left. symmetry. apply Hh. Qed.

Lemma refuses_respond resp : refuses (respond resp).
Proof. intros w _. by left. Qed.

Lemma refuses_attempt {A} f (m : Db A) (k : A → Handler) :
  respects (=) m → (∀ a, refuses (k a)) → refuses (attempt f m k).
Proof.
  intros Hm Hk w. unfold attempt. destruct (m w) as [[a|e] w1] eqn:E;
    apply reads_db in E as Hdb; [|done|by intros _; left|done].
  specialize (Hk a w1). by rewrite Hdb in Hk.
Qed.

(** A handler that never refuses. *)
Lemma refuses_never (h : Handler) :
  (∀ w, ApiResponse.Status (fst (h w)) < 400) → refuses h.
Proof. intros Hok w Hbad. specialize (Hok w). lia. Qed.

(** The command a handler ends with. *)
Lemma refuses_write {A} f (m : Db A) (resp : A → ApiResponse.t) :
  atomic m → (∀ a, ApiResponse.Status (resp a) < 400) →
  refuses (attempt f m (λ a, respond (resp a))).
Proof.
  intros Hm Hok w. unfold attempt. destruct (m w) as [[a|e] w1] eqn:E.
  - intros Hbad. specialize (Hok a). simpl in Hbad. lia.
  - intros _. left. by eapply Hm.
Qed.

Lemma refuses_check_agent m agent k :
  (∀ a, refuses (k a)) → refuses (check_agent s m agent k).
Proof.
  intros Hk. unfold check_agent. destruct (Agent.Validate _); [apply refuses_respond|].
  apply refuses_attempt; [apply validateAgentModel_reads; typeclasses eauto|done].
Qed.

Lemma refuses_update_settings st : refuses (update_settings s st).
Proof.
  intros w. unfold update_settings, attempt, SettingsStore_Update, bind.
  destruct (map_err translateNoRows _ w) as [[[]|e] w1] eqn:E.
  - apply map_err_Ok, statement_Ok in E as (rep & _ & _ & E). unfold update_user in E.
    apply rbind_Ok in E as (u & Hu%of_option_Ok & [= E]).
    assert (Hw1 : ∀ res w2, SettingsStore_Get (Some (SchedulerServer.sealer s)) OwnerUserID w1 =
      (res, w2) → w_db w2 = w_db w1).
    { intros res w2. apply reads_db, SettingsStore_Get_reads. typeclasses eauto. }
    destruct (SettingsStore_Get _ _ w1) as [[updated|e] w2]; simpl.
    + intros Hbad. simpl in Hbad. lia.
    + intros _. right. split; [done|]. exists u, st. split; [done|].
      by rewrite (Hw1 _ _ eq_refl), <- E.
  - intros _. left. simpl. eapply (atomic_map_err translateNoRows); [|exact E].
    apply atomic_statement.
Qed.

Ltac refuse :=
  repeat first
    [ progress intros
    | apply refuses_respond
    | apply refuses_update_settings
    | apply refuses_check_agent
    | apply refuses_write; [solve [auto with taskd]|by intros]
    | apply refuses_attempt; [solve [auto with taskd typeclass_instances | respects]|]
    | case_match ].

Lemma routes_refuse : Forall (λ route, ∀ m r id, refuses (route.2 m r id)) (routes s).
Proof.
  unfold routes, registerAgentRoutes, registerMemoryRoutes, registerScheduleRoutes,
    registerAuthRoutes, registerSecretRoutes, registerInboxRoutes. simpl.
  repeat (apply Forall_cons; split; [intros m r id|]); [..|apply Forall_nil; exact I]; simpl.
  all: lazymatch goal with |- refuses ?h => let f := head_of h in unfold f end.
  all: refuse.
  all: apply refuses_never; intros w; first [done|by destruct (UserForSession _ _ w)].
Qed.

Lemma mux_refuses m r : refuses (mux s m r).
Proof.
  unfold mux. case_decide; [apply refuses_respond|].
  destruct (find_route _ _) as [[h id]|] eqn:Hf; [|apply refuses_respond].
  apply find_route_elem in Hf as (pattern & Hin & _). pose proof routes_refuse as Hall.
  rewrite Forall_forall in Hall. exact (Hall _ Hin m r id).
Qed.

End refusals.


(** The exception happens: the connection is lost after the update. *)
Lemma settings_saved_then_refused :
  let replies := (answer 0 <$> seq 2 4) ++ [mkReply (Some "connection reset") 0 EmptyString] in
  let served := @serve example_uuid example_gcm example_bcrypt example_collation example_cron
    example_url Served.messages Served.server Served.moment
    (Served.request "PUT" ["api"; "settings"] (Some "token")
       [("telegram_chat_id", DStr "42")])
    (mkWorld Served.database replies) in
  ApiResponse.Status (fst served) = 500 ∧
  UserRow.telegram_chat_id <$> users Served.database = [""] ∧
  UserRow.telegram_chat_id <$> users (w_db (snd served)) = ["42"].
Proof. vm_compute. done. Qed.
