(* ===== verification/Shutdown.v ===== *)
(** * Opening and closing ([startGRPCServer], [Stop] and [closeGRPCConnection] of the
      coordinator and the worker, [Stop] of the scheduler)

    What the services hold open and in which order they let go of it.  A closable
    thing is open or not; closing it a second time is an error.  [GracefulStop] of
    grpc closes the listeners it serves on, which is its documentation's promise. *)
From S2P Require Import Prelude GoStrings Model WorkerPool Startup.
Local Open Scope go_scope.
Local Open Scope Z_scope.

Definition ErrClosed : error := Errorf "use of closed network connection".

(** A [nil] handle, or one that is open or closed. *)
Definition Handle := option bool.
Definition Close (h : Handle) : result unit * Handle :=
  match h with
  | Some true => (Ok tt, Some false)
  | Some false => (Err ErrClosed, Some false)
  | None => (Ok tt, None)
  end.

(** What serves goes together with the listener it serves on. *)
Definition GracefulStop (listener : Handle) : Handle := snd (Close listener).

(** [Stop] of a health server ([health.go]): there may be none, and what its shutdown
    answers is not looked at. *)
Definition health_Stop (s : Handle) : Handle := snd (Close s).

(** ** The coordinator *)
Module CoordinatorServer.
Record t := mk {
  serving : bool;
  listener : Handle;
  dbPool : Handle;
  connections : gmap Z Handle;
  cancelled : bool;
  scanInterval : Duration;
  healthAddress : string;
  healthServer : Handle
}.
#[global] Instance eta_t : Eta t := λ c,
  mk (serving c) (listener c) (dbPool c) (connections c) (cancelled c) (scanInterval c)
     (healthAddress c) (healthServer c).
End CoordinatorServer.

Definition defaultScanInterval : Duration := 10 * Second.
Definition DefaultHeartbeat : Duration := 5 * Second.

Definition NewServerWithClock : CoordinatorServer.t :=
  CoordinatorServer.mk false None None ∅ false defaultScanInterval EmptyString None.
Definition SetHealthAddress (address : string) (c : CoordinatorServer.t) : CoordinatorServer.t :=
  c <| CoordinatorServer.healthAddress := address |>.
Definition SetScanInterval (interval : Duration) (c : CoordinatorServer.t) : CoordinatorServer.t :=
  c <| CoordinatorServer.scanInterval := interval |>.

(** *** Its loops: a ticker against the context, in the order they are received *)
Inductive Received := Ticked | Done.

(** The ticks [scanDatabase] starts, each in a goroutine of its own. *)
Fixpoint scanDatabase (received : list Received) : nat :=
  match received with
  | Ticked :: rest => S (scanDatabase rest)
  | _ => 0
  end.

(** [manageWorkerPool] sweeps at every tick of its interval. *)
Definition sweepInterval (p : Pool.t) : Duration := Pool.maxHeartbeatMisses p * DefaultHeartbeat.
Fixpoint manageWorkerPool (range : gmap Z workerInfo.t → list Z) (received : list Received)
    (p : Pool.t) : Pool.t :=
  match received with
  | Ticked :: rest => manageWorkerPool range rest (removeInactiveWorkers range p)
  | _ => p
  end.

(** Nothing is received after [Done]. *)
Lemma loops_end_with_context range before after p :
  scanDatabase (before ++ Done :: after) = scanDatabase before ∧
  manageWorkerPool range (before ++ Done :: after) p = manageWorkerPool range before p.
Proof.
  split; [|revert p]; induction before as [|[] before IH]; simpl; auto.
Qed.

Definition startGRPCServer (listen : result unit) (c : CoordinatorServer.t)
  : result unit * CoordinatorServer.t :=
  match listen with
  | Err e => (Err e, c)
  | Ok _ => (Ok tt, c <| CoordinatorServer.listener := Some true |> <| CoordinatorServer.serving := true |>)
  end.

Definition coordinator_Stop (c : CoordinatorServer.t) : result unit * CoordinatorServer.t :=
  let c := c <| CoordinatorServer.healthServer ::= health_Stop |> in
  let c := c <| CoordinatorServer.cancelled := true |> in
  let c := c <| CoordinatorServer.connections ::= fmap (λ h, snd (Close h)) |> in
  let c := if CoordinatorServer.serving c then c <| CoordinatorServer.listener ::= GracefulStop |> else c in
  match CoordinatorServer.listener c with
  | Some _ =>
      let (res, listener) := Close (CoordinatorServer.listener c) in
      (res, c <| CoordinatorServer.listener := listener |>)
  | None => (Ok tt, c <| CoordinatorServer.dbPool ::= (λ h, snd (Close h)) |>)
  end.

(** A coordinator that was serving cannot stop cleanly: the listener is closed when
    it is closed again, the error is what [Stop] returns, and the pool of database
    connections stays open. *)
Lemma coordinator_stops_with_error c c1 res c2 :
  startGRPCServer (Ok tt) c = (Ok tt, c1) → coordinator_Stop c1 = (res, c2) →
  res = Err ErrClosed ∧ CoordinatorServer.dbPool c2 = CoordinatorServer.dbPool c ∧
  CoordinatorServer.listener c2 = Some false ∧
  ∀ id h, CoordinatorServer.connections c2 !! id = Some h → h ≠ Some true.
Proof.
  intros [= <-] [= <- <-]. split_and!; [done..|]. simpl. intros id h.
  rewrite lookup_fmap. by destruct (CoordinatorServer.connections c !! id) as [[[]|]|]; intros [= <-].
Qed.

(** ** The worker *)
Module Listening.
Record t := mk {
  serverPort : string;
  serving : bool;
  listener : Handle;
  coordinatorConnection : Handle;
  healthServer : Handle;
  draining : bool
}.
#[global] Instance eta_t : Eta t := λ w,
  mk (serverPort w) (serving w) (listener w) (coordinatorConnection w) (healthServer w) (draining w).
End Listening.

Definition connectToCoordinator (dial : result unit) (w : Listening.t)
  : result unit * Listening.t :=
  match dial with
  | Err e => (Err e, w)
  | Ok _ => (Ok tt, w <| Listening.coordinatorConnection := Some true |>)
  end.

(** [startGRPCServer]: the port the system assigns is asked of the listener before
    the error is looked at, which is a nil dereference when there is one ([None]).
    [listen] answers with the port that was bound. *)
Definition worker_startGRPCServer (listen : string → result Z) (w : Listening.t)
  : option (result unit * Listening.t) :=
  let started port := w <| Listening.serverPort := port |> <| Listening.listener := Some true |>
                        <| Listening.serving := true |> in
  if decide (Listening.serverPort w = EmptyString) then
    match listen ":0" with
    | Ok port => Some (Ok tt, started (":" +:+ itoa port))
    | Err _ => None
    end
  else
    match listen (Listening.serverPort w) with
    | Ok _ => Some (Ok tt, started (Listening.serverPort w))
    | Err e => Some (Err (Wrapf ("failed to listen on " +:+ Listening.serverPort w) e), w)
    end.

(** [closeGRPCConnection]: errors are logged. *)
Definition closeGRPCConnection (w : Listening.t) : Listening.t :=
  let w := if Listening.serving w then w <| Listening.listener ::= GracefulStop |> else w in
  w <| Listening.listener ::= (λ h, snd (Close h)) |>
    <| Listening.coordinatorConnection ::= (λ h, snd (Close h)) |>.

(** [Stop]: from the flag on nothing is accepted. *)
Definition worker_Stop (w : Listening.t) : Listening.t :=
  let w := w <| Listening.draining := true |> in
  let w := w <| Listening.healthServer ::= health_Stop |> in
  closeGRPCConnection w.

(** How [Start] goes up to waiting for a signal: what [connectToCoordinator] opened
    is closed again on every way out after it. *)
Definition worker_Start (dial : result unit) (listen : string → result Z)
    (healthAddress : string) (listen_health : result unit) (w : Listening.t)
  : option (result unit * Listening.t) :=
  match connectToCoordinator dial w with
  | (Err e, w1) => Some (Err (Wrapf "failed to connect to coordinator" e), w1)
  | (Ok _, w1) =>
      match worker_startGRPCServer listen w1 with
      | None => None
      | Some (Err e, w2) =>
          Some (Err (Wrapf "gRPC server start failed" e), closeGRPCConnection w2)
      | Some (Ok _, w2) =>
          if decide (healthAddress ≠ EmptyString) then
            match worker_health listen_health (Listening.draining w2) with
            | Err e => Some (Err (Wrapf "health server start failed" e), closeGRPCConnection w2)
            | Ok _ => Some (Ok tt, w2 <| Listening.healthServer := Some true |>)
            end
          else Some (Ok tt, w2)
      end
  end.

Definition new_listening (port : string) : Listening.t := Listening.mk port false None None None false.
Definition all_closed (w : Listening.t) : Prop :=
  Listening.listener w ≠ Some true ∧ Listening.coordinatorConnection w ≠ Some true.

Lemma closeGRPCConnection_closes w : all_closed (closeGRPCConnection w).
Proof.
  destruct w as [p sv l cc h dr]. unfold closeGRPCConnection, all_closed. simpl.
  destruct sv, l as [[]|], cc as [[]|]; done.
Qed.

(** Closing twice, which [Stop] and the deferred call of [Start] do, is closing
    once. *)
Lemma closeGRPCConnection_twice w :
  closeGRPCConnection (closeGRPCConnection w) = closeGRPCConnection w.
Proof.
  destruct w as [p sv l cc h dr]. unfold closeGRPCConnection. simpl.
  by destruct sv, l as [[]|], cc as [[]|].
Qed.

(** A worker that fails to start leaves nothing open, and one that starts listens
    and is connected. *)
Lemma worker_Start_outcome dial listen addr lh port res w :
  worker_Start dial listen addr lh (new_listening port) = Some (res, w) →
  match res with
  | Ok _ => Listening.listener w = Some true ∧ Listening.coordinatorConnection w = Some true
  | Err _ => all_closed w
  end.
Proof.
  unfold worker_Start. destruct dial as [[]|e]; [|by intros [= <- <-]]. simpl.
  destruct (worker_startGRPCServer _ _) as [[[[]|e] w2]|] eqn:Hs; [| |done].
  - assert (Hw : Listening.listener w2 = Some true ∧
                 Listening.coordinatorConnection w2 = Some true).
    { unfold worker_startGRPCServer in Hs. simpl in Hs.
      by repeat (case_decide || case_match); simplify_eq. }
    case_decide; [destruct (worker_health _ _) as [s|e]|]; intros [= <- <-]; try done.
    apply closeGRPCConnection_closes.
  - intros [= <- <-]. apply closeGRPCConnection_closes.
Qed.

(** Without a port to use and none to be had the worker does not report an error:
    it crashes. *)
Lemma worker_without_port_crashes dial listen addr lh :
  dial = Ok tt → is_ok (listen ":0") = false →
  worker_Start dial listen addr lh (new_listening "") = None.
Proof.
  intros -> Hl. unfold worker_Start, worker_startGRPCServer. simpl.
  by destruct (listen ":0").
Qed.

(** ** The scheduler

    The pool is closed before the server has finished the requests in flight. *)
Definition scheduler_Stop (shutdown : result unit) (httpServer : bool) (dbPool : Handle)
  : result unit * Handle :=
  (if httpServer then shutdown else Ok tt, snd (Close dbPool)).
