(* ===== verification/DispatchInterleaving.v ===== *)
(** * Dispatch under concurrency ([dispatchPendingRuns] of
      [src/pkg/coordinator/coordinator.go])

    Several coordinators scan at once, and a coordinator's own turns may overlap
    ([go s.tick()]).  A scan is a transaction that talks to workers while it is open;
    here it is split into its statements and calls, and between any two of them the
    other scans, the reports, the reaper and the owner go on.  [FOR UPDATE SKIP LOCKED]
    gives a scan the rows no other scan holds, and what others write meanwhile leaves
    locked rows alone; what a scan writes is seen when it commits. *)
From S2P Require Import Prelude GoStrings Model Database RunStore WorkerPool Coordinator.
From S2P Require Import CronSchedule Materializer RunLifecycle.
Local Open Scope go_scope.
Local Open Scope Z_scope.

(** Where an open transaction is: offering its next run, about to mark the one a
    worker has just taken, or past its loop. *)
Inductive Phase := Asking | Marking | Closing.

(** A scan: its instant, the runs workers took, the runs left of its batch, and
    whether a statement failed. *)
Module Scan.
Record t := mk {
  now : Time;
  given : list string;
  todo : list RunRequest.t;
  aborted : bool;
  phase : Phase
}.
End Scan.

(** The rows a scan holds: the batch, to the end of the transaction. *)
Definition batch (sc : Scan.t) : list string :=
  Scan.given sc ++ (RunRequest.RunId <$> Scan.todo sc).

(** The system, the scans in progress, the runs whose claim was committed, and the
    hand-overs nobody knows of: the claim was rolled back, or the worker's answer did
    not arrive. [handed] of the system lists every hand-over. *)
Record Sites := mkSites {
  sys : Sys;
  scans : list Scan.t;
  committed : list string;
  lost : list string
}.

Definition locks (s : Sites) : list string := scans s ≫= batch.
Definition in_progress (s : Sites) : list string := scans s ≫= Scan.given.

Section dispatch.
Context {PU : PgUuid} {PJ : PgJsonb} {CR : Cron}.

(** [SELECT ... FOR UPDATE SKIP LOCKED] of a new scan. *)
Definition open_scan (now : Time) (s : Sites) : Scan.t :=
  Scan.mk now [] (scan_pending <$> pending_rows (locks s) now (sys_db (sys s))) false Asking.

(** What others do meanwhile waits for the rows scans hold. *)
Definition spares_locked (s : Sites) (d : Database) : Prop :=
  ∀ r, RunRow.id r ∈ locks s → r ∈ runs (sys_db (sys s)) ↔ r ∈ runs d.

Inductive site_step : Sites → Sites → Prop :=
| s_open now s :
    site_step s (mkSites (sys s) (open_scan now s :: scans s) (committed s) (lost s))
(** [SubmitRun] answers that the run is accepted. *)
| s_accept s now g run rest ab others :
    scans s ≡ₚ Scan.mk now g (run :: rest) ab Asking :: others →
    site_step s (mkSites (mkSys (sys_db (sys s)) (handed (sys s) ++ [RunRequest.RunId run]))
      (Scan.mk now (g ++ [RunRequest.RunId run]) rest ab Marking :: others) (committed s) (lost s))
(** The worker took the run and its answer did not arrive: the next worker is asked. *)
| s_unheard s now g run rest ab others :
    scans s ≡ₚ Scan.mk now g (run :: rest) ab Asking :: others →
    site_step s (mkSites (mkSys (sys_db (sys s)) (handed (sys s) ++ [RunRequest.RunId run]))
      (scans s) (committed s) (lost s ++ [RunRequest.RunId run]))
(** The [UPDATE] of the claim, which an aborted transaction refuses. *)
| s_mark s now g todo ab ok others :
    scans s ≡ₚ Scan.mk now g todo ab Marking :: others → (ab = true → ok = false) →
    site_step s (mkSites (sys s) (Scan.mk now g todo (ab || negb ok) Asking :: others)
      (committed s) (lost s))
(** Nobody takes the run, or the batch is over. *)
| s_break s now g todo ab others :
    scans s ≡ₚ Scan.mk now g todo ab Asking :: others →
    site_step s (mkSites (sys s) (Scan.mk now g todo ab Closing :: others) (committed s) (lost s))
| s_commit s now g todo others :
    scans s ≡ₚ Scan.mk now g todo false Closing :: others →
    site_step s (mkSites (mkSys (claim_all now g (sys_db (sys s))) (handed (sys s))) others
      (committed s ++ g) (lost s))
(** A commit that fails, the rollback of an aborted transaction, or the end of the
    coordinator's process at any point. *)
| s_rollback s sc others :
    scans s ≡ₚ sc :: others →
    site_step s (mkSites (sys s) others (committed s) (lost s ++ Scan.given sc))
(** Anybody else. *)
| s_other s a sys' :
    step a (sys s) sys' → a ≠ ADispatcher → spares_locked s (sys_db sys') →
    site_step s (mkSites sys' (scans s) (committed s) (lost s)).

Definition sites_reachable (s : Sites) : Prop :=
  ∃ d, wf_database d ∧ runs d = [] ∧ rtc site_step (mkSites (mkSys d []) [] [] []) s.

(** ** What holds between any two statements *)
Definition pending_row (d : Database) (id : string) : Prop :=
  ∃ r, r ∈ runs d ∧ RunRow.id r = id ∧ RunRow.status r = RunPending.

Record sites_ok (s : Sites) : Prop := {
  st_sys : sys_ok (sys s);
  st_locks : NoDup (locks s);
  st_pending : ∀ id, id ∈ locks s → pending_row (sys_db (sys s)) id;
  st_committed : NoDup (committed s);
  st_settled : ∀ id, id ∈ committed s → ¬ pending_row (sys_db (sys s)) id;
  st_handed : handed (sys s) ≡ₚ committed s ++ lost s ++ in_progress s
}.

Lemma in_progress_locked s id : id ∈ in_progress s → id ∈ locks s.
Proof.
  unfold in_progress, locks. rewrite !list_elem_of_bind. intros (sc & Hg & Hsc).
  exists sc. split; [|done]. apply elem_of_app. by left.
Qed.

(** Replacing a scan by one that holds the same rows. *)
Lemma locks_cons sc others sys' c l : locks (mkSites sys' (sc :: others) c l) = batch sc ++ (others ≫= batch).
Proof. done. Qed.

Lemma locks_split s sc others : scans s ≡ₚ sc :: others → locks s ≡ₚ batch sc ++ (others ≫= batch).
Proof. intros H. unfold locks. by rewrite H. Qed.

Lemma progress_split s sc others :
  scans s ≡ₚ sc :: others → in_progress s ≡ₚ Scan.given sc ++ (others ≫= Scan.given).
Proof. intros H. unfold in_progress. by rewrite H. Qed.

(** What a new scan locks was pending and free. *)
Lemma open_scan_batch now s :
  batch (open_scan now s) = RunRow.id <$> pending_rows (locks s) now (sys_db (sys s)).
Proof. unfold batch. simpl. by rewrite <- list_fmap_compose. Qed.

Lemma NoDup_pending_ids locked now d :
  NoDup (RunRow.id <$> runs d) → NoDup (RunRow.id <$> pending_rows locked now d).
Proof.
  intros Hnd. unfold pending_rows. rewrite fmap_take. eapply sublist_NoDup; [|apply sublist_take].
  rewrite order_by_Permutation. eapply sublist_NoDup; [exact Hnd|]. apply fmap_sublist, sublist_filter.
Qed.

Lemma open_scan_locks now s id :
  id ∈ batch (open_scan now s) → (id ∉ locks s) ∧ pending_row (sys_db (sys s)) id.
Proof.
  rewrite open_scan_batch. intros (r & -> & Hr)%list_elem_of_fmap.
  apply pending_rows_elem in Hr as [(Hst & _ & Hl) Hr]. split; [done|]. by exists r.
Qed.

(** Nothing but a new row is pending that was not. *)
Lemma transition_pending given a r r' :
  transition given a r r' → RunRow.status r' = RunPending →
  RunRow.id r' = RunRow.id r ∧ RunRow.status r = RunPending.
Proof.
  intros Htr Hp. destruct Htr as
    [a r r' Hl|now r Hs Hid|now r Hid|now s st req r Hid Ho Hwire|now r Hid Hs|now r He];
    try discriminate Hp.
  - destruct Hl as (Hid & _ & _ & _ & Hst & _). by rewrite Hid, <- Hst.
  - simpl in Hp. subst st. by apply outcome_finished in Ho as [? | [? | ?]].
  - simpl in Hp. by rewrite Hs in Hp.
Qed.

Lemma follow_pending a s s' id :
  runs_follow a s s' → id ∈ handed s' → pending_row (sys_db s') id → pending_row (sys_db s) id.
Proof.
  intros Hf Hh (r' & Hr' & Hid & Hp). destruct (Hf r' Hr') as [(r & Hr & Htr)|(_ & _ & Hn & _)].
  - apply transition_pending in Htr as [Heq Hst]; [|done]. exists r. by rewrite <- Heq.
  - by rewrite Hid in Hn.
Qed.

Lemma other_handed a s s' : step a s s' → a ≠ ADispatcher → handed s' = handed s.
Proof. by destruct 1. Qed.

Lemma claim_all_pending_row now ids d id :
  pending_row (claim_all now ids d) id → pending_row d id ∧ id ∉ ids.
Proof.
  intros (r' & Hr' & Hid & Hp). unfold claim_all in Hr'.
  apply elem_of_update_where in Hr' as (r & Hr & [[_ ->]|[Hne ->]]); [discriminate Hp|].
  rewrite <- Hid. split; [by exists r|done].
Qed.

(** ** Each step keeps it *)
Lemma accept_sys_ok s id :
  sys_ok s → pending_row (sys_db s) id → sys_ok (mkSys (sys_db s) (handed s ++ [id])).
Proof.
  intros Hok (r & Hr & Hid & Hst). eapply (follow_keeps_ok ADispatcher); [exact Hok|apply Hok| |].
  - by apply runs_follow_same.
  - split; simpl; intros i Hi; [apply elem_of_app; by left|].
    apply elem_of_app in Hi as [?|Hi]; [by left|right].
    apply list_elem_of_singleton in Hi as ->. by exists r.
Qed.

Lemma commit_sys_ok s now ids :
  sys_ok s → (∀ id, id ∈ ids → pending_row (sys_db s) id ∧ id ∈ handed s) →
  sys_ok (mkSys (claim_all now ids (sys_db s)) (handed s)).
Proof.
  intros Hok Hids. pose proof (so_wf _ Hok) as Hwf.
  eapply (follow_keeps_ok ADispatcher); [exact Hok|by apply wf_with_runs| |apply hands_same].
  eapply (runs_follow_update _ _ _ (λ r, RunRow.id r ∈ ids) (claim now)); [done|].
  intros r Hr Hid. destruct (Hids _ Hid) as [(r0 & Hr0 & Hid0 & Hst) Hh]. apply tr_claim; [|done].
  by rewrite <- (NoDup_key_inj RunRow.id _ r0 r (wf_runs_pk _ Hwf) Hr0 Hr Hid0).
Qed.

Lemma open_ok now s :
  sites_ok s → sites_ok (mkSites (sys s) (open_scan now s :: scans s) (committed s) (lost s)).
Proof.
  intros [Hsys Hnd Hp Hc Hs Hh]. split; simpl; try done.
  - rewrite locks_cons. apply NoDup_app. split_and!; [| |done].
    + rewrite open_scan_batch. apply NoDup_pending_ids, Hsys.
    + intros id Hid. by apply open_scan_locks in Hid as [? _].
  - intros id. rewrite locks_cons, elem_of_app. intros [Hid|Hid]; [|by apply Hp].
    by apply open_scan_locks in Hid as [_ ?].
Qed.

(** Moving a scan on within its batch. *)
Lemma keep_scan_ok s sc sc' others :
  sites_ok s → scans s ≡ₚ sc :: others → batch sc' = batch sc → Scan.given sc' = Scan.given sc →
  sites_ok (mkSites (sys s) (sc' :: others) (committed s) (lost s)).
Proof.
  intros [Hsys Hnd Hp Hc Hs Hh] Hsc Hb Hg. split; simpl; try done.
  - by rewrite locks_cons, Hb, <- (locks_split _ _ _ Hsc).
  - intros id. rewrite locks_cons, Hb, <- (locks_split _ _ _ Hsc). apply Hp.
  - etrans; [exact Hh|]. unfold in_progress at 2. simpl. by rewrite (progress_split _ _ _ Hsc), Hg.
Qed.

Lemma hand_over_ok s id g :
  sites_ok s → id ∈ locks s →
  handed (sys s) ++ [id] ≡ₚ committed s ++ lost s ++ g →
  ∀ scans' lost', scans' ≫= batch ≡ₚ locks s → lost' ++ (scans' ≫= Scan.given) ≡ₚ lost s ++ g →
  sites_ok (mkSites (mkSys (sys_db (sys s)) (handed (sys s) ++ [id])) scans' (committed s) lost').
Proof.
  intros [Hsys Hnd Hp Hc Hs Hh] Hid Hall scans' lost' Hb Hg. split; simpl; try done.
  - by apply accept_sys_ok, Hp.
  - unfold locks in *. simpl. by rewrite Hb.
  - intros i. unfold locks in *. simpl. rewrite Hb. apply Hp.
  - etrans; [exact Hall|]. unfold in_progress. simpl. by rewrite Hg.
Qed.

Lemma accept_ok s now g run rest ab others :
  sites_ok s → scans s ≡ₚ Scan.mk now g (run :: rest) ab Asking :: others →
  sites_ok (mkSites (mkSys (sys_db (sys s)) (handed (sys s) ++ [RunRequest.RunId run]))
    (Scan.mk now (g ++ [RunRequest.RunId run]) rest ab Marking :: others) (committed s) (lost s)).
Proof.
  intros Hok Hsc. pose proof (locks_split _ _ _ Hsc) as Hl. pose proof (progress_split _ _ _ Hsc) as Hg.
  eapply hand_over_ok; [done| | | |reflexivity].
  - rewrite Hl. unfold batch. simpl. rewrite !elem_of_app, elem_of_cons. tauto.
  - simpl. rewrite (st_handed _ Hok), Hg. simpl. solve_Permutation.
  - rewrite Hl. unfold batch. simpl. solve_Permutation.
Qed.

Lemma unheard_ok s now g run rest ab others :
  sites_ok s → scans s ≡ₚ Scan.mk now g (run :: rest) ab Asking :: others →
  sites_ok (mkSites (mkSys (sys_db (sys s)) (handed (sys s) ++ [RunRequest.RunId run]))
    (scans s) (committed s) (lost s ++ [RunRequest.RunId run])).
Proof.
  intros Hok Hsc.
  apply (hand_over_ok _ _ (in_progress s ++ [RunRequest.RunId run])); [done| | |done|].
  - rewrite (locks_split _ _ _ Hsc). unfold batch. simpl. rewrite !elem_of_app, elem_of_cons. tauto.
  - rewrite (st_handed _ Hok). solve_Permutation.
  - change (scans s ≫= Scan.given) with (in_progress s). solve_Permutation.
Qed.

Lemma commit_ok s now g todo others :
  sites_ok s → scans s ≡ₚ Scan.mk now g todo false Closing :: others →
  sites_ok (mkSites (mkSys (claim_all now g (sys_db (sys s))) (handed (sys s))) others
    (committed s ++ g) (lost s)).
Proof.
  intros [Hsys Hnd Hp Hc Hs Hh] Hsc. pose proof (locks_split _ _ _ Hsc) as Hl.
  pose proof (progress_split _ _ _ Hsc) as Hg. simpl in Hg. unfold batch in Hl at 1. simpl in Hl.
  rewrite Hl in Hnd. apply NoDup_app in Hnd as (Hb & Hdis & Ho). apply NoDup_app in Hb as (Hgd & _ & _).
  assert (Hgl : ∀ id, id ∈ g → id ∈ locks s) by (intros id; rewrite Hl, !elem_of_app; tauto).
  split; simpl; try done.
  - apply commit_sys_ok; [done|]. intros id Hid. split; [by apply Hp, Hgl|].
    rewrite Hh, Hg, !elem_of_app. tauto.
  - intros id Hid. change (id ∈ others ≫= batch) in Hid.
    destruct (Hp id) as (r & Hr & Hri & Hst); [rewrite Hl, !elem_of_app; by right|].
    exists r. split; [|done]. apply elem_of_update_where. exists r. split; [done|]. right.
    split; [|done]. rewrite Hri. intros Hin.
    apply (Hdis id); [apply elem_of_app; by left|done].
  - apply NoDup_app. split_and!; [done| |done]. intros id Hid Hin. by apply (Hs id), Hp, Hgl.
  - intros id [Hid|Hid]%elem_of_app Hpr; apply claim_all_pending_row in Hpr as [Hpr Hn];
      [by apply (Hs id)|done].
  - etrans; [exact Hh|]. unfold in_progress at 2. simpl. rewrite Hg. solve_Permutation.
Qed.

Lemma rollback_ok s sc others :
  sites_ok s → scans s ≡ₚ sc :: others →
  sites_ok (mkSites (sys s) others (committed s) (lost s ++ Scan.given sc)).
Proof.
  intros [Hsys Hnd Hp Hc Hs Hh] Hsc. pose proof (locks_split _ _ _ Hsc) as Hl.
  rewrite Hl in Hnd. apply NoDup_app in Hnd as (_ & _ & Ho). split; simpl; try done.
  - intros id Hid. apply Hp. rewrite Hl. apply elem_of_app. by right.
  - etrans; [exact Hh|]. unfold in_progress at 2. simpl.
    by rewrite (progress_split _ _ _ Hsc), <- app_assoc.
Qed.

Lemma other_ok s a sys' :
  sites_ok s → step a (sys s) sys' → a ≠ ADispatcher → spares_locked s (sys_db sys') →
  sites_ok (mkSites sys' (scans s) (committed s) (lost s)).
Proof.
  intros [Hsys Hnd Hp Hc Hs Hh] Hstep Ha Hsp. pose proof (other_handed _ _ _ Hstep Ha) as Heq.
  destruct (step_effect _ _ _ Hsys Hstep) as (_ & Hf & _). split; simpl; try done.
  - by eapply step_keeps_ok.
  - intros id Hid. destruct (Hp id Hid) as (r & Hr & Hri & Hst). exists r. split; [|done].
    apply Hsp; [by rewrite Hri|done].
  - intros id Hid Hpr. apply (Hs id Hid). eapply follow_pending; [exact Hf| |done].
    rewrite Heq, Hh. apply elem_of_app. by left.
  - by rewrite Heq, Hh.
Qed.

Lemma site_step_ok s s' : sites_ok s → site_step s s' → sites_ok s'.
Proof.
  intros Hok Hstep. destruct Hstep;
    eauto using open_ok, accept_ok, unheard_ok, commit_ok, rollback_ok, other_ok, keep_scan_ok.
Qed.

Lemma sites_reachable_ok s : sites_reachable s → sites_ok s.
Proof.
  intros (d & Hwf & Hnil & Hrtc).
  assert (Hinit : sites_ok (mkSites (mkSys d []) [] [] [])).
  { split; simpl; [|constructor|intros id Hid|constructor|intros id Hid|done];
      [split; simpl; [done|rewrite Hnil; constructor..]|by apply not_elem_of_nil in Hid..]. }
  revert Hinit. clear Hwf Hnil. induction Hrtc; eauto using site_step_ok.
Qed.

(** ** Nobody is handed a run twice unless a hand-over was lost *)
Definition times (id : string) (l : list string) : nat := count_where (λ x, x = id) l.

Lemma times_app id l k : times id (l ++ k) = (times id l + times id k)%nat.
Proof. unfold times, count_where. by rewrite filter_app, length_app. Qed.

Lemma times_NoDup id l : NoDup l → (times id l ≤ 1)%nat.
Proof.
  intros Hnd. apply (NoDup_filter (λ x, x = id)) in Hnd. unfold times, count_where.
  destruct (filter _ l) as [|a [|b rest]] eqn:E; simpl; [lia..|].
  assert (a = id ∧ b = id) as [-> ->].
  { split; [assert (Hin : a ∈ filter (λ x, x = id) l) by (rewrite E; left)
           |assert (Hin : b ∈ filter (λ x, x = id) l) by (rewrite E; right; left)];
      by apply list_elem_of_filter in Hin as [? _]. }
  apply NoDup_cons in Hnd as [Hn _]. destruct Hn. left.
Qed.

Lemma times_Permutation id l k : l ≡ₚ k → times id l = times id k.
Proof. intros H. unfold times, count_where. by rewrite H. Qed.

Lemma in_progress_NoDup s : NoDup (locks s) → NoDup (in_progress s).
Proof.
  unfold locks, in_progress. induction (scans s) as [|sc l IH]; simpl; [done|].
  intros (Hb & Hdis & Hl)%NoDup_app. unfold batch in Hb at 1. apply NoDup_app in Hb as (Hg & _ & _).
  apply NoDup_app. split_and!; [done| |by apply IH]. intros id Hid Hin.
  apply (Hdis id); [apply elem_of_app; by left|].
  apply list_elem_of_bind in Hin as (sc' & Hg' & Hsc'). apply list_elem_of_bind.
  exists sc'. split; [apply elem_of_app; by left|done].
Qed.

(** C11: however many scans are open at once, and whatever the workers, the reaper and
    the owner do between their statements, no two hold one row, every row held is
    pending, a run is handed to a worker once more than hand-overs of it were lost at
    most, and a run that was handed out and is still pending is one whose claim is about
    to be committed or was lost. *)
Theorem runs_handed_out_once s :
  sites_reachable s →
  NoDup (locks s) ∧ (∀ id, id ∈ locks s → pending_row (sys_db (sys s)) id) ∧
  (∀ id, times id (handed (sys s)) ≤ 1 + times id (lost s))%nat ∧
  (∀ id, id ∈ handed (sys s) → pending_row (sys_db (sys s)) id →
     id ∈ lost s ∨ id ∈ in_progress s).
Proof.
  intros [Hsys Hnd Hp Hc Hs Hh]%sites_reachable_ok. split_and!; [done..| |].
  - intros id. rewrite (times_Permutation _ _ _ Hh), !times_app.
    assert (Hone : (times id (committed s ++ in_progress s) ≤ 1)%nat).
    { apply times_NoDup, NoDup_app. split_and!; [done| |by apply in_progress_NoDup].
      intros i Hi Hin. by apply (Hs i), Hp, in_progress_locked. }
    rewrite times_app in Hone. lia.
  - intros id Hid Hpr. rewrite Hh, !elem_of_app in Hid.
    destruct Hid as [Hid|?]; [by apply Hs in Hid|done].
Qed.

(** ** The function is one of the executions *)
Lemma loop_executes submit now others d c l todo : ∀ ab p w g h accepted ab' p' w',
  dispatch_loop submit now todo ab p w = (accepted, ab', p', w') →
  ∃ rest, rtc site_step
    (mkSites (mkSys d h) (Scan.mk now g todo ab Asking :: others) c l)
    (mkSites (mkSys d (h ++ accepted)) (Scan.mk now (g ++ accepted) rest ab' Asking :: others) c l).
Proof.
  induction todo as [|run todo IH]; intros ab p w g h accepted ab' p' w' H; simpl in H.
  { simplify_eq. exists []. by rewrite !app_nil_r. }
  destruct (offerRunToWorker (submit run) p) as [[[[]|e] offered] p1];
    [|simplify_eq; exists (run :: todo); by rewrite !app_nil_r..].
  destruct (tx_exec ab _ w) as [res w1] eqn:Hs.
  destruct (dispatch_loop _ _ _ _ p1 w1) as [[[acc ab1] p2] w2] eqn:Hl. simplify_eq.
  apply (IH _ _ _ (g ++ [RunRequest.RunId run]) (h ++ [RunRequest.RunId run])) in Hl as [rest Hl].
  exists rest. rewrite <- !app_assoc in Hl.
  eapply rtc_l; [by apply (s_accept _ now g run todo ab others)|]. simpl.
  etrans; [|exact Hl]. apply rtc_once.
  apply (s_mark (mkSites _ _ _ _) now _ todo ab (is_ok res) others); [done|]. intros ->.
  unfold tx_exec in Hs. destruct res as [x|e]; [|done]. by apply statement_Ok in Hs as (r & _ & _ & ?).
Qed.

(** From its [SELECT] to the end of its loop. *)
Lemma scan_executes submit now s p w accepted ab p' w' :
  dispatch_loop submit now (Scan.todo (open_scan now s)) false p w = (accepted, ab, p', w') →
  ∃ rest, rtc site_step s
    (mkSites (mkSys (sys_db (sys s)) (handed (sys s) ++ accepted))
       (Scan.mk now accepted rest ab Closing :: scans s) (committed s) (lost s)).
Proof.
  intros H. destruct s as [[d h] others c l].
  destruct (loop_executes _ _ others d c l _ _ _ _ [] h _ _ _ _ H) as [rest Hl].
  exists rest. eapply rtc_l; [apply (s_open now)|]. etrans; [exact Hl|]. apply rtc_once.
  by apply (s_break (mkSites (mkSys d (h ++ accepted)) (_ :: others) c l) now accepted rest ab).
Qed.

Lemma scan_commits now g rest others d h c l :
  site_step (mkSites (mkSys d h) (Scan.mk now g rest false Closing :: others) c l)
            (mkSites (mkSys (claim_all now g d) h) others (c ++ g) l).
Proof.
  exact (s_commit (mkSites (mkSys d h) (Scan.mk now g rest false Closing :: others) c l)
           now g rest others (reflexivity _)).
Qed.

Lemma scan_rolls_back now g rest ab others d h c l :
  site_step (mkSites (mkSys d h) (Scan.mk now g rest ab Closing :: others) c l)
            (mkSites (mkSys d h) others c (l ++ g)).
Proof.
  exact (s_rollback (mkSites (mkSys d h) (Scan.mk now g rest ab Closing :: others) c l) _ others
           (reflexivity _)).
Qed.

(** C12: a scan run from beginning to end is one of these executions: it hands out what
    it accepted, and either commits all of it or loses all of it; when no statement
    fails it commits. *)
Theorem dispatch_executes submit now p w accepted p' w' s :
  Forall normal_run (runs (w_db w)) → w_db w = sys_db (sys s) →
  dispatchPendingRuns submit (locks s) now p w = (accepted, p', w') →
  ∃ s', rtc site_step s s' ∧ sys s' = mkSys (w_db w') (handed (sys s) ++ accepted) ∧
    scans s' = scans s ∧
    ((committed s' = committed s ++ accepted ∧ lost s' = lost s) ∨
     (w_db w' = w_db w ∧ committed s' = committed s ∧ lost s' = lost s ++ accepted)) ∧
    (calm w 53 → lost s' = lost s).
Proof.
  intros Hnorm Hdb H. pose proof (dispatch_effect _ _ _ _ _ _ _ _ Hnorm H) as (_ & _ & Heff & Hcalm).
  assert (Hn : Forall (λ id, uuid_in id = Some id)
    (RunRequest.RunId <$> (scan_pending <$> pending_rows (locks s) now (w_db w)))).
  { rewrite <- list_fmap_compose, Forall_fmap. rewrite Forall_forall in Hnorm |- *. intros r Hr.
    apply Hnorm. by apply pending_rows_elem in Hr as [_ ?]. }
  apply dispatch_cases in H as [[-> Heq]|(w2 & ab & w3 & Hw2 & Hc & Hl & Hend & Hok)].
  { exists s. destruct s as [[d h] o c l]. simpl in *. rewrite !app_nil_r, Heq, Hdb.
    split; [apply rtc_refl|auto 10]. }
  pose proof (dispatch_loop_spec _ _ _ _ _ _ _ _ _ _ Hn Hl) as (_ & _ & Hclaim).
  assert (Hquiet : calm w 53 → ab = false ∧ w_db w' = w_db w3).
  { intros H53.
    assert (Hcw : calm w2 (length (scan_pending <$> pending_rows (locks s) now (w_db w)) + 1)).
    { apply Hc. eapply calm_le; [exact H53|]. unfold pending_rows.
      rewrite length_fmap, length_take. unfold dispatchBatchSize. lia. }
    destruct (dispatch_loop_calm _ _ _ _ _ _ _ _ _ _ Hn Hcw Hl) as [Hab Hc3]. auto. }
  rewrite Hdb in Hl. destruct (scan_executes _ _ s _ _ _ _ _ _ Hl) as [rest Hsteps].
  destruct s as [[d h] o c l]. simpl in *. subst d.
  assert (Hcommit : ab = false → w_db w' = w_db w3 → ∃ s', rtc site_step
    (mkSites (mkSys (w_db w) h) o c l) s' ∧ sys s' = mkSys (w_db w') (h ++ accepted) ∧ scans s' = o ∧
    committed s' = c ++ accepted ∧ lost s' = l).
  { intros -> Heq. eexists. split; [eapply rtc_r; [exact Hsteps|apply scan_commits]|].
    simpl. by rewrite Heq, (Hclaim eq_refl), Hw2. }
  destruct Hend as [Heq|[Hab Heq]].
  2: { destruct (Hcommit Hab Heq) as (s' & ? & ? & ? & ? & ?). exists s'. auto 10. }
  assert (Hdec : Decision (calm w 53)) by (unfold calm; apply _).
  destruct Hdec as [H53|H53].
  - destruct (Hquiet H53) as [Hab Heq3].
    destruct (Hcommit Hab Heq3) as (s' & ? & ? & ? & ? & ?). exists s'. auto 10.
  - eexists. split; [eapply rtc_r; [exact Hsteps|apply scan_rolls_back]|]. simpl.
    rewrite Heq. by split_and!; [| |right|intros].
Qed.
End dispatch.

(** ** A closed interleaving

    Two coordinators scan while one run is due. The first holds it; the answer of the
    worker it asks first is lost, the second worker accepts; the other coordinator
    finds nothing. *)
Module Contention.
#[local] Existing Instance example_uuid.
#[local] Existing Instance example_jsonb.
#[local] Existing Instance example_cron.

Definition request : RunRequest.t := RunRequest.mk History.run (example_id 1).
Definition other : Scan.t := Scan.mk (2 * Second) [] [] false Asking.
Definition first (given : list string) (todo : list RunRequest.t) (phase : Phase) : Scan.t :=
  Scan.mk Second given todo false phase.
Definition at_ (d : Database) (handed : list string) (l : list Scan.t) (c lost : list string) : Sites :=
  mkSites (mkSys d handed) l c lost.

Definition claimed : Database := claim_all Second [History.run] History.db1.
Definition final : Sites :=
  at_ claimed [History.run; History.run] [other] [History.run] [History.run].

Lemma contended : sites_reachable final.
Proof.
  exists example_database. split; [apply wf_example_database|]. split; [done|].
  eapply rtc_l; [apply (s_other (at_ example_database [] [] [] []) AOwner History.s1)|].
  { exact History.step01. } { done. } { intros r Hr. by apply not_elem_of_nil in Hr. }
  eapply rtc_l; [apply (s_open Second (at_ History.db1 [] [] [] []))|].
  replace (open_scan Second (at_ History.db1 [] [] [] [])) with (first [] [request] Asking)
    by (vm_compute; reflexivity).
  eapply rtc_l; [apply (s_open (2 * Second) (at_ History.db1 [] [first [] [request] Asking] [] []))|].
  replace (open_scan (2 * Second) (at_ History.db1 [] [first [] [request] Asking] [] [])) with other
    by (vm_compute; reflexivity).
  eapply rtc_l; [apply (s_unheard (at_ History.db1 [] [other; first [] [request] Asking] [] [])
    Second [] request [] false [other]); apply Permutation_swap|].
  eapply rtc_l; [apply (s_accept (at_ History.db1 [History.run]
    [other; first [] [request] Asking] [] [History.run]) Second [] request [] false [other]);
    apply Permutation_swap|].
  eapply rtc_l; [apply (s_mark (at_ History.db1 [History.run; History.run]
    [first [History.run] [] Marking; other] [] [History.run]) Second [History.run] [] false true [other]);
    [reflexivity|done]|].
  eapply rtc_l; [apply (s_break (at_ History.db1 [History.run; History.run]
    [first [History.run] [] Asking; other] [] [History.run]) Second [History.run] [] false [other]);
    reflexivity|].
  apply rtc_once. apply (s_commit (at_ History.db1 [History.run; History.run]
    [first [History.run] [] Closing; other] [] [History.run]) Second [History.run] [] [other]).
  reflexivity.
Qed.
End Contention.

(** The run was handed to two workers, because the answer of the first was lost. *)
Lemma lost_answer_hands_out_twice :
  @sites_reachable example_uuid example_jsonb example_cron Contention.final ∧
  times History.run (handed (sys Contention.final)) = 2%nat ∧
  RunRow.status <$> runs (sys_db (sys Contention.final)) = [RunRunning].
Proof. split; [apply Contention.contended|]. split; vm_compute; reflexivity. Qed.

Lemma runs_handed_out_once_witness :
  NoDup (locks Contention.final) ∧
  (times History.run (handed (sys Contention.final)) ≤ 1 + times History.run (lost Contention.final))%nat.
Proof.
  destruct (@runs_handed_out_once example_uuid example_jsonb example_cron _ Contention.contended)
    as (H1 & _ & H2 & _).
  split; [exact H1|exact (H2 History.run)].
Defined.

Lemma dispatch_executes_witness :
  let scan := @dispatchPendingRuns example_uuid accepts [] Second (example_pool 0)
                (mkWorld pending_database (quiet 60)) in
  ∃ s', handed (sys s') = [example_id 5] ∧ sys_db (sys s') = w_db (snd scan) ∧ lost s' = [].
Proof.
  intros scan.
  destruct (@dispatch_executes example_uuid example_jsonb example_cron accepts Second (example_pool 0)
    (mkWorld pending_database (quiet 60)) [example_id 5] (snd (fst scan)) (snd scan)
    (mkSites (mkSys pending_database []) [] [] [])) as (s' & _ & Hsys & _ & _ & Hl).
  - apply (bool_decide_unpack _). vm_compute. exact I.
  - reflexivity.
  - vm_compute. reflexivity.
  - exists s'. rewrite Hsys. split; [reflexivity|]. split; [reflexivity|]. apply Hl.
    split; [vm_compute; lia|]. apply (bool_decide_unpack _). vm_compute. exact I.
Defined.
