(* ===== verification/EndToEnd.v ===== *)
(** * From a run handed out to the owner's inbox

    The parts together: the executor [main] of the worker builds, a run it executes and
    reports, and what [GET /api/inbox] then answers. *)
From S2P Require Import Prelude GoStrings Json Model Database AgentStore RunStore StepStore.
From S2P Require Import MemoryStore Secretbox Accounts Net Llm Tools Telegram WebTools.
From S2P Require Import CronSchedule Materializer WorkerPool Coordinator Tick Executor Worker RunExecution.
From S2P Require Import Overview Notifier Api ApiServer Startup.
Local Open Scope go_scope.
Local Open Scope Z_scope.

(** ** What a program does is what its statements do *)
Section walk.
Context {PU : PgUuid} {PJ : PgJsonb} {G : Gcm} {NU : NetUrl} {PM : PgMessages}.
Context (R : relation Database) `{!PreOrder R}.

(** Every tool of a registry respects [R]. *)
Definition tools_respect (r : Registry) : Prop :=
  map_Forall (λ _ tool, ∀ out arguments env, respects R (Tool.Execute tool out arguments env)) r.

Lemma Register_respects tool r :
  (∀ out arguments env, respects R (Tool.Execute tool out arguments env)) → tools_respect r →
  tools_respect (Register tool r).
Proof. intros Ht Hr. by apply map_Forall_insert_2. Qed.

(** The tools of an installation write to the memory, if anywhere. *)
Lemma BuildRegistry_respects pool sealer config :
  (∀ u a ns k c, respects R (MemoryStore_Write u a ns k c)) →
  tools_respect (BuildRegistry pool (Some (TelegramDelivery sealer)) config).
Proof.
  intros Hw.
  assert (Hhttp : ∀ run out arguments env, respects R (of_http run out arguments env))
    by (intros; apply respects_lift; typeclasses eauto).
  assert (Hwrite : ∀ out arguments env, respects R (MemoryWrite_Execute out arguments env)).
  { intros. unfold MemoryWrite_Execute. respects. apply Hw. }
  assert (Hread : ∀ out arguments env, respects R (MemoryRead_Execute out arguments env)).
  { intros. unfold MemoryRead_Execute, MemoryStore_Read. respects. }
  assert (Htel : ∀ url settings out arguments env, (∀ userID, respects R (settings userID)) →
    respects R (SendTelegram_Execute url settings out arguments env)).
  { intros url settings out arguments env Hs. unfold SendTelegram_Execute. respects. apply Hs. }
  unfold BuildRegistry. apply Register_respects; [intros; by apply Htel, TelegramDelivery_reads|].
  destruct pool; case_decide;
    repeat (apply Register_respects; [first [exact Hwrite|exact Hread|intros; apply Hhttp]|]);
    apply map_Forall_empty.
Qed.

Context (Hprompt : ∀ id p, respects R (RunStore_SetRenderedPrompt id p)).
Context (Hrecord : ∀ id n st, respects R (StepStore_Record id n st)).

Lemma runTool_respects e agent call env out :
  tools_respect (Executor.registry e) → respects R (runTool e agent call env out).
Proof.
  intros Ht. unfold runTool. destruct (negb _); [by intros w|].
  destruct (Get _ _) as [tool|] eqn:Hg; [|by intros w].
  destruct (json_Valid _); [|by intros w]. by eapply Ht.
Qed.

Lemma run_calls_respects e agent env s calls messages i :
  tools_respect (Executor.registry e) → respects R (run_calls e agent env s calls messages i).
Proof.
  intros Ht. revert messages i. induction calls as [|call rest IH]; intros messages i; simpl; [by intros w|].
  apply respects_bind; [typeclasses eauto|by apply respects_try, runTool_respects|].
  intros outcome. destruct (tool_step call outcome) as [step content].
  apply respects_bind; [typeclasses eauto|apply Hrecord|]. intros _. apply IH.
Qed.

Lemma agent_loop_respects e agent client env s deadline turns step messages i result :
  tools_respect (Executor.registry e) →
  respects R (agent_loop e agent client env s deadline turns step messages i result).
Proof.
  intros Ht. revert step messages i result.
  induction turns as [|turns IH]; intros step messages i result; simpl; [by intros w|].
  case_match; [by intros w|]. case_decide; [by intros w|].
  apply respects_bind; [typeclasses eauto|by apply respects_lift|]. intros response.
  destruct (Response.Choices response) as [|choice choices]; [by intros w|].
  apply respects_bind; [typeclasses eauto|apply Hrecord|]. intros _.
  case_decide; [by intros w|].
  apply respects_bind; [typeclasses eauto|by apply run_calls_respects|]. intros [messages' i'].
  apply IH.
Qed.

Lemma Execute_respects e s runID agentID :
  tools_respect (Executor.registry e) → respects R (Execute e s runID agentID).
Proof.
  intros Ht. unfold Execute, AgentStore_Get, buildInitialMessages, RunStore_RecentOutputs,
    credentialFor, SecretStore_Reveal. respects; auto using agent_loop_respects.
Qed.

Context (Hreport : ∀ now req, respects R (UpdateRunStatus now req)).
Context (Hrenew : ∀ now id, respects R (RenewLease now id)).

Lemma executeRun_respects (executor : RunExecutor) started finished ticks run :
  (∀ runID agentID, respects R (executor runID agentID)) →
  respects R (executeRun executor started finished ticks run).
Proof.
  intros He.
  assert (Hticks : ∀ id, respects R (renewLeasePeriodically id ticks)).
  { intros id. induction ticks as [|now rest IH]; simpl; [by intros w|].
    apply respects_bind; [typeclasses eauto|by apply respects_try|done]. }
  assert (Hstatus : ∀ at_ req, respects R (reportStatus at_ req)).
  { intros. apply respects_bind; [typeclasses eauto|by apply respects_try|]. by intros b w. }
  unfold executeRun. apply respects_bind; [typeclasses eauto|done|]. intros _.
  apply respects_bind; [typeclasses eauto|by apply respects_try, He|]. intros outcome.
  apply respects_bind; [typeclasses eauto|done|]. intros _.
  apply respects_bind; [typeclasses eauto|done|]. by intros b w.
Qed.
End walk.

(** ** What a run leaves of the tables an inbox is made of *)
Definition entry (r : RunRow.t) : string * string * string * option Time :=
  (RunRow.id r, RunRow.user_id r, RunRow.agent_id r, RunRow.read_at r).
Definition heading (a : AgentRow.t) : string * string := (AgentRow.id a, AgentRow.name a).
Definition same_entries : relation Database := λ d d',
  entry <$> runs d' = entry <$> runs d ∧ heading <$> agents d' = heading <$> agents d.
#[export] Instance same_entries_preorder : PreOrder same_entries.
Proof.
  split; [done|]. intros d1 d2 d3 [H1 G1] [H2 G2]. unfold same_entries. by rewrite H2, G2.
Qed.

Lemma same_entries_runs P `{∀ r, Decision (P r)} f d :
  (∀ r, entry (f r) = entry r) → same_entries d (with_runs d (update_where P f (runs d))).
Proof. intros Hf. split; [|done]. apply update_where_key. auto. Qed.

Lemma same_entries_agents P `{∀ a, Decision (P a)} f d :
  (∀ a, heading (f a) = heading a) →
  same_entries d (d <| agents := update_where P f (agents d) |>).
Proof. intros Hf. split; [done|]. apply update_where_key. auto. Qed.

Section entries.
Context {PU : PgUuid} {PJ : PgJsonb} {G : Gcm} {NU : NetUrl} {PM : PgMessages}.

Lemma update_run_entries id f :
  (∀ r, entry (f r) = entry r) → respects same_entries (statement (update_run id f)).
Proof.
  intros Hf. apply respects_statement; [typeclasses eauto|].
  intros rep d x d' (i & _ & [= _ <-])%rbind_Ok. by apply same_entries_runs.
Qed.

Lemma UpdateRunStatus_entries now req : respects same_entries (UpdateRunStatus now req).
Proof.
  assert (Houtcome : ∀ ok, respects same_entries (recordAgentOutcome (UpdateRunStatusRequest.RunId req) ok)).
  { intros ok. apply respects_statement; [typeclasses eauto|]. unfold agent_outcome.
    intros rep d x d' (i & _ & H)%rbind_Ok. destruct ok.
    - injection H as _ <-. by apply same_entries_agents.
    - apply rbind_Ok in H as (d1 & ->%count_failure_Ok & [= _ <-]). by apply same_entries_agents. }
  unfold UpdateRunStatus. destruct (UpdateRunStatusRequest.Status req);
    try (by intros w);
    (apply respects_bind; [typeclasses eauto|by apply update_run_entries|]; intros _);
    try (by intros w);
    (apply respects_bind; [typeclasses eauto|apply Houtcome|]; by intros ? w).
Qed.

Lemma RenewLease_entries now id : respects same_entries (RenewLease now id).
Proof.
  apply respects_bind; [typeclasses eauto| |by intros n w].
  apply respects_statement; [typeclasses eauto|]. unfold renew_lease.
  intros rep d x d' (i & _ & [= _ <-])%rbind_Ok. by apply same_entries_runs.
Qed.

Lemma Record_entries id n st : respects same_entries (StepStore_Record id n st).
Proof.
  apply respects_statement; [typeclasses eauto|].
  intros rep d [] d' (run & _ & _ & _ & ->)%insert_step_Ok. done.
Qed.

(** Nothing an installation's worker does touches an entry or a heading. *)
Lemma worker_main_respects (R : relation Database) `{!PreOrder R} connect getenv e :
  (∀ u a ns k c, respects R (MemoryStore_Write u a ns k c)) →
  worker_main connect getenv = Ok e → tools_respect R (Executor.registry e).
Proof.
  intros Hw (url & _ & ([] & _ & (sealer & _ & [= <-])%rbind_Ok)%rbind_Ok)%rbind_Ok.
  exact (BuildRegistry_respects R true (Some sealer) (ConfigFromEnv getenv) Hw).
Qed.

Lemma Write_spares (R : relation Database) `{!PreOrder R} :
  (∀ d d', runs d' = runs d → agents d' = agents d → run_steps d' = run_steps d → R d d') →
  ∀ u a ns k c, respects R (MemoryStore_Write u a ns k c).
Proof.
  intros HR u a ns k c. unfold MemoryStore_Write.
  respects; (apply respects_statement; [typeclasses eauto|]); intros rep d x d' Hs.
  - unfold insert_memory in Hs. repeat (apply rbind_Ok in Hs as (? & _ & Hs)).
    repeat case_decide; simplify_eq; by apply HR.
  - apply rbind_Ok in Hs as (? & _ & [= _ <-]). by apply HR.
Qed.

Lemma worker_run_entries connect getenv e s started finished ticks run :
  worker_main connect getenv = Ok e →
  respects same_entries (executeRun (Execute e s) started finished ticks run).
Proof.
  intros He. apply executeRun_respects; [typeclasses eauto| | |].
  - apply UpdateRunStatus_entries.
  - apply RenewLease_entries.
  - intros runID agentID. apply Execute_respects; [typeclasses eauto| | |].
    + intros. by apply update_run_entries.
    + apply Record_entries.
    + eapply worker_main_respects; [typeclasses eauto| |exact He].
      apply Write_spares; [typeclasses eauto|]. intros d d' Hr Ha _. by split; rewrite ?Hr, ?Ha.
Qed.

Lemma worker_main_quiet connect getenv e :
  worker_main connect getenv = Ok e → quiet_registry (Executor.registry e).
Proof.
  intros He. change (tools_respect same_steps (Executor.registry e)).
  eapply worker_main_respects; [typeclasses eauto| |exact He].
  apply Write_spares; [typeclasses eauto|]. by intros d d' _ _ Hs.
Qed.
End entries.

(** ** The inbox *)
Abbreviation newest_finished :=
  (desc_nulls_last (RunRow.finished_at ∘ fst (A := RunRow.t) (B := AgentRow.t))).

Definition inbox_page (u : string) (d : Database) : list (RunRow.t * AgentRow.t) :=
  take inboxLimit (order_by newest_finished (filter (finished_of u) (runs d) ≫= join_agent d)).

Section inbox.
Context {PU : PgUuid} {PJ : PgJsonb} {G : Gcm} {NU : NetUrl} {PM : PgMessages}.

Lemma handleInbox_answered u w :
  uuid_in OwnerUserID = Some u → calm w 2 →
  fst (handleInbox w) = writeJSON 200 (PInbox (inbox_item <$> inbox_page u (w_db w))
                                        (count_where (unread_of u) (runs (w_db w)))).
Proof.
  intros Hu [Hlen Hf]. destruct w as [d [|r1 [|r2 rest]]]; simpl in Hlen; [lia..|].
  apply Forall_cons in Hf as [H1 [H2 _]%Forall_cons].
  unfold handleInbox, attempt, RunStore_Inbox, bind, uuid_arg. rewrite Hu. cbn [of_option rbind].
  by rewrite !query_answered by done.
Qed.

(** A finished run of the owner is on the page, unless the page is full of runs that
    finished no earlier. *)
Lemma inbox_shows u d row agent t :
  row ∈ runs d → finished_of u row → RunRow.finished_at row = Some t →
  agent ∈ agents d → AgentRow.id agent = RunRow.agent_id row →
  (row, agent) ∈ inbox_page u d ∨
  (length (inbox_page u d) = inboxLimit ∧
   Forall (λ p, ∃ t', RunRow.finished_at p.1 = Some t' ∧ t ≤ t') (inbox_page u d)).
Proof.
  intros Hrow Hfin Ht Hag Hid. unfold inbox_page.
  set (all := filter (finished_of u) (runs d) ≫= join_agent d).
  assert (Hin : (row, agent) ∈ order_by newest_finished all).
  { apply elem_of_order_by, list_elem_of_bind. exists row. split.
    - apply (list_elem_of_fmap_2 (λ a, (row, a))), list_elem_of_filter. done.
    - by apply list_elem_of_filter. }
  rewrite <- (take_drop inboxLimit) in Hin. apply elem_of_app in Hin as [Hin|Hin]; [by left|right].
  split.
  - rewrite length_take. apply Nat.min_l.
    destruct (decide (inboxLimit ≤ length (order_by newest_finished all))%nat) as [|Hlt]; [done|].
    rewrite drop_ge in Hin by lia. by apply not_elem_of_nil in Hin.
  - apply Forall_forall. intros p Hp.
    pose proof (order_by_take_drop newest_finished _ _ _ _ Hp Hin) as Ho.
    unfold desc_nulls_last in Ho. simpl in Ho. rewrite Ht in Ho.
    destruct (RunRow.finished_at p.1) as [t'|]; [eauto|done].
Qed.

End inbox.

(** ** Full circle

    An hourly schedule comes due; the coordinator's turn hands its run to a worker,
    which was started from its environment; the model answers after two tool calls;
    the inbox shows the answer. *)
Module FullCircle.
#[local] Existing Instance example_uuid.
#[local] Existing Instance example_jsonb.
#[local] Existing Instance example_gcm.
#[local] Existing Instance example_cron.
#[local] Existing Instance example_url.
#[local] Existing Instance Example.messages.

Definition getenv (name : string) : string :=
  if decide (name = "TASKD_MODEL_API_KEY") then "key"
  else if decide (HasPrefix name "POSTGRES" = true) then "taskd" else FirstBoot.getenv name.
Definition worker : result Executor.t := worker_main FirstBoot.connect getenv.
Definition executor : Executor.t :=
  match worker with Ok e => e | Err _ => Example.executor EmptyString end.

Lemma started : worker = Ok executor.
Proof.
  assert (Hok : is_ok worker = true) by (vm_compute; reflexivity).
  unfold executor. by destruct worker.
Qed.

Definition database : Database := scheduled_database <| agents := [Example.row] |>.
Lemma wf_database_ : wf_database database.
Proof. wf_concrete. Qed.
Definition turn : list string * Pool.t * World :=
  Tick.tick Alerts.notifier accepts Tick.OneTurn.turn (example_pool 0)
    (mkWorld database (example_replies 80)).
Definition run : RunRequest.t := RunRequest.mk (example_id 10) (example_id 1).
Definition handed_out : World := mkWorld (w_db (snd turn)) (Database.answer Hour <$> seq 1 20).
Definition executed : result (result Outcome.t * bool) * World :=
  executeRun (Execute executor (Example.surroundings 0)) Hour (2 * Hour) [Second] run handed_out.
Definition inbox : ApiResponse.t * World := handleInbox (snd executed).

Definition row : RunRow.t := hd Example.run_row (runs (w_db handed_out)).
Lemma row_handed_out :
  row ∈ runs (w_db handed_out) ∧ RunRow.id row = example_id 10 ∧
  RunRow.user_id row = OwnerUserID ∧ RunRow.read_at row = None.
Proof. vm_compute. by split_and!; [left|..]. Qed.

Lemma w_db_of d replies : w_db (mkWorld d replies) = d.
Proof. done. Qed.
Lemma handed_out_ok :
  wf_database (w_db handed_out) ∧
  Forall (λ a, AgentRow.max_steps a ≤ CeilingMaxSteps) (agents (w_db handed_out)).
Proof.
  split; [|apply (bool_decide_unpack _); vm_compute; exact I].
  unfold handed_out. rewrite (w_db_of (w_db (snd turn))). unfold turn.
  apply Tick.tick_wf; [exact wf_database_|]. apply (bool_decide_unpack _). vm_compute. exact I.
Qed.

Lemma delivered : ∃ out, fst executed = Ok (Ok out, true).
Proof.
  assert (Hok : match fst executed with Ok (Ok _, true) => true | _ => false end = true)
    by (vm_compute; reflexivity).
  destruct (fst executed) as [[[out|e] []]|e]; try discriminate Hok. by exists out.
Qed.

Lemma answered : calm (snd executed) 2.
Proof. split; [vm_compute; lia|]. apply (bool_decide_unpack _). vm_compute. exact I. Qed.
End FullCircle.

Lemma full_circle :
  fst (fst FullCircle.turn) = [RunRequest.RunId FullCircle.run] ∧
  match ApiResponse.Payload (fst FullCircle.inbox) with
  | PInbox [item] unread =>
      InboxItem.Output item = "done" ∧ InboxItem.Status item = RunSucceeded ∧
      InboxItem.AgentName item = "digest" ∧ unread = 1%nat
  | _ => False
  end.
Proof. split; [vm_compute; reflexivity|]. vm_compute. split_and!; reflexivity. Qed.

