(* ===== verification/Renewals.v ===== *)
(** * Renewals beside the executor ([renewLeasePeriodically] of
      [src/pkg/worker/worker.go])

    A renewal can fall between any two statements of the run it belongs to.  It
    commutes with each of them: the executor neither sees a lease nor writes one, so
    that a run with renewals in between ends like one with the renewals after it, which
    is where [executeRun] of RunExecution.v has them. *)
From S2P Require Import Prelude GoStrings Json Model Database AgentStore RunStore StepStore.
From S2P Require Import MemoryStore Secretbox Accounts Net Llm Tools WebTools Coordinator Executor.
From S2P Require Import Worker RunExecution Notifier Startup EndToEnd.
Local Open Scope go_scope.
Local Open Scope Z_scope.

(** ** Programs that commute with a change of the database *)
Section commutes.
Context (g : Database → Database).

Definition through (w : World) : World := mkWorld (g (w_db w)) (w_replies w).
Definition commutes {A} (m : Db A) : Prop := ∀ w, m (through w) = (fst (m w), through (snd (m w))).

Lemma commutes_ret {A} (a : A) : commutes (ret a).
Proof. done. Qed.
Lemma commutes_fail {A} e : commutes (fail (A := A) e).
Proof. done. Qed.
Lemma commutes_lift {A} (r : result A) : commutes (lift r).
Proof. done. Qed.

Lemma commutes_bind {A B} (m : Db A) (k : A → Db B) :
  commutes m → (∀ a, commutes (k a)) → commutes (bind m k).
Proof.
  intros Hm Hk w. unfold bind. rewrite Hm. destruct (m w) as [[a|e] w']; [apply Hk|done].
Qed.

Lemma commutes_map_err {A} f (m : Db A) : commutes m → commutes (map_err f m).
Proof. intros Hm w. unfold map_err. rewrite Hm. by destruct (m w) as [[a|e] w']. Qed.

Lemma commutes_try {A} (m : Db A) : commutes m → commutes (try m).
Proof. intros Hm w. unfold try. rewrite Hm. by destruct (m w). Qed.

Lemma commutes_statement {A} (f : Reply → Database → result (A * Database)) :
  (∀ r d, f r (g d) = (p ←? f r d; Ok (fst p, g (snd p)))) → commutes (statement f).
Proof.
  intros Hf [d [|r rest]]; unfold statement, through; simpl; [done|].
  destruct (r_fault r); [done|]. rewrite Hf. by destruct (f r d) as [[a d']|e].
Qed.

Lemma commutes_query {A} (f : Database → result A) : (∀ d, f (g d) = f d) → commutes (query f).
Proof.
  intros Hf. apply commutes_statement. intros r d. rewrite Hf. by destruct (f d).
Qed.

(** A query whose rows change with the database. *)
Lemma query_through {A} (f : Database → result A) (h : A → A) w :
  (∀ d, f (g d) = (a ←? f d; Ok (h a))) →
  query f (through w) = ((a ←? fst (query f w); Ok (h a)), through (snd (query f w))).
Proof.
  intros Hf. destruct w as [d [|r rest]]; unfold query, statement, through; simpl; [done|].
  destruct (r_fault r); [done|]. rewrite Hf. by destruct (f d).
Qed.

Definition tools_commute (r : Registry) : Prop :=
  map_Forall (λ _ tool, ∀ out arguments env, commutes (Tool.Execute tool out arguments env)) r.
End commutes.

Ltac commuting :=
  repeat first
    [ progress intros
    | apply commutes_bind | apply commutes_map_err | apply commutes_try
    | apply commutes_ret | apply commutes_fail | apply commutes_lift
    | apply commutes_query; by intros
    | case_match ].

(** ** What a renewal does *)
Section renewal.
Context {PU : PgUuid} {PJ : PgJsonb} {G : Gcm} {NU : NetUrl} {PM : PgMessages}.
Context (at_ : Time) (i : string).

Definition renewed_row (r : RunRow.t) : RunRow.t :=
  if decide (RunRow.id r = i ∧ RunRow.status r = RunRunning) then extend_lease at_ r else r.
Definition renewed (d : Database) : Database := with_runs d (renewed_row <$> runs d).

Lemma RenewLease_renewed id w b w' :
  uuid_in id = Some i → RenewLease at_ id w = (Ok b, w') → w_db w' = renewed (w_db w).
Proof.
  intros Hid (n & w1 & (r & _ & _ & H)%statement_Ok & [_ ->]%ret_Ok)%bind_Ok.
  unfold renew_lease, uuid_arg in H. rewrite Hid in H. simpl in H. by injection H as _ <-.
Qed.

(** A row looks the same in every column but the lease. *)
Lemma renewed_row_same r :
  RunRow.id (renewed_row r) = RunRow.id r ∧ RunRow.user_id (renewed_row r) = RunRow.user_id r ∧
  RunRow.agent_id (renewed_row r) = RunRow.agent_id r ∧
  RunRow.status (renewed_row r) = RunRow.status r ∧
  RunRow.output (renewed_row r) = RunRow.output r ∧
  RunRow.finished_at (renewed_row r) = RunRow.finished_at r.
Proof. unfold renewed_row. by case_decide. Qed.

Lemma renewed_run_ids d : RunRow.id <$> runs (renewed d) = RunRow.id <$> runs d.
Proof.
  unfold renewed. simpl. rewrite <- list_fmap_compose. apply list_fmap_ext.
  intros _ r _. apply renewed_row_same.
Qed.

Lemma filter_renewed (P : RunRow.t → Prop) `{∀ r, Decision (P r)} (l : list RunRow.t) :
  (∀ r, P (renewed_row r) ↔ P r) →
  filter P (renewed_row <$> l) = renewed_row <$> filter P l.
Proof.
  intros HP. induction l as [|r l IH]; [done|]. rewrite fmap_cons, !filter_cons.
  rewrite (decide_ext _ (P r) _ _ (HP r)). case_decide; [|done]. by rewrite IH, fmap_cons.
Qed.

Lemma RecentOutputs_commutes u a n : commutes renewed (RunStore_RecentOutputs u a n).
Proof.
  intros w. unfold RunStore_RecentOutputs, bind.
  rewrite (query_through _ _ (fmap renewed_row)).
  - destruct (query _ w) as [[rows|e] w']; simpl; [|done]. unfold ret. do 2 f_equal.
    rewrite <- list_fmap_compose. apply list_fmap_ext. intros _ r _. apply renewed_row_same.
  - intros d. destruct (uuid_arg a) as [x|]; [|done]. destruct (uuid_arg u) as [y|]; [|done].
    simpl. case_decide; [done|]. simpl. f_equal. rewrite fmap_take. f_equal.
    rewrite filter_renewed.
    + symmetry. apply order_by_fmap. intros r1 r2. unfold desc_nulls_last.
      destruct (renewed_row_same r1) as (_ & _ & _ & _ & _ & ->).
      by destruct (renewed_row_same r2) as (_ & _ & _ & _ & _ & ->).
    + intros r. by destruct (renewed_row_same r) as (_ & -> & -> & -> & -> & _).
Qed.

Lemma SetRenderedPrompt_commutes id p : commutes renewed (RunStore_SetRenderedPrompt id p).
Proof.
  apply commutes_statement. intros rep d. unfold update_run.
  destruct (uuid_arg id) as [j|]; [|done]. simpl. do 2 f_equal. unfold renewed, with_runs.
  destruct d. simpl. f_equal. unfold update_where. rewrite <- !list_fmap_compose.
  apply list_fmap_ext. intros _ r _. simpl. destruct (renewed_row_same r) as (Hid & _).
  assert (Hd : RunRow.id (renewed_row r) = j ↔ RunRow.id r = j) by by rewrite Hid.
  rewrite (decide_ext _ _ _ _ Hd). unfold renewed_row. by repeat case_decide.
Qed.

Lemma Record_commutes id n st : commutes renewed (StepStore_Record id n st).
Proof.
  apply commutes_statement. intros rep d. unfold insert_step.
  destruct (uuid_arg id) as [j|]; [|done]. simpl.
  destruct (int4_arg n); [|done]. simpl. destruct (int4_arg (Step.PromptTokens st)); [|done]. simpl.
  destruct (int4_arg (Step.CompletionTokens st)); [|done]. simpl. case_decide; [done|].
  assert (Hd : ¬ run_exists (renewed d) j ↔ ¬ run_exists d j)
    by (unfold run_exists; by rewrite renewed_run_ids).
  rewrite (decide_ext _ _ _ _ Hd). case_decide; [done|]. by destruct d.
Qed.

Lemma Write_commutes u a ns k c : commutes renewed (MemoryStore_Write u a ns k c).
Proof.
  unfold MemoryStore_Write. case_decide; [apply commutes_fail|].
  apply commutes_bind; [apply commutes_map_err, commutes_statement|intros record].
  - intros rep d. unfold insert_memory. destruct (uuid_arg u) as [u'|]; [|done]. simpl.
    destruct (uuid_arg a) as [a'|]; [|done]. simpl. destruct (jsonb_arg c); [|done]. simpl.
    case_decide; [done|].
    assert (Hd : ¬ (user_exists (renewed d) u' ∧ agent_exists (renewed d) a') ↔
                 ¬ (user_exists d u' ∧ agent_exists d a')) by done.
    rewrite (decide_ext _ _ _ _ Hd). case_decide; [done|]. by destruct d.
  - apply commutes_bind; [|intros _; apply commutes_ret]. apply commutes_statement.
    intros rep d. unfold prune_namespace. destruct (uuid_arg u); [|done]. by destruct d.
Qed.

(** ** The executor *)
Lemma Reveal_commutes sealer u name : commutes renewed (SecretStore_Reveal sealer u name).
Proof. unfold SecretStore_Reveal. commuting. Qed.

Lemma TelegramDelivery_commutes sealer u : commutes renewed (TelegramDelivery sealer u).
Proof.
  assert (Htok : commutes renewed (TelegramToken sealer u)).
  { unfold TelegramToken. destruct sealer; [|apply commutes_ret].
    apply commutes_bind; [apply commutes_try, Reveal_commutes|]. commuting. }
  assert (Hset : commutes renewed (SettingsStore_Get sealer u)).
  { apply commutes_bind; [apply commutes_map_err, commutes_query; by intros|]. intros row.
    apply commutes_bind; [done|by intros token w]. }
  apply commutes_bind; [by apply commutes_try|]. intros [settings|e]; [|apply commutes_ret].
  apply commutes_bind; [by apply commutes_try|]. commuting.
Qed.

Lemma Register_commutes tool r :
  (∀ out arguments env, commutes renewed (Tool.Execute tool out arguments env)) →
  tools_commute renewed r → tools_commute renewed (Register tool r).
Proof. intros Ht Hr. by apply map_Forall_insert_2. Qed.

Lemma worker_main_commutes connect getenv e :
  worker_main connect getenv = Ok e → tools_commute renewed (Executor.registry e).
Proof.
  intros (url & _ & ([] & _ & (sealer & _ & [= <-])%rbind_Ok)%rbind_Ok)%rbind_Ok. cbn [Executor.registry].
  assert (Hhttp : ∀ run out arguments env, commutes renewed (of_http run out arguments env)) by done.
  unfold BuildRegistry. apply Register_commutes.
  { intros. cbn [Tool.Execute SendTelegram]. unfold SendTelegram_Execute.
    apply commutes_bind; [commuting|]. intros text. case_decide; [apply commutes_fail|].
    apply commutes_bind; [apply TelegramDelivery_commutes|]. commuting. }
  case_decide; repeat (apply Register_commutes; [|]); try (intros; apply Hhttp);
    try apply map_Forall_empty; intros; cbn [Tool.Execute MemoryWrite MemoryRead];
    unfold MemoryWrite_Execute, MemoryRead_Execute, MemoryStore_Read; commuting; apply Write_commutes.
Qed.

Lemma run_calls_commutes e agent env s calls messages n :
  tools_commute renewed (Executor.registry e) →
  commutes renewed (run_calls e agent env s calls messages n).
Proof.
  intros Ht. revert messages n. induction calls as [|call rest IH]; intros messages n; simpl; [done|].
  apply commutes_bind.
  - apply commutes_try. unfold runTool. destruct (negb _); [done|].
    destruct (Get _ _) as [tool|] eqn:Hg; [|done]. destruct (json_Valid _); [|done]. by eapply Ht.
  - intros outcome. destruct (tool_step call outcome) as [step content].
    apply commutes_bind; [apply Record_commutes|]. intros _. apply IH.
Qed.

(** From any turn of the loop on. *)
Lemma agent_loop_commutes e agent client env s deadline turns step messages n result :
  tools_commute renewed (Executor.registry e) →
  commutes renewed (agent_loop e agent client env s deadline turns step messages n result).
Proof.
  intros Ht. revert step messages n result.
  induction turns as [|turns IH]; intros step messages n result; simpl; [done|].
  case_match; [done|]. case_decide; [done|].
  apply commutes_bind; [apply commutes_lift|]. intros response.
  destruct (Response.Choices response) as [|choice choices]; [done|].
  apply commutes_bind; [apply Record_commutes|]. intros _. case_decide; [done|].
  apply commutes_bind; [by apply run_calls_commutes|]. intros [messages' n']. apply IH.
Qed.

Lemma Execute_commutes connect getenv e s runID agentID :
  worker_main connect getenv = Ok e → commutes renewed (Execute e s runID agentID).
Proof.
  intros He. unfold Execute, AgentStore_Get. apply commutes_bind; [commuting|]. intros agent.
  apply commutes_bind.
  - unfold buildInitialMessages. apply commutes_bind; [|by intros]. case_decide; [|done].
    apply commutes_bind; [apply RecentOutputs_commutes|by intros].
  - intros messages. apply commutes_bind; [apply SetRenderedPrompt_commutes|]. intros _.
    apply commutes_bind; [unfold credentialFor|].
    + destruct (Executor.secrets e); [|done].
      apply commutes_bind; [apply commutes_try, Reveal_commutes|]. commuting.
    + intros apiKey. eapply agent_loop_commutes, worker_main_commutes, He.
Qed.

End renewal.

(** The run of [FullCircle] with a renewal while it is executing. *)
Module Renewing.
#[local] Existing Instance example_uuid.
#[local] Existing Instance example_gcm.
#[local] Existing Instance example_url.
#[local] Existing Instance Example.messages.
Definition renewal : result bool * World :=
  RenewLease (2 * Hour) (example_id 10) FullCircle.handed_out.
Definition run (w : World) : result Outcome.t * World :=
  Execute FullCircle.executor (Example.surroundings 0) (example_id 10) (example_id 1)
    (mkWorld (w_db w) ((λ n, Database.answer Hour n) <$> seq 1 20)).
End Renewing.

