(* ===== verification/Clock.v ===== *)
(** * Clocks ([src/pkg/clock/clock.go])

    What the coordinator, the scheduler and the executor ask for the time: an
    interface with the machine's clock and one a test drives by hand.  [Class Clock]
    is the interface; [Now] passes the clock on, since reading the machine's clock
    is an effect. *)
From S2P Require Import Prelude.
Local Open Scope go_scope.
Local Open Scope Z_scope.

Class Clock (C : Type) := Now : C → Time * C.

(** The production clock: [time.Now], one reading of the machine after another. *)
Module Real.
Record t := mk { readings : nat → Time }.
End Real.
Definition Real_Now (r : Real.t) : Time * Real.t :=
  (Real.readings r 0%nat, Real.mk (λ n, Real.readings r (S n))).
#[export] Instance Real_Clock : Clock Real.t := Real_Now.

(** The clock of a test.  Every method holds the mutex from its first statement to
    its last, so calls of several goroutines take effect one after another. *)
Module Fake.
Record t := mk { now : Time }.
End Fake.
Definition NewFake (now : Time) : Fake.t := Fake.mk now.
Definition Fake_Now (f : Fake.t) : Time * Fake.t := (Fake.now f, f).
Definition Fake_Set (now : Time) (f : Fake.t) : Fake.t := Fake.mk now.
Definition Fake_Advance (d : Duration) (f : Fake.t) : Fake.t := Fake.mk (time_Add (Fake.now f) d).
#[export] Instance Fake_Clock : Clock Fake.t := Fake_Now.

(** ** Asking again and again *)
Fixpoint ask `{Clock C} (n : nat) (c : C) : list Time :=
  match n with
  | O => []
  | S n' => let (t, c') := Now c in t :: ask n' c'
  end.

(** A fake clock stands still between the calls that move it; the machine's gives
    its readings in order. *)
Lemma Fake_stands_still n f : ask n f = replicate n (Fake.now f).
Proof. induction n as [|n IH]; [done|]. simpl. by rewrite IH. Qed.

Lemma Real_in_order n r : ask n r = Real.readings r <$> seq 0 n.
Proof.
  revert r. induction n as [|n IH]; intros r; [done|]. simpl. rewrite IH. simpl.
  f_equal. by rewrite <- (fmap_S_seq 0), <- list_fmap_compose.
Qed.

(** ** A clock driven by hand *)
Inductive Move := Set_ (now : Time) | Advance (d : Duration).
Definition move (f : Fake.t) (m : Move) : Fake.t :=
  match m with Set_ now => Fake_Set now f | Advance d => Fake_Advance d f end.
Definition moved (ms : list Move) (f : Fake.t) : Fake.t := foldl move f ms.

(** The time a fake clock shows is the last one it was set to and what it was
    advanced by since: whatever came before is forgotten. *)
Lemma moved_time before now ds f :
  fst (Now (moved (before ++ Set_ now :: (Advance <$> ds)) f)) = foldl time_Add now ds.
Proof.
  unfold moved. rewrite foldl_app. simpl. generalize now. induction ds as [|d ds IH]; [done|].
  intros n. simpl. apply IH.
Qed.

(** It never goes back when nobody moves it back. *)
Definition forwards (f : Fake.t) (m : Move) : Prop :=
  match m with Set_ now => Fake.now f ≤ now | Advance d => 0 ≤ d end.
Lemma move_forwards f m : forwards f m → fst (Now f) ≤ fst (Now (move f m)).
Proof.
  unfold Now, Fake_Clock, Fake_Now, time_Add. destruct m; simpl; [done|].
  unfold Fake_Advance, time_Add; simpl. lia.
Qed.
