(* ===== verification/Processes.v ===== *)
(** * The three programs ([src/cmd/coordinator], [src/cmd/worker], [src/cmd/scheduler])

    What each [main] does from its flags to its exit: the environment is read, the
    server is built and started, [awaitShutdown] waits for a signal, [Stop] lets go
    of what is held, and an error ends the process through [log.Fatalf].  What the
    command line says, whether a port can be opened, a database reached or a
    coordinator dialled are parameters.  A process whose [Serve] fails while it
    waits for the signal is not part of the model. *)
From S2P Require Import Prelude GoStrings Model Database Secretbox Accounts Migrate.
From S2P Require Import Net Tools WebTools Executor Notifier Api WorkerPool Startup Shutdown.
Local Open Scope go_scope.
Local Open Scope Z_scope.

(** [main] returns, or [log.Fatalf] prints and exits with status one without running
    what was deferred. *)
Inductive Exit := Exited | Fatal (err : error).
Definition exit_status (e : Exit) : Z := match e with Exited => 0 | Fatal _ => 1 end.
Definition Fatalf (message : string) (err : error) : Exit := Fatal (Wrapf message err).
Definition or_fatal (message : string) (r : result unit) : Exit :=
  match r with Ok _ => Exited | Err err => Fatalf message err end.

(** [flag.String]: the default until [flag.Parse] has been called, then what the
    command line says. *)
Definition flag_String (parsed : bool) (args : string → option string) (name value : string)
  : string :=
  if parsed then default value (args name) else value.

Section processes.
Context {Schema : Type} (execute_sql : string → Schema → result Schema).
Context {PU : PgUuid} {PJ : PgJsonb} {G : Gcm} {B : Bcrypt} {NU : NetUrl}.
Implicit Types (args : string → option string) (getenv : string → string).
Implicit Types (connect : nat → result unit) (listen : string → result unit).

(** ** The coordinator

    [Start] as it changes the server, with [awaitShutdown] at its end. *)
Definition coordinator_run listen connect getenv (port : string) (ping : Check)
    (c : CoordinatorServer.t) : result unit * CoordinatorServer.t :=
  match startGRPCServer (listen port) c with
  | (Err e, c) => (Err (Wrapf "gRPC server start failed" e), c)
  | (Ok _, c) =>
      match fst (ConnectToDatabase connect) with
      | Err e => (Err e, c)
      | Ok _ =>
          let c := c <| CoordinatorServer.dbPool := Some true |> in
          match NewFromEnv (getenv MasterKeyEnvVar) with
          | Err e => (Err e, c)
          | Ok _ =>
              let address := CoordinatorServer.healthAddress c in
              if decide (address ≠ EmptyString) then
                match health_Serve (listen address) ping ping with
                | Err e => (Err (Wrapf "health server start failed" e), c)
                | Ok _ => coordinator_Stop (c <| CoordinatorServer.healthServer := Some true |>)
                end
              else coordinator_Stop c
          end
      end
  end.

Definition coordinator_main args getenv listen connect (ping : Check) : Exit * CoordinatorServer.t :=
  match GetDBConnectionString getenv with
  | Err err => (Fatal err, NewServerWithClock)
  | Ok _ =>
      let server := SetHealthAddress (flag_String true args "health_port" ":8090")
                      NewServerWithClock in
      let (res, server) := coordinator_run listen connect getenv
                             (flag_String true args "coordinator_port" ":8080") ping server in
      (or_fatal "Coordinator stopped" res, server)
  end.

(** ** The worker

    Everything the executor needs comes before the server; [worker_main] is the
    executor. *)
Definition worker_process args getenv connect (dial : string → result unit)
    (listen_worker : string → result Z) listen : option (Exit * option Listening.t) :=
  match GetDBConnectionString getenv with
  | Err err => Some (Fatal err, None)
  | Ok _ =>
      match fst (ConnectToDatabase connect) with
      | Err err => Some (Fatalf "Could not connect to the database" err, None)
      | Ok _ =>
          match worker_main connect getenv with
          | Err err => Some (Fatalf "Cannot start" err, None)
          | Ok agentExecutor =>
              let health := flag_String true args "health_port" ":8091" in
              match worker_Start (dial (flag_String true args "coordinator" ":8080"))
                      listen_worker health (listen health)
                      (new_listening (flag_String true args "worker_port" EmptyString)) with
              | None => None
              | Some (Err err, server) => Some (Fatalf "Worker stopped" err, Some server)
              | Some (Ok _, server) => Some (Exited, Some (closeGRPCConnection (worker_Stop server)))
              end
          end
      end
  end.

(** ** The scheduler; its [main] does not call [flag.Parse] *)
Definition scheduler_port args : string := flag_String false args "scheduler_port" ":8081".
Definition scheduler_main args getenv files connect listen (shutdown : result unit)
    (bundle : string → bool) (c : Conn (Schema := Schema)) (w : World)
  : Exit * Handle * Conn (Schema := Schema) * World :=
  match GetDBConnectionString getenv with
  | Err err => (Fatal err, None, c, w)
  | Ok _ =>
      match Scheduler_Start execute_sql files connect getenv bundle c w with
      | (Err err, c', w') => (Fatalf "Error while starting server" err, None, c', w')
      | (Ok _, c', w') =>
          match listen (scheduler_port args) with
          | Err err => (Fatalf "Server error" err, Some true, c', w')
          | Ok _ =>
              let (res, dbPool) := scheduler_Stop shutdown true (Some true) in
              (or_fatal "Error while starting server" res, dbPool, c', w')
          end
      end
  end.

(** ** What the exits say *)

(** The stateful [Start] comes as far as waiting for its signal exactly when the
    parts it needs are there; the error is otherwise the one it reports. *)
Lemma coordinator_run_Start listen connect getenv port ping c :
  match Coordinator_Start (listen port) (listen (CoordinatorServer.healthAddress c)) connect getenv
          (CoordinatorServer.healthAddress c) ping with
  | Ok (_, health) =>
      coordinator_run listen connect getenv port ping c =
      coordinator_Stop (c <| CoordinatorServer.listener := Some true |>
        <| CoordinatorServer.serving := true |> <| CoordinatorServer.dbPool := Some true |>
        <| CoordinatorServer.healthServer ::= (λ h, if health is Some _ then Some true else h) |>)
  | Err e => fst (coordinator_run listen connect getenv port ping c) = Err e
  end.
Proof.
  unfold Coordinator_Start, coordinator_run, startGRPCServer.
  destruct (listen port) as [[]|e]; [|done]. simpl.
  destruct (fst (ConnectToDatabase connect)) as [[]|e]; [|done]. simpl.
  destruct (NewFromEnv _) as [sealer|e]; [|done]. simpl. unfold health_Serve.
  case_decide; [rewrite decide_False by tauto; by destruct c|]. rewrite decide_True by done.
  destruct (listen (CoordinatorServer.healthAddress c)) as [[]|e]; done.
Qed.

Lemma coordinator_Stop_error c :
  CoordinatorServer.serving c = true → CoordinatorServer.listener c = Some true →
  fst (coordinator_Stop c) = Err ErrClosed ∧
  CoordinatorServer.dbPool (snd (coordinator_Stop c)) = CoordinatorServer.dbPool c.
Proof. unfold coordinator_Stop. destruct c; simpl. by intros -> ->. Qed.

(** A coordinator that came as far as waiting for its signal ends with the error of
    closing its listener a second time, and with its database pool open; so it never
    exits with status zero. *)
Lemma coordinator_never_exits_cleanly args getenv listen connect ping :
  exit_status (fst (coordinator_main args getenv listen connect ping)) = 1.
Proof.
  unfold coordinator_main. destruct (GetDBConnectionString getenv) as [url|e]; [|done].
  set (server := SetHealthAddress _ _). set (port := flag_String _ _ "coordinator_port" _).
  pose proof (coordinator_run_Start listen connect getenv port ping server) as H.
  destruct (Coordinator_Start _ _ _ _ _ _) as [[n health]|e].
  - rewrite H. by destruct (coordinator_Stop_error (server <| CoordinatorServer.listener := Some true |>
      <| CoordinatorServer.serving := true |> <| CoordinatorServer.dbPool := Some true |>
      <| CoordinatorServer.healthServer ::= (λ h, if health is Some _ then Some true else h) |>))
      as [Hs _]; [done..|]; destruct (coordinator_Stop _) as [res c]; simpl in Hs; subst res.
  - destruct (coordinator_run _ _ _ _ _ _) as [res c]. simpl in H. by subst res.
Qed.

(** While the coordinator looks for its database it already answers its workers: its
    service is up and there is no pool a report could be written to. *)
Lemma coordinator_serves_without_database listen connect getenv port ping c1 :
  startGRPCServer (listen port) NewServerWithClock = (Ok tt, c1) →
  CoordinatorServer.serving c1 = true ∧ CoordinatorServer.dbPool c1 = None ∧
  (is_ok (fst (ConnectToDatabase connect)) = false →
   snd (coordinator_run listen connect getenv port ping NewServerWithClock) = c1).
Proof.
  intros H. pose proof H as H'. unfold startGRPCServer in H'.
  destruct (listen port) as [[]|e] eqn:Hl; [|done]. injection H' as <-. split_and!; [done..|].
  unfold coordinator_run. rewrite Hl, H.
  by destruct (fst (ConnectToDatabase connect)) as [[]|e].
Qed.

(** However a worker ends, its listener and its connection are closed; with status
    zero it has refused new runs before. *)
Lemma worker_exits args getenv connect dial listen_worker listen ex w :
  worker_process args getenv connect dial listen_worker listen = Some (ex, Some w) →
  all_closed w ∧ (exit_status ex = 0 → Listening.draining w = true).
Proof.
  unfold worker_process. destruct (GetDBConnectionString getenv) as [url|e]; [|done].
  destruct (fst (ConnectToDatabase connect)) as [[]|e]; [|done].
  destruct (worker_main connect getenv) as [ex'|e]; [|done].
  destruct (worker_Start _ _ _ _ _) as [[[[]|e] server]|] eqn:Hstart; [..|done];
    intros [= <- <-]; apply worker_Start_outcome in Hstart.
  - split; [apply closeGRPCConnection_closes|]. intros _. unfold worker_Stop.
    by destruct server as [p [] l cc h d].
  - by split.
Qed.

(** Whatever the command line says, the scheduler serves on the same port. *)
Lemma scheduler_port_fixed args : scheduler_port args = ":8081".
Proof. done. Qed.

(** A scheduler that ends with status zero had a port to serve on and finished the
    requests it had. *)
Lemma scheduler_exits args getenv files connect listen shutdown bundle c w ex pool c' w' :
  scheduler_main args getenv files connect listen shutdown bundle c w = (ex, pool, c', w') →
  exit_status ex = 0 →
  is_ok (listen (scheduler_port args)) = true ∧ shutdown = Ok tt ∧ pool = Some false ∧
  ∃ s, Scheduler_Start execute_sql files connect getenv bundle c w = (Ok s, c', w').
Proof.
  unfold scheduler_main. destruct (GetDBConnectionString getenv) as [url|e]; [|by intros [= <- <- <- <-]].
  destruct (Scheduler_Start _ _ _ _ _ _ _) as [[[s|e] c1] w1]; [|by intros [= <- <- <- <-]].
  destruct (listen _) as [[]|e]; [|by intros [= <- <- <- <-]].
  destruct shutdown as [[]|e]; intros [= <- <- <- <-]; [|done]. intros _.
  split_and!; [done..|]. by exists s.
Qed.
End processes.
